(** * Reliable transport over UDP (lab2): codec, receiver and sender

    A shallow embedding of [src/lab2/protocol.h], [src/lab2/receiver.cpp]
    and [src/lab2/sender.cpp] together with the properties of the packet
    codec, the receiver reactor and the sender's sliding window.

    Conventions.
    - Unsigned C++ integers are [Z] values; every wrap-around is written
      out ([add32], [mod]).
    - A byte is a [Z] in [0, 256); buffers are [list Z].
    - The structs are [#pragma pack(1)] and the target is Windows x86, so
      a struct's memory is the little-endian concatenation of its fields.
    - Both drafts of a source file are embedded where they differ; the
      suffix [_v1] is the first text in the file, [_v2] the second. *)

From Stdlib Require Import ZArith Lia List Bool PrimFloat FloatOps SpecFloat Uint63.
From stdpp Require Import gmap list sorting.

Local Open Scope Z_scope.

(** ** Protocol constants ([protocol.h]) *)

Definition MAX_DATA_SIZE : Z := 1024.
Definition HEADER_SIZE : Z := 20.
Definition MAX_PACKET_SIZE : Z := MAX_DATA_SIZE + HEADER_SIZE.
Definition WINDOW_SIZE : Z := 16.
Definition TIMEOUT_MS : Z := 1000.

(** [enum PacketType : uint8_t] *)
Definition SYN : Z := 1.
Definition SYN_ACK : Z := 2.
Definition DATA : Z := 3.
Definition ACK : Z := 4.
Definition FIN : Z := 5.
Definition FIN_ACK : Z := 6.
Definition FILE_NAME : Z := 7.
Definition FILE_NAME_ACK : Z := 8.

Inductive ConnectionState :=
  | CLOSED | SYN_SENT | SYN_RECEIVED | ESTABLISHED | FIN_WAIT | CLOSE_WAIT.

Inductive CongestionState :=
  | SLOW_START | CONGESTION_AVOIDANCE | FAST_RECOVERY.

#[global] Instance ConnectionState_eq_dec : EqDecision ConnectionState.
Proof. solve_decision. Defined.

#[global] Instance CongestionState_eq_dec : EqDecision CongestionState.
Proof. solve_decision. Defined.

(** ** Machine arithmetic *)

(** [uint32_t] addition. *)
Definition add32 (a b : Z) : Z := (a + b) mod 2 ^ 32.

(** [htons] on a little-endian host: the two bytes change places. *)
Definition htons (x : Z) : Z := (x mod 256) * 256 + (x / 256) mod 256.

Definition is_byte (b : Z) : Prop := 0 <= b < 256.

(** Little-endian memory images of [uint16_t] and [uint32_t] fields. *)
Definition le16 (x : Z) : list Z := [x mod 256; x / 256 mod 256].
Definition le32 (x : Z) : list Z :=
  [x mod 256; x / 256 mod 256; x / 65536 mod 256; x / 16777216 mod 256].

Definition de16 (b0 b1 : Z) : Z := b0 + 256 * b1.
Definition de32 (b0 b1 b2 b3 : Z) : Z :=
  b0 + 256 * b1 + 65536 * b2 + 16777216 * b3.

(** ** Data model ([protocol.h]) *)

Record PacketHeader := mkHeader {
  type : Z;          (* uint8_t  *)
  flags : Z;         (* uint8_t  *)
  checksum : Z;      (* uint16_t *)
  seq_num : Z;       (* uint32_t *)
  ack_num : Z;       (* uint32_t *)
  window_size : Z;   (* uint16_t *)
  data_length : Z;   (* uint16_t *)
  sack_count : Z     (* uint32_t *)
}.

Record SACKBlock := mkSack { left_edge : Z; right_edge : Z }.

Record Packet := mkPacket {
  header : PacketHeader;
  data : list Z;                 (* uint8_t data[MAX_DATA_SIZE] *)
  sack_blocks : list SACKBlock
}.

(** [PacketHeader()] : [memset(this, 0, sizeof(PacketHeader))]. *)
Definition empty_header : PacketHeader := mkHeader 0 0 0 0 0 0 0 0.

(** [Packet()] : zeroed header, zeroed payload array, no SACK block. *)
Definition empty_packet : Packet :=
  mkPacket empty_header (replicate (Z.to_nat MAX_DATA_SIZE) 0) [].

Definition set_checksum (c : Z) (p : Packet) : Packet :=
  mkPacket
    (mkHeader (type (header p)) (flags (header p)) c (seq_num (header p))
              (ack_num (header p)) (window_size (header p))
              (data_length (header p)) (sack_count (header p)))
    (data p) (sack_blocks p).

(** The values a C++ object of these types can hold. *)
Definition header_wf (h : PacketHeader) : Prop :=
  0 <= type h < 2 ^ 8 /\ 0 <= flags h < 2 ^ 8 /\ 0 <= checksum h < 2 ^ 16 /\
  0 <= seq_num h < 2 ^ 32 /\ 0 <= ack_num h < 2 ^ 32 /\
  0 <= window_size h < 2 ^ 16 /\ 0 <= data_length h < 2 ^ 16 /\
  0 <= sack_count h < 2 ^ 32.

Definition sack_wf (s : SACKBlock) : Prop :=
  0 <= left_edge s < 2 ^ 32 /\ 0 <= right_edge s < 2 ^ 32.

Definition packet_wf (p : Packet) : Prop :=
  header_wf (header p) /\
  length (data p) = Z.to_nat MAX_DATA_SIZE /\
  Forall is_byte (data p) /\
  Forall sack_wf (sack_blocks p).

(** ** Memory images *)

(** The 20 bytes of a [PacketHeader] object. *)
Definition header_bytes (h : PacketHeader) : list Z :=
  [type h; flags h] ++ le16 (checksum h) ++ le32 (seq_num h) ++
  le32 (ack_num h) ++ le16 (window_size h) ++ le16 (data_length h) ++
  le32 (sack_count h).

(** The 8 bytes of a [SACKBlock] object. *)
Definition sack_bytes (s : SACKBlock) : list Z :=
  le32 (left_edge s) ++ le32 (right_edge s).

(** [memcpy(&packet.header, buffer, sizeof(PacketHeader))] *)
Definition parse_header (b : list Z) : PacketHeader :=
  let g i := nth i b 0 in
  mkHeader (g 0%nat) (g 1%nat) (de16 (g 2%nat) (g 3%nat))
           (de32 (g 4%nat) (g 5%nat) (g 6%nat) (g 7%nat))
           (de32 (g 8%nat) (g 9%nat) (g 10%nat) (g 11%nat))
           (de16 (g 12%nat) (g 13%nat)) (de16 (g 14%nat) (g 15%nat))
           (de32 (g 16%nat) (g 17%nat) (g 18%nat) (g 19%nat)).

(** [memcpy(&sack, buffer + offset, sizeof(SACKBlock))] *)
Definition parse_sack (b : list Z) : SACKBlock :=
  let g i := nth i b 0 in
  mkSack (de32 (g 0%nat) (g 1%nat) (g 2%nat) (g 3%nat))
         (de32 (g 4%nat) (g 5%nat) (g 6%nat) (g 7%nat)).

(** ** Checksum ([Packet::calculate_checksum]) *)

(** One pass of
    [for (i = 0; i < n; i += 2)
       if (i + 1 < n) sum += (p[i] << 8) | p[i + 1]; else sum += p[i] << 8;]
    over the [n] bytes [bytes], on a [uint32_t] accumulator. *)
Fixpoint cksum_bytes (bytes : list Z) (sum : Z) : Z :=
  match bytes with
  | b0 :: b1 :: rest => cksum_bytes rest (add32 sum (Z.lor (Z.shiftl b0 8) b1))
  | [b0] => add32 sum (Z.shiftl b0 8)
  | [] => sum
  end.

(** [for (const auto& sack : sack_blocks) ...] : the four words of each
    block. *)
Fixpoint cksum_sacks (sacks : list SACKBlock) (sum : Z) : Z :=
  match sacks with
  | [] => sum
  | s :: rest => cksum_sacks rest (cksum_bytes (sack_bytes s) sum)
  end.

(** [while (sum >> 16) sum = (sum & 0xFFFF) + (sum >> 16);] with an
    iteration budget; [fold_carries_settles] shows that two iterations
    always exhaust the loop on a 32-bit accumulator. *)
Fixpoint fold_carries (fuel : nat) (sum : Z) : Z :=
  match fuel with
  | O => sum
  | S fuel' =>
      if Z.shiftr sum 16 =? 0 then sum
      else fold_carries fuel' (Z.land sum 65535 + Z.shiftr sum 16)
  end.

(** [static_cast<uint16_t>(~sum)] *)
Definition complement16 (sum : Z) : Z := Z.land (Z.lnot sum) 65535.

(** The payload bytes the loops over [data] visit: [data[0 .. data_length)].
    The array has [MAX_DATA_SIZE] elements. For a larger [data_length]
    the loops of [calculate_checksum] and [verify_checksum] and the
    [output_file.write(pkt.data, data_length)] of [handle_data] leave
    the array, which is undefined in C++; [payload] stops at the end of
    the array there, so it describes the code only for packets that
    satisfy [fits_array]. *)
Definition payload (p : Packet) : list Z :=
  take (Z.to_nat (data_length (header p))) (data p).

(** [data_length] stays within [data[MAX_DATA_SIZE]]: the packets on
    which reading [data_length] bytes of [data] is defined. *)
Definition fits_array (p : Packet) : Prop :=
  data_length (header p) <= MAX_DATA_SIZE.

(** First text of [protocol.h]: the header pass adds the word at offset 0
    and then starts at offset 4, so the checksum field is not summed. *)
Definition raw_sum_v1 (p : Packet) : Z :=
  let ptr := header_bytes (header p) in
  let sum := add32 0 (Z.lor (Z.shiftl (nth 0 ptr 0) 8) (nth 1 ptr 0)) in
  let sum := cksum_bytes (drop 4 ptr) sum in
  let sum := cksum_bytes (payload p) sum in
  cksum_sacks (sack_blocks p) sum.

Definition calculate_checksum_v1 (p : Packet) : Z :=
  complement16 (fold_carries 2 (raw_sum_v1 p)).

(** Second text of [protocol.h]: the header pass covers all 20 bytes. *)
Definition raw_sum_v2 (p : Packet) : Z :=
  let ptr := header_bytes (header p) in
  let sum := cksum_bytes ptr 0 in
  let sum := cksum_bytes (payload p) sum in
  cksum_sacks (sack_blocks p) sum.

Definition calculate_checksum_v2 (p : Packet) : Z :=
  complement16 (fold_carries 2 (raw_sum_v2 p)).

(** [verify_checksum], first text: zero the field, recompute, restore,
    compare with the stored value. *)
Definition verify_checksum_v1 (p : Packet) : bool :=
  let original := checksum (header p) in
  let calculated := calculate_checksum_v1 (set_checksum 0 p) in
  calculated =? original.

(** [verify_checksum], second text: the sum over everything, checksum
    field included, must complement to zero. *)
Definition verify_checksum_v2 (p : Packet) : bool :=
  calculate_checksum_v2 p =? 0.

(** ** Serialization *)

Definition serialize (p : Packet) : list Z :=
  header_bytes (header p) ++ payload p ++
  concat (map sack_bytes (sack_blocks p)).

(** The SACK loop of [deserialize]: [n] iterations over the bytes from
    [offset] on; an iteration whose block does not fit appends nothing
    and leaves the offset where it is. *)
Fixpoint read_sacks (n : nat) (rest : list Z) : list SACKBlock :=
  match n with
  | O => []
  | S n' =>
      if 8 <=? Z.of_nat (length rest)
      then parse_sack (take 8 rest) :: read_sacks n' (drop 8 rest)
      else read_sacks n' rest
  end.

(** [Packet::deserialize(buffer, length)], with [buffer] the [length]
    bytes received. [None] is the one place where the function leaves
    defined behaviour: a payload that the buffer does hold but that is
    longer than [data[MAX_DATA_SIZE]], which [memcpy] writes past the
    array. *)
Definition deserialize (buffer : list Z) : option Packet :=
  let len := Z.of_nat (length buffer) in
  if len <? HEADER_SIZE then Some empty_packet
  else
    let h := parse_header (take 20 buffer) in
    let offset := HEADER_SIZE in
    if (0 <? data_length h) && (offset + data_length h <=? len) then
      if data_length h <=? MAX_DATA_SIZE then
        let n := Z.to_nat (data_length h) in
        let body := drop 20 buffer in
        Some (mkPacket h
                (take n body ++ replicate (Z.to_nat MAX_DATA_SIZE - n) 0)
                (read_sacks (Z.to_nat (sack_count h)) (drop n body)))
      else None
    else
      Some (mkPacket h (replicate (Z.to_nat MAX_DATA_SIZE) 0)
              (read_sacks (Z.to_nat (sack_count h)) (drop 20 buffer))).

(** How the two families of senders fill the checksum field of a freshly
    built packet before [send_packet]:
    [checksum = calculate_checksum()] (second text of [sender.cpp],
    [part_001]) and [checksum = htons(calculate_checksum())] (first text
    of [sender.cpp], [receiver.cpp]). *)
Definition seal_v1 (p : Packet) : Packet :=
  set_checksum (calculate_checksum_v1 p) p.

Definition seal_v2 (p : Packet) : Packet :=
  set_checksum (htons (calculate_checksum_v2 p)) p.

(** [p] with the part of the payload array behind [data_length] zeroed:
    what a receiver can know of [p]. *)
Definition pad_payload (p : Packet) : Packet :=
  mkPacket (header p)
    (payload p ++
     replicate (Z.to_nat MAX_DATA_SIZE - Z.to_nat (data_length (header p))) 0)
    (sack_blocks p).

(** ** The two texts of [protocol.h] as an interface

    [receiver.cpp] and [sender.cpp] only call [calculate_checksum] and
    [verify_checksum]; which text of the header they are compiled against
    is a parameter of their embedding. *)

Class ProtocolH := {
  calculate_checksum : Packet -> Z;
  verify_checksum : Packet -> bool
}.

Definition protocol_v1 : ProtocolH :=
  {| calculate_checksum := calculate_checksum_v1;
     verify_checksum := verify_checksum_v1 |}.

Definition protocol_v2 : ProtocolH :=
  {| calculate_checksum := calculate_checksum_v2;
     verify_checksum := verify_checksum_v2 |}.

(** A remote endpoint: [sin_addr.s_addr] and [sin_port]. *)
Definition Endpoint : Type := Z * Z.

Definition same_endpoint (a b : Endpoint) : bool :=
  (fst a =? fst b) && (snd a =? snd b).

(** What [recvfrom] hands over in one iteration: nothing (an error, no
    datagram queued) or the source and the [recv_len] bytes of a
    datagram. [recvfrom] is given a buffer of [2 * MAX_PACKET_SIZE]
    bytes and returns no more. *)
Definition Arrival : Type := option (Endpoint * list Z).

(** * Receiver ([receiver.cpp]) *)

Module Receiver.

(** Calls made on [std::ofstream output_file], oldest first. The file
    system behind the stream is outside the model. *)
Inductive SinkCall :=
  | SinkOpen (name : list Z)
  | SinkWrite (bytes : list Z)
  | SinkClose.

Record t := mk {
  sender_addr : Endpoint;            (* source of the last datagram *)
  state : ConnectionState;
  expected_seq : Z;
  recv_buffer : gmap Z Packet;
  received_seqs : gset Z;
  output_file : list SinkCall;
  total_bytes_received : Z;
  total_packets_received : Z;
  client_locked : bool;
  client_addr : Endpoint;
  sent : list (Endpoint * Packet)    (* [sendto] calls, oldest first *)
}.

(** The constructor's initial values. *)
Definition init : t :=
  mk (0, 0) CLOSED 0 ∅ ∅ [] 0 0 false (0, 0) [].

Definition set_sender_addr (a : Endpoint) (r : t) : t :=
  mk a (state r) (expected_seq r) (recv_buffer r) (received_seqs r)
     (output_file r) (total_bytes_received r) (total_packets_received r)
     (client_locked r) (client_addr r) (sent r).

Definition set_state (s : ConnectionState) (r : t) : t :=
  mk (sender_addr r) s (expected_seq r) (recv_buffer r) (received_seqs r)
     (output_file r) (total_bytes_received r) (total_packets_received r)
     (client_locked r) (client_addr r) (sent r).

Definition set_expected_seq (e : Z) (r : t) : t :=
  mk (sender_addr r) (state r) e (recv_buffer r) (received_seqs r)
     (output_file r) (total_bytes_received r) (total_packets_received r)
     (client_locked r) (client_addr r) (sent r).

Definition set_recv_buffer (b : gmap Z Packet) (r : t) : t :=
  mk (sender_addr r) (state r) (expected_seq r) b (received_seqs r)
     (output_file r) (total_bytes_received r) (total_packets_received r)
     (client_locked r) (client_addr r) (sent r).

Definition set_received_seqs (s : gset Z) (r : t) : t :=
  mk (sender_addr r) (state r) (expected_seq r) (recv_buffer r) s
     (output_file r) (total_bytes_received r) (total_packets_received r)
     (client_locked r) (client_addr r) (sent r).

Definition sink_call (c : SinkCall) (r : t) : t :=
  mk (sender_addr r) (state r) (expected_seq r) (recv_buffer r)
     (received_seqs r) (output_file r ++ [c]) (total_bytes_received r)
     (total_packets_received r) (client_locked r) (client_addr r) (sent r).

Definition set_total_bytes_received (n : Z) (r : t) : t :=
  mk (sender_addr r) (state r) (expected_seq r) (recv_buffer r)
     (received_seqs r) (output_file r) n (total_packets_received r)
     (client_locked r) (client_addr r) (sent r).

Definition set_total_packets_received (n : Z) (r : t) : t :=
  mk (sender_addr r) (state r) (expected_seq r) (recv_buffer r)
     (received_seqs r) (output_file r) (total_bytes_received r) n
     (client_locked r) (client_addr r) (sent r).

Definition lock_client (a : Endpoint) (r : t) : t :=
  mk (sender_addr r) (state r) (expected_seq r) (recv_buffer r)
     (received_seqs r) (output_file r) (total_bytes_received r)
     (total_packets_received r) true a (sent r).

(** [send_packet]: the datagram [serialize packet] goes to [sender_addr]. *)
Definition send_packet (p : Packet) (r : t) : t :=
  mk (sender_addr r) (state r) (expected_seq r) (recv_buffer r)
     (received_seqs r) (output_file r) (total_bytes_received r)
     (total_packets_received r) (client_locked r) (client_addr r)
     (sent r ++ [(sender_addr r, p)]).

(** The bytes written to the sink, in order. *)
Definition written (calls : list SinkCall) : list (list Z) :=
  omap (fun c => match c with SinkWrite b => Some b | _ => None end) calls.

(** [receive_packet]. [recvfrom] stores the source in [sender_addr]
    before [recv_len] and the lock are consulted. [None] stands for
    undefined behaviour inside [deserialize]. *)
Definition receive_packet (a : Arrival) (r : t) : option (t * option Packet) :=
  match a with
  | None => Some (r, None)
  | Some (from, buffer) =>
      let r := set_sender_addr from r in
      if negb (0 <? Z.of_nat (length buffer)) then Some (r, None)
      else if client_locked r
              && negb (same_endpoint (sender_addr r) (client_addr r))
      then Some (r, None)
      else
        match deserialize buffer with
        | None => None
        | Some p =>
            Some (set_total_packets_received
                    ((total_packets_received r + 1) mod 2 ^ 64) r, Some p)
        end
  end.

Section WithProtocol.
Context {proto : ProtocolH}.

(** [handle_ack_handshake] *)
Definition handle_ack_handshake (ack_packet : Packet) (r : t) : t :=
  if decide (state r = SYN_RECEIVED) then
    if ack_num (header ack_packet) =? 1 then set_state ESTABLISHED r else r
  else r.

(** A freshly constructed packet with the given type, sequence and
    acknowledgment numbers. *)
Definition control_packet (ty sq ak : Z) : Packet :=
  mkPacket (mkHeader ty 0 0 sq ak 0 0 0) (data empty_packet) [].

(** [x.header.checksum = htons(x.calculate_checksum())] *)
Definition seal (p : Packet) : Packet :=
  set_checksum (htons (calculate_checksum p)) p.

(** [handle_syn] *)
Definition handle_syn (syn_packet : Packet) (r : t) : t :=
  let r := if client_locked r then r else lock_client (sender_addr r) r in
  let syn_ack :=
    seal (control_packet SYN_ACK 0 (add32 (seq_num (header syn_packet)) 1)) in
  let r := send_packet syn_ack r in
  let r := set_expected_seq (add32 (seq_num (header syn_packet)) 1) r in
  set_state SYN_RECEIVED r.

(** The reassembly loop of [handle_data]:
    [while (recv_buffer.find(expected_seq) != recv_buffer.end())]. Every
    iteration erases one entry, so [size recv_buffer] iterations are
    enough to leave the loop ([drain_exits]). *)
Fixpoint drain (fuel : nat) (r : t) : t :=
  match fuel with
  | O => r
  | S fuel' =>
      match recv_buffer r !! expected_seq r with
      | None => r
      | Some pkt =>
          let r := sink_call (SinkWrite (payload pkt)) r in
          let r := set_recv_buffer (delete (expected_seq r) (recv_buffer r)) r in
          drain fuel' (set_expected_seq (add32 (expected_seq r) 1) r)
      end
  end.

(** The inner loop of [send_ack]: extend the run while the next element
    of the set equals [right]. *)
Fixpoint extend_run (rgt : Z) (l : list Z) : Z * list Z :=
  match l with
  | x :: l' => if x =? rgt then extend_run (add32 rgt 1) l' else (rgt, l)
  | [] => (rgt, [])
  end.

(** The outer loop of [send_ack]: at most [budget] blocks. *)
Fixpoint build_sacks (budget : nat) (l : list Z) : list SACKBlock :=
  match budget, l with
  | S budget', lft :: tl =>
      let '(rgt, rest) := extend_run (add32 lft 1) tl in
      mkSack lft rgt :: build_sacks budget' rest
  | _, _ => []
  end.

(** [received_seqs.upper_bound(expected_seq)] onwards, in the order of
    the [std::set]. *)
Definition above (e : Z) (s : gset Z) : list Z :=
  filter (fun x => e < x) (merge_sort Z.le (elements s)).

(** [send_ack] *)
Definition send_ack (r : t) : t :=
  let blocks := build_sacks 3 (above (expected_seq r) (received_seqs r)) in
  let ack_packet :=
    mkPacket
      (mkHeader ACK 0 0 0 (expected_seq r) WINDOW_SIZE 0
                (Z.of_nat (length blocks) mod 2 ^ 32))
      (data empty_packet) blocks in
  send_packet (seal ack_packet) r.

(** [handle_data] *)
Definition handle_data (data_packet : Packet) (r : t) : t :=
  if decide (state r = ESTABLISHED) then
    let seq := seq_num (header data_packet) in
    let r :=
      if decide (seq ∈ received_seqs r) then r
      else
        let r := set_recv_buffer (<[seq := data_packet]> (recv_buffer r)) r in
        let r := set_received_seqs ({[seq]} ∪ received_seqs r) r in
        set_total_bytes_received
          ((total_bytes_received r + data_length (header data_packet))
             mod 2 ^ 64) r in
    let r := drain (size (recv_buffer r)) r in
    send_ack r
  else r.

(** [handle_fin] *)
Definition handle_fin (fin_packet : Packet) (r : t) : t :=
  let fin_ack :=
    seal (control_packet FIN_ACK 0 (add32 (seq_num (header fin_packet)) 1)) in
  let r := send_packet fin_ack r in
  let r := set_state CLOSED r in
  sink_call SinkClose r.

(** [s.find_last_of(...)] and the two [substr] around the position found:
    the text before and the text after the last character satisfying
    [sep]. *)
Fixpoint split_last (sep : Z -> bool) (s : list Z) : option (list Z * list Z) :=
  match s with
  | [] => None
  | c :: s' =>
      match split_last sep s' with
      | Some (a, b) => Some (c :: a, b)
      | None => if sep c then Some ([], s') else None
      end
  end.

(** The name of the output file derived from a non-empty payload. *)
Definition output_name (orig : list Z) : list Z :=
  let basename :=
    match split_last (fun c => (c =? 47) || (c =? 92)) orig with
    | Some (_, b) => b
    | None => orig
    end in
  let '(name_only, ext) :=
    match split_last (fun c => c =? 46) basename with
    | Some (a, b) => (a, 46 :: b)
    | None => (basename, [])
    end in
  name_only ++ [95; 111; 117; 116; 112; 117; 116] ++ ext.

(** [handle_file_name] *)
Definition handle_file_name (name_packet : Packet) (r : t) : t :=
  if decide (state r = ESTABLISHED) then
    let r :=
      if 0 <? data_length (header name_packet) then
        let len := Z.min (data_length (header name_packet)) MAX_DATA_SIZE in
        sink_call
          (SinkOpen (output_name (take (Z.to_nat len) (data name_packet)))) r
      else sink_call (SinkOpen [111; 117; 116; 112; 117; 116]) r in
    let file_name_ack :=
      seal (control_packet FILE_NAME_ACK 0
              (add32 (seq_num (header name_packet)) 1)) in
    send_packet file_name_ack r
  else r.

(** [handle_packet]: the [switch] on [packet.header.type]. *)
Definition handle_packet (p : Packet) (r : t) : t :=
  let ty := type (header p) in
  if ty =? SYN then handle_syn p r
  else if ty =? ACK then handle_ack_handshake p r
  else if ty =? FILE_NAME then handle_file_name p r
  else if ty =? DATA then handle_data p r
  else if ty =? FIN then handle_fin p r
  else r.

(** One iteration of the [while (true)] of [run]. The flag is [true]
    when the iteration ends in [break]. *)
Definition run_iteration (a : Arrival) (r : t) : option (t * bool) :=
  match receive_packet a r with
  | None => None
  | Some (r, None) => Some (r, false)
  | Some (r, Some packet) =>
      if negb (verify_checksum packet) then Some (r, false)
      else
        let r := handle_packet packet r in
        Some (r, bool_decide (state r = CLOSED))
  end.

(** The outcome of [run] on a finite script of arrivals. *)
Inductive RunResult :=
  | Returned (r : t) (unread : list Arrival)   (* the loop was left *)
  | Polling (r : t)                            (* script over, still looping *)
  | Undefined.                                 (* undefined behaviour *)

(** [run] *)
Fixpoint run (script : list Arrival) (r : t) : RunResult :=
  match script with
  | [] => Polling r
  | a :: script' =>
      match run_iteration a r with
      | None => Undefined
      | Some (r, true) => Returned r script'
      | Some (r, false) => run script' r
      end
  end.

End WithProtocol.

(** ** The earlier text of the receiver ([part_001])

    It differs from [receiver.cpp] in that the checksum is stored without
    [htons], [handle_syn] enters [ESTABLISHED] at once, there is no [ACK]
    case in [handle_packet] and no state test in [handle_data] and
    [handle_file_name]. *)

Section EarlierText.
Context {proto : ProtocolH}.

Definition seal_old (p : Packet) : Packet :=
  set_checksum (calculate_checksum p) p.

Definition handle_syn_old (syn_packet : Packet) (r : t) : t :=
  let r := if client_locked r then r else lock_client (sender_addr r) r in
  let syn_ack :=
    seal_old (control_packet SYN_ACK 0 (add32 (seq_num (header syn_packet)) 1)) in
  let r := send_packet syn_ack r in
  let r := set_expected_seq (add32 (seq_num (header syn_packet)) 1) r in
  set_state ESTABLISHED r.

Definition send_ack_old (r : t) : t :=
  let blocks := build_sacks 3 (above (expected_seq r) (received_seqs r)) in
  let ack_packet :=
    mkPacket
      (mkHeader ACK 0 0 0 (expected_seq r) WINDOW_SIZE 0
                (Z.of_nat (length blocks) mod 2 ^ 32))
      (data empty_packet) blocks in
  send_packet (seal_old ack_packet) r.

Definition handle_data_old (data_packet : Packet) (r : t) : t :=
  let seq := seq_num (header data_packet) in
  let r :=
    if decide (seq ∈ received_seqs r) then r
    else
      let r := set_recv_buffer (<[seq := data_packet]> (recv_buffer r)) r in
      let r := set_received_seqs ({[seq]} ∪ received_seqs r) r in
      set_total_bytes_received
        ((total_bytes_received r + data_length (header data_packet))
           mod 2 ^ 64) r in
  let r := drain (size (recv_buffer r)) r in
  send_ack_old r.

Definition handle_fin_old (fin_packet : Packet) (r : t) : t :=
  let fin_ack :=
    seal_old (control_packet FIN_ACK 0 (add32 (seq_num (header fin_packet)) 1)) in
  let r := send_packet fin_ack r in
  let r := set_state CLOSED r in
  sink_call SinkClose r.

Definition handle_file_name_old (name_packet : Packet) (r : t) : t :=
  let r :=
    if 0 <? data_length (header name_packet) then
      let len := Z.min (data_length (header name_packet)) MAX_DATA_SIZE in
      sink_call
        (SinkOpen (output_name (take (Z.to_nat len) (data name_packet)))) r
    else sink_call (SinkOpen [111; 117; 116; 112; 117; 116]) r in
  let file_name_ack :=
    seal_old (control_packet FILE_NAME_ACK 0
                (add32 (seq_num (header name_packet)) 1)) in
  send_packet file_name_ack r.

Definition handle_packet_old (p : Packet) (r : t) : t :=
  let ty := type (header p) in
  if ty =? SYN then handle_syn_old p r
  else if ty =? FILE_NAME then handle_file_name_old p r
  else if ty =? DATA then handle_data_old p r
  else if ty =? FIN then handle_fin_old p r
  else r.

Definition run_iteration_old (a : Arrival) (r : t) : option (t * bool) :=
  match receive_packet a r with
  | None => None
  | Some (r, None) => Some (r, false)
  | Some (r, Some packet) =>
      if negb (verify_checksum packet) then Some (r, false)
      else
        let r := handle_packet_old packet r in
        Some (r, bool_decide (state r = CLOSED))
  end.

Fixpoint run_old (script : list Arrival) (r : t) : RunResult :=
  match script with
  | [] => Polling r
  | a :: script' =>
      match run_iteration_old a r with
      | None => Undefined
      | Some (r, true) => Returned r script'
      | Some (r, false) => run_old script' r
      end
  end.

End EarlierText.

End Receiver.

(** * Sender ([sender.cpp]) *)

(** ** [double] arithmetic of the congestion window

    [cwnd] is an IEEE 754 binary64 value; the model uses Rocq's primitive
    floats, which are that type. *)

(** Conversion of a [uint32_t] to [double]. *)
Definition double_of_u32 (z : Z) : float := PrimFloat.of_uint63 (Uint63.of_Z z).

(** [static_cast<uint32_t>(x)]: truncation towards zero. The cast is
    undefined when the truncated value does not fit; the model reduces it
    modulo [2 ^ 32] and maps what is not a positive finite number to 0. *)
Definition double_to_u32 (x : float) : Z :=
  match Prim2SF x with
  | S754_finite false m e => Z.shiftl (Z.pos m) e mod 2 ^ 32
  | _ => 0
  end.

(** Field readers fixed before [Module Sender] declares fields of the
    same names. *)
Definition pkt_type (p : Packet) : Z := type (header p).
Definition pkt_seq (p : Packet) : Z := seq_num (header p).
Definition pkt_ack (p : Packet) : Z := ack_num (header p).

(** The two texts of [sender.cpp] differ, in the functions embedded
    here, in the duplicate-ACK count that triggers fast retransmit and in
    whether the checksum is stored through [htons]. *)
Class SenderText := {
  dup_trigger : Z;
  wire16 : Z -> Z
}.

(** First text of [sender.cpp]. *)
Definition sender_v1 : SenderText := {| dup_trigger := 2; wire16 := htons |}.
(** Second text of [sender.cpp]. *)
Definition sender_v2 : SenderText := {| dup_trigger := 3; wire16 := fun c => c |}.

Module Sender.

Record t := mk {
  state : ConnectionState;
  seq_num : Z;
  base : Z;
  next_seq_num : Z;
  sent_packets : gmap Z Packet;
  send_times : gmap Z Z;             (* milliseconds on the steady clock *)
  cong_state : CongestionState;
  cwnd : float;
  ssthresh : Z;
  duplicate_acks : Z;
  last_acked : Z;
  total_bytes_sent : Z;
  total_packets_sent : Z;
  retransmissions : Z;
  server_locked : bool;
  server_addr : Endpoint;
  sent : list Packet                 (* [sendto] calls, oldest first *)
}.

(** The constructor's initial values. *)
Definition init : t :=
  mk CLOSED 0 0 0 ∅ ∅ SLOW_START (double_of_u32 1) WINDOW_SIZE 0 0 0 0 0
     false (0, 0) [].

(** The assignments of [connect] on the branch that returns [true],
    after the first datagram from [from] locked the server. *)
Definition connected (from : Endpoint) (s : t) : t :=
  let isn := add32 (seq_num s) 1 in
  mk ESTABLISHED isn isn isn (sent_packets s) (send_times s) (cong_state s)
     (cwnd s) (ssthresh s) (duplicate_acks s) (last_acked s)
     (total_bytes_sent s) (total_packets_sent s) (retransmissions s)
     true from (sent s).

Definition set_window (b n : Z) (s : t) : t :=
  mk (state s) (seq_num s) b n (sent_packets s) (send_times s) (cong_state s)
     (cwnd s) (ssthresh s) (duplicate_acks s) (last_acked s)
     (total_bytes_sent s) (total_packets_sent s) (retransmissions s)
     (server_locked s) (server_addr s) (sent s).

Definition set_in_flight (sp : gmap Z Packet) (st : gmap Z Z) (s : t) : t :=
  mk (state s) (seq_num s) (base s) (next_seq_num s) sp st (cong_state s)
     (cwnd s) (ssthresh s) (duplicate_acks s) (last_acked s)
     (total_bytes_sent s) (total_packets_sent s) (retransmissions s)
     (server_locked s) (server_addr s) (sent s).

Definition set_congestion (c : CongestionState) (w : float) (th : Z) (s : t) : t :=
  mk (state s) (seq_num s) (base s) (next_seq_num s) (sent_packets s)
     (send_times s) c w th (duplicate_acks s) (last_acked s)
     (total_bytes_sent s) (total_packets_sent s) (retransmissions s)
     (server_locked s) (server_addr s) (sent s).

Definition set_duplicate_acks (d : Z) (s : t) : t :=
  mk (state s) (seq_num s) (base s) (next_seq_num s) (sent_packets s)
     (send_times s) (cong_state s) (cwnd s) (ssthresh s) d (last_acked s)
     (total_bytes_sent s) (total_packets_sent s) (retransmissions s)
     (server_locked s) (server_addr s) (sent s).

Definition set_last_acked (a : Z) (s : t) : t :=
  mk (state s) (seq_num s) (base s) (next_seq_num s) (sent_packets s)
     (send_times s) (cong_state s) (cwnd s) (ssthresh s) (duplicate_acks s) a
     (total_bytes_sent s) (total_packets_sent s) (retransmissions s)
     (server_locked s) (server_addr s) (sent s).

Definition count_retransmission (s : t) : t :=
  mk (state s) (seq_num s) (base s) (next_seq_num s) (sent_packets s)
     (send_times s) (cong_state s) (cwnd s) (ssthresh s) (duplicate_acks s)
     (last_acked s) (total_bytes_sent s) (total_packets_sent s)
     ((retransmissions s + 1) mod 2 ^ 64)
     (server_locked s) (server_addr s) (sent s).

(** [send_packet]: the datagram [serialize packet] goes to
    [receiver_addr], and the statistics are updated. *)
Definition send_packet (p : Packet) (s : t) : t :=
  mk (state s) (seq_num s) (base s) (next_seq_num s) (sent_packets s)
     (send_times s) (cong_state s) (cwnd s) (ssthresh s) (duplicate_acks s)
     (last_acked s)
     ((total_bytes_sent s + Z.of_nat (length (serialize p))) mod 2 ^ 64)
     ((total_packets_sent s + 1) mod 2 ^ 64) (retransmissions s)
     (server_locked s) (server_addr s) (sent s ++ [p]).

(** [receive_packet]; [None] stands for undefined behaviour inside
    [deserialize]. *)
Definition receive_packet (a : Arrival) (s : t) : option (option Packet) :=
  match a with
  | None => Some None
  | Some (from, buffer) =>
      if negb (0 <? Z.of_nat (length buffer)) then Some None
      else if server_locked s && negb (same_endpoint from (server_addr s))
      then Some None
      else
        match deserialize buffer with
        | None => None
        | Some p => Some (Some p)
        end
  end.

(** [ssthresh = max(static_cast<uint32_t>(cwnd / 2), 2u)] *)
Definition halved (w : float) : Z :=
  Z.max (double_to_u32 (PrimFloat.div w (double_of_u32 2))) 2.

(** The file being sent: [file_data], whose length is [file_size]. *)
Definition total_packets (file_data : list Z) : Z :=
  ((Z.of_nat (length file_data) + MAX_DATA_SIZE - 1) / MAX_DATA_SIZE) mod 2 ^ 32.

Section WithTexts.
Context {proto : ProtocolH} {text : SenderText}.

(** The DATA packet built in the window loop of [send_file] for the
    sequence number [next]. *)
Definition data_packet (file_data : list Z) (seq0 next : Z) : Packet :=
  let pkt_offset := (((next - seq0) mod 2 ^ 32) * MAX_DATA_SIZE) mod 2 ^ 32 in
  let pkt_size := Z.min MAX_DATA_SIZE (Z.of_nat (length file_data) - pkt_offset) in
  let chunk := take (Z.to_nat pkt_size) (drop (Z.to_nat pkt_offset) file_data) in
  let packet :=
    mkPacket (mkHeader DATA 0 0 next 0 0 (pkt_size mod 2 ^ 16) 0)
      (chunk ++ replicate (Z.to_nat MAX_DATA_SIZE - length chunk) 0) [] in
  set_checksum (wire16 (calculate_checksum packet)) packet.

(** The guard of the window loop. *)
Definition may_send (file_data : list Z) (window_limit : Z) (s : t) : bool :=
  (next_seq_num s <? add32 (base s) window_limit) &&
  (next_seq_num s <? add32 (seq_num s) (total_packets file_data)).

(** The window loop of [send_file]:
    [while (next_seq_num < base + window_limit &&
            next_seq_num < seq_num + total_packets)].
    [clock k] is the reading of the steady clock stored for sequence
    [k]. *)
Fixpoint fill_window (fuel : nat) (file_data : list Z) (window_limit : Z)
    (clock : Z -> Z) (s : t) : t :=
  match fuel with
  | O => s
  | S fuel' =>
      if may_send file_data window_limit s then
        let n := next_seq_num s in
        let packet := data_packet file_data (seq_num s) n in
        let s := send_packet packet s in
        let s := set_in_flight (<[n := packet]> (sent_packets s))
                               (<[n := clock n]> (send_times s)) s in
        fill_window fuel' file_data window_limit clock
          (set_window (base s) (add32 n 1) s)
      else s
  end.

(** The number of iterations after which the guard of the window loop
    is false ([fill_window_exits]). *)
Definition fill_budget (file_data : list Z) (window_limit : Z) (s : t) : nat :=
  Z.to_nat (Z.min (add32 (base s) window_limit)
                  (add32 (seq_num s) (total_packets file_data))
            - next_seq_num s).

(** The congestion update of [handle_ack] on a new cumulative ACK. *)
Definition on_new_ack (s : t) : t :=
  match cong_state s with
  | SLOW_START =>
      let w := PrimFloat.add (cwnd s) (double_of_u32 1) in
      if PrimFloat.leb (double_of_u32 (ssthresh s)) w
      then set_congestion CONGESTION_AVOIDANCE w (ssthresh s) s
      else set_congestion SLOW_START w (ssthresh s) s
  | CONGESTION_AVOIDANCE =>
      set_congestion CONGESTION_AVOIDANCE
        (PrimFloat.add (cwnd s) (PrimFloat.div (double_of_u32 1) (cwnd s)))
        (ssthresh s) s
  | FAST_RECOVERY =>
      set_congestion CONGESTION_AVOIDANCE (double_of_u32 (ssthresh s))
        (ssthresh s) s
  end.

(** [while (it != sent_packets.end() && it->first < base)
      { send_times.erase(it->first); it = sent_packets.erase(it); }]
    on the ordered map: every key below [base] leaves [sent_packets], and
    [send_times] loses the keys so visited. *)
Definition erase_acked (s : t) : t :=
  let visited := dom (filter (fun kv => kv.1 < base s) (sent_packets s)) in
  set_in_flight
    (filter (fun kv => ¬ kv.1 < base s) (sent_packets s))
    (filter (fun kv => kv.1 ∉ visited) (send_times s)) s.

(** The fast-retransmit action. *)
Definition fast_retransmit (p : Packet) (s : t) : t :=
  let s := send_packet p s in
  let s := count_retransmission s in
  let th := halved (cwnd s) in
  set_congestion FAST_RECOVERY (double_of_u32 (add32 th 3)) th s.

(** The sequence numbers visited by
    [for (uint32_t seq = sack.left_edge; seq < sack.right_edge; ++seq)]. *)
Definition sack_range (b : SACKBlock) : list Z :=
  seqZ (left_edge b) (right_edge b - left_edge b).

Definition erase_seq (s : t) (seq : Z) : t :=
  set_in_flight (delete seq (sent_packets s)) (delete seq (send_times s)) s.

(** The SACK loops at the end of [handle_ack]. *)
Definition process_sacks (blocks : list SACKBlock) (s : t) : t :=
  foldl (fun s b => foldl erase_seq s (sack_range b)) s blocks.

(** The [if / else if] on [ack_num] of [handle_ack]. *)
Definition on_ack_num (a : Z) (s : t) : t :=
  if base s <? a then
    let s := set_window a (next_seq_num s) s in
    let s := set_duplicate_acks 0 s in
    let s := on_new_ack s in
    let s := erase_acked s in
    set_last_acked a s
  else if a =? last_acked s then
    let s := set_duplicate_acks (add32 (duplicate_acks s) 1) s in
    if duplicate_acks s =? dup_trigger then
      match sent_packets s !! a with
      | Some p => fast_retransmit p s
      | None => s
      end
    else if (dup_trigger <? duplicate_acks s)
            && bool_decide (cong_state s = FAST_RECOVERY) then
      set_congestion (cong_state s)
        (PrimFloat.add (cwnd s) (double_of_u32 1)) (ssthresh s) s
    else s
  else s.

(** [handle_ack] *)
Definition handle_ack (ack_packet : Packet) (s : t) : t :=
  process_sacks (sack_blocks ack_packet) (on_ack_num (pkt_ack ack_packet) s).

(** The body of the loop of [check_timeout] for the entry [(seq, ts)]
    of [send_times]. *)
Definition timeout_entry (now : Z) (s : t) (entry : Z * Z) : t :=
  let '(seq, ts) := entry in
  if TIMEOUT_MS <? now - ts then
    match sent_packets s !! seq with
    | Some p =>
        let s := send_packet p s in
        let s := count_retransmission s in
        let s := set_in_flight (sent_packets s) (<[seq := now]> (send_times s)) s in
        let s := set_congestion SLOW_START (double_of_u32 1) (halved (cwnd s)) s in
        set_duplicate_acks 0 s
    | None => s
    end
  else s.

(** The entries of an ordered map in the order of its iterator. *)
Definition key_le (a b : Z * Z) : Prop := a.1 <= b.1.

#[global] Instance key_le_dec : RelDecision key_le.
Proof. intros a b. unfold key_le. apply _. Defined.

Definition in_key_order (m : gmap Z Z) : list (Z * Z) :=
  merge_sort key_le (map_to_list m).

(** [check_timeout]; [now] is the clock reading taken on entry. *)
Definition check_timeout (now : Z) (s : t) : t :=
  foldl (timeout_entry now) s (in_key_order (send_times s)).

(** What one iteration of the sliding-window loop reads from outside. *)
Record Turn := mkTurn {
  clock : Z -> Z;       (* clock reading stored with a sequence sent now *)
  arrival : Arrival;    (* result of [recvfrom] *)
  scan_time : Z         (* clock reading of [check_timeout] *)
}.

(** [window_limit = min<uint32_t>(static_cast<uint32_t>(cwnd), WINDOW_SIZE)] *)
Definition window_limit (s : t) : Z := Z.min (double_to_u32 (cwnd s)) WINDOW_SIZE.

(** Step 4 of the loop body: a datagram that deserializes to a
    checksum-valid ACK goes to [handle_ack]. *)
Definition on_packet (p : Packet) (s : t) : t :=
  if (pkt_type p =? ACK) && verify_checksum p then handle_ack p s else s.

(** The body of [while (base < seq_num + total_packets)] in [send_file];
    [None] stands for undefined behaviour inside [deserialize]. *)
Definition send_file_iteration (file_data : list Z) (turn : Turn) (s : t) : option t :=
  let wl := window_limit s in
  let s := fill_window (fill_budget file_data wl s) file_data wl (clock turn) s in
  match receive_packet (arrival turn) s with
  | None => None
  | Some rx =>
      let s := match rx with Some p => on_packet p s | None => s end in
      Some (check_timeout (scan_time turn) s)
  end.

(** The outcome of the loop of [send_file] on a finite script of turns. *)
Inductive LoopResult :=
  | Done (s : t) (unused : list Turn)   (* the loop condition became false *)
  | Sending (s : t)                     (* script over, still looping *)
  | Undefined.

Fixpoint send_file_loop (file_data : list Z) (script : list Turn) (s : t) : LoopResult :=
  if base s <? add32 (seq_num s) (total_packets file_data) then
    match script with
    | [] => Sending s
    | turn :: script' =>
        match send_file_iteration file_data turn s with
        | None => Undefined
        | Some s' => send_file_loop file_data script' s'
        end
    end
  else Done s script.

(** ** Connection management ([connect], [wait_for_file_name_ack],
    [disconnect], [main])

    The loops of these functions read the steady clock and poll the
    socket once per iteration; a script of [Tick]s supplies both. Clock
    readings are in milliseconds, as for [send_times]. *)

(** The members of [Sender] that only the handshakes use. *)
Record Handshakes := mkHandshakes {
  syn_packet : Packet;
  syn_send_time : Z;
  fin_packet : Packet;
  fin_send_time : Z;
  syn_retries : Z;      (* int *)
  fin_retries : Z       (* int *)
}.

(** The constructor's initial values; the two packets and the two time
    points are default-constructed. *)
Definition init_handshakes : Handshakes :=
  mkHandshakes empty_packet 0 empty_packet 0 0 0.

(** What one iteration of a handshake loop reads from outside. *)
Record Tick := mkTick {
  now : Z;              (* [steady_clock::now()] at the top of the body *)
  heard : Arrival       (* result of [recvfrom] *)
}.

(** The address [recvfrom] stored in [from]. *)
Definition source (a : Arrival) : Endpoint :=
  match a with
  | Some (from, _) => from
  | None => (0, 0)
  end.

Definition set_state (c : ConnectionState) (s : t) : t :=
  mk c (seq_num s) (base s) (next_seq_num s) (sent_packets s) (send_times s)
     (cong_state s) (cwnd s) (ssthresh s) (duplicate_acks s) (last_acked s)
     (total_bytes_sent s) (total_packets_sent s) (retransmissions s)
     (server_locked s) (server_addr s) (sent s).

(** [server_addr = from; server_locked = true;] *)
Definition lock_server (from : Endpoint) (s : t) : t :=
  mk (state s) (seq_num s) (base s) (next_seq_num s) (sent_packets s)
     (send_times s) (cong_state s) (cwnd s) (ssthresh s) (duplicate_acks s)
     (last_acked s) (total_bytes_sent s) (total_packets_sent s)
     (retransmissions s) true from (sent s).

(** [state = ESTABLISHED; seq_num++; base = seq_num; next_seq_num = seq_num;] *)
Definition establish (s : t) : t :=
  let isn := add32 (seq_num s) 1 in
  mk ESTABLISHED isn isn isn (sent_packets s) (send_times s) (cong_state s)
     (cwnd s) (ssthresh s) (duplicate_acks s) (last_acked s)
     (total_bytes_sent s) (total_packets_sent s) (retransmissions s)
     (server_locked s) (server_addr s) (sent s).

(** The assignments of [connect] to the member [syn_packet]: type,
    sequence number, a zero length, and then the checksum, computed
    over the packet as it stands. *)
Definition syn_of (member : Packet) (sq : Z) : Packet :=
  let h := header member in
  let p :=
    mkPacket (mkHeader SYN (flags h) (checksum h) sq (ack_num h)
                (window_size h) 0 (sack_count h))
      (data member) (sack_blocks member) in
  set_checksum (wire16 (calculate_checksum p)) p.

(** The assignments of [disconnect] to the member [fin_packet]. *)
Definition fin_of (member : Packet) (sq : Z) : Packet :=
  let h := header member in
  let p :=
    mkPacket (mkHeader FIN (flags h) (checksum h) sq (ack_num h)
                (window_size h) (data_length h) (sack_count h))
      (data member) (sack_blocks member) in
  set_checksum (wire16 (calculate_checksum p)) p.

(** The ACK that ends the handshake in the first text of [connect]. *)
Definition handshake_ack (sq : Z) (recv_packet : Packet) : Packet :=
  let p :=
    mkPacket (mkHeader ACK 0 0 (add32 sq 1) (add32 (pkt_seq recv_packet) 1)
                0 0 0)
      (data empty_packet) [] in
  set_checksum (wire16 (calculate_checksum p)) p.

Definition resend_syn (t0 : Z) (h : Handshakes) : Handshakes :=
  mkHandshakes (syn_packet h) t0 (fin_packet h) (fin_send_time h)
    (syn_retries h + 1) (fin_retries h).

Definition resend_fin (t0 : Z) (h : Handshakes) : Handshakes :=
  mkHandshakes (syn_packet h) (syn_send_time h) (fin_packet h) t0
    (syn_retries h) (fin_retries h + 1).

(** The two texts of [connect] differ in one more point: the first
    answers the SYN_ACK with an ACK before it returns, the second does
    not. *)
Section Connect.
Variable third_ack : bool.

Inductive ConnectResult :=
  | Connected (s : t) (h : Handshakes) (unused : list Tick)  (* [return true] *)
  | Refused (s : t) (h : Handshakes) (unused : list Tick)    (* [return false] *)
  | Connecting (s : t) (h : Handshakes)       (* script over, still looping *)
  | ConnectUndefined.

(** The [while (true)] of [connect]. The iteration that returns [false]
    takes nothing but a clock reading from its tick. *)
Fixpoint connect_loop (script : list Tick) (s : t) (h : Handshakes)
    : ConnectResult :=
  match script with
  | [] => Connecting s h
  | tick :: script' =>
      if 5 <=? syn_retries h then Refused s h script
      else
        let '(s, h) :=
          if TIMEOUT_MS <? now tick - syn_send_time h
          then (send_packet (syn_packet h) s, resend_syn (now tick) h)
          else (s, h) in
        match receive_packet (heard tick) s with
        | None => ConnectUndefined
        | Some None => connect_loop script' s h
        | Some (Some recv_packet) =>
            let s :=
              if server_locked s then s
              else lock_server (source (heard tick)) s in
            if (pkt_type recv_packet =? SYN_ACK) && verify_checksum recv_packet
            then
              let s :=
                if third_ack
                then send_packet (handshake_ack (seq_num s) recv_packet) s
                else s in
              Connected (establish s) h script'
            else connect_loop script' s h
        end
  end.

(** [connect]; [start] is the clock reading stored in [syn_send_time]
    after the first SYN. *)
Definition connect (start : Z) (script : list Tick) (s : t) (h : Handshakes)
    : ConnectResult :=
  let syn := syn_of (syn_packet h) (seq_num s) in
  let s := send_packet syn s in
  let h :=
    mkHandshakes syn start (fin_packet h) (fin_send_time h) 0 (fin_retries h) in
  connect_loop script (set_state SYN_SENT s) h.

End Connect.

(** [wait_for_file_name_ack] (first text of [sender.cpp]) *)
Inductive WaitResult :=
  | Acknowledged (s : t) (unused : list Tick)   (* [return true] *)
  | TimedOut (s : t) (unused : list Tick)       (* [return false] *)
  | Waiting (s : t)                    (* script over, still looping *)
  | WaitUndefined.

Fixpoint wait_loop (file_name_pkt : Packet) (script : list Tick)
    (send_time retries : Z) (s : t) : WaitResult :=
  match script with
  | [] => Waiting s
  | tick :: script' =>
      if 5 <=? retries then TimedOut s script
      else
        let '(s, retries, send_time) :=
          if (TIMEOUT_MS <? now tick - send_time) && (retries <? 5)
          then (send_packet file_name_pkt s, retries + 1, now tick)
          else (s, retries, send_time) in
        match receive_packet (heard tick) s with
        | None => WaitUndefined
        | Some None => wait_loop file_name_pkt script' send_time retries s
        | Some (Some ack_packet) =>
            if (pkt_type ack_packet =? FILE_NAME_ACK)
               && verify_checksum ack_packet
            then Acknowledged s script'
            else wait_loop file_name_pkt script' send_time retries s
        end
  end.

Definition wait_for_file_name_ack (start : Z) (file_name_pkt : Packet)
    (script : list Tick) (s : t) : WaitResult :=
  wait_loop file_name_pkt script start 0 s.

(** [disconnect] *)
Inductive DisconnectResult :=
  | Disconnected (s : t) (h : Handshakes) (unused : list Tick)  (* [break] *)
  | Disconnecting (s : t) (h : Handshakes)    (* script over, still looping *)
  | DisconnectUndefined.

Fixpoint disconnect_loop (script : list Tick) (s : t) (h : Handshakes)
    : DisconnectResult :=
  match script with
  | [] => Disconnecting s h
  | tick :: script' =>
      if 5 <=? fin_retries h then Disconnected s h script
      else
        let '(s, h) :=
          if TIMEOUT_MS <? now tick - fin_send_time h
          then (send_packet (fin_packet h) s, resend_fin (now tick) h)
          else (s, h) in
        match receive_packet (heard tick) s with
        | None => DisconnectUndefined
        | Some None => disconnect_loop script' s h
        | Some (Some recv_packet) =>
            if (pkt_type recv_packet =? FIN_ACK) && verify_checksum recv_packet
            then Disconnected (set_state CLOSED s) h script'
            else disconnect_loop script' s h
        end
  end.

Definition disconnect (start : Z) (script : list Tick) (s : t) (h : Handshakes)
    : DisconnectResult :=
  let fin := fin_of (fin_packet h) (next_seq_num s) in
  let s := send_packet fin s in
  let h :=
    mkHandshakes (syn_packet h) (syn_send_time h) fin start (syn_retries h) 0 in
  disconnect_loop script (set_state FIN_WAIT s) h.

(** The FILE_NAME packet [main] builds from the path typed in:
    the text behind the last [/] or [\], cut to [MAX_DATA_SIZE]
    bytes. *)
Definition name_packet (filename : list Z) : Packet :=
  let basename :=
    match Receiver.split_last (fun c => (c =? 47) || (c =? 92)) filename with
    | Some (_, b) => b
    | None => filename
    end in
  let len :=
    match basename with
    | [] => 0
    | _ => Z.min (Z.of_nat (length basename) mod 2 ^ 16) MAX_DATA_SIZE
    end in
  let chunk := take (Z.to_nat len) basename in
  let p :=
    mkPacket (mkHeader FILE_NAME 0 0 0 0 0 len 0)
      (chunk ++ replicate (Z.to_nat MAX_DATA_SIZE - length chunk) 0) [] in
  set_checksum (wire16 (calculate_checksum p)) p.

End WithTexts.

End Sender.

(** * Properties of the codec *)

Section CodecFacts.

Ltac zdm := Z.div_mod_to_equations; lia.

Lemma de16_le16 x : 0 <= x < 2 ^ 16 -> de16 (x mod 256) (x / 256 mod 256) = x.
Proof. unfold de16. intros H. zdm. Qed.

Lemma de32_le32 x :
  0 <= x < 2 ^ 32 ->
  de32 (x mod 256) (x / 256 mod 256) (x / 65536 mod 256) (x / 16777216 mod 256) = x.
Proof. unfold de32. intros H. zdm. Qed.

Lemma le16_de16 b0 b1 : is_byte b0 -> is_byte b1 -> le16 (de16 b0 b1) = [b0; b1].
Proof.
  unfold is_byte, le16, de16. intros H0 H1.
  repeat f_equal; zdm.
Qed.

Lemma le32_de32 b0 b1 b2 b3 :
  is_byte b0 -> is_byte b1 -> is_byte b2 -> is_byte b3 ->
  le32 (de32 b0 b1 b2 b3) = [b0; b1; b2; b3].
Proof.
  unfold is_byte, le32, de32. intros H0 H1 H2 H3.
  repeat f_equal; zdm.
Qed.

Lemma de16_range b0 b1 : is_byte b0 -> is_byte b1 -> 0 <= de16 b0 b1 < 2 ^ 16.
Proof. unfold is_byte, de16. lia. Qed.

Lemma de32_range b0 b1 b2 b3 :
  is_byte b0 -> is_byte b1 -> is_byte b2 -> is_byte b3 ->
  0 <= de32 b0 b1 b2 b3 < 2 ^ 32.
Proof. unfold is_byte, de32. lia. Qed.

Lemma le16_bytes x : Forall is_byte (le16 x).
Proof. unfold le16, is_byte. repeat constructor; zdm. Qed.

Lemma le32_bytes x : Forall is_byte (le32 x).
Proof. unfold le32, is_byte. repeat constructor; zdm. Qed.

Lemma header_bytes_length h : length (header_bytes h) = 20%nat.
Proof. reflexivity. Qed.

Lemma sack_bytes_length s : length (sack_bytes s) = 8%nat.
Proof. reflexivity. Qed.

Lemma parse_header_bytes h : header_wf h -> parse_header (header_bytes h) = h.
Proof.
  intros (Ht & Hf & Hc & Hs & Ha & Hw & Hd & Hk). destruct h; simpl in *.
  unfold parse_header, header_bytes; cbn [app le16 le32 nth].
  rewrite !de16_le16, !de32_le32 by assumption. reflexivity.
Qed.

Lemma parse_sack_bytes s : sack_wf s -> parse_sack (sack_bytes s) = s.
Proof.
  intros (Hl & Hr). destruct s; simpl in *.
  unfold parse_sack, sack_bytes; cbn [app le32 nth].
  rewrite !de32_le32 by assumption. reflexivity.
Qed.

Lemma header_bytes_are_bytes h : header_wf h -> Forall is_byte (header_bytes h).
Proof.
  intros (Ht & Hf & _). unfold header_bytes.
  repeat apply Forall_app_2; auto using le16_bytes, le32_bytes.
  all: unfold is_byte; repeat constructor; lia.
Qed.

Lemma sack_bytes_are_bytes s : Forall is_byte (sack_bytes s).
Proof. unfold sack_bytes. apply Forall_app_2; apply le32_bytes. Qed.

(** The bytes of a header are those it was read from. *)
Lemma header_bytes_parse b :
  length b = 20%nat -> Forall is_byte b -> header_bytes (parse_header b) = b.
Proof.
  intros Hlen Hb.
  do 20 (destruct b as [|? b]; [discriminate Hlen |]).
  destruct b; [| discriminate Hlen].
  repeat match goal with H : Forall _ (_ :: _) |- _ =>
    apply Forall_cons in H; destruct H end.
  unfold parse_header, header_bytes; cbn [nth type flags checksum seq_num ack_num
    window_size data_length sack_count].
  rewrite !le16_de16, !le32_de32 by assumption. reflexivity.
Qed.

Lemma sack_bytes_parse b :
  length b = 8%nat -> Forall is_byte b -> sack_bytes (parse_sack b) = b.
Proof.
  intros Hlen Hb.
  do 8 (destruct b as [|? b]; [discriminate Hlen |]).
  destruct b; [| discriminate Hlen].
  repeat match goal with H : Forall _ (_ :: _) |- _ =>
    apply Forall_cons in H; destruct H end.
  unfold parse_sack, sack_bytes; cbn [nth left_edge right_edge].
  rewrite !le32_de32 by assumption. reflexivity.
Qed.

Lemma parse_header_wf b :
  length b = 20%nat -> Forall is_byte b -> header_wf (parse_header b).
Proof.
  intros Hlen Hb.
  do 20 (destruct b as [|? b]; [discriminate Hlen |]).
  destruct b; [| discriminate Hlen].
  repeat match goal with H : Forall _ (_ :: _) |- _ =>
    apply Forall_cons in H; destruct H end.
  unfold header_wf, parse_header; cbn [nth type flags checksum seq_num ack_num
    window_size data_length sack_count].
  repeat split;
    try (apply de16_range; assumption); try (apply de32_range; assumption);
    unfold is_byte in *; lia.
Qed.

End CodecFacts.

(** ** The checksum as a sum of 16-bit words *)

(** The big-endian words of a byte string, added up without wrap-around;
    an unpaired last byte is the high half of its word. *)
Fixpoint word_sum (bytes : list Z) : Z :=
  match bytes with
  | b0 :: b1 :: rest => 256 * b0 + b1 + word_sum rest
  | [b0] => 256 * b0
  | [] => 0
  end.

(** The sums the two texts of [calculate_checksum] accumulate. *)
Definition total_v1 (p : Packet) : Z :=
  word_sum (take 2 (header_bytes (header p))) +
  word_sum (drop 4 (header_bytes (header p))) +
  word_sum (payload p) + word_sum (concat (map sack_bytes (sack_blocks p))).

Definition total_v2 (p : Packet) : Z :=
  word_sum (header_bytes (header p)) +
  word_sum (payload p) + word_sum (concat (map sack_bytes (sack_blocks p))).

(** The largest payload of a UDP datagram over IPv4. *)
Definition MAX_DATAGRAM : Z := 65507.

Section ChecksumFacts.

Ltac zdm := Z.div_mod_to_equations; lia.

Lemma pair_induction {A} (P : list A -> Prop) :
  P [] -> (forall a, P [a]) -> (forall a b l, P l -> P (a :: b :: l)) ->
  forall l, P l.
Proof.
  intros Hnil Hone Hstep l.
  assert (H : P l /\ forall a, P (a :: l)); [| tauto].
  induction l as [|x l [IH1 IH2]]; split; auto.
Qed.

Lemma shiftl_byte b : Z.shiftl b 8 = 256 * b.
Proof. rewrite Z.shiftl_mul_pow2 by lia. lia. Qed.

Lemma word16_lor b0 b1 :
  is_byte b0 -> is_byte b1 -> Z.lor (Z.shiftl b0 8) b1 = 256 * b0 + b1.
Proof.
  intros H0 H1.
  pose proof (Zbitwise.Z.add_lor_land (Z.shiftl b0 8) b1) as Hadd.
  assert (Hz : Z.land (Z.shiftl b0 8) b1 = 0).
  { apply Z.bits_inj'. intros n Hn. rewrite Z.land_spec, Z.bits_0.
    destruct (Z.lt_ge_cases n 8) as [Hlt | Hge].
    - rewrite Z.shiftl_spec_low by assumption. reflexivity.
    - rewrite andb_false_iff. right.
      destruct (Z.eq_dec b1 0) as [-> | Hne]; [apply Z.bits_0 |].
      apply Z.bits_above_log2; [unfold is_byte in H1; lia |].
      unfold is_byte in H1.
      assert (Z.log2 b1 < 8); [| lia].
      apply Z.log2_lt_pow2; [lia |]. change (2 ^ 8) with 256. lia. }
  rewrite Hz in Hadd. rewrite shiftl_byte in *. lia.
Qed.

Lemma word_sum_bounds l :
  Forall is_byte l -> 0 <= word_sum l <= 65535 * Z.of_nat (length l).
Proof.
  induction l as [| a | a b l IH] using pair_induction; intros Hb.
  - simpl. lia.
  - apply Forall_cons in Hb as [Ha _]. unfold is_byte in Ha. simpl. lia.
  - apply Forall_cons in Hb as [Ha Hb]. apply Forall_cons in Hb as [Hb Hl].
    specialize (IH Hl). unfold is_byte in *. cbn [word_sum length]. lia.
Qed.

Lemma word_sum_app l1 l2 :
  Nat.Even (length l1) -> word_sum (l1 ++ l2) = word_sum l1 + word_sum l2.
Proof.
  induction l1 as [| a | a b l IH] using pair_induction; intros He.
  - reflexivity.
  - destruct He as [k Hk]. simpl in Hk. lia.
  - cbn [app word_sum]. rewrite IH; [lia |].
    destruct He as [k Hk]. exists (k - 1)%nat. simpl in Hk. lia.
Qed.

Lemma add32_range a b : 0 <= add32 a b < 2 ^ 32.
Proof. unfold add32. apply Z.mod_pos_bound. lia. Qed.

Lemma cksum_bytes_spec l s :
  Forall is_byte l -> 0 <= s < 2 ^ 32 ->
  cksum_bytes l s = (s + word_sum l) mod 2 ^ 32.
Proof.
  revert s.
  induction l as [| a | a b l IH] using pair_induction; intros s Hb Hs.
  - simpl. rewrite Z.add_0_r, Z.mod_small; lia.
  - simpl. rewrite shiftl_byte. reflexivity.
  - apply Forall_cons in Hb as [Ha Hb]. apply Forall_cons in Hb as [Hb Hl].
    cbn [cksum_bytes word_sum].
    rewrite IH by auto using add32_range.
    rewrite word16_lor by assumption. unfold add32.
    rewrite Zplus_mod_idemp_l. f_equal. lia.
Qed.

Lemma concat_sack_bytes_even sacks :
  Nat.Even (length (concat (map sack_bytes sacks))).
Proof.
  induction sacks as [|s sacks [k Hk]]; [exists 0%nat; reflexivity |].
  exists (4 + k)%nat. cbn [map concat]. rewrite length_app, sack_bytes_length. lia.
Qed.

Lemma concat_sack_bytes_length sacks :
  length (concat (map sack_bytes sacks)) = (8 * length sacks)%nat.
Proof.
  induction sacks as [|s sacks IH]; [reflexivity |].
  cbn [map concat]. rewrite length_app, sack_bytes_length, IH. simpl. lia.
Qed.

Lemma concat_sack_bytes_are_bytes sacks :
  Forall is_byte (concat (map sack_bytes sacks)).
Proof.
  induction sacks as [|s sacks IH]; [constructor |].
  cbn [map concat]. apply Forall_app_2; auto using sack_bytes_are_bytes.
Qed.

Lemma cksum_sacks_spec sacks s :
  0 <= s < 2 ^ 32 ->
  cksum_sacks sacks s = (s + word_sum (concat (map sack_bytes sacks))) mod 2 ^ 32.
Proof.
  revert s. induction sacks as [|b sacks IH]; intros s Hs.
  - simpl. rewrite Z.add_0_r, Z.mod_small; lia.
  - cbn [cksum_sacks map concat].
    rewrite cksum_bytes_spec by auto using sack_bytes_are_bytes.
    rewrite IH by (apply Z.mod_pos_bound; lia).
    rewrite word_sum_app by (exists 4%nat; reflexivity).
    rewrite Zplus_mod_idemp_l. f_equal. lia.
Qed.

Lemma payload_bytes p : Forall is_byte (data p) -> Forall is_byte (payload p).
Proof. intros H. unfold payload. by apply Forall_take. Qed.

Lemma raw_sum_v2_spec p :
  header_wf (header p) -> Forall is_byte (data p) ->
  raw_sum_v2 p = total_v2 p mod 2 ^ 32.
Proof.
  intros Hh Hd. unfold raw_sum_v2, total_v2.
  pose proof (header_bytes_are_bytes _ Hh) as Hb.
  pose proof (payload_bytes _ Hd) as Hp.
  rewrite (cksum_bytes_spec (header_bytes _) 0) by (auto; lia).
  rewrite cksum_bytes_spec by (auto; apply Z.mod_pos_bound; lia).
  rewrite cksum_sacks_spec by (apply Z.mod_pos_bound; lia).
  rewrite Zplus_mod_idemp_l, <- Z.add_assoc, Zplus_mod_idemp_l.
  f_equal; lia.
Qed.

Lemma raw_sum_v1_spec p :
  header_wf (header p) -> Forall is_byte (data p) ->
  raw_sum_v1 p = total_v1 p mod 2 ^ 32.
Proof.
  intros Hh Hd. unfold raw_sum_v1, total_v1.
  pose proof (header_bytes_are_bytes _ Hh) as Hb.
  assert (Hdrop : Forall is_byte (drop 4 (header_bytes (header p))))
    by (by apply Forall_drop).
  assert (H01 : add32 0 (Z.lor (Z.shiftl (nth 0 (header_bytes (header p)) 0) 8)
                         (nth 1 (header_bytes (header p)) 0))
                = word_sum (take 2 (header_bytes (header p))) mod 2 ^ 32).
  { destruct Hh as (Ht & Hf & _). destruct (header p); simpl in Ht, Hf.
    cbn [header_bytes app nth firstn word_sum type flags].
    rewrite take_0. cbn [word_sum].
    rewrite word16_lor by (unfold is_byte; lia). unfold add32. f_equal. lia. }
  rewrite H01.
  pose proof (payload_bytes _ Hd) as Hp.
  rewrite cksum_bytes_spec by (auto; apply Z.mod_pos_bound; lia).
  rewrite cksum_bytes_spec by (auto; apply Z.mod_pos_bound; lia).
  rewrite cksum_sacks_spec by (apply Z.mod_pos_bound; lia).
  rewrite Zplus_mod_idemp_l, <- Z.add_assoc, Zplus_mod_idemp_l.
  rewrite <- Z.add_assoc, Zplus_mod_idemp_l.
  f_equal; lia.
Qed.

Lemma land_low16 s : Z.land s 65535 = s mod 65536.
Proof. change 65535 with (Z.ones 16). rewrite Z.land_ones by lia. reflexivity. Qed.

Lemma shiftr_high16 s : Z.shiftr s 16 = s / 65536.
Proof. rewrite Z.shiftr_div_pow2 by lia. reflexivity. Qed.

(** Two iterations of the carry loop end it on any 32-bit value, and
    the result is the value reduced modulo [0xFFFF], with [0xFFFF]
    standing for the non-zero multiples. *)
Lemma fold_carries_settles s :
  0 <= s < 2 ^ 32 ->
  let r := fold_carries 2 s in
  Z.shiftr r 16 = 0 /\ 0 <= r < 65536 /\
  (exists k, 0 <= k /\ s = r + 65535 * k) /\ (r = 0 <-> s = 0).
Proof.
  intros Hs. cbn [fold_carries].
  rewrite !land_low16, !shiftr_high16.
  destruct (Z.eqb_spec (s / 65536) 0) as [H0 | H0].
  - rewrite H0. split; [reflexivity |]. split; [zdm |].
    split; [exists 0; lia | tauto].
  - remember (s mod 65536 + s / 65536) as s1 eqn:E1.
    assert (Hs1 : 0 <= s1 < 131071) by zdm.
    assert (Hk1 : s = s1 + 65535 * (s / 65536)) by zdm.
    assert (Hq : 0 < s / 65536) by zdm.
    destruct (Z.eqb_spec (s1 / 65536) 0) as [H1 | H1].
    + split; [assumption |]. split; [zdm |].
      split; [exists (s / 65536); lia | zdm].
    + remember (s1 mod 65536 + s1 / 65536) as s2 eqn:E2.
      assert (Hs2 : 0 < s2 < 65536) by zdm.
      assert (Hk2 : s1 = s2 + 65535 * (s1 / 65536)) by zdm.
      assert (Hq1 : 0 < s1 / 65536) by zdm.
      split; [zdm |]. split; [lia |].
      split; [exists (s / 65536 + s1 / 65536); lia | zdm].
Qed.

Lemma complement16_spec r : 0 <= r < 65536 -> complement16 r = 65535 - r.
Proof.
  intros Hr. unfold complement16. rewrite land_low16. unfold Z.lnot. zdm.
Qed.

Lemma complement16_range s : 0 <= complement16 s < 2 ^ 16.
Proof.
  unfold complement16. rewrite land_low16. apply Z.mod_pos_bound. lia.
Qed.

Lemma htons_range c : 0 <= htons c < 2 ^ 16.
Proof. unfold htons. zdm. Qed.

End ChecksumFacts.

(** ** Round trip *)

(** A packet as the data model describes it: fields within their types,
    a payload length within the array, and a SACK count that matches the
    SACK list. *)
Definition well_formed (p : Packet) : Prop :=
  packet_wf p /\
  data_length (header p) <= MAX_DATA_SIZE /\
  sack_count (header p) = Z.of_nat (length (sack_blocks p)).

(** The serialized packet can be handed to [sendto] as one datagram. *)
Definition fits_datagram (p : Packet) : Prop :=
  Z.of_nat (length (serialize p)) <= MAX_DATAGRAM.

#[global] Instance is_byte_dec b : Decision (is_byte b).
Proof. unfold is_byte. apply _. Defined.

#[global] Instance sack_wf_dec s : Decision (sack_wf s).
Proof. unfold sack_wf. apply _. Defined.

#[global] Instance header_wf_dec h : Decision (header_wf h).
Proof. unfold header_wf. apply _. Defined.

#[global] Instance packet_wf_dec p : Decision (packet_wf p).
Proof. unfold packet_wf. apply _. Defined.

#[global] Instance well_formed_dec p : Decision (well_formed p).
Proof. unfold well_formed. apply _. Defined.

Section RoundTrip.

Ltac zdm := Z.div_mod_to_equations; lia.

Lemma read_sacks_concat sacks rest :
  Forall sack_wf sacks ->
  (length rest < 8)%nat ->
  forall extra,
  read_sacks (length sacks + extra) (concat (map sack_bytes sacks) ++ rest) = sacks.
Proof.
  intros Hwf Hrest. induction Hwf as [|s sacks Hs Hwf IH]; intros extra.
  - simpl. induction extra as [|e IHe]; [reflexivity |].
    cbn [read_sacks]. destruct (Z.leb_spec 8 (Z.of_nat (length rest))); [lia | apply IHe].
  - cbn [length Nat.add read_sacks map concat].
    rewrite <- app_assoc.
    destruct (Z.leb_spec 8 (Z.of_nat (length (sack_bytes s ++ concat (map sack_bytes sacks) ++ rest)))) as [_ | Hlt].
    + rewrite (take_app_length' (sack_bytes s)) by reflexivity.
      rewrite (drop_app_length' (sack_bytes s)) by reflexivity.
      rewrite parse_sack_bytes by assumption. f_equal. apply IH.
    + rewrite length_app, sack_bytes_length in Hlt. lia.
Qed.

(** What [deserialize] returns on a buffer made of a header, the payload
    the header announces and a tail. *)
Lemma deserialize_layout hb pl sb :
  length hb = 20%nat ->
  data_length (parse_header hb) = Z.of_nat (length pl) ->
  Z.of_nat (length pl) <= MAX_DATA_SIZE ->
  deserialize (hb ++ pl ++ sb) =
    Some (mkPacket (parse_header hb)
            (pl ++ replicate (Z.to_nat MAX_DATA_SIZE - length pl) 0)
            (read_sacks (Z.to_nat (sack_count (parse_header hb))) sb)).
Proof.
  intros Hhb Hdl Hmax. unfold deserialize.
  rewrite !length_app, Hhb.
  destruct (Z.ltb_spec (Z.of_nat (20 + (length pl + length sb))) HEADER_SIZE)
    as [Hlt | _]; [unfold HEADER_SIZE in Hlt; lia |].
  rewrite (take_app_length' hb), (drop_app_length' hb) by done.
  rewrite Hdl.
  destruct pl as [|b pl].
  - simpl. reflexivity.
  - destruct (Z.ltb_spec 0 (Z.of_nat (length (b :: pl)))) as [_ | Hle];
      [| simpl in Hle; lia].
    destruct (Z.leb_spec (HEADER_SIZE + Z.of_nat (length (b :: pl)))
                (Z.of_nat (20 + (length (b :: pl) + length sb)))) as [_ | Hgt];
      [| unfold HEADER_SIZE in Hgt; lia].
    cbn [andb].
    destruct (Z.leb_spec (Z.of_nat (length (b :: pl))) MAX_DATA_SIZE) as [_ | Hgt];
      [| lia].
    rewrite Nat2Z.id.
    rewrite (take_app_length' (b :: pl)), (drop_app_length' (b :: pl)) by done.
    reflexivity.
Qed.

Lemma payload_length p :
  length (data p) = Z.to_nat MAX_DATA_SIZE ->
  0 <= data_length (header p) <= MAX_DATA_SIZE ->
  length (payload p) = Z.to_nat (data_length (header p)).
Proof. intros Hlen Hdl. unfold payload. rewrite length_take. lia. Qed.

Lemma payload_pad p :
  length (data p) = Z.to_nat MAX_DATA_SIZE ->
  0 <= data_length (header p) <= MAX_DATA_SIZE ->
  payload (pad_payload p) = payload p.
Proof.
  intros Hlen Hdl. unfold pad_payload, payload at 1. cbn [header data].
  rewrite take_app_length'; [reflexivity |]. symmetry. by apply payload_length.
Qed.

Lemma deserialize_serialize p :
  well_formed p -> deserialize (serialize p) = Some (pad_payload p).
Proof.
  intros ((Hh & Hlen & Hbytes & Hsacks) & Hdl & Hcount).
  assert (Hdl0 : 0 <= data_length (header p)) by (destruct Hh; lia).
  pose proof (payload_length p Hlen (conj Hdl0 Hdl)) as Hpl.
  unfold serialize.
  rewrite deserialize_layout.
  - rewrite parse_header_bytes by assumption. unfold pad_payload.
    rewrite Hpl, Hcount, Nat2Z.id.
    pose proof (read_sacks_concat (sack_blocks p) [] Hsacks) as Hr.
    specialize (Hr ltac:(simpl; lia) 0%nat).
    rewrite app_nil_r, Nat.add_0_r in Hr. rewrite Hr. reflexivity.
  - apply header_bytes_length.
  - rewrite parse_header_bytes by assumption. lia.
  - lia.
Qed.

End RoundTrip.

Section Verification.

Ltac zdm := Z.div_mod_to_equations; lia.

Lemma set_checksum_well_formed c p :
  0 <= c < 2 ^ 16 -> well_formed p -> well_formed (set_checksum c p).
Proof.
  intros Hc ((Hh & Hrest) & Hdl & Hcount).
  destruct Hh as (Ht & Hf & _ & Hh).
  repeat split; simpl; try tauto; lia.
Qed.

Lemma pad_payload_bytes p :
  Forall is_byte (data p) -> Forall is_byte (data (pad_payload p)).
Proof.
  intros Hb. unfold pad_payload. cbn [data].
  apply Forall_app_2; [by apply payload_bytes |].
  apply Forall_replicate. unfold is_byte. lia.
Qed.

Lemma raw_sum_v1_set_checksum c p : raw_sum_v1 (set_checksum c p) = raw_sum_v1 p.
Proof. destruct p as [[] ? ?]. reflexivity. Qed.

Lemma raw_sum_v1_pad p :
  length (data p) = Z.to_nat MAX_DATA_SIZE ->
  0 <= data_length (header p) <= MAX_DATA_SIZE ->
  raw_sum_v1 (pad_payload p) = raw_sum_v1 p.
Proof.
  intros Hlen Hdl. unfold raw_sum_v1. rewrite payload_pad by assumption.
  reflexivity.
Qed.

Lemma verify_v1_sealed p :
  well_formed p -> verify_checksum_v1 (pad_payload (seal_v1 p)) = true.
Proof.
  intros ((Hh & Hlen & Hrest) & Hdl & Hcount).
  assert (Hdl0 : 0 <= data_length (header p)) by (destruct Hh; lia).
  unfold verify_checksum_v1, calculate_checksum_v1.
  rewrite raw_sum_v1_set_checksum.
  rewrite raw_sum_v1_pad by (simpl; auto).
  unfold seal_v1. rewrite raw_sum_v1_set_checksum.
  apply Z.eqb_eq. reflexivity.
Qed.

Lemma total_v2_set_checksum c p :
  total_v2 (set_checksum c p) =
  total_v2 (set_checksum 0 p) + 256 * (c mod 256) + c / 256 mod 256.
Proof.
  destruct p as [[] ? ?]. unfold total_v2, set_checksum, payload, header_bytes.
  cbn [header data sack_blocks type flags checksum seq_num ack_num window_size
       data_length sack_count app le16 le32 word_sum].
  change (0 mod 256) with 0. change (0 / 256 mod 256) with 0. lia.
Qed.

Lemma total_v2_pad p :
  length (data p) = Z.to_nat MAX_DATA_SIZE ->
  0 <= data_length (header p) <= MAX_DATA_SIZE ->
  total_v2 (pad_payload p) = total_v2 p.
Proof.
  intros Hlen Hdl. unfold total_v2. rewrite payload_pad by assumption.
  reflexivity.
Qed.

Lemma total_v2_bounds p :
  header_wf (header p) -> Forall is_byte (data p) ->
  0 <= total_v2 p <= 65535 * Z.of_nat (length (serialize p)).
Proof.
  intros Hh Hd. unfold total_v2, serialize. rewrite !length_app.
  pose proof (word_sum_bounds _ (header_bytes_are_bytes _ Hh)).
  pose proof (word_sum_bounds _ (payload_bytes _ Hd)).
  pose proof (word_sum_bounds _ (concat_sack_bytes_are_bytes (sack_blocks p))).
  lia.
Qed.

Lemma serialize_set_checksum_length c p :
  length (serialize (set_checksum c p)) = length (serialize p).
Proof. destruct p as [[] ? ?]. reflexivity. Qed.

Lemma htons_word c :
  0 <= c < 2 ^ 16 -> 256 * (htons c mod 256) + htons c / 256 mod 256 = c.
Proof. unfold htons. intros Hc. zdm. Qed.

Lemma verify_v2_sealed p :
  well_formed p -> fits_datagram p ->
  verify_checksum_v2 (pad_payload (seal_v2 (set_checksum 0 p))) = true.
Proof.
  intros Hwf Hfit.
  pose proof (set_checksum_well_formed 0 p ltac:(lia) Hwf) as Hwf0.
  set (p0 := set_checksum 0 p) in *.
  pose proof Hwf0 as Hwf0'.
  destruct Hwf0 as ((Hh0 & Hlen0 & Hb0 & Hs0) & Hdl0 & Hc0).
  assert (Hdl00 : 0 <= data_length (header p0)) by (destruct Hh0; lia).
  (* the sum the sender folds *)
  pose proof (total_v2_bounds p0 Hh0 Hb0) as HT0.
  unfold fits_datagram, MAX_DATAGRAM in Hfit.
  rewrite <- (serialize_set_checksum_length 0) in Hfit. fold p0 in Hfit.
  assert (Hraw0 : raw_sum_v2 p0 = total_v2 p0).
  { rewrite raw_sum_v2_spec by assumption. apply Z.mod_small. lia. }
  destruct (fold_carries_settles (total_v2 p0) ltac:(lia))
    as (_ & Hr0 & (k0 & Hk0 & HTk0) & Hz0).
  set (r0 := fold_carries 2 (total_v2 p0)) in *.
  assert (Hc : calculate_checksum_v2 p0 = 65535 - r0).
  { unfold calculate_checksum_v2. rewrite Hraw0. by apply complement16_spec. }
  (* the sum the receiver folds *)
  unfold verify_checksum_v2, calculate_checksum_v2, seal_v2.
  rewrite Hc.
  set (q := set_checksum (htons (65535 - r0)) p0).
  assert (Hq : well_formed q).
  { apply set_checksum_well_formed; [apply htons_range | assumption]. }
  destruct Hq as ((Hhq & Hlenq & Hbq & Hsq) & Hdlq & Hcq).
  assert (HTq : total_v2 (pad_payload q) = total_v2 p0 + (65535 - r0)).
  { rewrite total_v2_pad by (auto; destruct Hhq; lia).
    unfold q, p0. rewrite total_v2_set_checksum.
    assert (Hp00 : set_checksum 0 (set_checksum 0 p) = set_checksum 0 p)
      by (destruct p as [[] ? ?]; reflexivity).
    rewrite Hp00. rewrite <- Z.add_assoc, htons_word by lia. reflexivity. }
  assert (Hrawq : raw_sum_v2 (pad_payload q) = total_v2 p0 + (65535 - r0)).
  { rewrite raw_sum_v2_spec by (auto using pad_payload_bytes).
    rewrite HTq. apply Z.mod_small. lia. }
  rewrite Hrawq.
  destruct (fold_carries_settles (total_v2 p0 + (65535 - r0)) ltac:(lia))
    as (_ & Hr2 & (k2 & Hk2 & HTk2) & Hz2).
  set (r2 := fold_carries 2 (total_v2 p0 + (65535 - r0))) in *.
  rewrite complement16_spec by assumption.
  apply Z.eqb_eq.
  assert (r2 <> 0) by lia.
  assert (r2 = 65535 * (k0 + 1 - k2)) by lia.
  lia.
Qed.

(** Equality of packets up to the part of the payload array behind
    [data_length]. *)
Definition modulo_padding (a b : Packet) : Prop :=
  header a = header b /\ payload a = payload b /\
  sack_blocks a = sack_blocks b.

Lemma pad_payload_modulo_padding p :
  well_formed p -> modulo_padding (pad_payload p) p.
Proof.
  intros ((Hh & Hlen & _) & Hdl & _).
  repeat split. apply payload_pad; [assumption |]. destruct Hh; lia.
Qed.

(** C1. Codec round trip: a well-formed packet whose checksum field was
    filled the way the senders fill it comes back from
    [deserialize (serialize _)] equal up to the padding of the payload
    array, and the result passes [verify_checksum]; for the first text
    of [protocol.h] with [checksum = calculate_checksum()], for the
    second text with [checksum = htons(calculate_checksum())]. *)
Theorem codec_round_trip (p : Packet) :
  well_formed p -> fits_datagram p ->
  let q1 := seal_v1 p in
  let q2 := seal_v2 (set_checksum 0 p) in
  (exists r, deserialize (serialize q1) = Some r /\
             modulo_padding r q1 /\ verify_checksum_v1 r = true) /\
  (exists r, deserialize (serialize q2) = Some r /\
             modulo_padding r q2 /\ verify_checksum_v2 r = true).
Proof.
  intros Hwf Hfit q1 q2.
  assert (Hq1 : well_formed q1).
  { apply set_checksum_well_formed; [apply complement16_range | assumption]. }
  assert (Hq2 : well_formed q2).
  { apply set_checksum_well_formed; [apply htons_range |].
    apply set_checksum_well_formed; [lia | assumption]. }
  split.
  - exists (pad_payload q1). split; [by apply deserialize_serialize |].
    split; [by apply pad_payload_modulo_padding | by apply verify_v1_sealed].
  - exists (pad_payload q2). split; [by apply deserialize_serialize |].
    split; [by apply pad_payload_modulo_padding | by apply verify_v2_sealed].
Qed.

End Verification.

(** ** Buffers that are too short *)

(** The buffer is shorter than the header, or shorter than the header
    it starts with says. *)
Definition cannot_satisfy (buffer : list Z) : Prop :=
  let len := Z.of_nat (length buffer) in
  let h := parse_header (take 20 buffer) in
  len < HEADER_SIZE \/
  len < HEADER_SIZE + data_length h + 8 * sack_count h.

(** A DATA packet for sequence 7 whose two payload bytes are zero. *)
Definition zero_payload_packet : Packet :=
  mkPacket (mkHeader DATA 0 0 7 0 0 2 0) (data empty_packet) [].

(** The datagram comes from the locked client, or no client is locked. *)
Definition accepted_from (from : Endpoint) (r : Receiver.t) : Prop :=
  Receiver.client_locked r = false \/
  same_endpoint from (Receiver.client_addr r) = true.

(** The receiver as [receive_packet] leaves it for the handlers. *)
Definition received_from (from : Endpoint) (r : Receiver.t) : Receiver.t :=
  Receiver.set_total_packets_received
    ((Receiver.total_packets_received r + 1) mod 2 ^ 64)
    (Receiver.set_sender_addr from r).

(** A receiver in [ESTABLISHED] that expects sequence 7 from its locked
    client. *)
Definition waiting_receiver : Receiver.t :=
  Receiver.mk (1, 9000) ESTABLISHED 7 ∅ ∅ [Receiver.SinkOpen [111]] 0 0
    true (1, 9000) [].

Section ShortBuffers.

Lemma read_sacks_within n rest :
  (length (read_sacks n rest) <= n)%nat /\
  (8 * length (read_sacks n rest) <= length rest)%nat.
Proof.
  revert rest. induction n as [|n IH]; intros rest; [simpl; lia |].
  cbn [read_sacks].
  destruct (Z.leb_spec 8 (Z.of_nat (length rest))) as [Hfit | Hshort].
  - destruct (IH (drop 8 rest)) as [H1 H2].
    rewrite length_drop in H2. cbn [length]. lia.
  - destruct (IH rest) as [H1 H2]. lia.
Qed.

Lemma empty_packet_rejected :
  verify_checksum_v1 empty_packet = false /\
  verify_checksum_v2 empty_packet = false.
Proof. split; vm_compute; reflexivity. Qed.

Lemma nonempty_received (buffer : list Z) :
  buffer <> [] -> negb (0 <? Z.of_nat (length buffer)) = false.
Proof.
  intros Hne. destruct buffer; [contradiction |].
  apply negb_false_iff, Z.ltb_lt. simpl. lia.
Qed.

Lemma accepted_gate from (r : Receiver.t) :
  accepted_from from r ->
  Receiver.client_locked r
    && negb (same_endpoint from (Receiver.client_addr r)) = false.
Proof. intros [-> | ->]; [reflexivity | apply andb_false_r]. Qed.

(** What a receiver does with an accepted datagram whose packet fails
    verification: it counts the packet and goes on. *)
Lemma rejected_is_dropped `{ProtocolH} from buffer p (r : Receiver.t) :
  buffer <> [] -> accepted_from from r ->
  deserialize buffer = Some p ->
  verify_checksum p = false ->
  Receiver.run_iteration (Some (from, buffer)) r =
    Some (received_from from r, false).
Proof.
  intros Hne Hfrom Hde Hver.
  unfold Receiver.run_iteration, Receiver.receive_packet.
  rewrite (nonempty_received _ Hne).
  cbn [Receiver.client_locked Receiver.set_sender_addr Receiver.sender_addr
       Receiver.client_addr].
  rewrite (accepted_gate _ _ Hfrom), Hde.
  cbn [Receiver.total_packets_received]. rewrite Hver.
  reflexivity.
Qed.

(** A datagram without bytes is not a packet. *)
Lemma empty_is_ignored `{ProtocolH} from (r : Receiver.t) :
  Receiver.run_iteration (Some (from, [])) r =
    Some (Receiver.set_sender_addr from r, false).
Proof. reflexivity. Qed.

(** C7, as the code has it. On a buffer that cannot satisfy its header,
    and whose declared payload either fits the payload array or is not
    there, [deserialize] returns a packet built from bytes of the buffer
    only: the empty packet when the header is incomplete, otherwise the
    header as received, a zero payload when [data_length] cannot be
    satisfied, and no more SACK blocks than fit and than [sack_count].
    The empty packet fails verification, and a result within the
    payload array that fails verification is dropped by [run] without a
    reply. (When the header of a short buffer announces more than
    [MAX_DATA_SIZE] bytes, [verify_checksum] reads past [data].) *)
Theorem truncated_buffer_handling (buffer : list Z) :
  let len := Z.of_nat (length buffer) in
  let h := parse_header (take 20 buffer) in
  Forall is_byte buffer ->
  cannot_satisfy buffer ->
  (HEADER_SIZE <= len ->
   data_length h <= MAX_DATA_SIZE \/ len < HEADER_SIZE + data_length h) ->
  exists p,
    deserialize buffer = Some p /\
    (len < HEADER_SIZE ->
     p = empty_packet /\
     verify_checksum_v1 p = false /\ verify_checksum_v2 p = false) /\
    (HEADER_SIZE <= len ->
     header p = h /\
     (len < HEADER_SIZE + data_length h -> data p = data empty_packet) /\
     Z.of_nat (length (sack_blocks p)) <= sack_count h /\
     8 * Z.of_nat (length (sack_blocks p)) <= len - HEADER_SIZE) /\
    (forall (proto : ProtocolH) from (r : Receiver.t),
       accepted_from from r ->
       fits_array p ->
       verify_checksum p = false ->
       exists r',
         Receiver.run_iteration (Some (from, buffer)) r = Some (r', false) /\
         Receiver.sent r' = Receiver.sent r /\
         Receiver.state r' = Receiver.state r /\
         Receiver.output_file r' = Receiver.output_file r /\
         Receiver.expected_seq r' = Receiver.expected_seq r).
Proof.
  intros len h Hbytes Hshort Hsafe.
  assert (Hdrop : forall p, deserialize buffer = Some p ->
    forall (proto : ProtocolH) from (r : Receiver.t),
       accepted_from from r ->
       fits_array p ->
       verify_checksum p = false ->
       exists r',
         Receiver.run_iteration (Some (from, buffer)) r = Some (r', false) /\
         Receiver.sent r' = Receiver.sent r /\
         Receiver.state r' = Receiver.state r /\
         Receiver.output_file r' = Receiver.output_file r /\
         Receiver.expected_seq r' = Receiver.expected_seq r).
  { intros p Hde proto from r Hfrom _ Hver.
    destruct (decide (buffer = [])) as [-> | Hne].
    - eexists. split; [apply empty_is_ignored |]. repeat split.
    - eexists. split; [eapply rejected_is_dropped; eassumption |].
      repeat split. }
  unfold deserialize in *. fold len in Hdrop |- *. fold h in Hdrop |- *.
  destruct (Z.ltb_spec len HEADER_SIZE) as [Hlt | Hge].
  - exists empty_packet. split; [reflexivity |].
    split; [intros _; split; [reflexivity | apply empty_packet_rejected] |].
    split; [lia | by apply Hdrop].
  - specialize (Hsafe Hge).
    assert (Hh : header_wf h).
    { apply parse_header_wf; [| by apply Forall_take].
      rewrite length_take. unfold len, HEADER_SIZE in Hge. lia. }
    assert (Hsc : 0 <= sack_count h) by (destruct Hh as (_&_&_&_&_&_&_&?); lia).
    assert (Hdl : 0 <= data_length h) by (destruct Hh as (_&_&_&_&_&_&?&_); lia).
    destruct ((0 <? data_length h) && (HEADER_SIZE + data_length h <=? len))
      eqn:Hcopy.
    + apply andb_true_iff in Hcopy as [Hpos Hfit].
      apply Z.ltb_lt in Hpos. apply Z.leb_le in Hfit.
      destruct (Z.leb_spec (data_length h) MAX_DATA_SIZE) as [Hmax | Hover];
        [| lia].
      eexists. split; [reflexivity |]. split; [lia |].
      split; [| by apply Hdrop].
      intros _. cbn [header data sack_blocks]. split; [reflexivity |].
      split; [lia |].
      match goal with |- context [read_sacks ?n ?rest] =>
        destruct (read_sacks_within n rest) as [H1 H2];
        assert (Hlen : (length rest <= length buffer - 20)%nat)
          by (rewrite !length_drop; lia)
      end.
      unfold len, HEADER_SIZE in *. split; lia.
    + eexists. split; [reflexivity |]. split; [lia |].
      split; [| by apply Hdrop].
      intros _. cbn [header data sack_blocks]. split; [reflexivity |].
      split; [reflexivity |].
      match goal with |- context [read_sacks ?n ?rest] =>
        destruct (read_sacks_within n rest) as [H1 H2];
        assert (Hlen : (length rest <= length buffer - 20)%nat)
          by (rewrite !length_drop; lia)
      end.
      unfold len, HEADER_SIZE in *. split; lia.
Qed.

End ShortBuffers.

(** A two-byte DATA packet used to exercise the codec. *)
Definition sample_packet : Packet :=
  mkPacket (mkHeader DATA 0 0 7 0 0 2 0)
    ([104; 105] ++ replicate 1022 0) [].

(** The packet [zero_payload_packet] as each family of senders seals it,
    cut after the header. *)
Definition header_only_v1 : list Z :=
  take 20 (serialize (seal_v1 zero_payload_packet)).
Definition header_only_v2 : list Z :=
  take 20 (serialize (seal_v2 zero_payload_packet)).

(** What is looked at in the state a receiver iteration returns. *)
Definition receiver_view (x : option (Receiver.t * bool)) :=
  option_map
    (fun '(r, stop) =>
       (Receiver.state r, Receiver.expected_seq r,
        Receiver.written (Receiver.output_file r),
        map (fun d => (pkt_type d.2, pkt_ack d.2)) (Receiver.sent r), stop))
    x.

Section CodecInstances.

Lemma codec_round_trip_witness :
  well_formed sample_packet /\ fits_datagram sample_packet /\
  exists r, deserialize (serialize (seal_v1 sample_packet)) = Some r /\
            verify_checksum_v1 r = true.
Proof.
  assert (Hwf : well_formed sample_packet)
    by (apply (bool_decide_unpack _); vm_compute; reflexivity).
  assert (Hfit : fits_datagram sample_packet)
    by (vm_compute; intros H; discriminate H).
  split; [exact Hwf | split; [exact Hfit |]].
  destruct (codec_round_trip sample_packet Hwf Hfit) as [(r & Hr & _ & Hv) _].
  exists r. split; [exact Hr | exact Hv].
Defined.

(** C7 fails as stated. The 20 header bytes of a sealed DATA packet
    that announces two payload bytes, received without the payload,
    deserialize to a packet that passes verification under either text
    of [protocol.h]; an established receiver takes it for sequence 7,
    writes two zero bytes and acknowledges. *)
Lemma truncated_buffer_accepted :
  cannot_satisfy header_only_v1 /\ cannot_satisfy header_only_v2 /\
  deserialize header_only_v1 = Some (seal_v1 zero_payload_packet) /\
  verify_checksum_v1 (seal_v1 zero_payload_packet) = true /\
  deserialize header_only_v2 = Some (seal_v2 zero_payload_packet) /\
  verify_checksum_v2 (seal_v2 zero_payload_packet) = true /\
  receiver_view
    (@Receiver.run_iteration protocol_v2
       (Some ((1, 9000), header_only_v2)) waiting_receiver)
  = Some (ESTABLISHED, 8, [[0; 0]], [(ACK, 8)], false).
Proof.
  split; [right; vm_compute; reflexivity |].
  split; [right; vm_compute; reflexivity |].
  repeat split; vm_compute; reflexivity.
Qed.

Lemma truncated_buffer_handling_witness :
  Forall is_byte header_only_v2 /\ cannot_satisfy header_only_v2 /\
  exists p, deserialize header_only_v2 = Some p.
Proof.
  assert (Hb : Forall is_byte header_only_v2)
    by (apply (bool_decide_unpack _); vm_compute; reflexivity).
  assert (Hs : cannot_satisfy header_only_v2)
    by (right; vm_compute; reflexivity).
  split; [exact Hb | split; [exact Hs |]].
  destruct (truncated_buffer_handling header_only_v2 Hb Hs) as (p & Hp & _).
  - intros _. left. vm_compute. intros H; discriminate H.
  - exists p. exact Hp.
Defined.

End CodecInstances.

(** ** Corrupted bytes *)

(** Bit [j] of byte [i] of the buffer inverted. *)
Definition flip_bit (buffer : list Z) (i : nat) (j : Z) : list Z :=
  alter (fun b => Z.lxor b (2 ^ j)) i buffer.

(** Offsets of the header fields. *)
Definition in_checksum_field (i : nat) : Prop := (2 <= i < 4)%nat.
Definition in_length_fields (i : nat) : Prop := (14 <= i < 20)%nat.

(** A DATA packet whose two payload bytes are [0xFD 0xFF]. *)
Definition fragile_packet : Packet :=
  mkPacket (mkHeader DATA 0 0 7 0 0 2 0)
    ([253; 255] ++ replicate 1022 0) [].

(** The header sum of the first text on the header's memory image. *)
Definition hsum_v1 (hb : list Z) : Z := word_sum (take 2 hb) + word_sum (drop 4 hb).

Section CorruptedBytes.

Ltac zdm := Z.div_mod_to_equations; lia.

Lemma alter_as_insert {A} (f : A -> A) (l : list A) i x :
  l !! i = Some x -> alter f i l = <[i := f x]> l.
Proof.
  revert i. induction l as [|a l IH]; intros [|i] Hl; try discriminate.
  - simpl in Hl. injection Hl as ->. reflexivity.
  - simpl in *. f_equal. by apply IH.
Qed.

(** Inverting one bit of a byte gives another byte. *)
Lemma flipped_byte x j :
  is_byte x -> 0 <= j < 8 ->
  is_byte (Z.lxor x (2 ^ j)) /\ Z.lxor x (2 ^ j) <> x.
Proof.
  intros Hx Hj.
  assert (Hall : Forall (fun x => Forall (fun j =>
            is_byte (Z.lxor x (2 ^ j)) /\ Z.lxor x (2 ^ j) <> x) (seqZ 0 8))
          (seqZ 0 256))
    by (apply (bool_decide_unpack _); vm_compute; reflexivity).
  rewrite Forall_forall in Hall.
  specialize (Hall x ltac:(apply elem_of_seqZ; unfold is_byte in Hx; lia)).
  rewrite Forall_forall in Hall.
  apply Hall, elem_of_seqZ. lia.
Qed.

Lemma word_sum_insert l i x y :
  l !! i = Some x ->
  word_sum (<[i := y]> l) =
    word_sum l + (y - x) * (if Nat.even i then 256 else 1).
Proof.
  revert i. induction l as [| a | a b l IH] using pair_induction; intros i Hl.
  - discriminate.
  - destruct i as [|i]; [| discriminate]. injection Hl as ->. simpl. lia.
  - destruct i as [|[|i]].
    + injection Hl as ->. cbn [word_sum]. simpl. lia.
    + injection Hl as ->. cbn [word_sum]. simpl. lia.
    + change (<[S (S i) := y]> (a :: b :: l)) with (a :: b :: <[i := y]> l).
      cbn [word_sum]. rewrite (IH i) by exact Hl.
      change (Nat.even (S (S i))) with (Nat.even i). lia.
Qed.

Lemma concat_read_sacks k sb :
  length sb = (8 * k)%nat -> Forall is_byte sb ->
  concat (map sack_bytes (read_sacks k sb)) = sb.
Proof.
  revert sb. induction k as [|k IH]; intros sb Hlen Hb.
  - destruct sb; [reflexivity | discriminate].
  - cbn [read_sacks].
    destruct (Z.leb_spec 8 (Z.of_nat (length sb))) as [_ | Hlt]; [| lia].
    cbn [map concat].
    rewrite sack_bytes_parse;
      [| rewrite length_take; lia | by apply Forall_take].
    rewrite IH; [apply take_drop | rewrite length_drop; lia | by apply Forall_drop].
Qed.

(** The packet [deserialize] builds from a header image, a payload and
    SACK bytes that agree with the header, and the sums the two texts
    compute on it. *)
Lemma layout_packet hb pl sb k :
  length hb = 20%nat -> Forall is_byte hb -> Forall is_byte pl ->
  Forall is_byte sb ->
  data_length (parse_header hb) = Z.of_nat (length pl) ->
  Z.of_nat (length pl) <= MAX_DATA_SIZE ->
  sack_count (parse_header hb) = Z.of_nat k -> length sb = (8 * k)%nat ->
  exists r,
    deserialize (hb ++ pl ++ sb) = Some r /\
    header r = parse_header hb /\
    header_wf (header r) /\ Forall is_byte (data r) /\
    total_v1 r = hsum_v1 hb + word_sum pl + word_sum sb /\
    total_v2 r = word_sum hb + word_sum pl + word_sum sb.
Proof.
  intros Hhb Hbh Hbp Hbs Hdl Hmax Hsc Hsb.
  eexists. split; [by apply deserialize_layout |].
  split; [reflexivity |].
  split; [by apply parse_header_wf |].
  split.
  { cbn [data]. apply Forall_app_2; [assumption |].
    apply Forall_replicate. unfold is_byte. lia. }
  assert (Hpay : forall d s,
    payload (mkPacket (parse_header hb)
               (pl ++ replicate d 0) s) = pl).
  { intros d s. unfold payload. cbn [header data]. rewrite Hdl, Nat2Z.id.
    by rewrite take_app_length. }
  unfold total_v1, total_v2, hsum_v1. rewrite Hpay. cbn [header sack_blocks].
  rewrite header_bytes_parse by assumption.
  rewrite Hsc, Nat2Z.id, concat_read_sacks by assumption.
  split; reflexivity.
Qed.

(** Equal folds mean equal sums modulo [0xFFFF]. *)
Lemma fold_carries_congruent a b :
  0 <= a < 2 ^ 32 -> 0 <= b < 2 ^ 32 ->
  fold_carries 2 a = fold_carries 2 b -> exists k, a - b = 65535 * k.
Proof.
  intros Ha Hb Heq.
  destruct (fold_carries_settles a Ha) as (_ & _ & (ka & _ & Hka) & _).
  destruct (fold_carries_settles b Hb) as (_ & _ & (kb & _ & Hkb) & _).
  rewrite Heq in Hka. exists (ka - kb). lia.
Qed.

(** A sum that leaves the multiples of [0xFFFF] is rejected by the
    second text. *)
Lemma off_by_delta_v2 r m d :
  header_wf (header r) -> Forall is_byte (data r) ->
  0 <= total_v2 r < 2 ^ 32 ->
  total_v2 r = 65535 * m + d -> d <> 0 -> -65535 < d < 65535 ->
  verify_checksum_v2 r = false.
Proof.
  intros Hh Hb Hrange Htot Hd Hdr.
  unfold verify_checksum_v2, calculate_checksum_v2.
  rewrite raw_sum_v2_spec, Z.mod_small by assumption.
  destruct (fold_carries_settles (total_v2 r) Hrange)
    as (_ & Hr & (k & Hk & Hsum) & Hz).
  rewrite complement16_spec by assumption.
  apply Z.eqb_neq. intros Heq.
  assert (fold_carries 2 (total_v2 r) = 65535) by lia.
  assert (d = 65535 * (1 + k - m)) by lia. lia.
Qed.

(** A sum that differs from the one the stored checksum was computed
    from, by less than [0xFFFF], is rejected by the first text. *)
Lemma off_by_delta_v1 r t d :
  header_wf (header r) -> Forall is_byte (data r) ->
  0 <= t < 2 ^ 32 -> 0 <= total_v1 r < 2 ^ 32 ->
  checksum (header r) = complement16 (fold_carries 2 t) ->
  total_v1 r = t + d -> d <> 0 -> -65535 < d < 65535 ->
  verify_checksum_v1 r = false.
Proof.
  intros Hh Hb Ht Hrange Hstored Htot Hd Hdr.
  unfold verify_checksum_v1, calculate_checksum_v1.
  rewrite raw_sum_v1_set_checksum.
  rewrite raw_sum_v1_spec, Z.mod_small by assumption.
  rewrite Hstored.
  destruct (fold_carries_settles (total_v1 r) Hrange) as (_ & Hr & _).
  destruct (fold_carries_settles t Ht) as (_ & Hrt & _).
  rewrite !complement16_spec by assumption.
  apply Z.eqb_neq. intros Heq.
  destruct (fold_carries_congruent (total_v1 r) t Hrange Ht ltac:(lia))
    as (k & Hk).
  assert (d = 65535 * k) by lia. lia.
Qed.

End CorruptedBytes.

Section BitFlips.

Ltac zdm := Z.div_mod_to_equations; lia.

Lemma header_byte_replaced hb i x y :
  length hb = 20%nat -> hb !! i = Some x ->
  ~ in_checksum_field i -> ~ in_length_fields i ->
  data_length (parse_header (<[i := y]> hb)) = data_length (parse_header hb) /\
  sack_count (parse_header (<[i := y]> hb)) = sack_count (parse_header hb) /\
  checksum (parse_header (<[i := y]> hb)) = checksum (parse_header hb) /\
  word_sum (<[i := y]> hb) =
    word_sum hb + (y - x) * (if Nat.even i then 256 else 1) /\
  hsum_v1 (<[i := y]> hb) =
    hsum_v1 hb + (y - x) * (if Nat.even i then 256 else 1).
Proof.
  intros Hlen Hl Hck Hlf. unfold in_checksum_field, in_length_fields in *.
  do 20 (destruct hb as [|? hb]; [discriminate Hlen |]).
  destruct hb; [| discriminate Hlen].
  do 20 (destruct i as [|i];
    [ first [ lia
            | injection Hl as ->; unfold parse_header, hsum_v1;
              cbn -[Z.mul Z.add Z.sub]; repeat split; lia ] |]).
  discriminate Hl.
Qed.

Lemma replaced_delta (x y : Z) (even : bool) :
  is_byte x -> is_byte y -> y <> x ->
  let d := (y - x) * (if even then 256 else 1) in
  d <> 0 /\ -65535 < d < 65535.
Proof. unfold is_byte. intros Hx Hy Hne. destruct even; lia. Qed.

Lemma total_v1_bounds p :
  header_wf (header p) -> Forall is_byte (data p) ->
  0 <= total_v1 p <= 65535 * Z.of_nat (length (serialize p)).
Proof.
  intros Hh Hd. unfold total_v1, serialize. rewrite !length_app.
  pose proof (header_bytes_are_bytes _ Hh) as Hb.
  assert (H1 := word_sum_bounds (take 2 (header_bytes (header p)))
                  ltac:(by apply Forall_take)).
  assert (H2 := word_sum_bounds (drop 4 (header_bytes (header p)))
                  ltac:(by apply Forall_drop)).
  rewrite length_take in H1. rewrite length_drop in H2.
  rewrite header_bytes_length in *.
  pose proof (word_sum_bounds _ (payload_bytes _ Hd)).
  pose proof (word_sum_bounds _ (concat_sack_bytes_are_bytes (sack_blocks p))).
  lia.
Qed.

(** Replacing one byte of a serialized packet, outside the checksum and
    the two length fields, by a different byte moves both sums by a
    non-zero amount below [0xFFFF] and leaves the stored checksum. *)
Lemma byte_replaced q i x y :
  well_formed q -> serialize q !! i = Some x ->
  is_byte y -> y <> x ->
  ~ in_checksum_field i -> ~ in_length_fields i ->
  exists r d,
    deserialize (<[i := y]> (serialize q)) = Some r /\
    header_wf (header r) /\ Forall is_byte (data r) /\
    checksum (header r) = checksum (header q) /\
    total_v1 r = total_v1 q + d /\ total_v2 r = total_v2 q + d /\
    d <> 0 /\ -65535 < d < 65535.
Proof.
  intros ((Hh & Hlen & Hbytes & Hsacks) & Hdl & Hcount) Hx Hy Hne Hck Hlf.
  assert (Hdl0 : 0 <= data_length (header q)) by (destruct Hh; lia).
  pose proof (payload_length q Hlen (conj Hdl0 Hdl)) as Hpl.
  pose proof (header_bytes_are_bytes _ Hh) as Hbh.
  pose proof (payload_bytes _ Hbytes) as Hbp.
  pose proof (concat_sack_bytes_are_bytes (sack_blocks q)) as Hbs.
  pose proof (concat_sack_bytes_length (sack_blocks q)) as Hls.
  pose proof (parse_header_bytes _ Hh) as Hparse.
  unfold serialize in *.
  set (hb := header_bytes (header q)) in *.
  set (pl := payload q) in *.
  set (sb := concat (map sack_bytes (sack_blocks q))) in *.
  assert (Hhb : length hb = 20%nat) by reflexivity.
  assert (Htot1 : total_v1 q = hsum_v1 hb + word_sum pl + word_sum sb)
    by reflexivity.
  assert (Htot2 : total_v2 q = word_sum hb + word_sum pl + word_sum sb)
    by reflexivity.
  assert (Hxb : is_byte x).
  { eapply Forall_lookup_1; [| exact Hx].
    apply Forall_app_2; [exact Hbh |].
    apply Forall_app_2; [exact Hbp | exact Hbs]. }
  destruct (Nat.lt_ge_cases i 20) as [Hi | Hi].
  - (* the byte is in the header *)
    rewrite lookup_app_l in Hx by lia.
    rewrite insert_app_l by lia.
    destruct (header_byte_replaced hb i x y Hhb Hx Hck Hlf)
      as (Hd' & Hs' & Hc' & Hw2 & Hw1).
    destruct (layout_packet (<[i := y]> hb) pl sb (length (sack_blocks q)))
      as (r & Hr & Hhr & Hwf & Hbr & Ht1 & Ht2).
    all: try (rewrite ?length_insert; auto using Forall_insert; fail).
    + rewrite Hd', Hparse. lia.
    + lia.
    + rewrite Hs', Hparse. exact Hcount.
    + destruct (replaced_delta x y (Nat.even i) Hxb Hy Hne) as [Hnz Hrange].
      exists r, ((y - x) * (if Nat.even i then 256 else 1)).
      split; [exact Hr |]. split; [exact Hwf |]. split; [exact Hbr |].
      split; [rewrite Hhr, Hc', Hparse; reflexivity |].
      split; [lia |]. split; [lia |]. split; assumption.
  - rewrite lookup_app_r in Hx by lia.
    rewrite insert_app_r_alt by lia. rewrite Hhb in *.
    destruct (Nat.lt_ge_cases (i - 20) (length pl)) as [Hp | Hp].
    + (* the byte is in the payload *)
      rewrite lookup_app_l in Hx by lia.
      rewrite insert_app_l by lia.
      destruct (layout_packet hb (<[(i - 20)%nat := y]> pl) sb (length (sack_blocks q)))
        as (r & Hr & Hhr & Hwf & Hbr & Ht1 & Ht2).
      all: try (rewrite ?length_insert; auto using Forall_insert; fail).
      * rewrite length_insert, Hparse. lia.
      * rewrite length_insert. lia.
      * rewrite Hparse. exact Hcount.
      * rewrite (word_sum_insert pl (i - 20)%nat x y Hx) in Ht1, Ht2.
        destruct (replaced_delta x y (Nat.even (i - 20)%nat) Hxb Hy Hne)
          as [Hnz Hrange].
        exists r, ((y - x) * (if Nat.even (i - 20)%nat then 256 else 1)).
        split; [exact Hr |]. split; [exact Hwf |]. split; [exact Hbr |].
        split; [rewrite Hhr, Hparse; reflexivity |].
        split; [lia |]. split; [lia |]. split; assumption.
    + (* the byte is in a SACK block *)
      rewrite lookup_app_r in Hx by lia.
      rewrite insert_app_r_alt by lia.
      destruct (layout_packet hb pl (<[(i - 20 - length pl)%nat := y]> sb)
                  (length (sack_blocks q)))
        as (r & Hr & Hhr & Hwf & Hbr & Ht1 & Ht2).
      all: try (rewrite ?length_insert; auto using Forall_insert; fail).
      * rewrite Hparse. lia.
      * lia.
      * rewrite Hparse. exact Hcount.
      * rewrite (word_sum_insert sb (i - 20 - length pl)%nat x y Hx) in Ht1, Ht2.
        destruct (replaced_delta x y (Nat.even (i - 20 - length pl)%nat) Hxb Hy Hne)
          as [Hnz Hrange].
        exists r, ((y - x) * (if Nat.even (i - 20 - length pl)%nat then 256 else 1)).
        split; [exact Hr |]. split; [exact Hwf |]. split; [exact Hbr |].
        split; [rewrite Hhr, Hparse; reflexivity |].
        split; [lia |]. split; [lia |]. split; assumption.
Qed.

End BitFlips.

Section BitFlipDetection.

Lemma total_v1_set_checksum c p : total_v1 (set_checksum c p) = total_v1 p.
Proof. destruct p as [[] ? ?]. reflexivity. Qed.

Lemma sealed_v2_multiple p :
  well_formed p -> fits_datagram p ->
  exists m, total_v2 (seal_v2 (set_checksum 0 p)) = 65535 * m.
Proof.
  intros Hwf Hfit.
  pose proof (verify_v2_sealed p Hwf Hfit) as Hv.
  set (q := seal_v2 (set_checksum 0 p)) in *.
  assert (Hq : well_formed q).
  { apply set_checksum_well_formed; [apply htons_range |].
    apply set_checksum_well_formed; [lia | assumption]. }
  destruct Hq as ((Hh & Hlen & Hb & Hs) & Hdl & Hc).
  assert (Hdl0 : 0 <= data_length (header q)) by (destruct Hh; lia).
  pose proof (total_v2_bounds q Hh Hb) as Hbound.
  unfold fits_datagram, MAX_DATAGRAM in Hfit.
  unfold q, seal_v2 in Hbound. rewrite !serialize_set_checksum_length in Hbound.
  fold (seal_v2 (set_checksum 0 p)) in Hbound. fold q in Hbound.
  unfold verify_checksum_v2, calculate_checksum_v2 in Hv.
  rewrite raw_sum_v2_spec in Hv by (auto using pad_payload_bytes).
  rewrite total_v2_pad in Hv by (auto; lia).
  rewrite Z.mod_small in Hv by lia.
  destruct (fold_carries_settles (total_v2 q) ltac:(lia))
    as (_ & Hr & (k & Hk & Hsum) & _).
  rewrite complement16_spec in Hv by assumption.
  apply Z.eqb_eq in Hv. exists (k + 1). lia.
Qed.

(** C8, as the code has it. In a serialized, sealed, well-formed packet,
    inverting one bit outside the checksum field and outside the
    [data_length] and [sack_count] fields gives a buffer whose packet
    fails [verify_checksum], under either text of [protocol.h]. *)
Theorem single_bit_flip_detected (p : Packet) (i : nat) (j : Z) :
  well_formed p -> fits_datagram p ->
  (i < length (serialize p))%nat -> 0 <= j < 8 ->
  ~ in_checksum_field i -> ~ in_length_fields i ->
  (exists r, deserialize (flip_bit (serialize (seal_v1 p)) i j) = Some r /\
             verify_checksum_v1 r = false) /\
  (exists r, deserialize
               (flip_bit (serialize (seal_v2 (set_checksum 0 p))) i j) = Some r /\
             verify_checksum_v2 r = false).
Proof.
  intros Hwf Hfit Hi Hj Hck Hlf.
  unfold fits_datagram, MAX_DATAGRAM in Hfit.
  split.
  - set (q := seal_v1 p).
    assert (Hq : well_formed q).
    { apply set_checksum_well_formed; [apply complement16_range | assumption]. }
    assert (Hlenq : length (serialize q) = length (serialize p))
      by apply serialize_set_checksum_length.
    destruct (lookup_lt_is_Some_2 (serialize q) i ltac:(lia)) as [x Hx].
    assert (Hxb : is_byte x).
    { destruct Hq as ((Hh & _ & Hb & _) & _).
      eapply Forall_lookup_1; [| exact Hx]. unfold serialize.
      apply Forall_app_2; [by apply header_bytes_are_bytes |].
      apply Forall_app_2;
        [by apply payload_bytes | apply concat_sack_bytes_are_bytes]. }
    destruct (flipped_byte x j Hxb Hj) as [Hy Hne].
    unfold flip_bit. rewrite (alter_as_insert _ _ _ _ Hx).
    destruct (byte_replaced q i x _ Hq Hx Hy Hne Hck Hlf)
      as (r & d & Hr & Hh & Hb & Hc & Ht1 & _ & Hd & Hrange).
    exists r. split; [exact Hr |].
    destruct Hwf as ((Hhp & Hlenp & Hbp & Hsp) & Hdlp & Hcp).
    pose proof (total_v1_bounds p Hhp Hbp) as Hbound.
    pose proof (total_v1_bounds r Hh Hb) as Hboundr.
    assert (Htq : total_v1 q = total_v1 p) by apply total_v1_set_checksum.
    apply (off_by_delta_v1 r (total_v1 p) d); try assumption; try lia.
    rewrite Hc. unfold q, seal_v1. cbn [set_checksum header checksum].
    unfold calculate_checksum_v1.
    rewrite raw_sum_v1_spec, Z.mod_small by (auto; lia). reflexivity.
  - set (q := seal_v2 (set_checksum 0 p)).
    assert (Hq : well_formed q).
    { apply set_checksum_well_formed; [apply htons_range |].
      apply set_checksum_well_formed; [lia | assumption]. }
    assert (Hlenq : length (serialize q) = length (serialize p)).
    { unfold q, seal_v2. by rewrite !serialize_set_checksum_length. }
    destruct (lookup_lt_is_Some_2 (serialize q) i ltac:(lia)) as [x Hx].
    assert (Hxb : is_byte x).
    { destruct Hq as ((Hh & _ & Hb & _) & _).
      eapply Forall_lookup_1; [| exact Hx]. unfold serialize.
      apply Forall_app_2; [by apply header_bytes_are_bytes |].
      apply Forall_app_2;
        [by apply payload_bytes | apply concat_sack_bytes_are_bytes]. }
    destruct (flipped_byte x j Hxb Hj) as [Hy Hne].
    unfold flip_bit. rewrite (alter_as_insert _ _ _ _ Hx).
    destruct (byte_replaced q i x _ Hq Hx Hy Hne Hck Hlf)
      as (r & d & Hr & Hh & Hb & Hc & _ & Ht2 & Hd & Hrange).
    exists r. split; [exact Hr |].
    destruct (sealed_v2_multiple p Hwf ltac:(unfold fits_datagram, MAX_DATAGRAM; lia))
      as (m & Hm).
    fold q in Hm.
    destruct Hq as ((Hhq & Hlq & Hbq & Hsq) & _).
    pose proof (total_v2_bounds q Hhq Hbq) as Hbound.
    pose proof (total_v2_bounds r Hh Hb) as Hboundr.
    apply (off_by_delta_v2 r m d); try assumption; lia.
Qed.

(** C8 fails as stated. In the sealed packet [fragile_packet], bit 1 of
    byte 14, the low byte of [data_length], is outside the checksum
    field; inverting it turns the length 2 into 0, the payload word
    [0xFDFF] leaves the sum as the header word loses [0x0200], and the
    result passes verification under either text. *)
Lemma undetected_bit_flip :
  well_formed fragile_packet /\ ~ in_checksum_field 14 /\
  option_map verify_checksum_v1
    (deserialize (flip_bit (serialize (seal_v1 fragile_packet)) 14 1))
  = Some true /\
  option_map verify_checksum_v2
    (deserialize
       (flip_bit (serialize (seal_v2 (set_checksum 0 fragile_packet))) 14 1))
  = Some true.
Proof.
  split; [apply (bool_decide_unpack _); vm_compute; reflexivity |].
  split; [unfold in_checksum_field; lia |].
  split; vm_compute; reflexivity.
Qed.

Lemma single_bit_flip_detected_witness :
  well_formed fragile_packet /\ fits_datagram fragile_packet /\
  exists r, deserialize (flip_bit (serialize (seal_v1 fragile_packet)) 20 0)
            = Some r /\ verify_checksum_v1 r = false.
Proof.
  assert (Hwf : well_formed fragile_packet)
    by (apply (bool_decide_unpack _); vm_compute; reflexivity).
  assert (Hfit : fits_datagram fragile_packet)
    by (vm_compute; intros H; discriminate H).
  split; [exact Hwf | split; [exact Hfit |]].
  refine (proj1 (single_bit_flip_detected fragile_packet 20 0 Hwf Hfit _ _ _ _)).
  - vm_compute. lia.
  - lia.
  - unfold in_checksum_field. lia.
  - unfold in_length_fields. lia.
Defined.

End BitFlipDetection.

(** * Properties of the receiver *)

Section ReceiverFacts.
Context {proto : ProtocolH}.

Lemma accepted_is_handled from buffer p (r : Receiver.t) :
  buffer <> [] -> accepted_from from r ->
  deserialize buffer = Some p -> verify_checksum p = true ->
  Receiver.run_iteration (Some (from, buffer)) r =
    Some (Receiver.handle_packet p (received_from from r),
          bool_decide (Receiver.state
                         (Receiver.handle_packet p (received_from from r))
                       = CLOSED)).
Proof.
  intros Hne Hfrom Hde Hver.
  unfold Receiver.run_iteration, Receiver.receive_packet.
  rewrite (nonempty_received _ Hne).
  cbn [Receiver.client_locked Receiver.set_sender_addr Receiver.sender_addr
       Receiver.client_addr].
  rewrite (accepted_gate _ _ Hfrom), Hde. rewrite Hver. reflexivity.
Qed.

Lemma accepted_is_handled_old from buffer p (r : Receiver.t) :
  buffer <> [] -> accepted_from from r ->
  deserialize buffer = Some p -> verify_checksum p = true ->
  Receiver.run_iteration_old (Some (from, buffer)) r =
    Some (Receiver.handle_packet_old p (received_from from r),
          bool_decide (Receiver.state
                         (Receiver.handle_packet_old p (received_from from r))
                       = CLOSED)).
Proof.
  intros Hne Hfrom Hde Hver.
  unfold Receiver.run_iteration_old, Receiver.receive_packet.
  rewrite (nonempty_received _ Hne).
  cbn [Receiver.client_locked Receiver.set_sender_addr Receiver.sender_addr
       Receiver.client_addr].
  rewrite (accepted_gate _ _ Hfrom), Hde. rewrite Hver. reflexivity.
Qed.





End ReceiverFacts.

(** ** Delivery to the sink *)

(** The sequence numbers [e], [e + 1], ... ([n] of them) as [uint32_t]
    counts them. *)
Definition run_from (e : Z) (n : nat) : list Z :=
  map (fun i => (e + Z.of_nat i) mod 2 ^ 32) (seq 0 n).

(** The first packet of an arrival order that carries sequence [k]. *)
Definition first_arrival (k : Z) (pkts : list Packet) : option Packet :=
  List.find (fun p => seq_num (header p) =? k) pkts.

Definition first_payload (k : Z) (pkts : list Packet) : list Z :=
  match first_arrival k pkts with
  | Some p => payload p
  | None => []
  end.

Section Delivery.
Context {proto : ProtocolH}.

(** DATA packets handed to [handle_data] in their order of arrival. *)
Definition deliver (pkts : list Packet) (r : Receiver.t) : Receiver.t :=
  foldl (fun r p => Receiver.handle_data p r) r pkts.

(** The first step of [handle_data]: buffer a sequence not seen yet. *)
Definition buffered (p : Packet) (r : Receiver.t) : Receiver.t :=
  let seq := seq_num (header p) in
  if decide (seq ∈ Receiver.received_seqs r) then r
  else
    let r := Receiver.set_recv_buffer (<[seq := p]> (Receiver.recv_buffer r)) r in
    let r := Receiver.set_received_seqs ({[seq]} ∪ Receiver.received_seqs r) r in
    Receiver.set_total_bytes_received
      ((Receiver.total_bytes_received r + data_length (header p)) mod 2 ^ 64) r.

Lemma handle_data_established p (r : Receiver.t) :
  Receiver.state r = ESTABLISHED ->
  Receiver.handle_data p r =
    Receiver.send_ack
      (Receiver.drain (size (Receiver.recv_buffer (buffered p r))) (buffered p r)).
Proof.
  intros Hs. unfold Receiver.handle_data, buffered.
  destruct (decide (Receiver.state r = ESTABLISHED)); [| contradiction].
  reflexivity.
Qed.

(** What holds between the packets seen so far, the receiver and the
    number [n] of payloads written since the start at sequence [e0] with
    [w0] already in the sink. *)
Definition delivered_inv (e0 : Z) (w0 : list (list Z)) (seen : list Packet)
    (r : Receiver.t) (n : nat) : Prop :=
  Receiver.state r = ESTABLISHED /\
  Receiver.expected_seq r = (e0 + Z.of_nat n) mod 2 ^ 32 /\
  Receiver.written (Receiver.output_file r) =
    w0 ++ map (fun k => first_payload k seen) (run_from e0 n) /\
  NoDup (run_from e0 n) /\
  (forall k, k ∈ run_from e0 n ->
     k ∈ Receiver.received_seqs r /\ Receiver.recv_buffer r !! k = None) /\
  (forall k, k ∈ Receiver.received_seqs r <->
     exists p, p ∈ seen /\ seq_num (header p) = k) /\
  (forall k p, Receiver.recv_buffer r !! k = Some p ->
     first_arrival k seen = Some p).

Lemma run_from_S e n :
  run_from e (S n) = run_from e n ++ [(e + Z.of_nat n) mod 2 ^ 32].
Proof. unfold run_from. rewrite seq_S, map_app. reflexivity. Qed.

Lemma written_app calls c :
  Receiver.written (calls ++ [c]) =
  Receiver.written calls ++
    match c with Receiver.SinkWrite b => [b] | _ => [] end.
Proof.
  unfold Receiver.written. rewrite omap_app. f_equal. destruct c; reflexivity.
Qed.

Lemma first_arrival_seen k seen p :
  first_arrival k seen = Some p -> p ∈ seen /\ seq_num (header p) = k.
Proof.
  intros H. apply find_some in H as [Hin Heq].
  split; [by apply list_elem_of_In | by apply Z.eqb_eq].
Qed.

Lemma first_arrival_app_found k seen more p :
  first_arrival k seen = Some p -> first_arrival k (seen ++ more) = Some p.
Proof.
  unfold first_arrival. induction seen as [|q seen IH]; [discriminate |].
  cbn [app List.find]. destruct (seq_num (header q) =? k); auto.
Qed.

Lemma first_arrival_app_fresh k seen p :
  (forall q, q ∈ seen -> seq_num (header q) <> k) ->
  seq_num (header p) = k ->
  first_arrival k (seen ++ [p]) = Some p.
Proof.
  intros Hfresh Hp. unfold first_arrival.
  induction seen as [|q seen IH].
  - simpl. rewrite Hp, Z.eqb_refl. reflexivity.
  - cbn [app List.find].
    destruct (Z.eqb_spec (seq_num (header q)) k) as [Heq | _].
    + exfalso. apply (Hfresh q); [left | exact Heq].
    + apply IH. intros q' Hq'. apply Hfresh. by right.
Qed.

Lemma first_arrival_exists k seen :
  (exists p, p ∈ seen /\ seq_num (header p) = k) ->
  exists q, first_arrival k seen = Some q.
Proof.
  intros (p & Hin & Hk). unfold first_arrival.
  destruct (List.find _ seen) as [q|] eqn:Hf; [by exists q |].
  exfalso. apply list_elem_of_In in Hin.
  pose proof (find_none _ _ Hf p Hin) as Hnone. simpl in Hnone.
  apply Z.eqb_neq in Hnone. contradiction.
Qed.

(** The reassembly loop keeps the invariant and only moves forward. *)
Lemma drain_keeps e0 w0 seen fuel :
  forall (r : Receiver.t) n,
  delivered_inv e0 w0 seen r n ->
  exists n', (n <= n')%nat /\ delivered_inv e0 w0 seen (Receiver.drain fuel r) n'.
Proof.
  induction fuel as [|fuel IH]; intros r n Hinv; [exists n; split; [lia | exact Hinv] |].
  cbn [Receiver.drain].
  destruct (Receiver.recv_buffer r !! Receiver.expected_seq r) as [pkt|] eqn:Hlk;
    [| exists n; split; [lia | exact Hinv]].
  destruct Hinv as (Hst & Hexp & Hw & Hnd & Hrun & Hrecv & Hbuf).
  match goal with |- context [Receiver.drain fuel ?r1] =>
    destruct (IH r1 (S n)) as (n' & Hle & Hinv'); [| exists n'; split; [lia | exact Hinv']]
  end.
  pose proof (Hbuf _ _ Hlk) as Hfirst.
  destruct (first_arrival_seen _ _ _ Hfirst) as [Hin Hseq].
  unfold delivered_inv.
  cbn [Receiver.state Receiver.expected_seq Receiver.output_file
    Receiver.recv_buffer Receiver.received_seqs Receiver.set_expected_seq
    Receiver.set_recv_buffer Receiver.sink_call].
  split_and!.
  - exact Hst.
  - rewrite Hexp. unfold add32. rewrite Zplus_mod_idemp_l. f_equal. lia.
  - rewrite written_app, Hw, run_from_S, map_app, <- app_assoc. cbn [map].
    rewrite <- Hexp. unfold first_payload. rewrite Hfirst. reflexivity.
  - rewrite run_from_S. apply NoDup_app. split; [exact Hnd |].
    split; [| apply NoDup_singleton].
    intros k Hk Hk'. apply list_elem_of_singleton in Hk'. subst k.
    destruct (Hrun _ Hk) as [_ Hnone]. rewrite <- Hexp in Hnone. congruence.
  - intros k Hk. rewrite run_from_S in Hk. apply elem_of_app in Hk as [Hk | Hk].
    + destruct (Hrun _ Hk) as [Hrk Hnone]. split; [exact Hrk |].
      apply lookup_delete_None. by right.
    + apply list_elem_of_singleton in Hk. subst k. rewrite <- Hexp. split.
      * apply Hrecv. exists pkt. split; [exact Hin | exact Hseq].
      * apply lookup_delete_eq.
  - exact Hrecv.
  - intros k q Hk. apply lookup_delete_Some in Hk as [_ Hk]. by apply Hbuf.
Qed.

(** Buffering a packet keeps the invariant for the longer arrival
    order. *)
Lemma buffered_keeps e0 w0 seen p (r : Receiver.t) n :
  delivered_inv e0 w0 seen r n ->
  delivered_inv e0 w0 (seen ++ [p]) (buffered p r) n.
Proof.
  intros (Hst & Hexp & Hw & Hnd & Hrun & Hrecv & Hbuf).
  assert (Hpay : map (fun k => first_payload k (seen ++ [p])) (run_from e0 n)
                 = map (fun k => first_payload k seen) (run_from e0 n)).
  { apply map_ext_in. intros k Hk. apply list_elem_of_In in Hk.
    destruct (Hrun _ Hk) as [Hin _]. apply Hrecv in Hin.
    destruct (first_arrival_exists _ _ Hin) as (q & Hq).
    unfold first_payload.
    by rewrite (first_arrival_app_found _ _ _ _ Hq), Hq. }
  unfold buffered.
  destruct (decide (seq_num (header p) ∈ Receiver.received_seqs r)) as [Hold | Hnew].
  - unfold delivered_inv. split_and!; try assumption.
    + by rewrite Hpay.
    + intros k. split.
      * intros Hk. apply Hrecv in Hk as (q & Hq & Hk).
        exists q. split; [apply elem_of_app; by left | exact Hk].
      * intros (q & Hq & Hk). apply elem_of_app in Hq as [Hq | Hq].
        -- apply Hrecv. by exists q.
        -- apply list_elem_of_singleton in Hq. by subst.
    + intros k q Hk. by apply first_arrival_app_found, Hbuf.
  - unfold delivered_inv.
    cbn [Receiver.state Receiver.expected_seq Receiver.output_file
      Receiver.recv_buffer Receiver.received_seqs Receiver.set_recv_buffer
      Receiver.set_received_seqs Receiver.set_total_bytes_received].
    split_and!; try assumption.
    + by rewrite Hpay.
    + intros k Hk. destruct (Hrun _ Hk) as [Hin Hnone]. split.
      * apply elem_of_union. by right.
      * rewrite lookup_insert_ne; [exact Hnone |]. intros <-. contradiction.
    + intros k. split.
      * intros Hk. apply elem_of_union in Hk as [Hk | Hk].
        -- apply elem_of_singleton in Hk. subst k.
           exists p. split; [| reflexivity].
           apply elem_of_app. right. by apply list_elem_of_singleton.
        -- apply Hrecv in Hk as (q & Hq & Hk).
           exists q. split; [apply elem_of_app; by left | exact Hk].
      * intros (q & Hq & Hk). apply elem_of_app in Hq as [Hq | Hq].
        -- apply elem_of_union. right. apply Hrecv. by exists q.
        -- apply list_elem_of_singleton in Hq. subst q.
           apply elem_of_union. left. by apply elem_of_singleton.
    + intros k q Hk.
      destruct (decide (seq_num (header p) = k)) as [Heq | Hne].
      * subst k. rewrite lookup_insert_eq in Hk. injection Hk as <-.
        apply first_arrival_app_fresh; [| reflexivity].
        intros q Hq Hk. apply Hnew, Hrecv. by exists q.
      * rewrite lookup_insert_ne in Hk by exact Hne.
        by apply first_arrival_app_found, Hbuf.
Qed.

Lemma send_ack_keeps e0 w0 seen (r : Receiver.t) n :
  delivered_inv e0 w0 seen r n ->
  delivered_inv e0 w0 seen (Receiver.send_ack r) n.
Proof. intros H. exact H. Qed.

Lemma deliver_keeps e0 w0 pkts :
  forall seen (r : Receiver.t) n,
  delivered_inv e0 w0 seen r n ->
  exists n', (n <= n')%nat /\ delivered_inv e0 w0 (seen ++ pkts) (deliver pkts r) n'.
Proof.
  induction pkts as [|p pkts IH]; intros seen r n Hinv.
  - exists n. rewrite app_nil_r. split; [lia | exact Hinv].
  - cbn [deliver foldl]. fold (deliver pkts).
    rewrite handle_data_established by (destruct Hinv; assumption).
    destruct (drain_keeps e0 w0 (seen ++ [p])
                (size (Receiver.recv_buffer (buffered p r))) (buffered p r) n
                (buffered_keeps _ _ _ _ _ _ Hinv)) as (n1 & Hle1 & Hinv1).
    destruct (IH (seen ++ [p]) _ n1 (send_ack_keeps _ _ _ _ _ Hinv1))
      as (n2 & Hle2 & Hinv2).
    exists n2. rewrite <- app_assoc in Hinv2. split; [lia | exact Hinv2].
Qed.

End Delivery.

Section DeliveryTheorem.
Context {proto : ProtocolH}.

(** The budget [size recv_buffer] is enough for the reassembly loop: on
    return its condition is false. *)
Lemma drain_exits fuel :
  forall r : Receiver.t,
  (size (Receiver.recv_buffer r) <= fuel)%nat ->
  Receiver.recv_buffer (Receiver.drain fuel r)
    !! Receiver.expected_seq (Receiver.drain fuel r) = None.
Proof.
  induction fuel as [|fuel IH]; intros r Hsize.
  - cbn [Receiver.drain].
    assert (Hempty : Receiver.recv_buffer r = ∅)
      by (apply map_size_empty_inv; lia).
    rewrite Hempty. apply lookup_empty.
  - cbn [Receiver.drain].
    destruct (Receiver.recv_buffer r !! Receiver.expected_seq r) as [pkt|] eqn:Hlk;
      [| exact Hlk].
    apply IH. cbn [Receiver.recv_buffer Receiver.set_expected_seq
      Receiver.set_recv_buffer Receiver.sink_call Receiver.expected_seq].
    rewrite map_size_delete, Hlk. lia.
Qed.

Lemma handle_data_exits p (r : Receiver.t) :
  Receiver.state r = ESTABLISHED ->
  Receiver.recv_buffer (Receiver.handle_data p r)
    !! Receiver.expected_seq (Receiver.handle_data p r) = None.
Proof.
  intros Hs. rewrite handle_data_established by exact Hs.
  apply (drain_exits _ (buffered p r)). lia.
Qed.

Lemma drain_state fuel :
  forall w : Receiver.t,
  Receiver.state (Receiver.drain fuel w) = Receiver.state w.
Proof.
  induction fuel as [|fuel IH]; intros w; [reflexivity |].
  cbn [Receiver.drain].
  destruct (Receiver.recv_buffer w !! Receiver.expected_seq w); [| reflexivity].
  rewrite IH. reflexivity.
Qed.

Lemma handle_data_state p (r : Receiver.t) :
  Receiver.state (Receiver.handle_data p r) = Receiver.state r.
Proof.
  destruct (decide (Receiver.state r = ESTABLISHED)) as [Hs | Hs].
  - rewrite handle_data_established by exact Hs.
    cbn [Receiver.send_ack Receiver.send_packet Receiver.state].
    rewrite drain_state. unfold buffered. destruct (decide _); reflexivity.
  - unfold Receiver.handle_data.
    destruct (decide (Receiver.state r = ESTABLISHED)); [contradiction | reflexivity].
Qed.

Lemma deliver_exits pkts :
  forall r : Receiver.t,
  Receiver.state r = ESTABLISHED ->
  Receiver.recv_buffer r !! Receiver.expected_seq r = None ->
  Receiver.recv_buffer (deliver pkts r)
    !! Receiver.expected_seq (deliver pkts r) = None.
Proof.
  induction pkts as [|p pkts IH]; intros r Hs Hnone; [exact Hnone |].
  cbn [deliver foldl]. apply IH.
  - by rewrite handle_data_state.
  - by apply handle_data_exits.
Qed.

Lemma run_from_no_wrap e n :
  0 <= e -> e + Z.of_nat n <= 2 ^ 32 -> run_from e n = seqZ e (Z.of_nat n).
Proof.
  intros He Hn. induction n as [|n IH]; [reflexivity |].
  rewrite run_from_S, seqZ_S, IH by lia. f_equal. f_equal.
  apply Z.mod_small. lia.
Qed.

End DeliveryTheorem.

(** ** The earlier text of the receiver writes the same bytes *)

(** A receiver without its record of datagrams sent. *)
Definition without_sent (r : Receiver.t) : Receiver.t :=
  Receiver.mk (Receiver.sender_addr r) (Receiver.state r)
    (Receiver.expected_seq r) (Receiver.recv_buffer r)
    (Receiver.received_seqs r) (Receiver.output_file r)
    (Receiver.total_bytes_received r) (Receiver.total_packets_received r)
    (Receiver.client_locked r) (Receiver.client_addr r) [].

Section EarlierReceiver.
Context {proto : ProtocolH}.

Definition deliver_old (pkts : list Packet) (r : Receiver.t) : Receiver.t :=
  foldl (fun r p => Receiver.handle_data_old p r) r pkts.

Lemma drain_without_sent fuel :
  forall r : Receiver.t,
  without_sent (Receiver.drain fuel r) = Receiver.drain fuel (without_sent r).
Proof.
  induction fuel as [|fuel IH]; intros r; [reflexivity |].
  cbn [Receiver.drain without_sent Receiver.recv_buffer Receiver.expected_seq].
  destruct (Receiver.recv_buffer r !! Receiver.expected_seq r); [| reflexivity].
  rewrite IH. reflexivity.
Qed.

Lemma handle_data_old_without_sent p (r : Receiver.t) :
  Receiver.state r = ESTABLISHED ->
  without_sent (Receiver.handle_data_old p r) =
  without_sent (Receiver.handle_data p r).
Proof.
  intros Hs. rewrite handle_data_established by exact Hs. reflexivity.
Qed.

Lemma handle_data_respects_sent p (a b : Receiver.t) :
  without_sent a = without_sent b ->
  without_sent (Receiver.handle_data p a) =
  without_sent (Receiver.handle_data p b).
Proof.
  intros Hab.
  assert (Hst : Receiver.state a = Receiver.state b)
    by (apply (f_equal Receiver.state) in Hab; exact Hab).
  destruct (decide (Receiver.state a = ESTABLISHED)) as [Hs | Hs].
  - rewrite !handle_data_established by congruence.
    change (without_sent (Receiver.drain (size (Receiver.recv_buffer (buffered p a)))
                            (buffered p a))
            = without_sent (Receiver.drain (size (Receiver.recv_buffer (buffered p b)))
                              (buffered p b))).
    transitivity (Receiver.drain (size (Receiver.recv_buffer (buffered p a)))
                    (without_sent (buffered p a))).
    { apply (drain_without_sent _ (buffered p a)). }
    transitivity (Receiver.drain (size (Receiver.recv_buffer (buffered p b)))
                    (without_sent (buffered p b))).
    2: { symmetry. apply (drain_without_sent _ (buffered p b)). }
    assert (Hbuf : without_sent (buffered p a) = without_sent (buffered p b)).
    { unfold buffered.
      assert (Hrs : Receiver.received_seqs a = Receiver.received_seqs b)
        by (apply (f_equal Receiver.received_seqs) in Hab; exact Hab).
      rewrite Hrs. destruct (decide _); [exact Hab |].
      destruct a, b. cbn in *. injection Hab as -> -> -> -> -> -> -> -> -> ->.
      reflexivity. }
    rewrite Hbuf. f_equal. f_equal.
    apply (f_equal Receiver.recv_buffer) in Hbuf. exact Hbuf.
  - unfold Receiver.handle_data.
    destruct (decide (Receiver.state a = ESTABLISHED)); [contradiction |].
    destruct (decide (Receiver.state b = ESTABLISHED)); [congruence | exact Hab].
Qed.

(** On an established receiver the two texts leave the same state
    behind, the datagrams sent apart. *)
Lemma deliver_old_same pkts :
  forall a b : Receiver.t,
  Receiver.state a = ESTABLISHED ->
  without_sent a = without_sent b ->
  without_sent (deliver_old pkts a) = without_sent (deliver pkts b).
Proof.
  induction pkts as [|p pkts IH]; intros a b Hs Hab; [exact Hab |].
  cbn [deliver_old deliver foldl]. apply IH.
  - assert (H := handle_data_old_without_sent p a Hs).
    apply (f_equal Receiver.state) in H. cbn [without_sent Receiver.state] in H.
    rewrite H. by rewrite handle_data_state.
  - rewrite handle_data_old_without_sent by exact Hs.
    by apply handle_data_respects_sent.
Qed.

End EarlierReceiver.

Section MonotoneDelivery.
Context {proto : ProtocolH}.

(** C2. Monotone delivery with duplicate suppression. Whatever DATA
    packets with [data_length] within the payload array (the others
    make [write] read past the array) an established receiver with
    empty buffers is handed, in whatever order and with whatever
    repetitions, the writes to the sink
    are the payloads for the sequence numbers [e0], [e0 + 1], ...,
    [e0 + n - 1] ([uint32_t] counting from the initial [expected_seq]),
    in that order, one write each: no number occurs twice, every one was
    received, the payload written is that of its first arrival, and the
    run stops only where the next number has nothing buffered. While
    [e0 + n] stays within [uint32_t] the numbers are the consecutive
    integers from [e0]. The earlier text of [handle_data] ([part_001])
    leaves the same sink and the same buffers. *)
Theorem monotone_delivery (r0 : Receiver.t) (pkts : list Packet) :
  Receiver.state r0 = ESTABLISHED ->
  Receiver.recv_buffer r0 = ∅ -> Receiver.received_seqs r0 = ∅ ->
  0 <= Receiver.expected_seq r0 < 2 ^ 32 ->
  Forall fits_array pkts ->
  let e0 := Receiver.expected_seq r0 in
  let r := deliver pkts r0 in
  exists n : nat,
    Receiver.expected_seq r = (e0 + Z.of_nat n) mod 2 ^ 32 /\
    Receiver.written (Receiver.output_file r) =
      Receiver.written (Receiver.output_file r0) ++
      map (fun k => first_payload k pkts) (run_from e0 n) /\
    NoDup (run_from e0 n) /\
    (forall k, k ∈ run_from e0 n ->
       exists p, first_arrival k pkts = Some p /\ p ∈ pkts /\
                 seq_num (header p) = k) /\
    Receiver.recv_buffer r !! Receiver.expected_seq r = None /\
    (e0 + Z.of_nat n <= 2 ^ 32 -> run_from e0 n = seqZ e0 (Z.of_nat n)) /\
    without_sent (deliver_old pkts r0) = without_sent r.
Proof.
  intros Hst Hbuf Hrecv He _ e0 r.
  assert (Hinit : delivered_inv e0
            (Receiver.written (Receiver.output_file r0)) [] r0 0).
  { unfold delivered_inv. split_and!.
    - exact Hst.
    - unfold e0. rewrite Z.add_0_r, Z.mod_small; [reflexivity | lia].
    - simpl. by rewrite app_nil_r.
    - constructor.
    - intros k Hk. by apply elem_of_nil in Hk.
    - intros k. rewrite Hrecv. split.
      + intros Hk. by apply elem_of_empty in Hk.
      + intros (p & Hp & _). by apply elem_of_nil in Hp.
    - intros k p. rewrite Hbuf, lookup_empty. discriminate. }
  destruct (deliver_keeps e0 _ pkts [] r0 0%nat Hinit)
    as (n & _ & (_ & Hexp & Hw & Hnd & Hrun & Hseen & _)).
  exists n. cbn [app] in *. split_and!.
  - exact Hexp.
  - exact Hw.
  - exact Hnd.
  - intros k Hk. destruct (Hrun _ Hk) as [Hin _]. apply Hseen in Hin.
    destruct (first_arrival_exists _ _ Hin) as (q & Hq).
    exists q. split; [exact Hq |]. by apply first_arrival_seen.
  - apply deliver_exits; [exact Hst |]. rewrite Hbuf. apply lookup_empty.
  - intros Hn. apply run_from_no_wrap; lia.
  - by apply deliver_old_same.
Qed.

End MonotoneDelivery.

(** ** Instances for the receiver *)

(** The SYN and the FIN of a sender whose sequence numbers are 0 and
    9, sealed as the first text of [sender.cpp] does. *)
Definition syn_packet : Packet :=
  @Receiver.seal protocol_v2 (Receiver.control_packet SYN 0 0).
Definition fin_packet : Packet :=
  @Receiver.seal protocol_v2 (Receiver.control_packet FIN 9 0).

(** Three DATA arrivals: sequence 8, then 7, then 8 again. *)
Definition data_for (sq b : Z) : Packet :=
  mkPacket (mkHeader DATA 0 0 sq 0 0 1 0) (b :: replicate 1023 0) [].
Definition reordered_arrivals : list Packet :=
  [data_for 8 66; data_for 7 65; data_for 8 67].

Section ReceiverInstances.




Lemma monotone_delivery_witness :
  Receiver.state waiting_receiver = ESTABLISHED /\
  Forall fits_array reordered_arrivals /\
  exists n : nat,
    Receiver.written
      (Receiver.output_file (@deliver protocol_v2 reordered_arrivals waiting_receiver))
    = map (fun k => first_payload k reordered_arrivals) (run_from 7 n).
Proof.
  assert (Hfit : Forall fits_array reordered_arrivals).
  { repeat constructor; vm_compute; intros H; discriminate H. }
  split; [reflexivity |]. split; [exact Hfit |].
  destruct (@monotone_delivery protocol_v2 waiting_receiver reordered_arrivals)
    as (n & _ & Hw & _).
  - reflexivity.
  - reflexivity.
  - reflexivity.
  - cbn. lia.
  - exact Hfit.
  - exists n. exact Hw.
Defined.

(** The arrivals [8, 7, 8] put [A] and [B] in the sink, once each. *)
Example reordered_arrivals_sink :
  Receiver.written
    (Receiver.output_file (@deliver protocol_v2 reordered_arrivals waiting_receiver))
  = [[65]; [66]].
Proof. vm_compute. reflexivity. Qed.

End ReceiverInstances.

(** * Properties of the sender *)

(** A sender in the middle of a transfer: sequences 5 to 8 in flight,
    one duplicate ACK for 5 counted, [cwnd = 8]. *)
Definition sender_with_one_duplicate : Sender.t :=
  Sender.mk ESTABLISHED 1 5 9
    (list_to_map (map (fun k => (k, data_for k 65)) [5; 6; 7; 8]))
    (list_to_map (map (fun k => (k, 100)) [5; 6; 7; 8]))
    CONGESTION_AVOIDANCE (double_of_u32 8) 16 1 5 0 0 0 true (2, 9001) [].

(** An ACK for sequence [a] as [send_ack] of [receiver.cpp] builds it
    when nothing is buffered out of order. *)
Definition plain_ack (a : Z) : Packet :=
  @Receiver.seal protocol_v2
    (mkPacket (mkHeader ACK 0 0 0 a WINDOW_SIZE 0 0) (data empty_packet) []).

(** What is looked at in a sender state. *)
Definition sender_view (s : Sender.t) :=
  (Sender.base s, Sender.next_seq_num s, Sender.duplicate_acks s,
   map pkt_seq (Sender.sent s), Sender.cong_state s, Sender.ssthresh s,
   double_to_u32 (Sender.cwnd s),
   merge_sort Z.le (map fst (map_to_list (Sender.sent_packets s)))).

Ltac sender_simpl :=
  cbn [Sender.state Sender.seq_num Sender.base Sender.next_seq_num
       Sender.sent_packets Sender.send_times Sender.cong_state Sender.cwnd
       Sender.ssthresh Sender.duplicate_acks Sender.last_acked
       Sender.total_bytes_sent Sender.total_packets_sent
       Sender.retransmissions Sender.server_locked Sender.server_addr
       Sender.sent Sender.set_window Sender.set_in_flight
       Sender.set_congestion Sender.set_duplicate_acks Sender.set_last_acked
       Sender.count_retransmission Sender.send_packet Sender.erase_seq] in *.

Section FastRetransmit.
Context {proto : ProtocolH} {text : SenderText}.

(** In both texts the duplicate-ACK branch of [handle_ack] counts the
    duplicate and runs the fast-retransmit action exactly when the
    count equals the text's trigger and the packet is still in
    flight. *)
Lemma duplicate_ack_branch (a : Z) (s : Sender.t) :
  ~ Sender.base s < a -> a = Sender.last_acked s ->
  let count := add32 (Sender.duplicate_acks s) 1 in
  let s1 := Sender.set_duplicate_acks count s in
  Sender.duplicate_acks (Sender.on_ack_num a s) = count /\
  (count = dup_trigger ->
   Sender.on_ack_num a s =
     match Sender.sent_packets s !! a with
     | Some p => Sender.fast_retransmit p s1
     | None => s1
     end) /\
  (count <> dup_trigger ->
   Sender.sent (Sender.on_ack_num a s) = Sender.sent s /\
   Sender.ssthresh (Sender.on_ack_num a s) = Sender.ssthresh s /\
   Sender.cong_state (Sender.on_ack_num a s) = Sender.cong_state s).
Proof.
  intros Hbase Hlast count s1. unfold Sender.on_ack_num.
  destruct (Z.ltb_spec (Sender.base s) a) as [? | _]; [contradiction |].
  destruct (Z.eqb_spec a (Sender.last_acked s)) as [_ | ?]; [| contradiction].
  sender_simpl. fold count. fold s1.
  destruct (Z.eqb_spec count dup_trigger) as [Heq | Hne].
  - split; [| split; [reflexivity | contradiction]].
    destruct (Sender.sent_packets s !! a); reflexivity.
  - split; [| split; [contradiction |]];
      destruct ((dup_trigger <? count) && bool_decide (Sender.cong_state s = FAST_RECOVERY));
      intros; repeat split; reflexivity.
Qed.

(** The fast-retransmit action itself: the packet goes out again,
    [ssthresh = max(cwnd / 2, 2)], [cwnd = ssthresh + 3], and the state
    is [FAST_RECOVERY]. *)
Lemma fast_retransmit_effect p (s : Sender.t) :
  let s' := Sender.fast_retransmit p s in
  Sender.sent s' = Sender.sent s ++ [p] /\
  Sender.ssthresh s' = Sender.halved (Sender.cwnd s) /\
  Sender.cwnd s' = double_of_u32 (add32 (Sender.halved (Sender.cwnd s)) 3) /\
  Sender.cong_state s' = FAST_RECOVERY.
Proof. repeat split; reflexivity. Qed.

End FastRetransmit.

(** C3 holds in the second text of [sender.cpp] and fails in the first.
    In the first text, whose comment announces three duplicate ACKs, the
    second duplicate ACK for sequence 5 already retransmits packet 5,
    halves [ssthresh] from [cwnd = 8] to 4, sets [cwnd] to 7 and enters
    [FAST_RECOVERY]; the second text does nothing but count at 2 and
    acts at 3. *)
Theorem fast_retransmit_fires_at_two :
  sender_view
    (@Sender.handle_ack sender_v1 (plain_ack 5) sender_with_one_duplicate)
  = (5, 9, 2, [5], FAST_RECOVERY, 4, 7, [5; 6; 7; 8]) /\
  sender_view
    (@Sender.handle_ack sender_v2 (plain_ack 5) sender_with_one_duplicate)
  = (5, 9, 2, [], CONGESTION_AVOIDANCE, 16, 8, [5; 6; 7; 8]) /\
  sender_view
    (@Sender.handle_ack sender_v2 (plain_ack 5)
       (@Sender.handle_ack sender_v2 (plain_ack 5) sender_with_one_duplicate))
  = (5, 9, 3, [5], FAST_RECOVERY, 4, 7, [5; 6; 7; 8]).
Proof. repeat split; vm_compute; reflexivity. Qed.

(** ** Runs of the sliding-window loop *)

Section SenderRuns.
Context {proto : ProtocolH} {text : SenderText}.

(** The sender after the window loop of an iteration. *)
Definition filled (file_data : list Z) (turn : Sender.Turn) (s : Sender.t) : Sender.t :=
  Sender.fill_window
    (Sender.fill_budget file_data (Sender.window_limit s) s)
    file_data (Sender.window_limit s) (Sender.clock turn) s.

(** Runs of the loop of [send_file]: every turn is taken while the loop
    condition holds and satisfies [ok]. *)
Inductive transfer_where (ok : Sender.t -> Sender.Turn -> Prop)
    (file_data : list Z) : Sender.t -> list Sender.Turn -> Sender.t -> Prop :=
  | transfer_nil s : transfer_where ok file_data s [] s
  | transfer_cons s turn s' rest s'' :
      Sender.base s < add32 (Sender.seq_num s) (Sender.total_packets file_data) ->
      ok s turn ->
      Sender.send_file_iteration file_data turn s = Some s' ->
      transfer_where ok file_data s' rest s'' ->
      transfer_where ok file_data s (turn :: rest) s''.

(** Any run. *)
Definition transfer := transfer_where (fun _ _ => True).

(** The ACK of the turn, if one is processed, acknowledges nothing the
    sender has not sent. *)
Definition acks_sent_data (file_data : list Z) (s : Sender.t) (turn : Sender.Turn) : Prop :=
  forall p,
    Sender.receive_packet (Sender.arrival turn) (filled file_data turn s)
      = Some (Some p) ->
    pkt_type p = ACK -> verify_checksum p = true ->
    pkt_ack p <= Sender.next_seq_num (filled file_data turn s).

(** Runs against a receiver that only acknowledges what was sent. *)
Definition honest_transfer (file_data : list Z) :=
  transfer_where (acks_sent_data file_data) file_data.

(** Sequence numbers stay clear of the end of [uint32_t]. *)
Definition no_wrap (file_data : list Z) (s : Sender.t) : Prop :=
  0 <= Sender.seq_num s /\
  Sender.seq_num s + Sender.total_packets file_data + WINDOW_SIZE < 2 ^ 32.

(** What every run keeps: [next_seq_num] within the file, every packet
    in flight filed under its own sequence number, below
    [next_seq_num], and a timestamp only for packets in flight. *)
Definition flight_inv (file_data : list Z) (s : Sender.t) : Prop :=
  no_wrap file_data s /\
  Sender.seq_num s <= Sender.next_seq_num s
    <= Sender.seq_num s + Sender.total_packets file_data /\
  (forall k p, Sender.sent_packets s !! k = Some p ->
               pkt_seq p = k /\ k < Sender.next_seq_num s) /\
  (forall k, is_Some (Sender.send_times s !! k) ->
             is_Some (Sender.sent_packets s !! k)).

(** What honest runs keep in addition. *)
Definition window_inv (file_data : list Z) (s : Sender.t) : Prop :=
  flight_inv file_data s /\
  Sender.seq_num s <= Sender.base s /\
  Sender.base s <= Sender.next_seq_num s <= Sender.base s + WINDOW_SIZE /\
  (forall k, is_Some (Sender.sent_packets s !! k) -> Sender.base s <= k).

(** Sequence [k] is out of flight in [s] and stays so up to [s'], and
    nothing transmitted on the way carries it. *)
Definition stays_out (k : Z) (s s' : Sender.t) : Prop :=
  Sender.sent_packets s' !! k = None /\
  Sender.send_times s' !! k = None /\
  exists more, Sender.sent s' = Sender.sent s ++ more /\
               Forall (fun p => pkt_seq p <> k) more.

(** A phase of the loop body, seen from a sequence [k] already sent and
    out of flight. *)
Definition phase_ok (file_data : list Z) (s s' : Sender.t) : Prop :=
  flight_inv file_data s ->
  flight_inv file_data s' /\
  Sender.seq_num s' = Sender.seq_num s /\
  Sender.base s <= Sender.base s' /\
  Sender.next_seq_num s <= Sender.next_seq_num s' /\
  forall k, k < Sender.next_seq_num s ->
    Sender.sent_packets s !! k = None -> stays_out k s s'.

Lemma phase_ok_refl file_data s : phase_ok file_data s s.
Proof.
  intros Hinv. split_and!; try done; try lia.
  intros k Hk Hnone. unfold stays_out. split_and!; [done | | ].
  - destruct (Sender.send_times s !! k) eqn:Ht; [| done].
    destruct Hinv as (_ & _ & _ & Hdom).
    destruct (Hdom k ltac:(eauto)) as [x Hx]. congruence.
  - exists []. by rewrite app_nil_r.
Qed.

Lemma phase_ok_trans file_data s1 s2 s3 :
  phase_ok file_data s1 s2 -> phase_ok file_data s2 s3 ->
  phase_ok file_data s1 s3.
Proof.
  intros H12 H23 Hinv.
  destruct (H12 Hinv) as (Hinv2 & Hs2 & Hb2 & Hn2 & Hq2).
  destruct (H23 Hinv2) as (Hinv3 & Hs3 & Hb3 & Hn3 & Hq3).
  split_and!; try done; try lia; try congruence.
  intros k Hk Hnone.
  destruct (Hq2 k Hk Hnone) as (Hsp2 & Hst2 & more2 & Hsent2 & Hmore2).
  destruct (Hq3 k ltac:(lia) Hsp2) as (Hsp3 & Hst3 & more3 & Hsent3 & Hmore3).
  unfold stays_out. split_and!; try done.
  exists (more2 ++ more3). split.
  - rewrite Hsent3, Hsent2. by rewrite app_assoc.
  - by apply Forall_app_2.
Qed.

Lemma total_packets_range file_data :
  0 <= Sender.total_packets file_data < 2 ^ 32.
Proof. unfold Sender.total_packets. apply Z.mod_pos_bound. lia. Qed.

Lemma pkt_seq_data_packet file_data seq0 n :
  pkt_seq (Sender.data_packet file_data seq0 n) = n.
Proof. reflexivity. Qed.

Lemma window_limit_range (s : Sender.t) :
  0 <= Sender.window_limit s <= WINDOW_SIZE.
Proof.
  unfold Sender.window_limit, double_to_u32, WINDOW_SIZE.
  destruct (Prim2SF (Sender.cwnd s)) as [| | |[] m e]; try lia.
  pose proof (Z.mod_pos_bound (Z.shiftl (Z.pos m) e) (2 ^ 32) ltac:(lia)). lia.
Qed.

End SenderRuns.

Section WindowLoop.
Context {proto : ProtocolH} {text : SenderText}.

(** One iteration of the window loop. *)
Definition send_next (file_data : list Z) (clock : Z -> Z) (s : Sender.t) : Sender.t :=
  let n := Sender.next_seq_num s in
  let packet := Sender.data_packet file_data (Sender.seq_num s) n in
  let s := Sender.send_packet packet s in
  let s := Sender.set_in_flight (<[n := packet]> (Sender.sent_packets s))
                                (<[n := clock n]> (Sender.send_times s)) s in
  Sender.set_window (Sender.base s) (add32 n 1) s.

Lemma fill_window_unfold fuel file_data wl clock (s : Sender.t) :
  Sender.fill_window (S fuel) file_data wl clock s =
  if Sender.may_send file_data wl s
  then Sender.fill_window fuel file_data wl clock (send_next file_data clock s)
  else s.
Proof. reflexivity. Qed.

Lemma may_send_bounds file_data wl (s : Sender.t) :
  flight_inv file_data s -> Sender.may_send file_data wl s = true ->
  Sender.next_seq_num s < add32 (Sender.base s) wl /\
  Sender.next_seq_num s < Sender.seq_num s + Sender.total_packets file_data /\
  add32 (Sender.next_seq_num s) 1 = Sender.next_seq_num s + 1.
Proof.
  intros ((Hseq & Hwrap) & Hnext & _) Hm.
  pose proof (total_packets_range file_data) as Htot.
  unfold Sender.may_send in Hm. apply andb_true_iff in Hm as [H1 H2].
  apply Z.ltb_lt in H1. apply Z.ltb_lt in H2.
  unfold add32 in H2. unfold WINDOW_SIZE in Hwrap.
  rewrite Z.mod_small in H2 by lia.
  split; [exact H1 |]. split; [exact H2 |].
  unfold add32. apply Z.mod_small. lia.
Qed.

Lemma send_next_phase file_data wl clock (s : Sender.t) :
  Sender.may_send file_data wl s = true ->
  phase_ok file_data s (send_next file_data clock s).
Proof.
  intros Hm Hinv.
  destruct (may_send_bounds _ _ _ Hinv Hm) as (_ & Hlt & Hadd).
  destruct Hinv as ((Hseq0 & Hwrap) & Hnext & Hkeys & Hdom).
  unfold send_next, flight_inv, no_wrap, stays_out. sender_simpl. rewrite Hadd.
  split_and!; try done; try lia.
  - intros k p Hk. destruct (decide (Sender.next_seq_num s = k)) as [<- | Hne].
    + rewrite lookup_insert_eq in Hk. injection Hk as <-.
      split; [reflexivity | lia].
    + rewrite lookup_insert_ne in Hk by exact Hne.
      destruct (Hkeys _ _ Hk). split; [done | lia].
  - intros k Hk. destruct (decide (Sender.next_seq_num s = k)) as [<- | Hne].
    + rewrite lookup_insert_eq. eauto.
    + rewrite lookup_insert_ne by exact Hne.
      rewrite lookup_insert_ne in Hk by exact Hne. by apply Hdom.
  - intros k Hk Hnone. split_and!.
    + rewrite lookup_insert_ne by lia. exact Hnone.
    + rewrite lookup_insert_ne by lia.
      destruct (Sender.send_times s !! k) eqn:Ht; [| done].
      destruct (Hdom k ltac:(eauto)) as [x Hx]. congruence.
    + eexists. split; [reflexivity |].
      constructor; [| constructor]. rewrite pkt_seq_data_packet. lia.
Qed.

Lemma fill_window_phase file_data wl clock fuel :
  forall s : Sender.t,
  phase_ok file_data s (Sender.fill_window fuel file_data wl clock s).
Proof.
  induction fuel as [|fuel IH]; intros s; [apply phase_ok_refl |].
  rewrite fill_window_unfold.
  destruct (Sender.may_send file_data wl s) eqn:Hm; [| apply phase_ok_refl].
  eapply phase_ok_trans; [by apply (send_next_phase _ wl) | apply IH].
Qed.

(** The window loop keeps the window invariant; it leaves [base] alone,
    and if it sends at all, [next_seq_num] ends within
    [base + window_limit]. *)
Lemma fill_window_window file_data wl clock fuel :
  0 <= wl <= WINDOW_SIZE ->
  forall s : Sender.t,
  window_inv file_data s ->
  let s' := Sender.fill_window fuel file_data wl clock s in
  window_inv file_data s' /\ Sender.base s' = Sender.base s /\
  Sender.cwnd s' = Sender.cwnd s /\
  (Sender.next_seq_num s' = Sender.next_seq_num s \/
   Sender.next_seq_num s' <= Sender.base s + wl).
Proof.
  intros Hwl. induction fuel as [|fuel IH]; intros s Hinv; [by auto |].
  rewrite fill_window_unfold.
  destruct (Sender.may_send file_data wl s) eqn:Hm; [| by auto].
  destruct Hinv as (Hfl & Hsb & Hbn & Hkb).
  destruct (may_send_bounds _ _ _ Hfl Hm) as (Hlt1 & Hlt & Hadd).
  destruct (send_next_phase _ _ clock _ Hm Hfl) as (Hfl1 & _).
  assert (Hb32 : add32 (Sender.base s) wl = Sender.base s + wl).
  { destruct Hfl as ((Hseq & Hwrap) & Hnext & _).
    pose proof (total_packets_range file_data).
    unfold add32. apply Z.mod_small. unfold WINDOW_SIZE in *. lia. }
  rewrite Hb32 in Hlt1.
  assert (Hinv1 : window_inv file_data (send_next file_data clock s)).
  { split; [exact Hfl1 |]. unfold send_next. sender_simpl. rewrite Hadd.
    split_and!; try lia.
    intros k Hk. destruct (decide (Sender.next_seq_num s = k)) as [<- | Hne]; [lia |].
    rewrite lookup_insert_ne in Hk by exact Hne. by apply Hkb. }
  destruct (IH _ Hinv1) as (Hinv' & Hbase' & Hcwnd' & Hnext').
  split; [exact Hinv' |].
  split; [exact Hbase' |].
  split; [exact Hcwnd' |].
  right. destruct Hnext' as [Heq | Hle].
  - rewrite Heq. unfold send_next. sender_simpl. lia.
  - unfold send_next in Hle. sender_simpl. exact Hle.
Qed.

(** The budget of the window loop is enough: on return the guard is
    false. *)
Lemma fill_window_exits file_data wl clock fuel :
  forall s : Sender.t,
  0 <= Sender.next_seq_num s ->
  (Sender.fill_budget file_data wl s <= fuel)%nat ->
  Sender.may_send file_data wl
    (Sender.fill_window fuel file_data wl clock s) = false.
Proof.
  induction fuel as [|fuel IH]; intros s Hn Hfuel.
  - cbn [Sender.fill_window]. unfold Sender.fill_budget in Hfuel.
    unfold Sender.may_send.
    destruct (Z.ltb_spec (Sender.next_seq_num s)
                (add32 (Sender.base s) wl)); [| reflexivity].
    destruct (Z.ltb_spec (Sender.next_seq_num s)
                (add32 (Sender.seq_num s) (Sender.total_packets file_data)));
      [lia | reflexivity].
  - rewrite fill_window_unfold.
    destruct (Sender.may_send file_data wl s) eqn:Hm; [| exact Hm].
    pose proof Hm as Hm'. unfold Sender.may_send in Hm'.
    apply andb_true_iff in Hm' as [H1 H2].
    apply Z.ltb_lt in H1. apply Z.ltb_lt in H2.
    pose proof (add32_range (Sender.base s) wl) as Hb.
    assert (Hadd : add32 (Sender.next_seq_num s) 1 = Sender.next_seq_num s + 1).
    { unfold add32. apply Z.mod_small. lia. }
    apply IH.
    + unfold send_next. sender_simpl. lia.
    + unfold Sender.fill_budget in *. unfold send_next. sender_simpl.
      rewrite Hadd. lia.
Qed.

End WindowLoop.

Section AckHandling.
Context {proto : ProtocolH} {text : SenderText}.

Lemma on_new_ack_frame (s : Sender.t) :
  let s' := Sender.on_new_ack s in
  Sender.seq_num s' = Sender.seq_num s /\ Sender.base s' = Sender.base s /\
  Sender.next_seq_num s' = Sender.next_seq_num s /\
  Sender.sent_packets s' = Sender.sent_packets s /\
  Sender.send_times s' = Sender.send_times s /\
  Sender.sent s' = Sender.sent s.
Proof.
  unfold Sender.on_new_ack.
  destruct (Sender.cong_state s); [destruct (PrimFloat.leb _ _) | |];
    repeat split; reflexivity.
Qed.

(** The branch of [handle_ack] for a new cumulative ACK. *)
Definition advance (a : Z) (s : Sender.t) : Sender.t :=
  Sender.set_last_acked a
    (Sender.erase_acked
       (Sender.on_new_ack
          (Sender.set_duplicate_acks 0
             (Sender.set_window a (Sender.next_seq_num s) s)))).

Lemma advance_frame a (s : Sender.t) :
  let s' := advance a s in
  Sender.seq_num s' = Sender.seq_num s /\ Sender.base s' = a /\
  Sender.next_seq_num s' = Sender.next_seq_num s /\
  Sender.sent s' = Sender.sent s /\
  Sender.sent_packets s' =
    filter (fun kv => ~ kv.1 < a) (Sender.sent_packets s) /\
  Sender.send_times s' =
    filter (fun kv => kv.1 ∉ dom (filter (fun kv => kv.1 < a)
                                    (Sender.sent_packets s)))
      (Sender.send_times s).
Proof.
  unfold advance, Sender.erase_acked.
  set (s0 := Sender.set_duplicate_acks 0
               (Sender.set_window a (Sender.next_seq_num s) s)).
  destruct (on_new_ack_frame s0) as (H1 & H2 & H3 & H4 & H5 & H6).
  sender_simpl. rewrite H1, H2, H3, H4, H5, H6. unfold s0. sender_simpl.
  repeat split; reflexivity.
Qed.

Lemma advance_phase file_data a (s : Sender.t) :
  Sender.base s < a -> phase_ok file_data s (advance a s).
Proof.
  intros Hlt ((Hseq0 & Hwrap) & Hnext & Hkeys & Hdom).
  destruct (advance_frame a s) as (H1 & H2 & H3 & H4 & H5 & H6).
  unfold flight_inv, no_wrap, stays_out. rewrite H1, H2, H3, H4, H5, H6.
  split_and!; try done; try lia.
  - intros k p Hk. apply map_lookup_filter_Some in Hk as [Hk _]. by apply Hkeys.
  - intros k [t Hk]. apply map_lookup_filter_Some in Hk as [Hk Hvis].
    destruct (Hdom k ltac:(eauto)) as [p Hp]. exists p.
    apply map_lookup_filter_Some. split; [exact Hp |].
    simpl in *. intros Hka. apply Hvis. apply elem_of_dom. exists p.
    apply map_lookup_filter_Some. split; [exact Hp | exact Hka].
  - intros k Hk Hnone. split_and!.
    + apply map_lookup_filter_None. by left.
    + apply map_lookup_filter_None. left.
      destruct (Sender.send_times s !! k) eqn:Ht; [| done].
      destruct (Hdom k ltac:(eauto)) as [x Hx]. congruence.
    + exists []. by rewrite app_nil_r.
Qed.

Lemma fast_retransmit_phase file_data a p (s : Sender.t) :
  Sender.sent_packets s !! a = Some p ->
  phase_ok file_data s (Sender.fast_retransmit p s).
Proof.
  intros Hp ((Hseq0 & Hwrap) & Hnext & Hkeys & Hdom).
  unfold Sender.fast_retransmit, flight_inv, no_wrap, stays_out. sender_simpl.
  split_and!; try done; try lia.
  intros k Hk Hnone. split_and!; [done | |].
  - destruct (Sender.send_times s !! k) eqn:Ht; [| done].
    destruct (Hdom k ltac:(eauto)) as [x Hx]. congruence.
  - eexists. split; [reflexivity |]. constructor; [| constructor].
    destruct (Hkeys _ _ Hp) as [-> _]. intros ->. congruence.
Qed.

Lemma congestion_only_phase file_data c w th d (s : Sender.t) :
  phase_ok file_data s
    (Sender.set_congestion c w th (Sender.set_duplicate_acks d s)).
Proof.
  intros Hinv. destruct (phase_ok_refl file_data s Hinv) as (H1 & H2 & H3 & H4 & H5).
  split_and!; try done.
Qed.

Lemma on_ack_num_phase file_data a (s : Sender.t) :
  phase_ok file_data s (Sender.on_ack_num a s).
Proof.
  unfold Sender.on_ack_num.
  destruct (Z.ltb_spec (Sender.base s) a) as [Hlt | _];
    [by apply advance_phase |].
  destruct (a =? Sender.last_acked s); [| apply phase_ok_refl].
  sender_simpl.
  destruct (add32 (Sender.duplicate_acks s) 1 =? dup_trigger).
  - destruct (Sender.sent_packets s !! a) as [p|] eqn:Hp.
    + eapply phase_ok_trans;
        [| apply (fast_retransmit_phase file_data a p); exact Hp].
      intros Hinv.
      destruct (phase_ok_refl file_data s Hinv) as (H1 & H2 & H3 & H4 & H5).
      split_and!; done.
    + intros Hinv.
      destruct (phase_ok_refl file_data s Hinv) as (H1 & H2 & H3 & H4 & H5).
      split_and!; done.
  - destruct ((dup_trigger <? add32 (Sender.duplicate_acks s) 1)
              && bool_decide (Sender.cong_state s = FAST_RECOVERY)).
    + apply (congestion_only_phase file_data _ _ _ _ s).
    + intros Hinv.
      destruct (phase_ok_refl file_data s Hinv) as (H1 & H2 & H3 & H4 & H5).
      split_and!; done.
Qed.

Lemma erase_seq_phase file_data seq (s : Sender.t) :
  phase_ok file_data s (Sender.erase_seq s seq).
Proof.
  intros ((Hseq0 & Hwrap) & Hnext & Hkeys & Hdom).
  unfold flight_inv, no_wrap, stays_out. sender_simpl.
  split_and!; try done; try lia.
  - intros k p Hk. apply lookup_delete_Some in Hk as [_ Hk]. by apply Hkeys.
  - intros k [t Hk]. apply lookup_delete_Some in Hk as [Hne Hk].
    destruct (Hdom k ltac:(eauto)) as [p Hp]. exists p.
    apply lookup_delete_Some. by split.
  - intros k Hk Hnone. split_and!.
    + apply lookup_delete_None. by right.
    + apply lookup_delete_None. right.
      destruct (Sender.send_times s !! k) eqn:Ht; [| done].
      destruct (Hdom k ltac:(eauto)) as [x Hx]. congruence.
    + exists []. by rewrite app_nil_r.
Qed.

Lemma erase_range_phase file_data (l : list Z) :
  forall s : Sender.t, phase_ok file_data s (foldl Sender.erase_seq s l).
Proof.
  induction l as [|seq l IH]; intros s; [apply phase_ok_refl |].
  cbn [foldl]. eapply phase_ok_trans; [apply erase_seq_phase | apply IH].
Qed.

Lemma process_sacks_phase file_data blocks :
  forall s : Sender.t, phase_ok file_data s (Sender.process_sacks blocks s).
Proof.
  unfold Sender.process_sacks.
  induction blocks as [|b blocks IH]; intros s; [apply phase_ok_refl |].
  cbn [foldl]. eapply phase_ok_trans; [apply erase_range_phase | apply IH].
Qed.

Lemma handle_ack_phase file_data p (s : Sender.t) :
  phase_ok file_data s (Sender.handle_ack p s).
Proof.
  unfold Sender.handle_ack.
  eapply phase_ok_trans; [apply on_ack_num_phase | apply process_sacks_phase].
Qed.

(** What erasing does to the rest of the state: nothing. *)
Lemma erase_range_frame (l : list Z) :
  forall s : Sender.t,
  let s' := foldl Sender.erase_seq s l in
  Sender.base s' = Sender.base s /\
  Sender.next_seq_num s' = Sender.next_seq_num s /\
  Sender.seq_num s' = Sender.seq_num s /\
  Sender.cwnd s' = Sender.cwnd s /\ Sender.ssthresh s' = Sender.ssthresh s /\
  Sender.cong_state s' = Sender.cong_state s /\
  Sender.sent s' = Sender.sent s /\
  (forall k, k ∈ l -> Sender.sent_packets s' !! k = None /\
                      Sender.send_times s' !! k = None) /\
  (forall k, Sender.sent_packets s !! k = None ->
             Sender.sent_packets s' !! k = None) /\
  (forall k, Sender.send_times s !! k = None ->
             Sender.send_times s' !! k = None) /\
  (forall k, is_Some (Sender.sent_packets s' !! k) ->
             is_Some (Sender.sent_packets s !! k)).
Proof.
  induction l as [|seq l IH]; intros s.
  - cbn [foldl]. split_and!; try done. intros k Hk. by apply elem_of_nil in Hk.
  - cbn [foldl].
    destruct (IH (Sender.erase_seq s seq))
      as (H1 & H2 & H3 & H4 & H5 & H6 & H7 & H8 & H9 & H10 & H11).
    sender_simpl. split_and!; try done.
    + intros k Hk. apply elem_of_cons in Hk as [-> | Hk]; [| by apply H8].
      split; [apply H9 | apply H10]; apply lookup_delete_eq.
    + intros k Hk. apply H9. apply lookup_delete_None. by right.
    + intros k Hk. apply H10. apply lookup_delete_None. by right.
    + intros k Hk. apply H11 in Hk as [x Hx].
      apply lookup_delete_Some in Hx as [_ Hx]. eauto.
Qed.

Lemma process_sacks_frame blocks :
  forall s : Sender.t,
  let s' := Sender.process_sacks blocks s in
  Sender.base s' = Sender.base s /\
  Sender.next_seq_num s' = Sender.next_seq_num s /\
  Sender.seq_num s' = Sender.seq_num s /\
  Sender.cwnd s' = Sender.cwnd s /\ Sender.ssthresh s' = Sender.ssthresh s /\
  Sender.cong_state s' = Sender.cong_state s /\
  Sender.sent s' = Sender.sent s /\
  (forall b k, b ∈ blocks -> left_edge b <= k < right_edge b ->
     Sender.sent_packets s' !! k = None /\ Sender.send_times s' !! k = None) /\
  (forall k, Sender.sent_packets s !! k = None ->
             Sender.sent_packets s' !! k = None) /\
  (forall k, Sender.send_times s !! k = None ->
             Sender.send_times s' !! k = None) /\
  (forall k, is_Some (Sender.sent_packets s' !! k) ->
             is_Some (Sender.sent_packets s !! k)).
Proof.
  unfold Sender.process_sacks.
  induction blocks as [|b blocks IH]; intros s.
  - cbn [foldl]. split_and!; try done. intros b k Hb. by apply elem_of_nil in Hb.
  - cbn [foldl].
    destruct (erase_range_frame (Sender.sack_range b) s)
      as (E1 & E2 & E3 & E4 & E5 & E6 & E7 & E8 & E9 & E10 & E11).
    destruct (IH (foldl Sender.erase_seq s (Sender.sack_range b)))
      as (H1 & H2 & H3 & H4 & H5 & H6 & H7 & H8 & H9 & H10 & H11).
    split_and!; try congruence.
    + intros b' k Hb Hk. apply elem_of_cons in Hb as [-> | Hb]; [| by eapply H8].
      destruct (E8 k) as [Hsp Hst].
      { unfold Sender.sack_range. apply elem_of_seqZ. lia. }
      split; [by apply H9 | by apply H10].
    + intros k Hk. by apply H9, E9.
    + intros k Hk. by apply H10, E10.
    + intros k Hk. by apply E11, H11.
Qed.

End AckHandling.

Section TimeoutScan.
Context {proto : ProtocolH} {text : SenderText}.

Lemma timeout_entry_phase file_data now entry (s : Sender.t) :
  phase_ok file_data s (Sender.timeout_entry now s entry).
Proof.
  destruct entry as [seq ts]. unfold Sender.timeout_entry.
  destruct (TIMEOUT_MS <? now - ts); [| apply phase_ok_refl].
  destruct (Sender.sent_packets s !! seq) as [p|] eqn:Hp; [| apply phase_ok_refl].
  intros ((Hseq0 & Hwrap) & Hnext & Hkeys & Hdom).
  unfold flight_inv, no_wrap, stays_out. sender_simpl.
  split_and!; try done; try lia.
  - intros k [t Hk]. destruct (decide (seq = k)) as [<- | Hne]; [eauto |].
    rewrite lookup_insert_ne in Hk by exact Hne. apply Hdom. eauto.
  - intros k Hk Hnone.
    assert (Hne : seq <> k) by (intros ->; congruence).
    split_and!; [done | |].
    + rewrite lookup_insert_ne by exact Hne.
      destruct (Sender.send_times s !! k) eqn:Ht; [| done].
      destruct (Hdom k ltac:(eauto)) as [x Hx]. congruence.
    + eexists. split; [reflexivity |]. constructor; [| constructor].
      destruct (Hkeys _ _ Hp) as [-> _]. exact Hne.
Qed.

Lemma timeout_scan_phase file_data now (l : list (Z * Z)) :
  forall s : Sender.t,
  phase_ok file_data s (foldl (Sender.timeout_entry now) s l).
Proof.
  induction l as [|e l IH]; intros s; [apply phase_ok_refl |].
  cbn [foldl]. eapply phase_ok_trans; [apply timeout_entry_phase | apply IH].
Qed.

Lemma check_timeout_phase file_data now (s : Sender.t) :
  phase_ok file_data s (Sender.check_timeout now s).
Proof. apply timeout_scan_phase. Qed.

(** The timeout scan leaves the window and the packets in flight as
    they are. *)
Lemma timeout_scan_frame now (l : list (Z * Z)) :
  forall s : Sender.t,
  let s' := foldl (Sender.timeout_entry now) s l in
  Sender.seq_num s' = Sender.seq_num s /\ Sender.base s' = Sender.base s /\
  Sender.next_seq_num s' = Sender.next_seq_num s /\
  Sender.sent_packets s' = Sender.sent_packets s.
Proof.
  induction l as [|[seq ts] l IH]; intros s; [done |].
  cbn [foldl]. destruct (IH (Sender.timeout_entry now s (seq, ts)))
    as (H1 & H2 & H3 & H4).
  rewrite H1, H2, H3, H4. unfold Sender.timeout_entry.
  destruct (TIMEOUT_MS <? now - ts); [| done].
  destruct (Sender.sent_packets s !! seq); done.
Qed.

(** An iteration of the loop of [send_file] is made of phases. *)
Lemma iteration_cases file_data turn (s s' : Sender.t) :
  Sender.send_file_iteration file_data turn s = Some s' ->
  s' = Sender.check_timeout (Sender.scan_time turn) (filled file_data turn s) \/
  exists p,
    Sender.receive_packet (Sender.arrival turn) (filled file_data turn s)
      = Some (Some p) /\
    pkt_type p = ACK /\ verify_checksum p = true /\
    s' = Sender.check_timeout (Sender.scan_time turn)
           (Sender.handle_ack p (filled file_data turn s)).
Proof.
  unfold Sender.send_file_iteration. fold (filled file_data turn s).
  destruct (Sender.receive_packet _ _) as [[p|]|] eqn:Hrx; [| | discriminate].
  - intros [= <-]. unfold Sender.on_packet.
    destruct (Z.eqb_spec (pkt_type p) ACK) as [Hty | _]; [| by left].
    destruct (verify_checksum p) eqn:Hv; [| by left].
    right. exists p. by split_and!.
  - intros [= <-]. by left.
Qed.

Lemma iteration_phase file_data turn (s s' : Sender.t) :
  Sender.send_file_iteration file_data turn s = Some s' ->
  phase_ok file_data s s'.
Proof.
  intros Hit. apply iteration_cases in Hit as [-> | (p & _ & _ & _ & ->)].
  - eapply phase_ok_trans; [apply fill_window_phase | apply check_timeout_phase].
  - eapply phase_ok_trans; [apply fill_window_phase |].
    eapply phase_ok_trans; [apply handle_ack_phase | apply check_timeout_phase].
Qed.

Lemma transfer_phase ok file_data (s : Sender.t) script s' :
  transfer_where ok file_data s script s' -> phase_ok file_data s s'.
Proof.
  induction 1 as [s | s turn s1 rest s2 _ _ Hit _ IH]; [apply phase_ok_refl |].
  eapply phase_ok_trans; [by eapply iteration_phase | exact IH].
Qed.

(** The state [connect] leaves satisfies the invariants. *)
Lemma connected_invariants file_data from :
  2 + Sender.total_packets file_data + WINDOW_SIZE <= 2 ^ 32 ->
  window_inv file_data (Sender.connected from Sender.init).
Proof.
  intros Hsize. pose proof (total_packets_range file_data).
  unfold window_inv, flight_inv, no_wrap. cbn. unfold WINDOW_SIZE in *.
  change (add32 0 1) with 1.
  split_and!; try lia.
  - intros k p Hk. by rewrite lookup_empty in Hk.
  - intros k [t Hk]. by rewrite lookup_empty in Hk.
  - intros k [t Hk]. by rewrite lookup_empty in Hk.
Qed.

(** C5. SACK honored. When [handle_ack] processes an ACK with a SACK
    block [[l, r)], every sequence of the block is gone from
    [sent_packets] and from [send_times], and the SACK loop leaves
    [base] where the cumulative part of the handler put it. A sequence
    of the block that had been sent is not in flight at the end of any
    later iteration, no packet transmitted from then on (timeout scan of
    the same iteration included) carries it, and [base] never moves
    back. *)
Theorem sack_honored (file_data : list Z) (s : Sender.t) (ack : Packet)
    (b : SACKBlock) (k : Z) :
  flight_inv file_data s ->
  b ∈ sack_blocks ack -> left_edge b <= k < right_edge b ->
  k < Sender.next_seq_num s ->
  let s1 := Sender.handle_ack ack s in
  Sender.sent_packets s1 !! k = None /\
  Sender.send_times s1 !! k = None /\
  Sender.base s1 = Sender.base (Sender.on_ack_num (pkt_ack ack) s) /\
  forall now script s2,
    transfer file_data (Sender.check_timeout now s1) script s2 ->
    stays_out k s1 s2 /\ Sender.base s1 <= Sender.base s2.
Proof.
  intros Hinv Hb Hk Hsent s1.
  destruct (process_sacks_frame (sack_blocks ack)
              (Sender.on_ack_num (pkt_ack ack) s))
    as (Hbase & _ & _ & _ & _ & _ & _ & Herased & _).
  destruct (Herased b k Hb Hk) as [Hsp Hst].
  split; [exact Hsp |]. split; [exact Hst |]. split; [exact Hbase |].
  intros now script s2 Hrun.
  destruct (handle_ack_phase file_data ack s Hinv) as (Hinv1 & _ & _ & Hn1 & _).
  fold s1 in Hinv1, Hn1.
  assert (Hphase : phase_ok file_data s1 s2).
  { eapply phase_ok_trans; [apply check_timeout_phase |].
    by eapply transfer_phase. }
  destruct (Hphase Hinv1) as (_ & _ & Hb2 & _ & Hout).
  split; [| exact Hb2]. apply Hout; [lia | exact Hsp].
Qed.

End TimeoutScan.

Section WindowInvariant.
Context {proto : ProtocolH} {text : SenderText}.

Lemma window_inv_frame file_data (s s' : Sender.t) :
  flight_inv file_data s' ->
  Sender.seq_num s' = Sender.seq_num s -> Sender.base s' = Sender.base s ->
  Sender.next_seq_num s' = Sender.next_seq_num s ->
  (forall k, is_Some (Sender.sent_packets s' !! k) ->
             is_Some (Sender.sent_packets s !! k)) ->
  window_inv file_data s -> window_inv file_data s'.
Proof.
  intros Hfl Hs Hb Hn Hsub (_ & Hsb & Hbn & Hkb).
  unfold window_inv. rewrite Hs, Hb, Hn. split_and!; try done; try lia.
  intros k Hk. by apply Hkb, Hsub.
Qed.

Lemma on_ack_num_keep a (s : Sender.t) :
  ~ Sender.base s < a ->
  let s' := Sender.on_ack_num a s in
  Sender.seq_num s' = Sender.seq_num s /\ Sender.base s' = Sender.base s /\
  Sender.next_seq_num s' = Sender.next_seq_num s /\
  Sender.sent_packets s' = Sender.sent_packets s.
Proof.
  intros Hge. unfold Sender.on_ack_num.
  destruct (Z.ltb_spec (Sender.base s) a) as [? | _]; [contradiction |].
  destruct (a =? Sender.last_acked s); [| done].
  sender_simpl.
  destruct (add32 (Sender.duplicate_acks s) 1 =? dup_trigger).
  - destruct (Sender.sent_packets s !! a); done.
  - destruct ((dup_trigger <? add32 (Sender.duplicate_acks s) 1)
              && bool_decide (Sender.cong_state s = FAST_RECOVERY)); done.
Qed.

Lemma on_ack_num_window file_data a (s : Sender.t) :
  window_inv file_data s ->
  (Sender.base s < a -> a <= Sender.next_seq_num s) ->
  window_inv file_data (Sender.on_ack_num a s).
Proof.
  intros Hinv Hack. pose proof Hinv as (Hfl & Hsb & Hbn & Hkb).
  destruct (on_ack_num_phase file_data a s Hfl) as (Hfl' & _).
  destruct (Z.lt_ge_cases (Sender.base s) a) as [Hlt | Hge].
  - specialize (Hack Hlt). unfold Sender.on_ack_num in *.
    destruct (Z.ltb_spec (Sender.base s) a) as [_ | ?]; [| lia].
    fold (advance a s) in *.
    destruct (advance_frame a s) as (H1 & H2 & H3 & _ & H5 & _).
    unfold window_inv. rewrite H1, H2, H3, H5.
    split_and!; try done; try lia.
    intros k [p Hk]. apply map_lookup_filter_Some in Hk as [_ Hk].
    simpl in Hk. lia.
  - destruct (on_ack_num_keep a s ltac:(lia)) as (H1 & H2 & H3 & H4).
    apply (window_inv_frame file_data s); try done. by rewrite H4.
Qed.

Lemma handle_ack_window file_data p (s : Sender.t) :
  window_inv file_data s ->
  (Sender.base s < pkt_ack p -> pkt_ack p <= Sender.next_seq_num s) ->
  window_inv file_data (Sender.handle_ack p s).
Proof.
  intros Hinv Hack. unfold Sender.handle_ack.
  pose proof (on_ack_num_window file_data _ s Hinv Hack) as Hinv1.
  destruct (process_sacks_frame (sack_blocks p)
              (Sender.on_ack_num (pkt_ack p) s))
    as (H1 & H2 & H3 & _ & _ & _ & _ & _ & _ & _ & H11).
  apply (window_inv_frame file_data (Sender.on_ack_num (pkt_ack p) s));
    try done.
  apply process_sacks_phase. by destruct Hinv1.
Qed.

Lemma check_timeout_window file_data now (s : Sender.t) :
  window_inv file_data s -> window_inv file_data (Sender.check_timeout now s).
Proof.
  intros Hinv.
  destruct (timeout_scan_frame now (Sender.in_key_order (Sender.send_times s)) s)
    as (H1 & H2 & H3 & H4).
  apply (window_inv_frame file_data s); try done.
  - apply check_timeout_phase. by destruct Hinv.
  - unfold Sender.check_timeout. by rewrite H4.
Qed.

Lemma iteration_window file_data turn (s s' : Sender.t) :
  window_inv file_data s -> acks_sent_data file_data s turn ->
  Sender.send_file_iteration file_data turn s = Some s' ->
  window_inv file_data s'.
Proof.
  intros Hinv Hok Hit.
  destruct (fill_window_window file_data (Sender.window_limit s)
              (Sender.clock turn)
              (Sender.fill_budget file_data (Sender.window_limit s) s)
              (window_limit_range s) s Hinv) as (Hinv1 & _).
  fold (filled file_data turn s) in Hinv1.
  apply iteration_cases in Hit as [-> | (p & Hrx & Hty & Hv & ->)].
  - by apply check_timeout_window.
  - apply check_timeout_window, handle_ack_window; [exact Hinv1 |].
    intros _. by apply Hok.
Qed.

Lemma honest_transfer_window file_data (s : Sender.t) script s' :
  honest_transfer file_data s script s' ->
  window_inv file_data s -> window_inv file_data s'.
Proof.
  induction 1 as [s | s turn s1 rest s2 _ Hok Hit _ IH]; [done |].
  intros Hinv. apply IH. by eapply iteration_window.
Qed.

(** With every key in [[base, next_seq_num)] the map has at most
    [next_seq_num - base] entries. *)
Lemma in_flight_count file_data (s : Sender.t) :
  window_inv file_data s ->
  Z.of_nat (size (Sender.sent_packets s))
    <= Sender.next_seq_num s - Sender.base s.
Proof.
  intros ((_ & _ & Hkeys & _) & _ & Hbn & Hkb).
  rewrite <- size_dom.
  assert (Hsub : dom (Sender.sent_packets s) ⊆
            (list_to_set (seqZ (Sender.base s)
                             (Sender.next_seq_num s - Sender.base s)) : gset Z)).
  { intros k Hk. apply elem_of_dom in Hk.
    apply elem_of_list_to_set, elem_of_seqZ.
    pose proof (Hkb k Hk). destruct Hk as [p Hp].
    destruct (Hkeys _ _ Hp). lia. }
  apply subseteq_size in Hsub.
  rewrite size_list_to_set in Hsub by apply NoDup_seqZ.
  rewrite length_seqZ in Hsub. lia.
Qed.

(** C4, as the code has it. In a run that starts from a state with the
    window invariant (the state [connect] leaves is one), in which
    sequence numbers stay clear of the end of [uint32_t] and no ACK
    acknowledges a sequence not yet sent, at the end of every iteration
    and after the window loop of the next: [base <= next_seq_num <=
    base + WINDOW_SIZE], every key of [sent_packets] is in
    [[base, next_seq_num)], and [sent_packets] has at most [WINDOW_SIZE]
    entries. The window loop sends a new packet only below
    [base + window_limit], with [window_limit] computed from [cwnd] and
    [WINDOW_SIZE] alone: if it sends, [next_seq_num] ends within
    [base + window_limit]. *)
Theorem sender_window_invariant (file_data : list Z) (s0 s : Sender.t)
    (script : list Sender.Turn) :
  window_inv file_data s0 ->
  honest_transfer file_data s0 script s ->
  (Sender.base s <= Sender.next_seq_num s <= Sender.base s + WINDOW_SIZE /\
   (forall k, is_Some (Sender.sent_packets s !! k) ->
              Sender.base s <= k < Sender.next_seq_num s) /\
   Z.of_nat (size (Sender.sent_packets s)) <= WINDOW_SIZE) /\
  forall turn,
    let s' := filled file_data turn s in
    Sender.window_limit s' =
      Z.min (double_to_u32 (Sender.cwnd s)) WINDOW_SIZE /\
    Sender.base s' <= Sender.next_seq_num s' <= Sender.base s' + WINDOW_SIZE /\
    (forall k, is_Some (Sender.sent_packets s' !! k) ->
               Sender.base s' <= k < Sender.next_seq_num s') /\
    Z.of_nat (size (Sender.sent_packets s')) <= WINDOW_SIZE /\
    (Sender.next_seq_num s' = Sender.next_seq_num s \/
     Sender.next_seq_num s' <= Sender.base s' + Sender.window_limit s').
Proof.
  intros Hinv0 Hrun.
  pose proof (honest_transfer_window _ _ _ _ Hrun Hinv0) as Hinv.
  assert (Hfacts : forall w : Sender.t, window_inv file_data w ->
    Sender.base w <= Sender.next_seq_num w <= Sender.base w + WINDOW_SIZE /\
    (forall k, is_Some (Sender.sent_packets w !! k) ->
               Sender.base w <= k < Sender.next_seq_num w) /\
    Z.of_nat (size (Sender.sent_packets w)) <= WINDOW_SIZE).
  { intros w Hw. pose proof (in_flight_count _ _ Hw) as Hsize.
    destruct Hw as ((_ & _ & Hkeys & _) & _ & Hbn & Hkb).
    split_and!; try lia.
    intros k Hk. pose proof (Hkb k Hk). destruct Hk as [p Hp].
    destruct (Hkeys _ _ Hp). lia. }
  split; [by apply Hfacts |].
  intros turn s'.
  destruct (fill_window_window file_data (Sender.window_limit s)
              (Sender.clock turn)
              (Sender.fill_budget file_data (Sender.window_limit s) s)
              (window_limit_range s) s Hinv) as (Hinv1 & Hb1 & Hc1 & Hn1).
  change (Sender.fill_window _ _ _ _ s) with s' in Hinv1, Hb1, Hc1, Hn1.
  clearbody s'.
  destruct (Hfacts s' Hinv1) as (F1 & F2 & F3).
  assert (Hwl : Sender.window_limit s' = Sender.window_limit s)
    by (unfold Sender.window_limit; by rewrite Hc1).
  split; [unfold Sender.window_limit; by rewrite Hc1 |].
  split; [exact F1 |]. split; [exact F2 |]. split; [exact F3 |].
  rewrite Hwl, Hb1. exact Hn1.
Qed.

End WindowInvariant.

(** ** Instances for the sender *)

(** A file of three chunks, the last one byte long. *)
Definition three_chunk_file : list Z := replicate 2049 65.

(** The sender right after [connect]. *)
Definition connected_sender : Sender.t :=
  Sender.connected (2, 9001) Sender.init.

(** First turn: the window loop sends sequence 1 at time 0, the ACK for
    it arrives, the timeout scan runs at time 10. Second turn: the
    window loop sends at time 20, nothing arrives, the timeout scan runs
    at time 2000. *)
Definition acked_turn : Sender.Turn :=
  Sender.mkTurn (fun _ => 0) (Some ((2, 9001), serialize (plain_ack 2))) 10.
Definition late_turn : Sender.Turn :=
  Sender.mkTurn (fun _ => 20) None 2000.

(** A turn in which a checksum-valid ACK for sequence 1000 arrives. *)
Definition optimistic_turn : Sender.Turn :=
  Sender.mkTurn (fun _ => 0) (Some ((2, 9001), serialize (plain_ack 1000))) 10.

(** What is looked at in the outcome of the loop of [send_file]. *)
Definition loop_view (r : Sender.LoopResult) :=
  match r with
  | Sender.Sending s =>
      Some (false, sender_view s, Sender.window_limit s,
            size (Sender.sent_packets s))
  | Sender.Done s _ =>
      Some (true, sender_view s, Sender.window_limit s,
            size (Sender.sent_packets s))
  | Sender.Undefined => None
  end.

Section SenderInstances.

(** C4 fails as stated. After the ACK for sequence 1 raised [cwnd] to 2,
    sequences 2 and 3 are sent; their timeout sets [cwnd] to 1, and the
    loop goes on with [base = 2], [next_seq_num = 4], two packets in
    flight and [window_limit = 1]. And a checksum-valid ACK for a
    sequence never sent puts [base] at 1000 with [next_seq_num = 2],
    which ends the loop with two of the three chunks unsent. *)
Lemma window_bound_exceeded :
  loop_view
    (@Sender.send_file_loop protocol_v2 sender_v1 three_chunk_file
       [acked_turn; late_turn] connected_sender)
  = Some (false, (2, 4, 0, [1; 2; 3; 2; 3], SLOW_START, 2, 1, [2; 3]),
          1, 2%nat) /\
  loop_view
    (@Sender.send_file_loop protocol_v2 sender_v1 three_chunk_file
       [optimistic_turn] connected_sender)
  = Some (true, (1000, 2, 0, [1], SLOW_START, 16, 2, []), 2, 0%nat).
Proof. split; vm_compute; reflexivity. Qed.

End SenderInstances.

(** ** The advertised window *)

(** Two packets that agree on everything but [window_size] and
    [checksum]. *)
Definition window_variant (p p' : Packet) : Prop :=
  type (header p) = type (header p') /\
  flags (header p) = flags (header p') /\
  seq_num (header p) = seq_num (header p') /\
  ack_num (header p) = ack_num (header p') /\
  data_length (header p) = data_length (header p') /\
  sack_count (header p) = sack_count (header p') /\
  data p = data p' /\ sack_blocks p = sack_blocks p'.

(** [p] with another advertised window and nothing else changed. *)
Definition with_window (w : Z) (p : Packet) : Packet :=
  mkPacket
    (mkHeader (type (header p)) (flags (header p)) (checksum (header p))
              (seq_num (header p)) (ack_num (header p)) w
              (data_length (header p)) (sack_count (header p)))
    (data p) (sack_blocks p).

(** The turn [acked_turn] with the advertised window of its ACK changed
    from 16 to 17. *)
Definition rewindowed_turn : Sender.Turn :=
  Sender.mkTurn (fun _ => 0)
    (Some ((2, 9001), serialize (with_window 17 (plain_ack 2)))) 10.

Section AdvertisedWindow.
Context {proto : ProtocolH} {text : SenderText}.

(** Two arrivals whose packets are window variants of each other with
    the same checksum verdict. *)
Definition arrival_variant (a a' : Arrival) : Prop :=
  match a, a' with
  | None, None => True
  | Some (from, buffer), Some (from', buffer') =>
      from = from' /\ length buffer = length buffer' /\
      match deserialize buffer, deserialize buffer' with
      | Some p, Some p' =>
          window_variant p p' /\ verify_checksum p = verify_checksum p'
      | None, None => True
      | _, _ => False
      end
  | _, _ => False
  end.

Definition turn_variant (t t' : Sender.Turn) : Prop :=
  Sender.clock t = Sender.clock t' /\
  Sender.scan_time t = Sender.scan_time t' /\
  arrival_variant (Sender.arrival t) (Sender.arrival t').

(** The state the loop is in when the script ends, and whether the loop
    was left. *)
Definition outcome (r : Sender.LoopResult) : option (bool * Sender.t) :=
  match r with
  | Sender.Done s _ => Some (true, s)
  | Sender.Sending s => Some (false, s)
  | Sender.Undefined => None
  end.

Lemma handle_ack_window_blind p p' (s : Sender.t) :
  window_variant p p' -> Sender.handle_ack p s = Sender.handle_ack p' s.
Proof.
  intros (_ & _ & _ & Hack & _ & _ & _ & Hsacks).
  unfold Sender.handle_ack, pkt_ack. by rewrite Hack, Hsacks.
Qed.

Lemma on_packet_variant p p' (s : Sender.t) :
  window_variant p p' -> verify_checksum p = verify_checksum p' ->
  Sender.on_packet p s = Sender.on_packet p' s.
Proof.
  intros Hvar Hver. unfold Sender.on_packet, pkt_type.
  destruct Hvar as (Hty & Hrest). rewrite Hty, Hver.
  destruct (_ && _); [| reflexivity].
  apply handle_ack_window_blind. by split.
Qed.

Lemma iteration_variant file_data t t' (s : Sender.t) :
  turn_variant t t' ->
  Sender.send_file_iteration file_data t s =
  Sender.send_file_iteration file_data t' s.
Proof.
  intros (Hclock & Hscan & Harr). unfold Sender.send_file_iteration.
  rewrite Hclock, Hscan.
  set (s1 := Sender.fill_window _ _ _ _ s).
  unfold arrival_variant in Harr. unfold Sender.receive_packet.
  destruct (Sender.arrival t) as [[from buffer]|],
           (Sender.arrival t') as [[from' buffer']|]; try done.
  destruct Harr as (<- & Hlen & Harr). rewrite Hlen.
  destruct (negb _); [reflexivity |].
  destruct (Sender.server_locked s1 && _); [reflexivity |].
  destruct (deserialize buffer) as [p|], (deserialize buffer') as [p'|];
    try done.
  destruct Harr as [Hvar Hver]. by rewrite (on_packet_variant p p').
Qed.

Lemma loop_variant file_data script script' :
  Forall2 turn_variant script script' ->
  forall s : Sender.t,
  outcome (Sender.send_file_loop file_data script s) =
  outcome (Sender.send_file_loop file_data script' s).
Proof.
  induction 1 as [|t t' script script' Ht _ IH]; intros s.
  - cbn [Sender.send_file_loop]. by destruct (_ <? _).
  - cbn [Sender.send_file_loop].
    destruct (Sender.base s <? _); [| reflexivity].
    rewrite (iteration_variant file_data t t' s Ht).
    destruct (Sender.send_file_iteration file_data t' s); [apply IH | reflexivity].
Qed.

(** C10, as the code has it. Two runs of the loop of [send_file] whose
    turns differ only in the [window_size] and [checksum] fields of the
    arriving packets, each packet keeping its checksum verdict, end in
    the same sender state, transmitted packets included. [handle_ack]
    does not read [window_size], and [window_limit] is computed from
    [cwnd] and [WINDOW_SIZE]. *)
Theorem advertised_window_ignored (file_data : list Z)
    (script script' : list Sender.Turn) (s : Sender.t) :
  Forall2 turn_variant script script' ->
  outcome (Sender.send_file_loop file_data script s) =
  outcome (Sender.send_file_loop file_data script' s) /\
  (forall p p' (w : Sender.t),
     window_variant p p' -> Sender.handle_ack p w = Sender.handle_ack p' w) /\
  (forall w : Sender.t,
     Sender.window_limit w = Z.min (double_to_u32 (Sender.cwnd w)) WINDOW_SIZE).
Proof.
  intros Hvar. split; [by apply loop_variant |].
  split; [intros p p' w; apply handle_ack_window_blind | reflexivity].
Qed.

End AdvertisedWindow.

Section AdvertisedWindowInstances.

(** C10 fails as stated. The ACK of [rewindowed_turn] differs from that
    of [acked_turn] in the [window_size] field only; the first passes
    [verify_checksum] and moves [base] to 2, the second fails it and is
    not processed, and the two runs send different packets next. *)
Lemma advertised_window_matters :
  window_variant (plain_ack 2) (with_window 17 (plain_ack 2)) /\
  checksum (header (plain_ack 2))
    = checksum (header (with_window 17 (plain_ack 2))) /\
  loop_view
    (@Sender.send_file_loop protocol_v2 sender_v1 three_chunk_file
       [acked_turn; late_turn] connected_sender)
  = Some (false, (2, 4, 0, [1; 2; 3; 2; 3], SLOW_START, 2, 1, [2; 3]),
          1, 2%nat) /\
  loop_view
    (@Sender.send_file_loop protocol_v2 sender_v1 three_chunk_file
       [rewindowed_turn; late_turn] connected_sender)
  = Some (false, (1, 2, 0, [1; 1], SLOW_START, 2, 1, [1]), 1, 1%nat).
Proof.
  split; [repeat split |]. split; [reflexivity |].
  split; vm_compute; reflexivity.
Qed.

End AdvertisedWindowInstances.

(** ** Instances of the sender theorems *)

(** The sender after [acked_turn]. *)
Definition after_acked_turn : Sender.t :=
  match @Sender.send_file_iteration protocol_v2 sender_v1 three_chunk_file
          acked_turn connected_sender with
  | Some s => s
  | None => connected_sender
  end.

(** The ACK of [acked_turn] sealed again after its advertised window
    was changed to 17. *)
Definition resealed_turn : Sender.Turn :=
  Sender.mkTurn (fun _ => 0)
    (Some ((2, 9001),
           serialize
             (@Receiver.seal protocol_v2
                (mkPacket (mkHeader ACK 0 0 0 2 17 0 0) (data empty_packet) []))))
    10.

(** A file of eight full chunks, and an ACK for sequence 5 with the SACK
    block [[6, 8)]. *)
Definition eight_chunk_file : list Z := replicate (Z.to_nat 8192) 65.
Definition sack_ack : Packet :=
  @Receiver.seal protocol_v2
    (mkPacket (mkHeader ACK 0 0 0 5 WINDOW_SIZE 0 1) (data empty_packet)
       [mkSack 6 8]).

Section SenderWitnesses.

Lemma sender_window_invariant_witness :
  @window_inv three_chunk_file connected_sender /\
  @honest_transfer protocol_v2 sender_v1 three_chunk_file connected_sender
    [acked_turn] after_acked_turn /\
  Z.of_nat (size (Sender.sent_packets after_acked_turn)) <= WINDOW_SIZE.
Proof.
  assert (Hinv : @window_inv three_chunk_file connected_sender).
  { apply connected_invariants. vm_compute. intros H; discriminate H. }
  assert (Hrun : @honest_transfer protocol_v2 sender_v1 three_chunk_file
                   connected_sender [acked_turn] after_acked_turn).
  { eapply transfer_cons; [| | | apply transfer_nil].
    - vm_compute. reflexivity.
    - intros p Hrx _ _. vm_compute in Hrx. injection Hrx as <-.
      vm_compute. intros H; discriminate H.
    - vm_compute. reflexivity. }
  split; [exact Hinv | split; [exact Hrun |]].
  exact (proj2 (proj2 (proj1
    (@sender_window_invariant protocol_v2 sender_v1 three_chunk_file
       connected_sender after_acked_turn [acked_turn] Hinv Hrun)))).
Defined.

Lemma sack_honored_witness :
  @flight_inv eight_chunk_file sender_with_one_duplicate /\
  Sender.sent_packets
    (@Sender.handle_ack sender_v1 sack_ack sender_with_one_duplicate) !! 6
  = None.
Proof.
  assert (Hinv : @flight_inv eight_chunk_file sender_with_one_duplicate).
  { unfold flight_inv, no_wrap. split_and!.
    - vm_compute. intros H; discriminate H.
    - vm_compute. reflexivity.
    - vm_compute. intros H; discriminate H.
    - vm_compute. intros H; discriminate H.
    - assert (H : map_Forall (fun k p => pkt_seq p = k /\ k < 9)
                    (Sender.sent_packets sender_with_one_duplicate))
        by (apply (bool_decide_unpack _); vm_compute; reflexivity).
      exact H.
    - assert (H : map_Forall
                    (fun k (_ : Z) =>
                       is_Some (Sender.sent_packets sender_with_one_duplicate !! k))
                    (Sender.send_times sender_with_one_duplicate))
        by (apply (bool_decide_unpack _); vm_compute; reflexivity).
      intros k [t Hk]. exact (H k t Hk). }
  split; [exact Hinv |].
  refine (proj1 (@sack_honored protocol_v2 sender_v1 eight_chunk_file
                   sender_with_one_duplicate sack_ack (mkSack 6 8) 6 Hinv _ _ _)).
  - apply list_elem_of_singleton. reflexivity.
  - cbn. lia.
  - cbn. lia.
Defined.

Lemma advertised_window_ignored_witness :
  Forall2 (@turn_variant protocol_v2) [acked_turn] [resealed_turn] /\
  @outcome (@Sender.send_file_loop protocol_v2 sender_v1 three_chunk_file
              [acked_turn] connected_sender)
  = @outcome (@Sender.send_file_loop protocol_v2 sender_v1 three_chunk_file
                [resealed_turn] connected_sender).
Proof.
  assert (H : Forall2 (@turn_variant protocol_v2) [acked_turn] [resealed_turn]).
  { constructor; [| constructor].
    split; [reflexivity |]. split; [reflexivity |].
    split; [reflexivity |]. split; [reflexivity |].
    vm_compute. repeat split; reflexivity. }
  split; [exact H |].
  exact (proj1 (@advertised_window_ignored protocol_v2 sender_v1
                  three_chunk_file _ _ connected_sender H)).
Defined.

End SenderWitnesses.

(** * Further properties of the codec *)

Section DecodeBounds.

Lemma nth_byte (l : list Z) i : Forall is_byte l -> is_byte (nth i l 0).
Proof.
  intros Hl. destruct (nth_in_or_default i l 0) as [Hin | ->].
  - rewrite Forall_forall in Hl. apply Hl. by apply list_elem_of_In.
  - unfold is_byte. lia.
Qed.

(** The header fields [deserialize] reads are within their types also
    when the buffer is short. *)
Lemma parse_header_range (b : list Z) :
  Forall is_byte b ->
  0 <= data_length (parse_header b) < 2 ^ 16 /\
  0 <= sack_count (parse_header b) < 2 ^ 32.
Proof.
  intros Hb. unfold parse_header. cbn [data_length sack_count].
  split; [apply de16_range | apply de32_range]; by apply nth_byte.
Qed.

Lemma read_sacks_wf n :
  forall rest, Forall is_byte rest -> Forall sack_wf (read_sacks n rest).
Proof.
  induction n as [|n IH]; intros rest Hb; [constructor |].
  cbn [read_sacks]. destruct (8 <=? Z.of_nat (length rest)); [| by apply IH].
  constructor; [| apply IH; by apply Forall_drop].
  unfold sack_wf, parse_sack. cbn [left_edge right_edge].
  split; apply de32_range; apply nth_byte; by apply Forall_take.
Qed.

(** A header that announces more payload than the array holds, in a
    buffer that does hold it. *)
Definition overflows (buffer : list Z) : Prop :=
  let len := Z.of_nat (length buffer) in
  let h := parse_header (take 20 buffer) in
  HEADER_SIZE <= len /\ MAX_DATA_SIZE < data_length h /\
  HEADER_SIZE + data_length h <= len.

(** A datagram of [n] bytes whose header announces [n - 20] payload
    bytes. *)
Definition oversized (n : Z) : list Z :=
  header_bytes (mkHeader DATA 0 0 0 0 0 (n - HEADER_SIZE) 0) ++
  replicate (Z.to_nat (n - HEADER_SIZE)) 0.

(** X1. [deserialize] copies [data_length] bytes into [data] without
    comparing the length with [MAX_DATA_SIZE]: the copy leaves the array
    exactly on the buffers that hold a payload longer than the array.
    No buffer of at most [MAX_PACKET_SIZE] bytes is one, and for every
    larger length that the receive buffer of [receive_packet] allows
    there is one, on which an iteration of [run] has no defined
    outcome. *)
Theorem deserialize_leaves_array (buffer : list Z) (n : Z) :
  (deserialize buffer = None <-> overflows buffer) /\
  (Z.of_nat (length buffer) <= MAX_PACKET_SIZE -> is_Some (deserialize buffer)) /\
  (MAX_PACKET_SIZE < n <= 2 * MAX_PACKET_SIZE ->
   Z.of_nat (length (oversized n)) = n /\ Forall is_byte (oversized n) /\
   deserialize (oversized n) = None /\
   forall (proto : ProtocolH) from (r : Receiver.t),
     accepted_from from r ->
     Receiver.run_iteration (Some (from, oversized n)) r = None).
Proof.
  assert (Hiff : forall b, deserialize b = None <-> overflows b).
  { intros b. unfold deserialize, overflows.
    destruct (Z.ltb_spec (Z.of_nat (length b)) HEADER_SIZE) as [Hlt | Hge].
    { split; [discriminate | lia]. }
    destruct (Z.ltb_spec 0 (data_length (parse_header (take 20 b)))) as [Hpos | Hz];
      cbn [andb].
    2: { split; [discriminate |]. unfold MAX_DATA_SIZE. lia. }
    destruct (Z.leb_spec (HEADER_SIZE + data_length (parse_header (take 20 b)))
                (Z.of_nat (length b))) as [Hfit | Hshort].
    2: { split; [discriminate | lia]. }
    destruct (Z.leb_spec (data_length (parse_header (take 20 b))) MAX_DATA_SIZE)
      as [Hmax | Hover].
    - split; [discriminate | lia].
    - split; [intros _; lia | reflexivity]. }
  split; [apply Hiff |]. split.
  - intros Hlen. destruct (deserialize buffer) eqn:Hde; [eauto |].
    apply Hiff in Hde as (_ & Hover & Hfit).
    unfold MAX_PACKET_SIZE, MAX_DATA_SIZE, HEADER_SIZE in *. lia.
  - intros Hn. unfold MAX_PACKET_SIZE, MAX_DATA_SIZE, HEADER_SIZE in Hn.
    assert (Hwf : header_wf (mkHeader DATA 0 0 0 0 0 (n - HEADER_SIZE) 0)).
    { unfold header_wf, HEADER_SIZE, DATA. cbn. lia. }
    assert (Hlen : Z.of_nat (length (oversized n)) = n).
    { unfold oversized. rewrite length_app, header_bytes_length, length_replicate.
      unfold HEADER_SIZE. lia. }
    assert (Hover : deserialize (oversized n) = None).
    { apply Hiff. unfold overflows. rewrite Hlen. unfold oversized.
      rewrite (take_app_length' (header_bytes _)) by (symmetry; apply header_bytes_length).
      rewrite parse_header_bytes by exact Hwf. cbn [data_length].
      unfold MAX_DATA_SIZE, HEADER_SIZE. lia. }
    split; [exact Hlen |]. split.
    { unfold oversized. apply Forall_app_2; [exact (header_bytes_are_bytes _ Hwf) |].
      apply Forall_replicate. unfold is_byte. lia. }
    split; [exact Hover |].
    intros proto from r Hfrom.
    unfold Receiver.run_iteration, Receiver.receive_packet.
    rewrite nonempty_received.
    2: { intros Hnil. rewrite Hnil in Hlen. simpl in Hlen. lia. }
    cbn [Receiver.client_locked Receiver.set_sender_addr Receiver.sender_addr
         Receiver.client_addr].
    rewrite (accepted_gate _ _ Hfrom), Hover. reflexivity.
Qed.

(** X2. Decoding then encoding. A buffer of bytes whose length is the
    one its header announces, with a payload that fits the array, is the
    serialization of the packet [deserialize] reads from it, and that
    packet is well formed. *)
Theorem serialize_deserialize (buffer : list Z) :
  Forall is_byte buffer ->
  data_length (parse_header (take 20 buffer)) <= MAX_DATA_SIZE ->
  Z.of_nat (length buffer) =
    HEADER_SIZE + data_length (parse_header (take 20 buffer))
    + 8 * sack_count (parse_header (take 20 buffer)) ->
  exists p, deserialize buffer = Some p /\ well_formed p /\
            serialize p = buffer.
Proof.
  intros Hb Hmax Hlen.
  set (h := parse_header (take 20 buffer)) in *.
  destruct (parse_header_range (take 20 buffer)) as [Hdl Hsc];
    [by apply Forall_take |]. fold h in Hdl, Hsc.
  unfold HEADER_SIZE in Hlen.
  set (hb := take 20 buffer).
  set (pl := take (Z.to_nat (data_length h)) (drop 20 buffer)).
  set (sb := drop (Z.to_nat (data_length h)) (drop 20 buffer)).
  assert (Hsplit : buffer = hb ++ pl ++ sb).
  { unfold hb, pl, sb. by rewrite !take_drop. }
  assert (Hhb : length hb = 20%nat) by (unfold hb; rewrite length_take; lia).
  assert (Hpl : length pl = Z.to_nat (data_length h)).
  { unfold pl. rewrite length_take, length_drop. lia. }
  assert (Hsb : length sb = (8 * Z.to_nat (sack_count h))%nat).
  { unfold sb. rewrite !length_drop. lia. }
  assert (Hbh : Forall is_byte hb) by (by apply Forall_take).
  assert (Hbp : Forall is_byte pl) by (by apply Forall_take, Forall_drop).
  assert (Hbs : Forall is_byte sb) by (by apply Forall_drop, Forall_drop).
  assert (Hh : parse_header hb = h) by reflexivity.
  cut (exists p, deserialize (hb ++ pl ++ sb) = Some p /\ well_formed p /\
                 serialize p = hb ++ pl ++ sb);
    [by rewrite <- Hsplit |].
  rewrite deserialize_layout; [| exact Hhb | rewrite Hh, Hpl; lia | lia].
  eexists. split; [reflexivity |].
  assert (Hwfh : header_wf h) by (by apply parse_header_wf).
  assert (Hcat : concat (map sack_bytes
                   (read_sacks (Z.to_nat (sack_count h)) sb)) = sb)
    by (by apply concat_read_sacks).
  rewrite Hh. split.
  - unfold well_formed, packet_wf. cbn [header data sack_blocks].
    split_and!; try done.
    + rewrite length_app, length_replicate. unfold MAX_DATA_SIZE in *. lia.
    + apply Forall_app_2; [exact Hbp |]. apply Forall_replicate.
      unfold is_byte. lia.
    + by apply read_sacks_wf.
    + pose proof (concat_sack_bytes_length
                    (read_sacks (Z.to_nat (sack_count h)) sb)) as Hl.
      rewrite Hcat, Hsb in Hl. lia.
  - unfold serialize, payload. cbn [header data sack_blocks].
    rewrite <- Hh, header_bytes_parse by assumption. rewrite Hh.
    rewrite <- Hpl, take_app_length, Hcat. reflexivity.
Qed.

End DecodeBounds.

Section CodecWitnesses.

Lemma serialize_deserialize_witness :
  exists p, deserialize (serialize sample_packet) = Some p /\ well_formed p /\
            serialize p = serialize sample_packet.
Proof.
  apply (serialize_deserialize (serialize sample_packet)).
  - apply (bool_decide_unpack _). vm_compute. reflexivity.
  - vm_compute. intros H; discriminate H.
  - vm_compute. reflexivity.
Defined.

End CodecWitnesses.

(** ** The carry loop and the words of the sum *)

(** [p] with the contents of [seq_num] and [ack_num] exchanged. *)
Definition exchange_seq_ack (p : Packet) : Packet :=
  mkPacket
    (mkHeader (type (header p)) (flags (header p)) (checksum (header p))
       (ack_num (header p)) (seq_num (header p)) (window_size (header p))
       (data_length (header p)) (sack_count (header p)))
    (data p) (sack_blocks p).

Section ChecksumWords.

Ltac zdm := Z.div_mod_to_equations; lia.

Lemma fold_carries_fixed fuel r :
  Z.shiftr r 16 = 0 -> fold_carries fuel r = r.
Proof.
  intros Hr. destruct fuel as [|fuel]; [reflexivity |].
  cbn [fold_carries]. rewrite Hr. reflexivity.
Qed.

Lemma fold_carries_add n k :
  forall s, fold_carries (n + k) s = fold_carries k (fold_carries n s).
Proof.
  induction n as [|n IH]; intros s; [reflexivity |].
  cbn [Nat.add fold_carries].
  destruct (Z.eqb_spec (Z.shiftr s 16) 0) as [Hz | _].
  - symmetry. by apply fold_carries_fixed.
  - apply IH.
Qed.

(** X3. The loop [while (sum >> 16) sum = (sum & 0xFFFF) + (sum >> 16)]
    of [calculate_checksum] runs at most twice on a 32-bit sum: any
    larger budget gives the value two iterations give, that value fits
    16 bits, and it is the sum reduced modulo [0xFFFF], zero only for
    the sum zero. *)
Theorem carry_loop_runs_twice (sum : Z) (fuel : nat) :
  0 <= sum < 2 ^ 32 -> (2 <= fuel)%nat ->
  fold_carries fuel sum = fold_carries 2 sum /\
  Z.shiftr (fold_carries 2 sum) 16 = 0 /\
  0 <= fold_carries 2 sum < 2 ^ 16 /\
  (fold_carries 2 sum - sum) mod 65535 = 0 /\
  (fold_carries 2 sum = 0 <-> sum = 0).
Proof.
  intros Hs Hfuel.
  destruct (fold_carries_settles sum Hs) as (Hhigh & Hr & (k & Hk & Hsum) & Hz).
  split; [| split; [exact Hhigh | split; [lia | split; [| exact Hz]]]].
  - replace fuel with (2 + (fuel - 2))%nat by lia.
    rewrite fold_carries_add. by apply fold_carries_fixed.
  - apply Z.mod_divide; [lia |]. exists (- k). lia.
Qed.

Lemma total_v2_exchange p : total_v2 (exchange_seq_ack p) = total_v2 p.
Proof.
  destruct p as [[ty fl ck sq ak ws dl sc] d sb].
  unfold total_v2, exchange_seq_ack, payload, header_bytes.
  cbn [header data sack_blocks type flags checksum seq_num ack_num window_size
       data_length sack_count app le16 le32 word_sum].
  lia.
Qed.

Lemma total_v1_exchange p : total_v1 (exchange_seq_ack p) = total_v1 p.
Proof.
  destruct p as [[ty fl ck sq ak ws dl sc] d sb].
  unfold total_v1, exchange_seq_ack, payload, header_bytes.
  cbn [header data sack_blocks type flags checksum seq_num ack_num window_size
       data_length sack_count app le16 le32 word_sum firstn skipn].
  rewrite ?take_0. cbn [word_sum]. lia.
Qed.

Lemma set_checksum_header_wf c p :
  0 <= c < 2 ^ 16 -> header_wf (header p) -> header_wf (header (set_checksum c p)).
Proof.
  intros Hc (?&?&?&?&?&?&?&?). unfold header_wf. cbn [set_checksum header type
    flags checksum seq_num ack_num window_size data_length sack_count].
  tauto.
Qed.

Lemma exchange_header_wf p :
  header_wf (header p) -> header_wf (header (exchange_seq_ack p)).
Proof.
  intros (?&?&?&?&?&?&?&?). unfold header_wf. cbn [exchange_seq_ack header type
    flags checksum seq_num ack_num window_size data_length sack_count].
  tauto.
Qed.

(** X4. The checksum adds 16-bit words, so it does not see two fields
    change places: a packet with [seq_num] and [ack_num] exchanged has
    the same checksum and the same verdict of [verify_checksum], under
    either text of [protocol.h]. *)
Theorem checksum_blind_to_exchange (p : Packet) :
  header_wf (header p) -> Forall is_byte (data p) ->
  let q := exchange_seq_ack p in
  calculate_checksum_v1 q = calculate_checksum_v1 p /\
  calculate_checksum_v2 q = calculate_checksum_v2 p /\
  verify_checksum_v1 q = verify_checksum_v1 p /\
  verify_checksum_v2 q = verify_checksum_v2 p.
Proof.
  intros Hh Hb q.
  assert (Hhq : header_wf (header q)) by (by apply exchange_header_wf).
  assert (Hhp0 : header_wf (header (set_checksum 0 p)))
    by (apply set_checksum_header_wf; [lia | exact Hh]).
  assert (H1 : forall a, header_wf (header a) -> Forall is_byte (data a) ->
            calculate_checksum_v1 (exchange_seq_ack a) = calculate_checksum_v1 a).
  { intros a Ha Hba. unfold calculate_checksum_v1.
    rewrite !raw_sum_v1_spec, total_v1_exchange; try done.
    by apply exchange_header_wf. }
  assert (H2 : calculate_checksum_v2 q = calculate_checksum_v2 p).
  { unfold calculate_checksum_v2, q.
    by rewrite !raw_sum_v2_spec, total_v2_exchange. }
  split; [by apply H1 |]. split; [exact H2 |]. split.
  - unfold verify_checksum_v1.
    change (set_checksum 0 q) with (exchange_seq_ack (set_checksum 0 p)).
    by rewrite H1.
  - unfold verify_checksum_v2. by rewrite H2.
Qed.

End ChecksumWords.

Section ChecksumWordsWitness.

Lemma carry_loop_runs_twice_witness :
  fold_carries 5 4294967295 = fold_carries 2 4294967295 /\
  fold_carries 2 4294967295 = 65535.
Proof.
  destruct (carry_loop_runs_twice 4294967295 5) as (H & _); [lia | lia |].
  split; [exact H | reflexivity].
Defined.

Lemma checksum_blind_to_exchange_witness :
  verify_checksum_v2
    (exchange_seq_ack (seal_v2 (set_checksum 0 sample_packet))) =
  verify_checksum_v2 (seal_v2 (set_checksum 0 sample_packet)).
Proof.
  refine (proj2 (proj2 (proj2
    (checksum_blind_to_exchange (seal_v2 (set_checksum 0 sample_packet)) _ _)))).
  - apply (bool_decide_unpack _). vm_compute. reflexivity.
  - apply (bool_decide_unpack _). vm_compute. reflexivity.
Defined.

End ChecksumWordsWitness.

(** * Further properties of the receiver *)

(** ** The SACK blocks of an ACK *)

Section SackBlocks.

Definition ascending (l : list Z) : Prop := StronglySorted Z.lt l.

Lemma ascending_above e (s : gset Z) : ascending (Receiver.above e s).
Proof.
  unfold ascending, Receiver.above.
  assert (Hs : StronglySorted Z.lt (merge_sort Z.le (elements s))).
  { assert (Hle : StronglySorted Z.le (merge_sort Z.le (elements s))).
    { apply StronglySorted_merge_sort; [apply _ |]. intros x y. unfold Z.le.
      destruct (Z.le_ge_cases x y); [by left | by right]. }
    assert (Hnd : NoDup (merge_sort Z.le (elements s))).
    { rewrite merge_sort_Permutation. apply NoDup_elements. }
    induction Hle as [|x l Hl IH Hx]; [constructor |].
    apply NoDup_cons in Hnd as [Hnx Hnd]. constructor; [by apply IH |].
    rewrite Forall_forall in Hx |- *. intros y Hy.
    specialize (Hx y Hy). assert (x <> y) by (intros ->; contradiction). lia. }
  induction Hs as [|x l Hl IH Hx]; [constructor |].
  rewrite filter_cons. destruct (decide (e < x)); [| exact IH].
  constructor; [exact IH |].
  rewrite Forall_forall in Hx |- *. intros y Hy.
  apply list_elem_of_filter in Hy as [_ Hy]. by apply Hx.
Qed.

Lemma elem_of_above e (s : gset Z) k : k ∈ Receiver.above e s <-> k ∈ s /\ e < k.
Proof.
  unfold Receiver.above. rewrite list_elem_of_filter, merge_sort_Permutation.
  rewrite elem_of_elements. tauto.
Qed.

(** The inner loop of [send_ack] takes the longest run of consecutive
    numbers from the front of the list. *)
Lemma extend_run_run l :
  forall rgt,
  ascending l -> Forall (fun x => rgt <= x < 2 ^ 32 - 1) l ->
  0 <= rgt <= 2 ^ 32 - 1 ->
  exists rgt' rest,
    Receiver.extend_run rgt l = (rgt', rest) /\
    l = seqZ rgt (rgt' - rgt) ++ rest /\ rgt <= rgt' <= 2 ^ 32 - 1 /\
    Forall (fun x => rgt' < x) rest.
Proof.
  induction l as [|x l IH]; intros rgt Hasc Hb Hr.
  - exists rgt, []. rewrite Z.sub_diag. split; [done |]. split; [done |].
    split; [lia | constructor].
  - cbn [Receiver.extend_run]. apply Forall_cons in Hb as [Hx Hb].
    apply StronglySorted_inv in Hasc as [Hasc Hlt].
    destruct (Z.eqb_spec x rgt) as [-> | Hne].
    + assert (Hadd : add32 rgt 1 = rgt + 1) by (unfold add32; apply Z.mod_small; lia).
      rewrite Hadd.
      destruct (IH (rgt + 1)) as (rgt' & rest & Hrun & Hl & Hle & Hrest);
        [exact Hasc | | lia |].
      { rewrite Forall_forall in Hb, Hlt |- *. intros y Hy.
        specialize (Hb y Hy). specialize (Hlt y Hy). lia. }
      exists rgt', rest. split; [exact Hrun |].
      split; [| split; [lia | exact Hrest]].
      rewrite (seqZ_cons rgt) by lia. cbn [app]. f_equal.
      rewrite Hl at 1. f_equal. f_equal; lia.
    + exists rgt, (x :: l). rewrite Z.sub_diag.
      split; [reflexivity |]. split; [reflexivity |]. split; [lia |].
      constructor; [lia |].
      rewrite Forall_forall in Hlt |- *. intros y Hy. specialize (Hlt y Hy). lia.
Qed.

(** The outer loop: the blocks are the leading runs of the list, all of
    them when the budget is not used up. *)
Lemma build_sacks_runs budget :
  forall l,
  ascending l -> Forall (fun x => 0 <= x < 2 ^ 32 - 1) l ->
  exists rest,
    l = concat (map Sender.sack_range (Receiver.build_sacks budget l)) ++ rest /\
    (length (Receiver.build_sacks budget l) <= budget)%nat /\
    ((length (Receiver.build_sacks budget l) < budget)%nat -> rest = []) /\
    Forall (fun b => 0 <= left_edge b < right_edge b /\ right_edge b < 2 ^ 32 /\
                     right_edge b ∉ l)
      (Receiver.build_sacks budget l).
Proof.
  induction budget as [|budget IH]; intros l Hasc Hb.
  { exists l. cbn. split_and!; try done. lia. }
  destruct l as [|lft tl].
  { exists []. cbn. split_and!; try done. lia. }
  cbn [Receiver.build_sacks].
  apply Forall_cons in Hb as [Hlft Hb].
  pose proof Hasc as Hasc0.
  apply StronglySorted_inv in Hasc as [Hasc Hlt].
  assert (Hadd : add32 lft 1 = lft + 1) by (unfold add32; apply Z.mod_small; lia).
  rewrite Hadd.
  destruct (extend_run_run tl (lft + 1)) as (rgt & rest & Hrun & Htl & Hle & Hrest);
    [exact Hasc | | lia |].
  { rewrite Forall_forall in Hb, Hlt |- *. intros y Hy.
    specialize (Hb y Hy). specialize (Hlt y Hy). lia. }
  rewrite Hrun.
  assert (Hasc_rest : ascending rest).
  { rewrite Htl in Hasc. by apply StronglySorted_app_1_r in Hasc. }
  assert (Hb_rest : Forall (fun x => 0 <= x < 2 ^ 32 - 1) rest).
  { rewrite Htl in Hb. by apply Forall_app in Hb as [_ Hb]. }
  destruct (IH rest Hasc_rest Hb_rest) as (rest' & Hcat & Hlen & Hall & Hblocks).
  assert (Hfront : lft :: seqZ (lft + 1) (rgt - (lft + 1)) = seqZ lft (rgt - lft)).
  { rewrite (seqZ_cons lft) by lia. f_equal. f_equal; lia. }
  exists rest'. cbn [map concat length].
  unfold Sender.sack_range at 1. cbn [left_edge right_edge].
  split_and!.
  - rewrite <- app_assoc, <- Hcat, <- Hfront. cbn [app]. by rewrite <- Htl.
  - lia.
  - intros Hlt'. apply Hall. lia.
  - constructor.
    + cbn [left_edge right_edge]. split; [lia |]. split; [lia |].
      rewrite Htl. intros Hin. apply elem_of_cons in Hin as [-> | Hin]; [lia |].
      apply elem_of_app in Hin as [Hin | Hin].
      * apply elem_of_seqZ in Hin. lia.
      * rewrite Forall_forall in Hrest. specialize (Hrest _ Hin). lia.
    + rewrite Forall_forall in Hblocks |- *. intros b Hbin.
      destruct (Hblocks b Hbin) as (H1 & H2 & H3).
      split; [exact H1 |]. split; [exact H2 |].
      intros Hin. apply elem_of_cons in Hin as [Heq | Hin].
      * (* the right edge of a later block is above [lft] *)
        assert (Hmem : left_edge b ∈ rest).
        { rewrite Hcat. apply elem_of_app. left.
          apply list_elem_of_In, in_concat. exists (Sender.sack_range b).
          split; [apply in_map; by apply list_elem_of_In |].
          apply list_elem_of_In. unfold Sender.sack_range.
          apply elem_of_seqZ. lia. }
        rewrite Forall_forall in Hrest. specialize (Hrest _ Hmem). lia.
      * rewrite Htl in Hin. apply elem_of_app in Hin as [Hin | Hin]; [| contradiction].
        apply elem_of_seqZ in Hin.
        assert (Hmem : left_edge b ∈ rest).
        { rewrite Hcat. apply elem_of_app. left.
          apply list_elem_of_In, in_concat. exists (Sender.sack_range b).
          split; [apply in_map; by apply list_elem_of_In |].
          apply list_elem_of_In. unfold Sender.sack_range.
          apply elem_of_seqZ. lia. }
        rewrite Forall_forall in Hrest. specialize (Hrest _ Hmem). lia.
Qed.

End SackBlocks.

Section SackReport.
Context {proto : ProtocolH}.

(** X5. The ACK of [send_ack], as long as [0xFFFFFFFF] is not among
    the received sequence numbers (there [right = left + 1] wraps to 0).
    It goes to the source of the last
    datagram, acknowledges [expected_seq] and advertises [WINDOW_SIZE];
    its SACK blocks, at most three and counted by [sack_count], are the
    first maximal runs of received sequence numbers above
    [expected_seq]: every sequence the sender will erase for a block
    ([sack_range]) was received, the number at the right edge of a block
    was not, and when fewer than three blocks are sent, every received
    number above [expected_seq] is in one of them. *)
Theorem sack_blocks_report_received (r : Receiver.t) :
  (forall k, k ∈ Receiver.received_seqs r -> 0 <= k < 2 ^ 32 - 1) ->
  exists ack,
    Receiver.send_ack r = Receiver.send_packet ack r /\
    type (header ack) = ACK /\ ack_num (header ack) = Receiver.expected_seq r /\
    window_size (header ack) = WINDOW_SIZE /\
    sack_count (header ack) = Z.of_nat (length (sack_blocks ack)) /\
    (length (sack_blocks ack) <= 3)%nat /\
    (forall b k, b ∈ sack_blocks ack -> k ∈ Sender.sack_range b ->
       k ∈ Receiver.received_seqs r /\ Receiver.expected_seq r < k) /\
    (forall b, b ∈ sack_blocks ack ->
       0 <= left_edge b < right_edge b /\ right_edge b < 2 ^ 32 /\
       right_edge b ∉ Receiver.received_seqs r) /\
    ((length (sack_blocks ack) < 3)%nat ->
     forall k, k ∈ Receiver.received_seqs r -> Receiver.expected_seq r < k ->
       exists b, b ∈ sack_blocks ack /\ left_edge b <= k < right_edge b).
Proof.
  intros Hrange. unfold Receiver.send_ack.
  set (l := Receiver.above (Receiver.expected_seq r) (Receiver.received_seqs r)).
  set (blocks := Receiver.build_sacks 3 l).
  assert (Hb : Forall (fun x => 0 <= x < 2 ^ 32 - 1) l).
  { rewrite Forall_forall. intros k Hk. apply elem_of_above in Hk as [Hk _].
    by apply Hrange. }
  destruct (build_sacks_runs 3 l (ascending_above _ _) Hb)
    as (rest & Hcat & Hlen & Hall & Hblocks).
  fold blocks in Hcat, Hlen, Hall, Hblocks.
  eexists. split; [reflexivity |].
  cbn [Receiver.seal set_checksum header sack_blocks type ack_num window_size
       sack_count].
  split; [reflexivity |]. split; [reflexivity |]. split; [reflexivity |].
  split; [apply Z.mod_small; lia |]. split; [exact Hlen |].
  assert (Hin : forall b k, b ∈ blocks -> k ∈ Sender.sack_range b -> k ∈ l).
  { intros b k Hbin Hk. rewrite Hcat. apply elem_of_app. left.
    apply list_elem_of_In, in_concat. exists (Sender.sack_range b).
    split; [apply in_map; by apply list_elem_of_In | by apply list_elem_of_In]. }
  split_and!.
  - intros b k Hbin Hk. by apply elem_of_above, (Hin b).
  - intros b Hbin. rewrite Forall_forall in Hblocks.
    destruct (Hblocks b Hbin) as (H1 & H2 & H3).
    split; [exact H1 |]. split; [exact H2 |].
    intros Hrecv. apply H3. apply elem_of_above. split; [exact Hrecv |].
    assert (Hl : left_edge b ∈ l).
    { apply (Hin b); [exact Hbin |]. unfold Sender.sack_range.
      apply elem_of_seqZ. lia. }
    apply elem_of_above in Hl as [_ Hl]. lia.
  - intros Hfew k Hk He.
    assert (Hkl : k ∈ l) by (by apply elem_of_above).
    rewrite Hcat, (Hall Hfew), app_nil_r in Hkl.
    apply list_elem_of_In, in_concat in Hkl as (range & Hrange' & Hkin).
    apply in_map_iff in Hrange' as (b & <- & Hbin).
    exists b. split; [by apply list_elem_of_In |].
    apply list_elem_of_In in Hkin. unfold Sender.sack_range in Hkin.
    apply elem_of_seqZ in Hkin. lia.
Qed.

End SackReport.

(** ** Replies on the wire *)

(** The receiver's numbers are within [uint32_t]. *)
Definition in_range (r : Receiver.t) : Prop :=
  0 <= Receiver.expected_seq r < 2 ^ 32 /\
  forall k, k ∈ Receiver.received_seqs r -> 0 <= k < 2 ^ 32.

(** What the peer reads from the datagram of [q] is [q] up to the unused
    part of the payload array, and it passes the [verify_checksum] of
    the second text of [protocol.h]. *)
Definition arrives_valid_v2 (q : Packet) : Prop :=
  exists q', deserialize (serialize q) = Some q' /\ modulo_padding q' q /\
             verify_checksum_v2 q' = true.

(** The same for the first text. *)
Definition arrives_valid_v1 (q : Packet) : Prop :=
  exists q', deserialize (serialize q) = Some q' /\ modulo_padding q' q /\
             verify_checksum_v1 q' = true.

(** The state in which a finite script leaves the receiver. *)
Definition last_state (res : Receiver.RunResult) : option Receiver.t :=
  match res with
  | Receiver.Returned r _ => Some r
  | Receiver.Polling r => Some r
  | Receiver.Undefined => None
  end.

Definition bytes_only (a : Arrival) : Prop :=
  match a with
  | Some (_, buffer) => Forall is_byte buffer
  | None => True
  end.

Section Replies.

Lemma set_checksum_zero p : checksum (header p) = 0 -> set_checksum 0 p = p.
Proof.
  destruct p as [[ty fl ck sq ak ws dl sc] d sb]. cbn. intros ->. reflexivity.
Qed.

Lemma sealed_arrives_v2 p :
  well_formed p -> fits_datagram p -> checksum (header p) = 0 ->
  arrives_valid_v2 (@Receiver.seal protocol_v2 p).
Proof.
  intros Hwf Hfit Hck.
  change (@Receiver.seal protocol_v2 p) with (seal_v2 p).
  rewrite <- (set_checksum_zero p Hck) at 1.
  set (q := seal_v2 (set_checksum 0 p)).
  assert (Hq : well_formed q).
  { apply set_checksum_well_formed; [apply htons_range |].
    apply set_checksum_well_formed; [lia | assumption]. }
  exists (pad_payload q). split; [by apply deserialize_serialize |].
  split; [by apply pad_payload_modulo_padding | by apply verify_v2_sealed].
Qed.

Lemma sealed_arrives_v1 p :
  well_formed p -> arrives_valid_v1 (@Receiver.seal_old protocol_v1 p).
Proof.
  intros Hwf.
  change (@Receiver.seal_old protocol_v1 p) with (seal_v1 p).
  assert (Hq : well_formed (seal_v1 p)).
  { apply set_checksum_well_formed; [apply complement16_range | assumption]. }
  exists (pad_payload (seal_v1 p)). split; [by apply deserialize_serialize |].
  split; [by apply pad_payload_modulo_padding | by apply verify_v1_sealed].
Qed.

Lemma empty_data_bytes :
  length (data empty_packet) = Z.to_nat MAX_DATA_SIZE /\
  Forall is_byte (data empty_packet).
Proof.
  cbn [empty_packet data]. split; [apply length_replicate |].
  apply Forall_replicate. unfold is_byte. lia.
Qed.

Lemma control_packet_shape ty ak :
  0 <= ty < 2 ^ 8 -> 0 <= ak < 2 ^ 32 ->
  well_formed (Receiver.control_packet ty 0 ak) /\
  fits_datagram (Receiver.control_packet ty 0 ak) /\
  checksum (header (Receiver.control_packet ty 0 ak)) = 0.
Proof.
  intros Hty Hak. destruct empty_data_bytes as [Hlen Hb].
  unfold Receiver.control_packet.
  split; [| split; [| reflexivity]].
  - unfold well_formed, packet_wf, header_wf. cbn [header data sack_blocks type
      flags checksum seq_num ack_num window_size data_length sack_count length].
    unfold MAX_DATA_SIZE. split_and!; try done; try lia.
  - unfold fits_datagram, serialize, payload, MAX_DATAGRAM.
    cbn [header data sack_blocks data_length map concat].
    rewrite !length_app, header_bytes_length, length_take. cbn [length]. lia.
Qed.

Lemma extend_run_range l :
  forall rgt, 0 <= rgt < 2 ^ 32 -> Forall (fun x => 0 <= x < 2 ^ 32) l ->
  0 <= (Receiver.extend_run rgt l).1 < 2 ^ 32 /\
  Forall (fun x => 0 <= x < 2 ^ 32) (Receiver.extend_run rgt l).2.
Proof.
  induction l as [|x l IH]; intros rgt Hr Hl; [by split |].
  cbn [Receiver.extend_run]. apply Forall_cons in Hl as [Hx Hl].
  destruct (x =? rgt).
  - apply IH; [apply add32_range | exact Hl].
  - split; [exact Hr | by constructor].
Qed.

Lemma build_sacks_wf budget :
  forall l, Forall (fun x => 0 <= x < 2 ^ 32) l ->
  Forall sack_wf (Receiver.build_sacks budget l) /\
  (length (Receiver.build_sacks budget l) <= budget)%nat.
Proof.
  induction budget as [|budget IH]; intros l Hl; [cbn; split; [constructor | lia] |].
  destruct l as [|lft tl]; [cbn; split; [constructor | lia] |].
  cbn [Receiver.build_sacks]. apply Forall_cons in Hl as [Hlft Hl].
  destruct (extend_run_range tl (add32 lft 1) (add32_range _ _) Hl) as [Hr Hrest].
  destruct (Receiver.extend_run (add32 lft 1) tl) as [rgt rest].
  destruct (IH rest Hrest) as [Hwf Hlen].
  split; [| cbn [length]; lia].
  constructor; [| exact Hwf]. unfold sack_wf. cbn [left_edge right_edge fst] in *.
  lia.
Qed.

(** The ACK [send_ack] builds, before it is sealed. *)
Definition ack_draft (r : Receiver.t) : Packet :=
  let blocks :=
    Receiver.build_sacks 3
      (Receiver.above (Receiver.expected_seq r) (Receiver.received_seqs r)) in
  mkPacket
    (mkHeader ACK 0 0 0 (Receiver.expected_seq r) WINDOW_SIZE 0
       (Z.of_nat (length blocks) mod 2 ^ 32))
    (data empty_packet) blocks.

Lemma ack_draft_shape (r : Receiver.t) :
  in_range r ->
  well_formed (ack_draft r) /\ fits_datagram (ack_draft r) /\
  checksum (header (ack_draft r)) = 0.
Proof.
  intros [He Hrecv]. destruct empty_data_bytes as [Hlen Hb].
  assert (Hl : Forall (fun x => 0 <= x < 2 ^ 32)
                 (Receiver.above (Receiver.expected_seq r) (Receiver.received_seqs r))).
  { rewrite Forall_forall. intros k Hk. apply elem_of_above in Hk as [Hk _].
    by apply Hrecv. }
  destruct (build_sacks_wf 3 _ Hl) as [Hwf Hn].
  unfold ack_draft.
  set (blocks := Receiver.build_sacks 3 _) in *.
  split; [| split; [| reflexivity]].
  - unfold well_formed, packet_wf, header_wf. cbn [header data sack_blocks type
      flags checksum seq_num ack_num window_size data_length sack_count].
    rewrite Z.mod_small by lia.
    unfold MAX_DATA_SIZE, WINDOW_SIZE, ACK. split_and!; try done; try lia.
  - unfold fits_datagram, serialize, payload, MAX_DATAGRAM.
    cbn [header data sack_blocks data_length].
    rewrite !length_app, header_bytes_length, concat_sack_bytes_length.
    rewrite length_take. lia.
Qed.

End Replies.

Section RepliesRun.

Definition replies (ok : Packet -> Prop) (r : Receiver.t) : Prop :=
  Forall (fun e : Endpoint * Packet => ok e.2) (Receiver.sent r).

Lemma deserialize_header_wf buffer p :
  Forall is_byte buffer -> deserialize buffer = Some p -> header_wf (header p).
Proof.
  intros Hb. unfold deserialize.
  destruct (Z.ltb_spec (Z.of_nat (length buffer)) HEADER_SIZE) as [Hlt | Hge].
  { intros [= <-]. unfold header_wf. cbn. lia. }
  assert (Hh : header_wf (parse_header (take 20 buffer))).
  { apply parse_header_wf; [| by apply Forall_take].
    rewrite length_take. unfold HEADER_SIZE in Hge. lia. }
  destruct (_ && _); [destruct (_ <=? _); [| discriminate] |];
    intros [= <-]; exact Hh.
Qed.

Lemma drain_range fuel :
  forall r : Receiver.t,
  in_range r ->
  in_range (Receiver.drain fuel r) /\
  Receiver.sent (Receiver.drain fuel r) = Receiver.sent r /\
  Receiver.sender_addr (Receiver.drain fuel r) = Receiver.sender_addr r.
Proof.
  induction fuel as [|fuel IH]; intros r Hr; [done |].
  cbn [Receiver.drain].
  destruct (Receiver.recv_buffer r !! Receiver.expected_seq r); [| done].
  match goal with |- context [Receiver.drain fuel ?r1] =>
    destruct (IH r1) as (H1 & H2 & H3); [| split_and!; [exact H1 | by rewrite H2 | by rewrite H3]]
  end.
  destruct Hr as [_ Hrecv]. split; [apply add32_range | exact Hrecv].
Qed.

Lemma buffered_range p (r : Receiver.t) :
  in_range r -> header_wf (header p) ->
  in_range (buffered p r) /\ Receiver.sent (buffered p r) = Receiver.sent r.
Proof.
  intros [He Hrecv] Hh. unfold buffered.
  destruct (decide _); [done |].
  split; [| reflexivity]. split; [exact He |].
  cbn [Receiver.received_seqs Receiver.set_total_bytes_received
       Receiver.set_received_seqs Receiver.set_recv_buffer].
  intros k Hk. apply elem_of_union in Hk as [Hk | Hk]; [| by apply Hrecv].
  apply elem_of_singleton in Hk as ->. destruct Hh as (_&_&_&?&_). lia.
Qed.

Lemma send_packet_replies ok q (r : Receiver.t) :
  replies ok r -> ok q -> replies ok (Receiver.send_packet q r).
Proof.
  intros Hr Hq. unfold replies. cbn [Receiver.send_packet Receiver.sent].
  apply Forall_app_2; [exact Hr | by constructor].
Qed.

Lemma seq_num_next p : header_wf (header p) -> 0 <= add32 (seq_num (header p)) 1 < 2 ^ 32.
Proof. intros _. apply add32_range. Qed.

(** What [handle_packet] of [receiver.cpp] keeps. *)
Lemma handle_packet_replies p (r : Receiver.t) :
  in_range r -> header_wf (header p) -> replies arrives_valid_v2 r ->
  in_range (@Receiver.handle_packet protocol_v2 p r) /\
  replies arrives_valid_v2 (@Receiver.handle_packet protocol_v2 p r).
Proof.
  intros Hr Hh Hok. unfold Receiver.handle_packet.
  assert (Hctl : forall ty, 0 <= ty < 2 ^ 8 ->
    arrives_valid_v2 (@Receiver.seal protocol_v2
      (Receiver.control_packet ty 0 (add32 (seq_num (header p)) 1)))).
  { intros ty Hty.
    destruct (control_packet_shape ty (add32 (seq_num (header p)) 1) Hty
                (add32_range _ _)) as (H1 & H2 & H3).
    by apply sealed_arrives_v2. }
  destruct (type (header p) =? SYN).
  { unfold Receiver.handle_syn. split.
    - destruct Hr as [_ Hrecv]. split; [apply add32_range |].
      destruct (Receiver.client_locked r); exact Hrecv.
    - unfold replies. cbn [Receiver.sent Receiver.set_state Receiver.set_expected_seq
        Receiver.send_packet].
      apply Forall_app_2; [| constructor; [apply Hctl; unfold SYN_ACK; lia | constructor]].
      destruct (Receiver.client_locked r); exact Hok. }
  destruct (type (header p) =? ACK).
  { unfold Receiver.handle_ack_handshake.
    destruct (decide _); [destruct (_ =? 1) |]; done. }
  destruct (type (header p) =? FILE_NAME).
  { unfold Receiver.handle_file_name. destruct (decide _); [| done].
    split.
    - destruct (0 <? data_length (header p)); exact Hr.
    - apply send_packet_replies; [| apply Hctl; unfold FILE_NAME_ACK; lia].
      destruct (0 <? data_length (header p)); exact Hok. }
  destruct (type (header p) =? DATA).
  { destruct (decide (Receiver.state r = ESTABLISHED)) as [Hs | Hs].
    2: { unfold Receiver.handle_data. destruct (decide _); [contradiction | done]. }
    rewrite (@handle_data_established protocol_v2) by exact Hs.
    destruct (buffered_range p r Hr Hh) as [Hr1 Hs1].
    destruct (drain_range (size (Receiver.recv_buffer (buffered p r)))
                (buffered p r) Hr1) as (Hr2 & Hs2 & _).
    set (r2 := Receiver.drain _ _) in *.
    change (@Receiver.send_ack protocol_v2 r2)
      with (Receiver.send_packet (@Receiver.seal protocol_v2 (ack_draft r2)) r2).
    split; [exact Hr2 |].
    apply send_packet_replies.
    - unfold replies. by rewrite Hs2, Hs1.
    - destruct (ack_draft_shape r2 Hr2) as (H1 & H2 & H3).
      by apply sealed_arrives_v2. }
  destruct (type (header p) =? FIN); [| done].
  unfold Receiver.handle_fin. split; [exact Hr |].
  unfold replies. cbn [Receiver.sent Receiver.sink_call Receiver.set_state
    Receiver.send_packet].
  apply Forall_app_2; [exact Hok |].
  constructor; [apply Hctl; unfold FIN_ACK; lia | constructor].
Qed.

(** What [handle_packet] of the earlier text keeps. *)
Lemma handle_packet_old_replies p (r : Receiver.t) :
  in_range r -> header_wf (header p) -> replies arrives_valid_v1 r ->
  in_range (@Receiver.handle_packet_old protocol_v1 p r) /\
  replies arrives_valid_v1 (@Receiver.handle_packet_old protocol_v1 p r).
Proof.
  intros Hr Hh Hok. unfold Receiver.handle_packet_old.
  assert (Hctl : forall ty, 0 <= ty < 2 ^ 8 ->
    arrives_valid_v1 (@Receiver.seal_old protocol_v1
      (Receiver.control_packet ty 0 (add32 (seq_num (header p)) 1)))).
  { intros ty Hty.
    destruct (control_packet_shape ty (add32 (seq_num (header p)) 1) Hty
                (add32_range _ _)) as (H1 & H2 & H3).
    by apply sealed_arrives_v1. }
  destruct (type (header p) =? SYN).
  { unfold Receiver.handle_syn_old. split.
    - destruct Hr as [_ Hrecv]. split; [apply add32_range |].
      destruct (Receiver.client_locked r); exact Hrecv.
    - unfold replies. cbn [Receiver.sent Receiver.set_state Receiver.set_expected_seq
        Receiver.send_packet].
      apply Forall_app_2; [| constructor; [apply Hctl; unfold SYN_ACK; lia | constructor]].
      destruct (Receiver.client_locked r); exact Hok. }
  destruct (type (header p) =? FILE_NAME).
  { unfold Receiver.handle_file_name_old. split.
    - destruct (0 <? data_length (header p)); exact Hr.
    - apply send_packet_replies; [| apply Hctl; unfold FILE_NAME_ACK; lia].
      destruct (0 <? data_length (header p)); exact Hok. }
  destruct (type (header p) =? DATA).
  { change (@Receiver.handle_data_old protocol_v1 p r) with
      (@Receiver.send_ack_old protocol_v1
         (Receiver.drain (size (Receiver.recv_buffer (buffered p r))) (buffered p r))).
    destruct (buffered_range p r Hr Hh) as [Hr1 Hs1].
    destruct (drain_range (size (Receiver.recv_buffer (buffered p r)))
                (buffered p r) Hr1) as (Hr2 & Hs2 & _).
    set (r2 := Receiver.drain _ _) in *.
    change (@Receiver.send_ack_old protocol_v1 r2)
      with (Receiver.send_packet (@Receiver.seal_old protocol_v1 (ack_draft r2)) r2).
    split; [exact Hr2 |].
    apply send_packet_replies.
    - unfold replies. by rewrite Hs2, Hs1.
    - destruct (ack_draft_shape r2 Hr2) as (H1 & H2 & H3).
      by apply sealed_arrives_v1. }
  destruct (type (header p) =? FIN); [| done].
  unfold Receiver.handle_fin_old. split; [exact Hr |].
  unfold replies. cbn [Receiver.sent Receiver.sink_call Receiver.set_state
    Receiver.send_packet].
  apply Forall_app_2; [exact Hok |].
  constructor; [apply Hctl; unfold FIN_ACK; lia | constructor].
Qed.

Lemma receive_packet_frame a (r r' : Receiver.t) rx :
  Receiver.receive_packet a r = Some (r', rx) ->
  Receiver.sent r' = Receiver.sent r /\
  Receiver.expected_seq r' = Receiver.expected_seq r /\
  Receiver.received_seqs r' = Receiver.received_seqs r /\
  match rx, a with
  | Some p, Some (_, buffer) => deserialize buffer = Some p
  | Some _, None => False
  | None, _ => True
  end.
Proof.
  unfold Receiver.receive_packet. destruct a as [[from buffer]|].
  2: { intros [= <- <-]. done. }
  destruct (negb _); [intros [= <- <-]; done |].
  destruct (_ && _); [intros [= <- <-]; done |].
  destruct (deserialize buffer) as [p|]; [| discriminate].
  intros [= <- <-]. done.
Qed.

Lemma run_replies script :
  forall r : Receiver.t,
  Forall bytes_only script ->
  (in_range r -> replies arrives_valid_v2 r ->
   forall r', last_state (@Receiver.run protocol_v2 script r) = Some r' ->
     in_range r' /\ replies arrives_valid_v2 r') /\
  (in_range r -> replies arrives_valid_v1 r ->
   forall r', last_state (@Receiver.run_old protocol_v1 script r) = Some r' ->
     in_range r' /\ replies arrives_valid_v1 r').
Proof.
  induction script as [|a script IH]; intros r Hbytes.
  { split; intros Hr Hok r' [= <-]; done. }
  apply Forall_cons in Hbytes as [Ha Hbytes].
  split; intros Hr Hok r'.
  - cbn [Receiver.run]. unfold Receiver.run_iteration.
    destruct (Receiver.receive_packet a r) as [[r1 rx]|] eqn:Hrx; [| discriminate].
    destruct (receive_packet_frame _ _ _ _ Hrx) as (Hs & He & Hrs & Hde).
    assert (Hr1 : in_range r1) by (unfold in_range; by rewrite He, Hrs).
    assert (Hok1 : replies arrives_valid_v2 r1) by (unfold replies; by rewrite Hs).
    destruct rx as [p|]; [| by apply IH].
    destruct (negb (verify_checksum p)); [by apply IH |].
    destruct a as [[from buffer]|]; [| contradiction].
    pose proof (deserialize_header_wf _ _ Ha Hde) as Hh.
    destruct (handle_packet_replies p r1 Hr1 Hh Hok1) as [Hr2 Hok2].
    destruct (bool_decide _); [by intros [= <-] | by apply IH].
  - cbn [Receiver.run_old]. unfold Receiver.run_iteration_old.
    destruct (Receiver.receive_packet a r) as [[r1 rx]|] eqn:Hrx; [| discriminate].
    destruct (receive_packet_frame _ _ _ _ Hrx) as (Hs & He & Hrs & Hde).
    assert (Hr1 : in_range r1) by (unfold in_range; by rewrite He, Hrs).
    assert (Hok1 : replies arrives_valid_v1 r1) by (unfold replies; by rewrite Hs).
    destruct rx as [p|]; [| by apply IH].
    destruct (negb (verify_checksum p)); [by apply IH |].
    destruct a as [[from buffer]|]; [| contradiction].
    pose proof (deserialize_header_wf _ _ Ha Hde) as Hh.
    destruct (handle_packet_old_replies p r1 Hr1 Hh Hok1) as [Hr2 Hok2].
    destruct (bool_decide _); [by intros [= <-] | by apply IH].
Qed.

(** X6. Every reply of the receiver is acceptable to its peer. Whatever
    datagrams arrive, each packet the receiver has sent when [run]
    returns or is still polling deserializes at the peer to the packet
    sent (up to the unused part of the payload array) and passes
    [verify_checksum]: for [receiver.cpp], which stores
    [htons(calculate_checksum())], with the second text of [protocol.h];
    for the earlier text of the receiver, which stores
    [calculate_checksum()], with the first. *)
Theorem receiver_replies_verify (script : list Arrival) :
  Forall bytes_only script ->
  (forall r, last_state (@Receiver.run protocol_v2 script Receiver.init) = Some r ->
     Forall (fun e : Endpoint * Packet => arrives_valid_v2 e.2) (Receiver.sent r)) /\
  (forall r, last_state (@Receiver.run_old protocol_v1 script Receiver.init) = Some r ->
     Forall (fun e : Endpoint * Packet => arrives_valid_v1 e.2) (Receiver.sent r)).
Proof.
  intros Hbytes.
  assert (Hinit : in_range Receiver.init).
  { split; [cbn; lia |]. intros k Hk. by apply elem_of_empty in Hk. }
  destruct (run_replies script Receiver.init Hbytes) as [H2 H1].
  split; intros r Hr.
  - by apply (H2 Hinit ltac:(constructor) r Hr).
  - by apply (H1 Hinit ltac:(constructor) r Hr).
Qed.

End RepliesRun.

(** ** The client lock *)

Section ClientLock.
Context {proto : ProtocolH}.

Lemma same_endpoint_eq (a b : Endpoint) : same_endpoint a b = true -> a = b.
Proof.
  destruct a as [a1 a2], b as [b1 b2]. unfold same_endpoint. cbn [fst snd].
  intros H. apply andb_true_iff in H as [H1 H2].
  apply Z.eqb_eq in H1, H2. by subst.
Qed.

(** The part of the receiver a handler for a locked client leaves
    alone, and where its replies go. *)
Definition serves (r r' : Receiver.t) : Prop :=
  Receiver.client_locked r' = true /\
  Receiver.client_addr r' = Receiver.client_addr r /\
  Receiver.sender_addr r' = Receiver.sender_addr r /\
  exists more, Receiver.sent r' = Receiver.sent r ++ more /\
               Forall (fun e : Endpoint * Packet => e.1 = Receiver.sender_addr r) more.

Lemma serves_refl (r : Receiver.t) : Receiver.client_locked r = true -> serves r r.
Proof. intros Hl. split_and!; try done. exists []. by rewrite app_nil_r. Qed.

Lemma serves_send q (r r' : Receiver.t) :
  serves r r' -> serves r (Receiver.send_packet q r').
Proof.
  intros (H1 & H2 & H3 & more & H4 & H5). split_and!; try done.
  exists (more ++ [(Receiver.sender_addr r', q)]).
  cbn [Receiver.send_packet Receiver.sent]. rewrite H4, app_assoc.
  split; [done |]. apply Forall_app_2; [done |]. constructor; [| constructor].
  exact H3.
Qed.

Lemma drain_serves fuel :
  forall r r' : Receiver.t, serves r r' -> serves r (Receiver.drain fuel r').
Proof.
  induction fuel as [|fuel IH]; intros r r' Hs; [done |].
  cbn [Receiver.drain].
  destruct (Receiver.recv_buffer r' !! Receiver.expected_seq r'); [| done].
  apply IH. exact Hs.
Qed.

Lemma handle_packet_serves p (r : Receiver.t) :
  Receiver.client_locked r = true -> serves r (Receiver.handle_packet p r).
Proof.
  intros Hl. pose proof (serves_refl r Hl) as Hrefl.
  unfold Receiver.handle_packet.
  destruct (type (header p) =? SYN).
  { unfold Receiver.handle_syn. rewrite Hl.
    destruct Hrefl as (H1 & H2 & H3 & more & H4 & H5). split_and!; try done.
    exists [(Receiver.sender_addr r, Receiver.seal
               (Receiver.control_packet SYN_ACK 0 (add32 (seq_num (header p)) 1)))].
    split; [reflexivity |]. by constructor. }
  destruct (type (header p) =? ACK).
  { unfold Receiver.handle_ack_handshake.
    destruct (decide _); [destruct (_ =? 1) |]; done. }
  destruct (type (header p) =? FILE_NAME).
  { unfold Receiver.handle_file_name. destruct (decide _); [| done].
    apply serves_send. destruct (0 <? data_length (header p)); exact Hrefl. }
  destruct (type (header p) =? DATA).
  { unfold Receiver.handle_data. destruct (decide _); [| done].
    unfold Receiver.send_ack. apply serves_send, drain_serves.
    destruct (decide _); exact Hrefl. }
  destruct (type (header p) =? FIN); [| done].
  unfold Receiver.handle_fin.
  destruct Hrefl as (H1 & H2 & H3 & more & H4 & H5). split_and!; try done.
  exists [(Receiver.sender_addr r, Receiver.seal
             (Receiver.control_packet FIN_ACK 0 (add32 (seq_num (header p)) 1)))].
  split; [reflexivity |]. by constructor.
Qed.

(** What a locked receiver keeps over an iteration of [run]. *)
Definition keeps_client (r r' : Receiver.t) : Prop :=
  Receiver.client_locked r' = true /\
  Receiver.client_addr r' = Receiver.client_addr r /\
  exists more, Receiver.sent r' = Receiver.sent r ++ more /\
               Forall (fun e : Endpoint * Packet => e.1 = Receiver.client_addr r) more.

Lemma run_iteration_keeps_client a (r r' : Receiver.t) stop :
  Receiver.client_locked r = true ->
  Receiver.run_iteration a r = Some (r', stop) -> keeps_client r r'.
Proof.
  intros Hl. unfold Receiver.run_iteration, Receiver.receive_packet.
  assert (Hrefl : forall from, keeps_client r (Receiver.set_sender_addr from r)).
  { intros from. split_and!; try done. exists []. by rewrite app_nil_r. }
  destruct a as [[from buffer]|].
  2: { intros [= <- <-]. split_and!; try done. exists []. by rewrite app_nil_r. }
  destruct (negb _); [intros [= <- <-]; apply Hrefl |].
  cbn [Receiver.client_locked Receiver.set_sender_addr Receiver.sender_addr
       Receiver.client_addr]. rewrite Hl. cbn [andb].
  destruct (same_endpoint from (Receiver.client_addr r)) eqn:Hsame;
    [| intros [= <- <-]; apply Hrefl].
  apply same_endpoint_eq in Hsame. cbn [negb].
  destruct (deserialize buffer) as [p|]; [| discriminate].
  destruct (negb (verify_checksum p)).
  { intros [= <- <-]. split_and!; try done. exists []. by rewrite app_nil_r. }
  intros [= <- <-].
  match goal with |- keeps_client r (Receiver.handle_packet p ?r1) =>
    destruct (handle_packet_serves p r1 Hl) as (H1 & H2 & H3 & more & H4 & H5)
  end.
  split_and!; try done. exists more. split; [exact H4 |].
  cbn [Receiver.sender_addr] in H5. by rewrite <- Hsame.
Qed.

(** X7. Once the client is locked the lock stays, with the address it
    holds; every datagram the receiver sends from then on goes to that
    address, and a datagram from any other address is dropped before it
    is looked at: it changes nothing but the record of the last
    source. *)
Theorem locked_receiver_serves_client (script : list Arrival) (r : Receiver.t) :
  Receiver.client_locked r = true ->
  (forall r', last_state (Receiver.run script r) = Some r' ->
     Receiver.client_locked r' = true /\
     Receiver.client_addr r' = Receiver.client_addr r /\
     exists more, Receiver.sent r' = Receiver.sent r ++ more /\
       Forall (fun e : Endpoint * Packet => e.1 = Receiver.client_addr r) more) /\
  (forall from buffer,
     same_endpoint from (Receiver.client_addr r) = false ->
     Receiver.run_iteration (Some (from, buffer)) r =
       Some (Receiver.set_sender_addr from r, false)).
Proof.
  intros Hl. split.
  - revert r Hl. induction script as [|a script IH]; intros r Hl r'.
    { intros [= <-]. split_and!; try done. exists []. by rewrite app_nil_r. }
    cbn [Receiver.run].
    destruct (Receiver.run_iteration a r) as [[r1 stop]|] eqn:Hit; [| discriminate].
    destruct (run_iteration_keeps_client _ _ _ _ Hl Hit) as (H1 & H2 & more & H3 & H4).
    destruct stop.
    + intros [= <-]. split_and!; try done. by exists more.
    + intros Hlast. destruct (IH r1 H1 r' Hlast) as (K1 & K2 & more' & K3 & K4).
      split_and!; [done | congruence |].
      exists (more ++ more'). rewrite K3, H3, app_assoc. split; [done |].
      apply Forall_app_2; [done |]. by rewrite <- H2.
  - intros from buffer Hsame.
    unfold Receiver.run_iteration, Receiver.receive_packet.
    destruct (negb _); [reflexivity |].
    cbn [Receiver.client_locked Receiver.set_sender_addr Receiver.sender_addr
         Receiver.client_addr]. rewrite Hl, Hsame. reflexivity.
Qed.

End ClientLock.

(** ** Duplicates *)

Section Duplicates.
Context {proto : ProtocolH}.

Lemma drain_received_seqs fuel :
  forall r : Receiver.t,
  Receiver.received_seqs (Receiver.drain fuel r) = Receiver.received_seqs r.
Proof.
  induction fuel as [|fuel IH]; intros r; [reflexivity |].
  cbn [Receiver.drain].
  destruct (Receiver.recv_buffer r !! Receiver.expected_seq r); [| reflexivity].
  by rewrite IH.
Qed.

Lemma drain_frame fuel :
  forall r : Receiver.t,
  Receiver.sent (Receiver.drain fuel r) = Receiver.sent r /\
  Receiver.sender_addr (Receiver.drain fuel r) = Receiver.sender_addr r.
Proof.
  induction fuel as [|fuel IH]; intros r; [done |].
  cbn [Receiver.drain].
  destruct (Receiver.recv_buffer r !! Receiver.expected_seq r); [| done].
  match goal with |- context [Receiver.drain fuel ?r1] =>
    destruct (IH r1) as [-> ->] end.
  done.
Qed.

Lemma drain_nothing fuel (r : Receiver.t) :
  Receiver.recv_buffer r !! Receiver.expected_seq r = None ->
  Receiver.drain fuel r = r.
Proof. intros Hnone. destruct fuel; [reflexivity |]. cbn. by rewrite Hnone. Qed.

Lemma buffered_received p (r : Receiver.t) :
  seq_num (header p) ∈ Receiver.received_seqs (buffered p r).
Proof.
  unfold buffered. destruct (decide _); [assumption |].
  cbn. apply elem_of_union. left. by apply elem_of_singleton.
Qed.

(** X8. Handling the same DATA packet a second time changes nothing
    but the record of datagrams sent: the ACK of the first time goes
    out once more, to the same address. *)
Theorem handle_data_idempotent (p : Packet) (r : Receiver.t) :
  let r1 := Receiver.handle_data p r in
  let r2 := Receiver.handle_data p r1 in
  without_sent r2 = without_sent r1 /\
  (Receiver.state r <> ESTABLISHED -> r2 = r) /\
  (Receiver.state r = ESTABLISHED ->
   exists ack,
     type (header ack) = ACK /\
     ack_num (header ack) = Receiver.expected_seq r1 /\
     Receiver.sent r1 = Receiver.sent r ++ [(Receiver.sender_addr r, ack)] /\
     Receiver.sent r2 = Receiver.sent r1 ++ [(Receiver.sender_addr r, ack)]).
Proof.
  intros r1 r2.
  destruct (decide (Receiver.state r = ESTABLISHED)) as [Hs | Hs].
  2: { assert (H1 : r1 = r).
       { unfold r1, Receiver.handle_data. destruct (decide _); [contradiction | done]. }
       assert (H2 : r2 = r).
       { unfold r2. rewrite H1. unfold Receiver.handle_data.
         destruct (decide _); [contradiction | done]. }
       split; [by rewrite H2, H1 |]. split; [done | contradiction]. }
  set (d := Receiver.drain (size (Receiver.recv_buffer (buffered p r))) (buffered p r)).
  assert (H1 : r1 = Receiver.send_ack d)
    by (unfold r1; by rewrite handle_data_established).
  assert (Hs1 : Receiver.state r1 = ESTABLISHED)
    by (unfold r1; by rewrite handle_data_state).
  assert (Hin : seq_num (header p) ∈ Receiver.received_seqs r1).
  { rewrite H1. cbn [Receiver.send_ack Receiver.send_packet Receiver.received_seqs].
    unfold d. rewrite drain_received_seqs. apply buffered_received. }
  assert (Hb : buffered p r1 = r1).
  { unfold buffered. destruct (decide _); [done | contradiction]. }
  assert (Hnone : Receiver.recv_buffer r1 !! Receiver.expected_seq r1 = None)
    by (unfold r1; by apply handle_data_exits).
  assert (H2 : r2 = Receiver.send_ack r1).
  { unfold r2. rewrite handle_data_established by exact Hs1.
    rewrite Hb. by rewrite drain_nothing. }
  assert (Hdraft : Receiver.send_ack r1 =
            Receiver.send_packet (Receiver.seal (ack_draft d)) r1).
  { rewrite H1. reflexivity. }
  destruct (drain_frame (size (Receiver.recv_buffer (buffered p r))) (buffered p r))
    as [Hsent Haddr'].
  fold d in Hsent, Haddr'.
  assert (Haddr : Receiver.sender_addr d = Receiver.sender_addr r).
  { rewrite Haddr'. unfold buffered. destruct (decide _); reflexivity. }
  assert (Hsent' : Receiver.sent d = Receiver.sent r).
  { rewrite Hsent. unfold buffered. destruct (decide _); reflexivity. }
  split; [by rewrite H2, Hdraft |].
  split; [contradiction |]. intros _.
  exists (Receiver.seal (ack_draft d)).
  split; [reflexivity |]. split; [by rewrite H1 |].
  split.
  - rewrite H1. cbn [Receiver.send_ack Receiver.send_packet Receiver.sent].
    by rewrite Haddr, Hsent'.
  - rewrite H2, Hdraft. cbn [Receiver.send_packet Receiver.sent].
    rewrite H1 at 2. cbn [Receiver.send_ack Receiver.send_packet Receiver.sender_addr].
    by rewrite Haddr.
Qed.

End Duplicates.

(** ** The name of the output file *)

(** The characters [/] and [\] that end a directory name, the dot, and
    the text put before the extension. *)
Definition is_separator (c : Z) : bool := (c =? 47) || (c =? 92).
Definition is_dot (c : Z) : bool := c =? 46.
Definition output_suffix : list Z := [95; 111; 117; 116; 112; 117; 116].

Section OutputName.

Lemma split_last_some sep s a b :
  Receiver.split_last sep s = Some (a, b) ->
  exists c, s = a ++ c :: b /\ sep c = true /\ Forall (fun x => sep x = false) b.
Proof.
  revert a b. induction s as [|x s IH]; intros a b; [discriminate |].
  cbn [Receiver.split_last].
  destruct (Receiver.split_last sep s) as [[a' b']|] eqn:Hs.
  - intros [= <- <-]. destruct (IH a' b' eq_refl) as (c & -> & Hc & Hb).
    exists c. done.
  - destruct (sep x) eqn:Hx; [| discriminate]. intros [= <- <-].
    exists x. split; [done |]. split; [done |].
    clear IH. induction s as [|y s IH]; [constructor |].
    cbn [Receiver.split_last] in Hs.
    destruct (Receiver.split_last sep s) as [[a' b']|]; [discriminate |].
    destruct (sep y) eqn:Hy; [discriminate |]. constructor; [done | by apply IH].
Qed.

Lemma split_last_none sep s :
  Receiver.split_last sep s = None <-> Forall (fun x => sep x = false) s.
Proof.
  induction s as [|x s IH]; [by split |].
  cbn [Receiver.split_last].
  destruct (Receiver.split_last sep s) as [[a' b']|].
  - split; [discriminate |]. intros H. apply Forall_cons in H as [_ H].
    apply IH in H. discriminate.
  - destruct (sep x) eqn:Hx.
    + split; [discriminate |]. intros H. apply Forall_cons in H as [H _]. congruence.
    + split; [| done]. intros _. constructor; [done | by apply IH].
Qed.

Lemma split_last_found sep a c b :
  sep c = true -> Forall (fun x => sep x = false) b ->
  Receiver.split_last sep (a ++ c :: b) = Some (a, b).
Proof.
  intros Hc Hb. apply split_last_none in Hb.
  induction a as [|x a IH]; cbn [app Receiver.split_last].
  - by rewrite Hb, Hc.
  - by rewrite IH.
Qed.

(** X9. The name [handle_file_name] opens never leaves the working
    directory and keeps the extension: whatever the payload, the name
    contains neither [/] nor [\]; for a payload [dir/stem.ext] (or
    [dir\stem.ext], or [stem.ext] alone) it is [stem_output.ext], and
    without a dot in the last component it is that component followed
    by [_output]. *)
Theorem output_name_shape (orig dir stem ext : list Z) (c : Z) :
  Forall (fun x => is_separator x = false) (Receiver.output_name orig) /\
  (Forall (fun x => is_separator x = false) (stem ++ ext) ->
   Forall (fun x => is_dot x = false) ext ->
   is_separator c = true ->
   Receiver.output_name (dir ++ c :: stem ++ 46 :: ext)
     = stem ++ output_suffix ++ 46 :: ext /\
   Receiver.output_name (stem ++ 46 :: ext)
     = stem ++ output_suffix ++ 46 :: ext /\
   (Forall (fun x => is_dot x = false) stem ->
    Receiver.output_name (dir ++ c :: stem) = stem ++ output_suffix /\
    Receiver.output_name stem = stem ++ output_suffix)).
Proof.
  split.
  - unfold Receiver.output_name. fold is_separator. fold is_dot.
    assert (Hbase : exists basename,
      match Receiver.split_last is_separator orig with
      | Some (_, b) => b | None => orig end = basename /\
      Forall (fun x => is_separator x = false) basename).
    { destruct (Receiver.split_last is_separator orig) as [[a b]|] eqn:Hs.
      - apply split_last_some in Hs as (x & _ & _ & Hb). by exists b.
      - apply split_last_none in Hs. by exists orig. }
    destruct Hbase as (basename & -> & Hbase).
    destruct (Receiver.split_last is_dot basename) as [[a b]|] eqn:Hd.
    + apply split_last_some in Hd as (x & -> & _ & _).
      apply Forall_app in Hbase as [Ha Hb]. apply Forall_cons in Hb as [_ Hb].
      apply Forall_app_2; [exact Ha |].
      apply Forall_app_2; [by repeat constructor |]. by constructor.
    + apply Forall_app_2; [exact Hbase |].
      apply Forall_app_2; [by repeat constructor | constructor].
  - intros Hsep Hdot Hc.
    apply Forall_app in Hsep as [Hstem Hext].
    assert (Hbase : Forall (fun x => is_separator x = false) (stem ++ 46 :: ext)).
    { apply Forall_app_2; [exact Hstem | by constructor]. }
    assert (Hname : Receiver.split_last is_dot (stem ++ 46 :: ext) = Some (stem, ext))
      by (by apply split_last_found).
    unfold Receiver.output_name. fold is_separator. fold is_dot.
    split_and!.
    + rewrite (split_last_found is_separator dir c _ Hc Hbase), Hname. reflexivity.
    + rewrite (proj2 (split_last_none is_separator _) Hbase), Hname. reflexivity.
    + intros Hnodot. apply split_last_none in Hnodot. split.
      * rewrite (split_last_found is_separator dir c _ Hc Hstem), Hnodot.
        by rewrite app_nil_r.
      * rewrite (proj2 (split_last_none is_separator _) Hstem), Hnodot.
        by rewrite app_nil_r.
Qed.

End OutputName.

(** ** The cumulative acknowledgment *)

(** What the reassembly keeps between the set of received numbers, the
    buffer and [expected_seq], from the sequence number [e0] on. *)
Definition gap_inv (e0 : Z) (r : Receiver.t) : Prop :=
  Receiver.state r = ESTABLISHED /\
  e0 <= Receiver.expected_seq r /\
  (forall k, k ∈ Receiver.received_seqs r -> 0 <= k < 2 ^ 32 - 1) /\
  (forall k, is_Some (Receiver.recv_buffer r !! k) -> k ∈ Receiver.received_seqs r) /\
  (forall k, k ∈ Receiver.received_seqs r -> Receiver.expected_seq r <= k ->
     is_Some (Receiver.recv_buffer r !! k)) /\
  (forall k, e0 <= k < Receiver.expected_seq r -> k ∈ Receiver.received_seqs r).

Section CumulativeAck.
Context {proto : ProtocolH}.

Lemma drain_gap e0 fuel :
  forall r : Receiver.t, gap_inv e0 r -> gap_inv e0 (Receiver.drain fuel r).
Proof.
  induction fuel as [|fuel IH]; intros r Hinv; [exact Hinv |].
  cbn [Receiver.drain].
  destruct (Receiver.recv_buffer r !! Receiver.expected_seq r) as [pkt|] eqn:Hlk;
    [| exact Hinv].
  apply IH. destruct Hinv as (Hst & He & Hrange & Hdom & Hbuf & Hrun).
  assert (Hexp : Receiver.expected_seq r ∈ Receiver.received_seqs r)
    by (apply Hdom; eauto).
  pose proof (Hrange _ Hexp) as Hr.
  assert (Hadd : add32 (Receiver.expected_seq r) 1 = Receiver.expected_seq r + 1)
    by (unfold add32; apply Z.mod_small; lia).
  unfold gap_inv.
  cbn [Receiver.state Receiver.expected_seq Receiver.received_seqs
       Receiver.recv_buffer Receiver.set_expected_seq Receiver.set_recv_buffer
       Receiver.sink_call].
  rewrite Hadd. split_and!; try done; try lia.
  - intros k [x Hk]. apply lookup_delete_Some in Hk as [_ Hk]. apply Hdom. eauto.
  - intros k Hk Hle. destruct (Hbuf k Hk ltac:(lia)) as [x Hx].
    exists x. apply lookup_delete_Some. split; [lia | exact Hx].
  - intros k Hk. destruct (decide (k = Receiver.expected_seq r)) as [-> | Hne];
      [exact Hexp | apply Hrun; lia].
Qed.

Lemma handle_data_gap e0 p (r : Receiver.t) :
  0 <= seq_num (header p) < 2 ^ 32 - 1 ->
  gap_inv e0 r -> gap_inv e0 (Receiver.handle_data p r).
Proof.
  intros Hp Hinv. pose proof Hinv as (Hst & He & Hrange & Hdom & Hbuf & Hrun).
  rewrite handle_data_established by exact Hst.
  assert (Hb : gap_inv e0 (buffered p r)).
  { unfold buffered. destruct (decide _) as [Hin | Hin]; [exact Hinv |].
    unfold gap_inv.
    cbn [Receiver.state Receiver.expected_seq Receiver.received_seqs
         Receiver.recv_buffer Receiver.set_total_bytes_received
         Receiver.set_received_seqs Receiver.set_recv_buffer].
    split_and!; try done.
    - intros k Hk. apply elem_of_union in Hk as [Hk | Hk]; [| by apply Hrange].
      apply elem_of_singleton in Hk as ->. exact Hp.
    - intros k [x Hk]. apply elem_of_union.
      destruct (decide (seq_num (header p) = k)) as [<- | Hne].
      + left. by apply elem_of_singleton.
      + right. rewrite lookup_insert_ne in Hk by exact Hne. apply Hdom. eauto.
    - intros k Hk Hle.
      destruct (decide (seq_num (header p) = k)) as [<- | Hne].
      + rewrite lookup_insert_eq. eauto.
      + rewrite lookup_insert_ne by exact Hne. apply Hbuf; [| exact Hle].
        apply elem_of_union in Hk as [Hk | Hk]; [| exact Hk].
        apply elem_of_singleton in Hk. congruence.
    - intros k Hk. apply elem_of_union. right. by apply Hrun. }
  apply (drain_gap e0 (size (Receiver.recv_buffer (buffered p r)))) in Hb.
  exact Hb.
Qed.

Lemma deliver_gap e0 pkts :
  forall r : Receiver.t,
  Forall (fun p => 0 <= seq_num (header p) < 2 ^ 32 - 1) pkts ->
  gap_inv e0 r -> gap_inv e0 (deliver pkts r).
Proof.
  induction pkts as [|p pkts IH]; intros r Hp Hinv; [exact Hinv |].
  apply Forall_cons in Hp as [Hp Hps]. cbn [deliver foldl].
  apply IH; [exact Hps | by apply handle_data_gap].
Qed.

Lemma deliver_received pkts :
  forall r : Receiver.t,
  Receiver.state r = ESTABLISHED ->
  forall k, k ∈ Receiver.received_seqs (deliver pkts r) <->
            k ∈ Receiver.received_seqs r \/
            exists p, p ∈ pkts /\ seq_num (header p) = k.
Proof.
  induction pkts as [|p pkts IH]; intros r Hst k.
  { cbn. split; [by left |]. intros [H | (p & Hp & _)]; [done |].
    by apply elem_of_nil in Hp. }
  cbn [deliver foldl]. fold (deliver pkts (Receiver.handle_data p r)).
  rewrite IH by (by rewrite handle_data_state).
  rewrite handle_data_established by exact Hst.
  cbn [Receiver.send_ack Receiver.send_packet Receiver.received_seqs].
  rewrite drain_received_seqs.
  assert (Hb : k ∈ Receiver.received_seqs (buffered p r) <->
               k ∈ Receiver.received_seqs r \/ seq_num (header p) = k).
  { unfold buffered. destruct (decide _) as [Hin | Hin].
    - split; [by left |]. intros [H | <-]; done.
    - cbn. rewrite elem_of_union, elem_of_singleton. split; intros [H | H]; auto. }
  rewrite Hb. split.
  - intros [[H | H] | (q & Hq & Hk)]; [by left | |].
    + right. exists p. split; [apply list_elem_of_here | exact H].
    + right. exists q. split; [by apply list_elem_of_further | exact Hk].
  - intros [H | (q & Hq & Hk)]; [by left; left |].
    apply elem_of_cons in Hq as [-> | Hq]; [by left; right |].
    right. by exists q.
Qed.

Lemma deliver_last_ack pkts :
  forall r : Receiver.t,
  Receiver.state r = ESTABLISHED -> pkts <> [] ->
  exists before ack,
    Receiver.sent (deliver pkts r) = before ++ [(Receiver.sender_addr r, ack)] /\
    type (header ack) = ACK /\
    ack_num (header ack) = Receiver.expected_seq (deliver pkts r) /\
    window_size (header ack) = WINDOW_SIZE.
Proof.
  induction pkts as [|p pkts IH] using rev_ind; intros r Hst Hne; [done |].
  unfold deliver. rewrite foldl_app. cbn [foldl]. fold (deliver pkts r).
  assert (Hst' : Receiver.state (deliver pkts r) = ESTABLISHED).
  { clear IH Hne. revert r Hst. induction pkts as [|q pkts IH]; intros r Hst; [done |].
    cbn [deliver foldl]. apply IH. by rewrite handle_data_state. }
  assert (Haddr : Receiver.sender_addr (deliver pkts r) = Receiver.sender_addr r).
  { clear IH Hne Hst'. revert r Hst. induction pkts as [|q pkts IH]; intros r Hst; [done |].
    cbn [deliver foldl]. fold (deliver pkts (Receiver.handle_data q r)).
    rewrite IH by (by rewrite handle_data_state).
    rewrite handle_data_established by exact Hst.
    cbn [Receiver.send_ack Receiver.send_packet Receiver.sender_addr].
    destruct (drain_frame (size (Receiver.recv_buffer (buffered q r))) (buffered q r))
      as [_ ->].
    unfold buffered. destruct (decide _); reflexivity. }
  rewrite handle_data_established by exact Hst'.
  set (d := Receiver.drain _ _).
  exists (Receiver.sent d), (Receiver.seal (ack_draft d)).
  assert (Hd : Receiver.sender_addr d = Receiver.sender_addr r).
  { unfold d. destruct (drain_frame (size (Receiver.recv_buffer
                 (buffered p (deliver pkts r)))) (buffered p (deliver pkts r)))
      as [_ ->].
    rewrite <- Haddr. unfold buffered. destruct (decide _); reflexivity. }
  rewrite <- Hd. done.
Qed.

(** X10. The acknowledgment is cumulative. After an established
    receiver with empty buffers has handled any DATA packets with
    sequence numbers below [0xFFFFFFFF] (so that [expected_seq++] does
    not wrap),
    [expected_seq], which is the [ack_num] of the ACK it sent last, is
    the smallest sequence number from its initial value on that has not
    arrived: every number below it has, and it has not. *)
Theorem cumulative_ack_is_first_gap (r0 : Receiver.t) (pkts : list Packet) :
  Receiver.state r0 = ESTABLISHED ->
  Receiver.recv_buffer r0 = ∅ -> Receiver.received_seqs r0 = ∅ ->
  Forall (fun p => 0 <= seq_num (header p) < 2 ^ 32 - 1) pkts ->
  let e0 := Receiver.expected_seq r0 in
  let r := deliver pkts r0 in
  e0 <= Receiver.expected_seq r /\
  (forall k, e0 <= k < Receiver.expected_seq r ->
     exists p, p ∈ pkts /\ seq_num (header p) = k) /\
  (forall p, p ∈ pkts -> seq_num (header p) <> Receiver.expected_seq r) /\
  (pkts <> [] ->
   exists before ack,
     Receiver.sent r = before ++ [(Receiver.sender_addr r0, ack)] /\
     type (header ack) = ACK /\
     ack_num (header ack) = Receiver.expected_seq r /\
     window_size (header ack) = WINDOW_SIZE).
Proof.
  intros Hst Hbuf Hrecv Hp e0 r.
  assert (Hinit : gap_inv e0 r0).
  { unfold gap_inv. rewrite Hbuf, Hrecv.
    split; [exact Hst |]. split; [unfold e0; lia |].
    split; [intros k Hk; by apply elem_of_empty in Hk |].
    split; [intros k [x Hk]; by rewrite lookup_empty in Hk |].
    split; [intros k Hk; by apply elem_of_empty in Hk |].
    intros k Hk. unfold e0 in Hk. lia. }
  pose proof (deliver_gap e0 pkts r0 Hp Hinit) as (_ & He & _ & _ & Hb & Hrun).
  fold r in He, Hb, Hrun.
  assert (Hseen : forall k, k ∈ Receiver.received_seqs r <->
                            exists p, p ∈ pkts /\ seq_num (header p) = k).
  { intros k. unfold r. rewrite deliver_received by exact Hst. rewrite Hrecv.
    split; [intros [H | H]; [by apply elem_of_empty in H | exact H] | by right]. }
  split; [exact He |]. split; [| split].
  - intros k Hk. by apply Hseen, Hrun.
  - intros p Hin Heq.
    assert (Hk : Receiver.expected_seq r ∈ Receiver.received_seqs r)
      by (apply Hseen; by exists p).
    destruct (Hb _ Hk ltac:(lia)) as [x Hx].
    assert (Hnone : Receiver.recv_buffer r !! Receiver.expected_seq r = None).
    { unfold r. apply deliver_exits; [exact Hst |]. rewrite Hbuf. apply lookup_empty. }
    congruence.
  - intros Hne. by apply deliver_last_ack.
Qed.

End CumulativeAck.

(** * Further properties of the sender *)

(** ** The DATA packets of a file *)

(** Chunk [i] of the file: the bytes from offset [i * MAX_DATA_SIZE]
    on, at most [MAX_DATA_SIZE] of them. *)
Definition chunk_of (file_data : list Z) (i : Z) : list Z :=
  take (Z.to_nat MAX_DATA_SIZE) (drop (Z.to_nat (i * MAX_DATA_SIZE)) file_data).

Section Chunks.

Ltac zdm := Z.div_mod_to_equations; lia.

Lemma chunks_nat n :
  forall file_data : list Z,
  (length file_data <= 1024 * n)%nat ->
  concat (map (fun i => take 1024 (drop (1024 * i) file_data)) (seq 0 n)) = file_data.
Proof.
  induction n as [|n IH]; intros file_data Hlen.
  - destruct file_data; [reflexivity | simpl in Hlen; lia].
  - rewrite <- cons_seq, <- seq_shift. cbn [map concat]. rewrite map_map.
    change (1024 * 0)%nat with 0%nat. rewrite drop_0.
    transitivity (take 1024 file_data ++ drop 1024 file_data); [| apply take_drop].
    f_equal.
    etransitivity; [| apply (IH (drop 1024 file_data)); rewrite length_drop; lia].
    f_equal. apply map_ext. intros i. rewrite drop_drop. do 2 f_equal. lia.
Qed.

Lemma total_packets_exact file_data :
  Z.of_nat (length file_data) + MAX_DATA_SIZE <= 2 ^ 32 ->
  Sender.total_packets file_data
    = (Z.of_nat (length file_data) + MAX_DATA_SIZE - 1) / MAX_DATA_SIZE /\
  Z.of_nat (length file_data) <= MAX_DATA_SIZE * Sender.total_packets file_data /\
  forall i, 0 <= i < Sender.total_packets file_data ->
            i * MAX_DATA_SIZE < Z.of_nat (length file_data).
Proof.
  intros Hlen. unfold Sender.total_packets, MAX_DATA_SIZE in *.
  rewrite Z.mod_small by zdm. split; [reflexivity |]. split; [zdm |].
  intros i Hi. zdm.
Qed.

Lemma chunks_concat file_data :
  Z.of_nat (length file_data) + MAX_DATA_SIZE <= 2 ^ 32 ->
  concat (map (chunk_of file_data) (seqZ 0 (Sender.total_packets file_data)))
    = file_data.
Proof.
  intros Hlen. destruct (total_packets_exact file_data Hlen) as (_ & Hcover & _).
  pose proof (total_packets_range file_data) as Hn.
  set (n := Sender.total_packets file_data) in *.
  etransitivity;
    [| apply (chunks_nat (Z.to_nat n) file_data); unfold MAX_DATA_SIZE in Hcover; lia].
  f_equal. unfold seqZ. rewrite map_map. apply map_ext_in. intros i Hi.
  apply in_seq in Hi. unfold chunk_of, MAX_DATA_SIZE.
  change (Z.to_nat 1024) with 1024%nat. do 2 f_equal. lia.
Qed.

Lemma offset_of_sequence seq0 i :
  0 <= i < 2 ^ 32 -> (add32 seq0 i - seq0) mod 2 ^ 32 = i.
Proof.
  intros Hi. unfold add32. rewrite Zminus_mod_idemp_l.
  replace (seq0 + i - seq0) with i by lia. apply Z.mod_small. lia.
Qed.

End Chunks.

Section DataPackets.
Context {proto : ProtocolH} {text : SenderText}.

(** The DATA packet for chunk [i], before the checksum is stored. *)
Definition data_draft (file_data : list Z) (next i : Z) : Packet :=
  mkPacket
    (mkHeader DATA 0 0 next 0 0 (Z.of_nat (length (chunk_of file_data i))) 0)
    (chunk_of file_data i
       ++ replicate (Z.to_nat MAX_DATA_SIZE - length (chunk_of file_data i)) 0)
    [].

Lemma chunk_length file_data i :
  0 <= i -> i * MAX_DATA_SIZE < Z.of_nat (length file_data) ->
  Z.of_nat (length (chunk_of file_data i))
    = Z.min MAX_DATA_SIZE (Z.of_nat (length file_data) - i * MAX_DATA_SIZE) /\
  0 < Z.of_nat (length (chunk_of file_data i)) <= MAX_DATA_SIZE.
Proof.
  intros Hi Hoff. unfold chunk_of. rewrite length_take, length_drop.
  unfold MAX_DATA_SIZE in *. lia.
Qed.

Lemma data_packet_draft file_data seq0 i :
  0 <= i < Sender.total_packets file_data ->
  Z.of_nat (length file_data) + MAX_DATA_SIZE <= 2 ^ 32 ->
  Sender.data_packet file_data seq0 (add32 seq0 i) =
    let draft := data_draft file_data (add32 seq0 i) i in
    set_checksum (wire16 (calculate_checksum draft)) draft.
Proof.
  intros Hi Hlen.
  destruct (total_packets_exact file_data Hlen) as (_ & _ & Hoff).
  specialize (Hoff i Hi).
  pose proof (total_packets_range file_data) as Hn.
  destruct (chunk_length file_data i ltac:(lia) Hoff) as [Hcl Hcr].
  unfold Sender.data_packet.
  rewrite offset_of_sequence by lia.
  assert (Hmod : (i * MAX_DATA_SIZE) mod 2 ^ 32 = i * MAX_DATA_SIZE).
  { apply Z.mod_small. unfold MAX_DATA_SIZE in *. lia. }
  rewrite Hmod.
  set (size := Z.min MAX_DATA_SIZE (Z.of_nat (length file_data) - i * MAX_DATA_SIZE)) in *.
  assert (Hchunk : take (Z.to_nat size) (drop (Z.to_nat (i * MAX_DATA_SIZE)) file_data)
                   = chunk_of file_data i).
  { unfold chunk_of.
    destruct (Z.le_gt_cases MAX_DATA_SIZE
                (Z.of_nat (length file_data) - i * MAX_DATA_SIZE)) as [Hfull | Hlast].
    - unfold size. by rewrite Z.min_l.
    - rewrite !take_ge; [done | |]; rewrite length_drop; unfold size; lia. }
  rewrite Hchunk.
  assert (Hsz : size mod 2 ^ 16 = Z.of_nat (length (chunk_of file_data i))).
  { rewrite <- Hcl. apply Z.mod_small. unfold MAX_DATA_SIZE in *. lia. }
  rewrite Hsz. reflexivity.
Qed.

Lemma data_draft_shape file_data next i :
  Forall is_byte file_data -> 0 <= next < 2 ^ 32 -> 0 <= i ->
  i * MAX_DATA_SIZE < Z.of_nat (length file_data) ->
  well_formed (data_draft file_data next i) /\
  fits_datagram (data_draft file_data next i) /\
  checksum (header (data_draft file_data next i)) = 0 /\
  payload (data_draft file_data next i) = chunk_of file_data i.
Proof.
  intros Hb Hnext Hi Hoff.
  destruct (chunk_length file_data i Hi Hoff) as [_ Hcr].
  assert (Hcb : Forall is_byte (chunk_of file_data i))
    by (unfold chunk_of; by apply Forall_take, Forall_drop).
  assert (Hpay : payload (data_draft file_data next i) = chunk_of file_data i).
  { unfold payload, data_draft. cbn [header data data_length].
    by rewrite Nat2Z.id, take_app_length. }
  split; [| split; [| split; [reflexivity | exact Hpay]]].
  - unfold well_formed, packet_wf, header_wf, data_draft.
    cbn [header data sack_blocks type flags checksum seq_num ack_num
         window_size data_length sack_count length].
    unfold MAX_DATA_SIZE, DATA in *. split_and!; try done; try lia.
    + rewrite length_app, length_replicate. lia.
    + apply Forall_app_2; [exact Hcb |]. apply Forall_replicate.
      unfold is_byte. lia.
  - unfold fits_datagram, serialize, MAX_DATAGRAM. rewrite Hpay.
    rewrite !length_app, header_bytes_length. cbn [data_draft sack_blocks map concat length].
    unfold MAX_DATA_SIZE in *. lia.
Qed.

Lemma data_packet_fields file_data seq0 i :
  Z.of_nat (length file_data) + MAX_DATA_SIZE <= 2 ^ 32 ->
  0 <= i < Sender.total_packets file_data ->
  let packet := Sender.data_packet file_data seq0 (add32 seq0 i) in
  type (header packet) = DATA /\
  seq_num (header packet) = add32 seq0 i /\
  sack_blocks packet = [] /\
  payload packet = chunk_of file_data i /\
  data_length (header packet) = Z.of_nat (length (payload packet)) /\
  0 < data_length (header packet) <= MAX_DATA_SIZE.
Proof.
  intros Hlen Hi packet.
  destruct (total_packets_exact file_data Hlen) as (_ & _ & Hoff).
  assert (Hpacket :
    payload packet = chunk_of file_data i /\
    data_length (header packet) = Z.of_nat (length (chunk_of file_data i))).
  { unfold packet. rewrite data_packet_draft by done.
    cbn zeta. unfold payload.
    cbn [set_checksum header data data_length data_draft].
    by rewrite Nat2Z.id, take_app_length. }
  destruct Hpacket as [Hp Hd].
  destruct (chunk_length file_data i ltac:(lia) (Hoff i Hi)) as [_ Hcr].
  assert (Hfields : type (header packet) = DATA /\
                    seq_num (header packet) = add32 seq0 i /\
                    sack_blocks packet = []).
  { unfold packet. rewrite data_packet_draft by done. by cbn zeta. }
  destruct Hfields as (Hty & Hsq & Hsb).
  rewrite Hp, Hd. split_and!; try done; lia.
Qed.

(** X11. The DATA packets of [send_file] carry the file. For a file
    that [size_t] and [uint32_t] arithmetic handle without wrap-around,
    [total_packets] is the size divided by [MAX_DATA_SIZE], rounded up;
    the packet built for the [i]-th sequence number after [seq_num]
    (counted as [uint32_t] counts) is a DATA packet with that number,
    without SACK blocks, whose payload is the [i]-th chunk of the file,
    between 1 and [MAX_DATA_SIZE] bytes; and the payloads of the
    packets 0 to [total_packets - 1], in this order, are the file. *)
Theorem data_packets_carry_file (file_data : list Z) (seq0 : Z) :
  Z.of_nat (length file_data) + MAX_DATA_SIZE <= 2 ^ 32 ->
  let n := Sender.total_packets file_data in
  let packet i := Sender.data_packet file_data seq0 (add32 seq0 i) in
  n = (Z.of_nat (length file_data) + MAX_DATA_SIZE - 1) / MAX_DATA_SIZE /\
  (forall i, 0 <= i < n ->
     type (header (packet i)) = DATA /\
     seq_num (header (packet i)) = add32 seq0 i /\
     sack_blocks (packet i) = [] /\
     payload (packet i) = chunk_of file_data i /\
     data_length (header (packet i)) = Z.of_nat (length (payload (packet i))) /\
     0 < data_length (header (packet i)) <= MAX_DATA_SIZE) /\
  concat (map (fun i => payload (packet i)) (seqZ 0 n)) = file_data.
Proof.
  intros Hlen n packet.
  destruct (total_packets_exact file_data Hlen) as (Hn & _ & Hoff).
  split; [exact Hn |]. split.
  - intros i Hi. exact (data_packet_fields file_data seq0 i Hlen Hi).
  - etransitivity; [| apply (chunks_concat file_data Hlen)]. f_equal.
    apply map_ext_in. intros i Hi. apply list_elem_of_In, elem_of_seqZ in Hi.
    fold n in Hi.
    by destruct (data_packet_fields file_data seq0 i Hlen ltac:(lia))
      as (_ & _ & _ & Hp & _).
Qed.

End DataPackets.

Section DataOnTheWire.

(** X12. Every DATA packet of [send_file] is acceptable to its peer:
    what the receiver deserializes from its datagram is the packet sent
    (up to the unused part of the payload array) and passes
    [verify_checksum]; for the first text of [sender.cpp], which stores
    [htons(calculate_checksum())], with the second text of
    [protocol.h], and for the second text of [sender.cpp] with the
    first. *)
Theorem data_packets_arrive_valid (file_data : list Z) (seq0 i : Z) :
  Forall is_byte file_data ->
  Z.of_nat (length file_data) + MAX_DATA_SIZE <= 2 ^ 32 ->
  0 <= i < Sender.total_packets file_data ->
  arrives_valid_v2
    (@Sender.data_packet protocol_v2 sender_v1 file_data seq0 (add32 seq0 i)) /\
  arrives_valid_v1
    (@Sender.data_packet protocol_v1 sender_v2 file_data seq0 (add32 seq0 i)).
Proof.
  intros Hb Hlen Hi.
  destruct (total_packets_exact file_data Hlen) as (_ & _ & Hoff).
  destruct (data_draft_shape file_data (add32 seq0 i) i Hb (add32_range _ _)
              ltac:(lia) (Hoff i Hi)) as (Hwf & Hfit & Hck & _).
  rewrite !data_packet_draft by done. cbn zeta. split.
  - by apply sealed_arrives_v2.
  - by apply sealed_arrives_v1.
Qed.

End DataOnTheWire.

(** ** From the file to the sink *)

Section EndToEnd.
Context {rproto sproto : ProtocolH} {text : SenderText}.

(** The DATA packets of the file as the receiver gets them, for the
    chunks listed in [order]. *)
Definition arrivals (file_data : list Z) (seq0 : Z) (order : list Z) : list Packet :=
  map (fun i => pad_payload
                  (@Sender.data_packet sproto text file_data seq0 (add32 seq0 i)))
      order.

Lemma arrival_for file_data seq0 order p :
  Z.of_nat (length file_data) + MAX_DATA_SIZE <= 2 ^ 32 ->
  0 <= seq0 -> seq0 + Sender.total_packets file_data < 2 ^ 32 ->
  Forall (fun i => 0 <= i < Sender.total_packets file_data) order ->
  p ∈ arrivals file_data seq0 order ->
  exists i, i ∈ order /\ seq_num (header p) = seq0 + i /\
            payload p = chunk_of file_data i.
Proof.
  intros Hlen Hs Hw Hord Hin. unfold arrivals in Hin.
  apply list_elem_of_In, in_map_iff in Hin as (i & <- & Hi).
  apply list_elem_of_In in Hi. exists i. split; [exact Hi |].
  rewrite Forall_forall in Hord. specialize (Hord i Hi).
  destruct (@data_packet_fields sproto text file_data seq0 i Hlen Hord)
    as (_ & Hseq & _ & Hpay & Hdl & Hr).
  cbn [pad_payload header]. rewrite Hseq. split.
  - unfold add32. apply Z.mod_small. lia.
  - rewrite payload_pad; [exact Hpay | | lia].
    rewrite data_packet_draft by done. cbn zeta.
    cbn [set_checksum data data_draft].
    rewrite length_app, length_replicate.
    destruct (total_packets_exact file_data Hlen) as (_ & _ & Hoff).
    destruct (chunk_length file_data i ltac:(lia) (Hoff i Hord)) as [_ Hcr].
    unfold MAX_DATA_SIZE in *. lia.
Qed.

(** X13. From the file to the [write] calls. For a file of at most
    [2 ^ 32 - MAX_DATA_SIZE] bytes (so that the 32-bit offsets of
    [send_file] do not wrap) whose sequence numbers stay below
    [0xFFFFFFFF]: when an established receiver with
    empty buffers that expects the sender's first sequence number is
    handed the DATA packets of the file as they come off the wire, every
    chunk at least once, in any order and with any repetitions, the
    bytes it hands to [output_file.write], call after call, are the
    bytes of the file, and [expected_seq] ends one past the last
    sequence number of the file. Whether the stream stores them is
    not part of the statement. *)
Theorem file_reaches_sink (file_data : list Z) (order : list Z) (r0 : Receiver.t) :
  Z.of_nat (length file_data) + MAX_DATA_SIZE <= 2 ^ 32 ->
  Receiver.state r0 = ESTABLISHED ->
  Receiver.recv_buffer r0 = ∅ -> Receiver.received_seqs r0 = ∅ ->
  0 <= Receiver.expected_seq r0 ->
  Receiver.expected_seq r0 + Sender.total_packets file_data < 2 ^ 32 - 1 ->
  Forall (fun i => 0 <= i < Sender.total_packets file_data) order ->
  (forall i, 0 <= i < Sender.total_packets file_data -> i ∈ order) ->
  let r := @deliver rproto (arrivals file_data (Receiver.expected_seq r0) order) r0 in
  concat (Receiver.written (Receiver.output_file r)) =
    concat (Receiver.written (Receiver.output_file r0)) ++ file_data /\
  Receiver.expected_seq r =
    Receiver.expected_seq r0 + Sender.total_packets file_data.
Proof.
  intros Hlen Hst Hbuf Hrecv He0 Hwrap Hord Hall r.
  set (e0 := Receiver.expected_seq r0) in *.
  set (n := Sender.total_packets file_data) in *.
  set (pkts := arrivals file_data e0 order) in *.
  pose proof (total_packets_range file_data) as Hn. fold n in Hn.
  assert (Hfor : forall p, p ∈ pkts ->
            exists i, i ∈ order /\ seq_num (header p) = e0 + i /\
                      payload p = chunk_of file_data i).
  { intros p Hp. apply (arrival_for file_data e0 order p); try done. fold n. lia. }
  assert (Hseqs : Forall (fun p => 0 <= seq_num (header p) < 2 ^ 32 - 1) pkts).
  { rewrite Forall_forall. intros p Hp. destruct (Hfor p Hp) as (i & Hi & -> & _).
    rewrite Forall_forall in Hord. specialize (Hord i Hi). lia. }
  (* where the cumulative acknowledgment stands *)
  assert (Hgap0 : gap_inv e0 r0).
  { unfold gap_inv. rewrite Hbuf, Hrecv.
    split; [exact Hst |]. split; [unfold e0; lia |].
    split; [intros k Hk; by apply elem_of_empty in Hk |].
    split; [intros k [x Hk]; by rewrite lookup_empty in Hk |].
    split; [intros k Hk; by apply elem_of_empty in Hk |].
    intros k Hk. unfold e0 in Hk. lia. }
  pose proof (@deliver_gap rproto e0 pkts r0 Hseqs Hgap0)
    as (_ & Hge & _ & _ & Hbuffered & Hrun).
  fold r in Hge, Hbuffered, Hrun.
  assert (Hseen : forall k, k ∈ Receiver.received_seqs r <-> e0 <= k < e0 + n).
  { intros k. unfold r. rewrite (@deliver_received rproto) by exact Hst.
    rewrite Hrecv. split.
    - intros [H | (p & Hp & Hk)]; [by apply elem_of_empty in H |].
      destruct (Hfor p Hp) as (i & Hi & Hs & _).
      rewrite Forall_forall in Hord. specialize (Hord i Hi). lia.
    - intros Hk. right.
      exists (pad_payload (@Sender.data_packet sproto text file_data e0
                             (add32 e0 (k - e0)))).
      assert (Hin : pad_payload (@Sender.data_packet sproto text file_data e0
                                   (add32 e0 (k - e0))) ∈ pkts).
      { unfold pkts, arrivals. apply list_elem_of_In, in_map_iff.
        exists (k - e0). split; [reflexivity |].
        apply list_elem_of_In, Hall. lia. }
      split; [exact Hin |].
      destruct (Hfor _ Hin) as (i & _ & _ & _).
      cbn [pad_payload header]. change (seq_num (header (Sender.data_packet file_data e0 (add32 e0 (k - e0))))) with (add32 e0 (k - e0)).
      unfold add32. rewrite Z.mod_small by lia. lia. }
  assert (Hnone : Receiver.recv_buffer r !! Receiver.expected_seq r = None).
  { unfold r. apply deliver_exits; [exact Hst |]. rewrite Hbuf. apply lookup_empty. }
  assert (Hexp : Receiver.expected_seq r = e0 + n).
  { destruct (Z.lt_trichotomy (Receiver.expected_seq r) (e0 + n)) as [Hlt | [Heq | Hgt]].
    - assert (Hk : Receiver.expected_seq r ∈ Receiver.received_seqs r)
        by (apply Hseen; lia).
      destruct (Hbuffered _ Hk ltac:(lia)) as [x Hx]. congruence.
    - exact Heq.
    - assert (Hk : e0 + n ∈ Receiver.received_seqs r) by (apply Hrun; lia).
      apply Hseen in Hk. lia. }
  split; [| exact Hexp].
  (* what was written *)
  assert (Hinit : delivered_inv e0
            (Receiver.written (Receiver.output_file r0)) [] r0 0).
  { unfold delivered_inv. split_and!.
    - exact Hst.
    - unfold e0. rewrite Z.add_0_r, Z.mod_small; [reflexivity | lia].
    - simpl. by rewrite app_nil_r.
    - constructor.
    - intros k Hk. by apply elem_of_nil in Hk.
    - intros k. rewrite Hrecv. split.
      + intros Hk. by apply elem_of_empty in Hk.
      + intros (p & Hp & _). by apply elem_of_nil in Hp.
    - intros k p. rewrite Hbuf, lookup_empty. discriminate. }
  destruct (@deliver_keeps rproto e0 _ pkts [] r0 0%nat Hinit)
    as (m & _ & (_ & Hem & Hw & Hnd & Hrunm & _ & _)).
  cbn [app] in *. fold r in Hem, Hw, Hrunm.
  (* the number of writes is the number of chunks *)
  assert (Hm : Z.of_nat m = n).
  { assert (Hle : Z.of_nat m <= n).
    { assert (Hsub : (list_to_set (run_from e0 m) : gset Z)
                       ⊆ list_to_set (seqZ e0 n)).
      { intros k Hk. apply elem_of_list_to_set in Hk.
        apply elem_of_list_to_set, elem_of_seqZ, Hseen. by apply Hrunm. }
      apply subseteq_size in Hsub.
      rewrite !size_list_to_set in Hsub by (done || apply NoDup_seqZ).
      rewrite length_seqZ in Hsub. unfold run_from in Hsub.
      rewrite length_map, length_seq in Hsub. lia. }
    rewrite Hexp in Hem. rewrite Z.mod_small in Hem by lia. lia. }
  rewrite Hw, concat_app. f_equal.
  rewrite run_from_no_wrap by lia. rewrite Hm.
  etransitivity; [| apply (chunks_concat file_data Hlen)]. fold n.
  f_equal. rewrite <- (Z.add_0_r e0) at 1.
  rewrite <- (fmap_add_seqZ e0 0 n). rewrite <- list_fmap_compose.
  apply map_ext_in. intros i Hi. apply list_elem_of_In, elem_of_seqZ in Hi.
  cbn [compose]. unfold first_payload.
  destruct (first_arrival (e0 + i) pkts) as [q|] eqn:Hq.
  - apply first_arrival_seen in Hq as [Hq Hs].
    destruct (Hfor q Hq) as (j & _ & Hsj & Hpj).
    assert (j = i) by lia. by subst.
  - exfalso.
    assert (Hk : e0 + i ∈ Receiver.received_seqs r) by (apply Hseen; lia).
    unfold r in Hk. rewrite (@deliver_received rproto) in Hk by exact Hst.
    rewrite Hrecv in Hk. destruct Hk as [Hk | Hk]; [by apply elem_of_empty in Hk |].
    destruct (first_arrival_exists _ _ Hk) as (q & Hq'). congruence.
Qed.

End EndToEnd.

(** ** The ledger of a transfer *)

(** The counters of the statistics are within [uint64_t]. *)
Definition counted (s : Sender.t) : Prop :=
  0 <= Sender.total_bytes_sent s < 2 ^ 64 /\
  0 <= Sender.total_packets_sent s < 2 ^ 64 /\
  0 <= Sender.retransmissions s < 2 ^ 64.

(** The bytes handed to [sendto] for a list of packets. *)
Definition wire_bytes (l : list Packet) : Z :=
  foldr (fun p acc => Z.of_nat (length (serialize p)) + acc) 0 l.

Section Ledger.
Context {proto : ProtocolH} {text : SenderText}.

(** What a stretch of the loop of [send_file] from [s] to [s'] did, by
    the books: the packets [more] were sent, [retx] of them as
    retransmissions and the others as the first transmissions of the
    sequence numbers from [next_seq_num s] on. *)
Definition booked (file_data : list Z) (s s' : Sender.t) : Prop :=
  flight_inv file_data s -> counted s ->
  flight_inv file_data s' /\ counted s' /\
  Sender.seq_num s' = Sender.seq_num s /\
  exists (more : list Packet) (retx : Z),
    Sender.sent s' = Sender.sent s ++ more /\
    0 <= retx /\
    Z.of_nat (length more)
      = (Sender.next_seq_num s' - Sender.next_seq_num s) + retx /\
    Sender.retransmissions s' = (Sender.retransmissions s + retx) mod 2 ^ 64 /\
    Sender.total_packets_sent s'
      = (Sender.total_packets_sent s + Z.of_nat (length more)) mod 2 ^ 64 /\
    Sender.total_bytes_sent s'
      = (Sender.total_bytes_sent s + wire_bytes more) mod 2 ^ 64 /\
    (forall k, Sender.next_seq_num s <= k < Sender.next_seq_num s' ->
       Sender.data_packet file_data (Sender.seq_num s) k ∈ more).

Lemma wire_bytes_app l1 l2 : wire_bytes (l1 ++ l2) = wire_bytes l1 + wire_bytes l2.
Proof.
  induction l1 as [|p l1 IH]; [reflexivity |].
  cbn [app wire_bytes foldr]. fold (wire_bytes (l1 ++ l2)). fold (wire_bytes l1).
  rewrite IH. lia.
Qed.

Lemma booked_nothing file_data (s s' : Sender.t) :
  phase_ok file_data s s' ->
  Sender.next_seq_num s' = Sender.next_seq_num s ->
  Sender.sent s' = Sender.sent s ->
  Sender.retransmissions s' = Sender.retransmissions s ->
  Sender.total_packets_sent s' = Sender.total_packets_sent s ->
  Sender.total_bytes_sent s' = Sender.total_bytes_sent s ->
  booked file_data s s'.
Proof.
  intros Hphase Hn Hsent Hr Hp Hb Hinv (Cb & Cp & Cr).
  destruct (Hphase Hinv) as (Hinv' & Hseq & _).
  split; [exact Hinv' |].
  split; [unfold counted; by rewrite Hr, Hp, Hb |].
  split; [exact Hseq |].
  exists [], 0. rewrite app_nil_r, Hn, Hr, Hp, Hb. cbn [length wire_bytes foldr].
  rewrite !Z.add_0_r, !Z.mod_small by lia.
  split_and!; try done; lia.
Qed.

Lemma booked_refl file_data (s : Sender.t) : booked file_data s s.
Proof. apply booked_nothing; try done. apply phase_ok_refl. Qed.

Lemma booked_trans file_data (s1 s2 s3 : Sender.t) :
  booked file_data s1 s2 -> booked file_data s2 s3 -> booked file_data s1 s3.
Proof.
  intros H12 H23 Hinv Hc.
  destruct (H12 Hinv Hc) as (Hinv2 & Hc2 & Hs2 & m2 & r2 & E2 & R2 & L2 & X2 & P2 & B2 & D2).
  destruct (H23 Hinv2 Hc2) as (Hinv3 & Hc3 & Hs3 & m3 & r3 & E3 & R3 & L3 & X3 & P3 & B3 & D3).
  split; [exact Hinv3 |]. split; [exact Hc3 |]. split; [congruence |].
  exists (m2 ++ m3), (r2 + r3).
  rewrite length_app, wire_bytes_app, Nat2Z.inj_add.
  split; [by rewrite E3, E2, app_assoc |].
  split; [lia |]. split; [lia |].
  split; [rewrite X3, X2, Zplus_mod_idemp_l; f_equal; lia |].
  split; [rewrite P3, P2, Zplus_mod_idemp_l; f_equal; lia |].
  split; [rewrite B3, B2, Zplus_mod_idemp_l; f_equal; lia |].
  intros k Hk. apply elem_of_app.
  destruct (Z.lt_ge_cases k (Sender.next_seq_num s2)) as [Hlt | Hge].
  - left. apply D2. lia.
  - right. rewrite <- Hs2. apply D3. lia.
Qed.

(** One more packet on the wire, as a first transmission or as a
    retransmission. *)
Lemma booked_one file_data (s s' : Sender.t) p (fresh : bool) :
  phase_ok file_data s s' ->
  Sender.sent s' = Sender.sent s ++ [p] ->
  Sender.total_packets_sent s' = (Sender.total_packets_sent s + 1) mod 2 ^ 64 ->
  Sender.total_bytes_sent s'
    = (Sender.total_bytes_sent s + Z.of_nat (length (serialize p))) mod 2 ^ 64 ->
  (if fresh
   then Sender.next_seq_num s' = Sender.next_seq_num s + 1 /\
        Sender.retransmissions s' = Sender.retransmissions s /\
        p = Sender.data_packet file_data (Sender.seq_num s) (Sender.next_seq_num s)
   else Sender.next_seq_num s' = Sender.next_seq_num s /\
        Sender.retransmissions s' = (Sender.retransmissions s + 1) mod 2 ^ 64) ->
  booked file_data s s'.
Proof.
  intros Hphase Hsent Hp Hb Hkind Hinv (Cb & Cp & Cr).
  destruct (Hphase Hinv) as (Hinv' & Hseq & _).
  split; [exact Hinv' |].
  assert (Hc' : counted s').
  { unfold counted. rewrite Hp, Hb.
    split; [apply Z.mod_pos_bound; lia |]. split; [apply Z.mod_pos_bound; lia |].
    destruct fresh.
    - destruct Hkind as (_ & -> & _). exact Cr.
    - destruct Hkind as (_ & ->). apply Z.mod_pos_bound. lia. }
  split; [exact Hc' |]. split; [exact Hseq |].
  exists [p], (if fresh then 0 else 1).
  cbn [length wire_bytes foldr]. rewrite Z.add_0_r.
  split; [exact Hsent |].
  destruct fresh.
  - destruct Hkind as (Hn & Hr & Hpk). rewrite Hn, Hr, Z.add_0_r.
    split; [lia |]. split; [lia |].
    split; [rewrite Z.mod_small; lia |]. split; [exact Hp |]. split; [exact Hb |].
    intros k Hk. assert (k = Sender.next_seq_num s) as -> by lia.
    rewrite Hpk. apply list_elem_of_here.
  - destruct Hkind as (Hn & Hr). rewrite Hn, Hr.
    split; [lia |]. split; [lia |].
    split; [done |]. split; [exact Hp |]. split; [exact Hb |].
    intros k Hk. lia.
Qed.

Lemma send_next_booked file_data wl clock (s : Sender.t) :
  Sender.may_send file_data wl s = true ->
  booked file_data s (send_next file_data clock s).
Proof.
  intros Hm Hinv.
  destruct (may_send_bounds _ _ _ Hinv Hm) as (_ & _ & Hadd).
  revert Hinv.
  apply (booked_one file_data s _
           (Sender.data_packet file_data (Sender.seq_num s) (Sender.next_seq_num s))
           true); try reflexivity.
  - by apply (send_next_phase _ wl).
  - unfold send_next. sender_simpl. by rewrite Hadd.
Qed.

Lemma fill_window_booked file_data wl clock fuel :
  forall s : Sender.t,
  booked file_data s (Sender.fill_window fuel file_data wl clock s).
Proof.
  induction fuel as [|fuel IH]; intros s; [apply booked_refl |].
  rewrite fill_window_unfold.
  destruct (Sender.may_send file_data wl s) eqn:Hm; [| apply booked_refl].
  eapply booked_trans; [by apply (send_next_booked _ wl) | apply IH].
Qed.

Lemma on_ack_num_booked file_data a (s : Sender.t) :
  booked file_data s (Sender.on_ack_num a s).
Proof.
  pose proof (on_ack_num_phase file_data a s) as Hphase. revert Hphase.
  unfold Sender.on_ack_num.
  destruct (Sender.base s <? a).
  { intros Hphase. apply booked_nothing; [exact Hphase | ..];
      unfold Sender.on_new_ack; sender_simpl;
      (destruct (Sender.cong_state s); [destruct (PrimFloat.leb _ _) | |]);
      reflexivity. }
  destruct (a =? Sender.last_acked s); [| intros _; apply booked_refl].
  sender_simpl.
  destruct (add32 (Sender.duplicate_acks s) 1 =? dup_trigger).
  - destruct (Sender.sent_packets s !! a) as [p|].
    + intros Hphase. apply (booked_one file_data s _ p false); try done.
    + intros Hphase. by apply booked_nothing.
  - destruct ((dup_trigger <? add32 (Sender.duplicate_acks s) 1)
              && bool_decide (Sender.cong_state s = FAST_RECOVERY));
      intros Hphase; by apply booked_nothing.
Qed.

Lemma erase_range_counters (l : list Z) :
  forall s : Sender.t,
  let s' := foldl Sender.erase_seq s l in
  Sender.retransmissions s' = Sender.retransmissions s /\
  Sender.total_packets_sent s' = Sender.total_packets_sent s /\
  Sender.total_bytes_sent s' = Sender.total_bytes_sent s.
Proof.
  induction l as [|k l IH]; intros s; [done |].
  cbn [foldl]. destruct (IH (Sender.erase_seq s k)) as (-> & -> & ->). done.
Qed.

Lemma process_sacks_counters blocks :
  forall s : Sender.t,
  let s' := Sender.process_sacks blocks s in
  Sender.retransmissions s' = Sender.retransmissions s /\
  Sender.total_packets_sent s' = Sender.total_packets_sent s /\
  Sender.total_bytes_sent s' = Sender.total_bytes_sent s.
Proof.
  unfold Sender.process_sacks.
  induction blocks as [|b blocks IH]; intros s; [done |].
  cbn [foldl].
  destruct (IH (foldl Sender.erase_seq s (Sender.sack_range b))) as (-> & -> & ->).
  apply erase_range_counters.
Qed.

Lemma handle_ack_booked file_data p (s : Sender.t) :
  booked file_data s (Sender.handle_ack p s).
Proof.
  unfold Sender.handle_ack.
  eapply booked_trans; [apply on_ack_num_booked |].
  destruct (process_sacks_frame (sack_blocks p) (Sender.on_ack_num (pkt_ack p) s))
    as (_ & Hn & _ & _ & _ & _ & Hsent & _).
  destruct (process_sacks_counters (sack_blocks p) (Sender.on_ack_num (pkt_ack p) s))
    as (Hr & Hp & Hb).
  apply booked_nothing; try done. apply process_sacks_phase.
Qed.

Lemma timeout_entry_booked file_data now entry (s : Sender.t) :
  booked file_data s (Sender.timeout_entry now s entry).
Proof.
  pose proof (timeout_entry_phase file_data now entry s) as Hphase. revert Hphase.
  destruct entry as [seq ts]. unfold Sender.timeout_entry.
  destruct (TIMEOUT_MS <? now - ts); [| intros _; apply booked_refl].
  destruct (Sender.sent_packets s !! seq) as [p|]; [| intros _; apply booked_refl].
  intros Hphase. apply (booked_one file_data s _ p false); try done.
Qed.

Lemma check_timeout_booked file_data now (s : Sender.t) :
  booked file_data s (Sender.check_timeout now s).
Proof.
  unfold Sender.check_timeout.
  generalize (Sender.in_key_order (Sender.send_times s)). intros l.
  revert s. induction l as [|e l IH]; intros s; [apply booked_refl |].
  cbn [foldl]. eapply booked_trans; [apply timeout_entry_booked | apply IH].
Qed.

Lemma iteration_booked file_data turn (s s' : Sender.t) :
  Sender.send_file_iteration file_data turn s = Some s' -> booked file_data s s'.
Proof.
  intros Hit. apply iteration_cases in Hit as [-> | (p & _ & _ & _ & ->)].
  - eapply booked_trans; [apply fill_window_booked | apply check_timeout_booked].
  - eapply booked_trans; [apply fill_window_booked |].
    eapply booked_trans; [apply handle_ack_booked | apply check_timeout_booked].
Qed.

Lemma transfer_booked ok file_data (s : Sender.t) script s' :
  transfer_where ok file_data s script s' -> booked file_data s s'.
Proof.
  induction 1 as [s | s turn s1 rest s2 _ _ Hit _ IH]; [apply booked_refl |].
  eapply booked_trans; [by eapply iteration_booked | exact IH].
Qed.

(** X14. The statistics [send_file] prints are those of the packets it
    sent. Over any run of its loop in which sequence numbers do not
    wrap, [total_packets_sent] grows by the number of packets handed to
    [sendto] and [total_bytes_sent] by their serialized lengths (as
    [uint64_t] counts), and every packet sent is either the first
    transmission of the next sequence number or counted in
    [retransmissions]: the packets sent are as many as the new sequence
    numbers and the retransmissions together. *)
Theorem statistics_account_for_traffic (file_data : list Z) (s s' : Sender.t)
    (script : list Sender.Turn) :
  flight_inv file_data s -> counted s ->
  transfer file_data s script s' ->
  exists (more : list Packet) (retx : Z),
    Sender.sent s' = Sender.sent s ++ more /\
    0 <= retx /\
    Z.of_nat (length more)
      = (Sender.next_seq_num s' - Sender.next_seq_num s) + retx /\
    Sender.retransmissions s' = (Sender.retransmissions s + retx) mod 2 ^ 64 /\
    Sender.total_packets_sent s'
      = (Sender.total_packets_sent s + Z.of_nat (length more)) mod 2 ^ 64 /\
    Sender.total_bytes_sent s'
      = (Sender.total_bytes_sent s + wire_bytes more) mod 2 ^ 64.
Proof.
  intros Hinv Hc Hrun.
  destruct (transfer_booked _ _ _ _ _ Hrun Hinv Hc)
    as (_ & _ & _ & more & retx & H1 & H2 & H3 & H4 & H5 & H6 & _).
  by exists more, retx.
Qed.

(** X15. When the loop of [send_file] ends, the file has been sent. In
    a run from a state in which nothing has been sent yet
    ([next_seq_num = base = seq_num], as [connect] leaves it), in which
    sequence numbers do not wrap and no ACK acknowledges a sequence not
    yet sent: if the loop condition is false at the end, the loop of
    [send_file] returns there, [base] and [next_seq_num] are one past
    the last sequence number of the file, nothing is left in flight,
    and for every sequence number of the file the DATA packet built for
    it has been handed to [sendto]. *)
Theorem transfer_ends_complete (file_data : list Z) (s0 s : Sender.t)
    (script rest : list Sender.Turn) :
  window_inv file_data s0 -> counted s0 ->
  Sender.next_seq_num s0 = Sender.seq_num s0 ->
  honest_transfer file_data s0 script s ->
  ~ Sender.base s < Sender.seq_num s + Sender.total_packets file_data ->
  Sender.send_file_loop file_data (script ++ rest) s0 = Sender.Done s rest /\
  Sender.base s = Sender.seq_num s0 + Sender.total_packets file_data /\
  Sender.next_seq_num s = Sender.seq_num s0 + Sender.total_packets file_data /\
  Sender.sent_packets s = ∅ /\ Sender.send_times s = ∅ /\
  forall k,
    Sender.seq_num s0 <= k < Sender.seq_num s0 + Sender.total_packets file_data ->
    Sender.data_packet file_data (Sender.seq_num s0) k ∈ Sender.sent s.
Proof.
  intros Hinv0 Hc0 Hfresh Hrun Hdone.
  pose proof (honest_transfer_window _ _ _ _ Hrun Hinv0) as Hinv.
  pose proof Hinv0 as (Hfl0 & _).
  destruct (transfer_booked _ _ _ _ _ Hrun Hfl0 Hc0)
    as (_ & _ & Hseq & more & retx & Hsent & _ & _ & _ & _ & _ & Hall).
  destruct Hinv as (((Hs0 & Hwrap) & Hnext & Hkeys & Hdom) & Hsb & Hbn & Hkb).
  pose proof (total_packets_range file_data) as Htot.
  assert (Hadd : add32 (Sender.seq_num s) (Sender.total_packets file_data)
                 = Sender.seq_num s + Sender.total_packets file_data).
  { unfold add32. apply Z.mod_small. unfold WINDOW_SIZE in Hwrap. lia. }
  assert (Hempty : Sender.sent_packets s = ∅).
  { apply map_empty. intros k.
    destruct (Sender.sent_packets s !! k) as [p|] eqn:Hk; [| done].
    pose proof (Hkb k ltac:(eauto)). destruct (Hkeys _ _ Hk). lia. }
  split_and!.
  - clear Hall Hsent Hseq Hfresh Hc0 Hinv0 Hfl0. 
    induction Hrun as [s | s1 turn s2 rest' s3 Hcond _ Hit _ IH].
    + cbn [app]. destruct rest as [|t rest]; cbn [Sender.send_file_loop];
        rewrite Hadd; destruct (Z.ltb_spec (Sender.base s)
          (Sender.seq_num s + Sender.total_packets file_data)); done.
    + cbn [app Sender.send_file_loop].
      destruct (Z.ltb_spec (Sender.base s1)
                  (add32 (Sender.seq_num s1) (Sender.total_packets file_data)));
        [| lia].
      rewrite Hit. by apply IH.
  - lia.
  - lia.
  - exact Hempty.
  - apply map_empty. intros k.
    destruct (Sender.send_times s !! k) as [t|] eqn:Hk; [| done].
    destruct (Hdom k ltac:(eauto)) as [p Hp]. rewrite Hempty in Hp.
    by rewrite lookup_empty in Hp.
  - intros k Hk. rewrite Hsent. apply elem_of_app. right.
    apply Hall. lia.
Qed.

End Ledger.

(** ** The timeout scan *)

(** The entries of [send_times] that [check_timeout] retransmits: older
    than [TIMEOUT_MS] at [now], with the packet still in flight. *)
Definition is_due (now : Z) (s : Sender.t) (e : Z * Z) : bool :=
  (TIMEOUT_MS <? now - e.2) && bool_decide (is_Some (Sender.sent_packets s !! e.1)).

Definition due (now : Z) (s : Sender.t) : list (Z * Z) :=
  filter (fun e => is_due now s e = true) (Sender.in_key_order (Sender.send_times s)).

(** [ssthresh] after a scan that retransmitted the entries [d]. *)
Definition ssthresh_after (s : Sender.t) (d : list (Z * Z)) : Z :=
  match d with
  | [] => Sender.ssthresh s
  | [_] => Sender.halved (Sender.cwnd s)
  | _ => 2
  end.

Section TimeoutEffect.
Context {proto : ProtocolH} {text : SenderText}.

Lemma halved_one : Sender.halved (double_of_u32 1) = 2.
Proof. vm_compute. reflexivity. Qed.

Lemma timeout_entry_cases now (s : Sender.t) (e : Z * Z) :
  (is_due now s e = false /\ Sender.timeout_entry now s e = s) \/
  (is_due now s e = true /\
   exists p, Sender.sent_packets s !! e.1 = Some p /\
     Sender.timeout_entry now s e =
       Sender.set_duplicate_acks 0
         (Sender.set_congestion SLOW_START (double_of_u32 1)
            (Sender.halved (Sender.cwnd s))
            (Sender.set_in_flight (Sender.sent_packets s)
               (<[e.1 := now]> (Sender.send_times s))
               (Sender.count_retransmission (Sender.send_packet p s))))).
Proof.
  destruct e as [seq ts]. unfold is_due, Sender.timeout_entry. cbn [fst snd].
  destruct (TIMEOUT_MS <? now - ts); [| by left].
  destruct (Sender.sent_packets s !! seq) as [p|] eqn:Hp.
  - right. split; [apply andb_true_iff; split; [done | apply bool_decide_eq_true; eauto] |].
    exists p. split; reflexivity.
  - left. split; [| reflexivity]. apply andb_false_iff. right.
    apply bool_decide_eq_false. intros [x Hx]. discriminate.
Qed.

(** What a scan that retransmits at all leaves behind. *)
Definition rewound (s s' : Sender.t) (d : list (Z * Z)) : Prop :=
  Sender.cong_state s' = SLOW_START /\
  Sender.cwnd s' = double_of_u32 1 /\
  Sender.duplicate_acks s' = 0 /\
  Sender.ssthresh s' = ssthresh_after s d /\
  Sender.retransmissions s'
    = (Sender.retransmissions s + Z.of_nat (length d)) mod 2 ^ 64.

(** The scan over a list of entries, for the packets in flight when it
    starts. *)
Lemma timeout_scan_effect now (l : list (Z * Z)) :
  forall s : Sender.t,
  let d := filter (fun e => is_due now s e = true) l in
  let s' := foldl (Sender.timeout_entry now) s l in
  Sender.sent_packets s' = Sender.sent_packets s /\
  Sender.sent s' = Sender.sent s ++ omap (fun e => Sender.sent_packets s !! e.1) d /\
  Sender.send_times s' =
    foldl (fun m (e : Z * Z) => <[e.1 := now]> m) (Sender.send_times s) d /\
  match d with
  | [] => s' = s
  | _ :: _ => rewound s s' d
  end.
Proof.
  induction l as [|e l IH]; intros s.
  { cbn. rewrite app_nil_r. done. }
  cbn zeta. rewrite filter_cons. cbn [foldl].
  destruct (timeout_entry_cases now s e) as [[Hno ->] | [Hyes (p & Hp & ->)]].
  { destruct (decide (is_due now s e = true)) as [? | _]; [congruence |]. apply IH. }
  destruct (decide (is_due now s e = true)) as [_ | ?]; [| contradiction].
  match goal with |- context [foldl (Sender.timeout_entry now) ?x l] =>
    set (s1 := x) end.
  specialize (IH s1).
  change (filter (fun e0 => is_due now s1 e0 = true) l)
    with (filter (fun e0 => is_due now s e0 = true) l) in IH.
  set (d := filter (fun e0 => is_due now s e0 = true) l) in *.
  cbn zeta in IH. destruct IH as (Hsp & Hsent & Htimes & Hrest).
  split; [exact Hsp |]. split.
  { rewrite Hsent. cbn [omap list_omap]. rewrite Hp. unfold s1. sender_simpl.
    by rewrite <- app_assoc. }
  split; [exact Htimes |].
  destruct d as [|e' d'].
  - rewrite Hrest. unfold rewound, s1. sender_simpl. done.
  - destruct Hrest as (H1 & H2 & H3 & H4 & H5).
    unfold rewound. split; [exact H1 |]. split; [exact H2 |]. split; [exact H3 |].
    split.
    + rewrite H4. unfold ssthresh_after, s1. sender_simpl.
      destruct d'; [apply halved_one | reflexivity].
    + rewrite H5. unfold s1. sender_simpl.
      rewrite Zplus_mod_idemp_l. f_equal. cbn [length]. lia.
Qed.

Lemma keys_ascending (m : gmap Z Z) :
  StronglySorted Z.lt (Sender.in_key_order m).*1.
Proof.
  unfold Sender.in_key_order.
  assert (Hle : StronglySorted Sender.key_le (merge_sort Sender.key_le (map_to_list m))).
  { apply StronglySorted_merge_sort.
    - intros a b c. unfold Sender.key_le. lia.
    - intros a b. unfold Sender.key_le.
      destruct (Z.le_ge_cases a.1 b.1); [by left | right; lia]. }
  assert (Hnd : NoDup (merge_sort Sender.key_le (map_to_list m)).*1).
  { rewrite merge_sort_Permutation. apply NoDup_fst_map_to_list. }
  induction Hle as [|x l Hl IH Hx]; [constructor |].
  cbn [fmap list_fmap] in *. apply NoDup_cons in Hnd as [Hnx Hnd].
  constructor; [by apply IH |].
  rewrite Forall_forall in Hx. rewrite Forall_forall. intros k Hk.
  apply list_elem_of_fmap in Hk as (y & -> & Hy).
  specialize (Hx y Hy). unfold Sender.key_le in Hx.
  assert (x.1 <> y.1).
  { intros Heq. apply Hnx. rewrite Heq. apply list_elem_of_fmap. by exists y. }
  lia.
Qed.

(** X16. What [check_timeout] does. It retransmits, in ascending order
    of sequence number, the packets in flight whose timestamp is more
    than [TIMEOUT_MS] old, once each, and gives each the timestamp
    [now]; it leaves [sent_packets] alone. If none is due the sender is
    unchanged. Otherwise the sender is back in slow start with
    [cwnd = 1] and no duplicate ACK counted, [retransmissions] has
    grown by the number of packets retransmitted, and [ssthresh] is
    [max(cwnd / 2, 2)] of the old [cwnd] if one packet was due, but 2
    if more were: every further packet of the scan halves the [cwnd]
    just reset to 1. *)
Theorem check_timeout_effect (now : Z) (s : Sender.t) :
  let d := due now s in
  let s' := Sender.check_timeout now s in
  StronglySorted Z.lt d.*1 /\
  Sender.sent_packets s' = Sender.sent_packets s /\
  Sender.sent s' = Sender.sent s ++ omap (fun e => Sender.sent_packets s !! e.1) d /\
  length (omap (fun e => Sender.sent_packets s !! e.1) d) = length d /\
  (forall k, Sender.send_times s' !! k =
     if bool_decide (k ∈ d.*1) then Some now else Sender.send_times s !! k) /\
  (d = [] -> s' = s) /\
  (d <> [] ->
   Sender.cong_state s' = SLOW_START /\ Sender.cwnd s' = double_of_u32 1 /\
   Sender.duplicate_acks s' = 0 /\
   Sender.retransmissions s'
     = (Sender.retransmissions s + Z.of_nat (length d)) mod 2 ^ 64 /\
   (length d = 1%nat -> Sender.ssthresh s' = Sender.halved (Sender.cwnd s)) /\
   ((2 <= length d)%nat -> Sender.ssthresh s' = 2)).
Proof.
  intros d s'.
  destruct (timeout_scan_effect now (Sender.in_key_order (Sender.send_times s)) s)
    as (Hsp & Hsent & Htimes & Hrest).
  fold (due now s) in Hsent, Htimes, Hrest. fold d in Hsent, Htimes, Hrest.
  fold (Sender.check_timeout now s) in Hsp, Hsent, Htimes, Hrest.
  fold s' in Hsp, Hsent, Htimes, Hrest.
  split.
  { pose proof (keys_ascending (Sender.send_times s)) as Hasc.
    unfold d, due. induction (Sender.in_key_order (Sender.send_times s)) as [|x l IH];
      [constructor |].
    cbn [fmap list_fmap] in Hasc. apply StronglySorted_inv in Hasc as [Hasc Hx].
    rewrite filter_cons. destruct (decide _); [| by apply IH].
    cbn [fmap list_fmap]. constructor; [by apply IH |].
    rewrite Forall_forall in Hx. rewrite Forall_forall. intros k Hk. apply Hx.
    apply list_elem_of_fmap in Hk as (y & -> & Hy).
    apply list_elem_of_filter in Hy as [_ Hy].
    apply list_elem_of_fmap. by exists y. }
  split; [exact Hsp |]. split; [exact Hsent |]. split.
  { assert (Hall : Forall (fun e => is_due now s e = true) d).
    { unfold d, due. rewrite Forall_forall. intros e He.
      by apply list_elem_of_filter in He as [He _]. }
    clear -Hall. induction Hall as [|e d He Hall IH]; [reflexivity |].
    cbn [omap list_omap]. unfold is_due in He. apply andb_true_iff in He as [_ He].
    apply bool_decide_eq_true in He as [p ->]. cbn [length]. by rewrite IH. }
  split.
  { intros k. rewrite Htimes. clear. generalize (Sender.send_times s).
    induction d as [|e d IH]; intros m.
    - cbn. rewrite bool_decide_eq_false_2; [done | apply not_elem_of_nil].
    - cbn [foldl fmap list_fmap]. rewrite IH.
      destruct (decide (k ∈ d.*1)) as [Hin | Hnin].
      + rewrite !bool_decide_eq_true_2; [done | by apply list_elem_of_further | done].
      + rewrite (bool_decide_eq_false_2 _ Hnin).
        destruct (decide (k = e.1)) as [-> | Hne].
        * rewrite lookup_insert_eq. rewrite bool_decide_eq_true_2; [done |].
          apply list_elem_of_here.
        * rewrite lookup_insert_ne by done.
          rewrite bool_decide_eq_false_2; [done |].
          intros Hk. apply elem_of_cons in Hk as [? | ?]; done. }
  split.
  { intros Hd. by rewrite Hd in Hrest. }
  intros Hd. destruct d as [|e d0]; [done |].
  destruct Hrest as (H1 & H2 & H3 & H4 & H5).
  split; [exact H1 |]. split; [exact H2 |]. split; [exact H3 |].
  split; [exact H5 |]. rewrite H4. split.
  - intros Hlen. destruct d0; [reflexivity | discriminate].
  - intros Hlen. destruct d0; [cbn in Hlen; lia | reflexivity].
Qed.

End TimeoutEffect.

(** ** Duplicate ACKs before the first new ACK *)

Section FirstPacket.
Context {proto : ProtocolH} {text : SenderText}.

Lemma erase_range_rest (l : list Z) :
  forall s : Sender.t,
  let s' := foldl Sender.erase_seq s l in
  Sender.duplicate_acks s' = Sender.duplicate_acks s /\
  Sender.last_acked s' = Sender.last_acked s /\
  Sender.state s' = Sender.state s.
Proof.
  induction l as [|k l IH]; intros s; [done |].
  cbn [foldl]. destruct (IH (Sender.erase_seq s k)) as (-> & -> & ->). done.
Qed.

Lemma process_sacks_rest blocks :
  forall s : Sender.t,
  let s' := Sender.process_sacks blocks s in
  Sender.duplicate_acks s' = Sender.duplicate_acks s /\
  Sender.last_acked s' = Sender.last_acked s /\
  Sender.state s' = Sender.state s.
Proof.
  unfold Sender.process_sacks.
  induction blocks as [|b blocks IH]; intros s; [done |].
  cbn [foldl].
  destruct (IH (foldl Sender.erase_seq s (Sender.sack_range b))) as (-> & -> & ->).
  apply erase_range_rest.
Qed.

(** X17. Duplicate ACKs are compared with [last_acked], not with
    [base]. While the two differ, as they do from [connect] (which
    moves [base] to 1 and leaves [last_acked] at 0) until the first new
    ACK, ACKs that name [base] are not counted: whatever their number,
    nothing is retransmitted, [duplicate_acks] and the congestion state
    stay as they are, and only the SACK blocks take effect. The loss of
    the first DATA packet is repaired by [check_timeout] alone. *)
Theorem duplicates_before_first_ack_ignored (s : Sender.t) (acks : list Packet) :
  Sender.last_acked s <> Sender.base s ->
  Forall (fun p => pkt_ack p = Sender.base s) acks ->
  let s' := foldl (fun s p => Sender.handle_ack p s) s acks in
  Sender.sent s' = Sender.sent s /\
  Sender.retransmissions s' = Sender.retransmissions s /\
  Sender.duplicate_acks s' = Sender.duplicate_acks s /\
  Sender.cong_state s' = Sender.cong_state s /\
  Sender.cwnd s' = Sender.cwnd s /\ Sender.ssthresh s' = Sender.ssthresh s /\
  Sender.base s' = Sender.base s /\ Sender.last_acked s' = Sender.last_acked s /\
  s' = foldl (fun s p => Sender.process_sacks (sack_blocks p) s) s acks.
Proof.
  intros Hne Hacks. revert s Hne Hacks.
  induction acks as [|p acks IH]; intros s Hne Hacks; [done |].
  apply Forall_cons in Hacks as [Hp Hacks]. cbn [foldl].
  assert (Hsame : Sender.handle_ack p s = Sender.process_sacks (sack_blocks p) s).
  { unfold Sender.handle_ack, Sender.on_ack_num. rewrite Hp.
    rewrite Z.ltb_irrefl.
    destruct (Z.eqb_spec (Sender.base s) (Sender.last_acked s)); [congruence | done]. }
  rewrite Hsame.
  destruct (process_sacks_frame (sack_blocks p) s)
    as (F1 & F2 & F3 & F4 & F5 & F6 & F7 & _).
  destruct (process_sacks_rest (sack_blocks p) s) as (G1 & G2 & G3).
  destruct (process_sacks_counters (sack_blocks p) s) as (C1 & C2 & C3).
  set (s1 := Sender.process_sacks (sack_blocks p) s) in *.
  destruct (IH s1) as (H1 & H2 & H3 & H4 & H5 & H6 & H7 & H8 & H9).
  { by rewrite F1, G2. }
  { by rewrite F1. }
  cbn zeta in *. rewrite H1, H2, H3, H4, H5, H6, H7, H8.
  split_and!; congruence.
Qed.

End FirstPacket.

(** * Connection management *)

(** The part of the sender that the handshakes leave to the transfer
    loop. *)
Definition transfer_state (s : Sender.t) :=
  (Sender.sent_packets s, Sender.send_times s, Sender.cong_state s,
   Sender.cwnd s, Sender.ssthresh s, Sender.duplicate_acks s,
   Sender.last_acked s, Sender.retransmissions s).

(** The sequence numbers of the sender. *)
Definition numbers (s : Sender.t) :=
  (Sender.seq_num s, Sender.base s, Sender.next_seq_num s).

Section ConnectLoop.
Context {proto : ProtocolH} {text : SenderText}.
Variable third_ack : bool.

(** The datagram of a tick is taken up by [receive_packet]. *)
Definition heard_packet (s : Sender.t) (tick : Sender.Tick) (p : Packet) : Prop :=
  Sender.receive_packet (Sender.heard tick) s = Some (Some p).

Lemma heard_from (s : Sender.t) tick p :
  heard_packet s tick p ->
  exists buffer, Sender.heard tick = Some (Sender.source (Sender.heard tick), buffer) /\
    buffer <> [] /\ deserialize buffer = Some p /\
    (Sender.server_locked s = true ->
     Sender.source (Sender.heard tick) = Sender.server_addr s).
Proof.
  unfold heard_packet, Sender.receive_packet.
  destruct (Sender.heard tick) as [[from buffer]|]; [| discriminate].
  destruct (0 <? Z.of_nat (length buffer)) eqn:Hlen; [| discriminate]. cbn [negb].
  destruct (Sender.server_locked s && negb (same_endpoint from (Sender.server_addr s)))
    eqn:Hlock; [discriminate |].
  destruct (deserialize buffer) as [q|] eqn:Hde; [| discriminate].
  intros [= <-]. exists buffer. cbn [Sender.source].
  split; [reflexivity |]. split.
  { intros ->. discriminate. }
  split; [exact Hde |]. intros Hl. rewrite Hl in Hlock. cbn [andb] in Hlock.
  apply negb_false_iff in Hlock. by apply same_endpoint_eq.
Qed.

(** What the loop of [connect] has done when it stops or the script
    ends, for the SYN [syn_packet h] and the retry count it starts
    from. *)
Definition connect_progress (s : Sender.t) (h : Sender.Handshakes)
    (s' : Sender.t) (h' : Sender.Handshakes) (tail : list Packet) : Prop :=
  Sender.syn_packet h' = Sender.syn_packet h /\
  Sender.fin_packet h' = Sender.fin_packet h /\
  Sender.fin_send_time h' = Sender.fin_send_time h /\
  Sender.fin_retries h' = Sender.fin_retries h /\
  Sender.syn_retries h <= Sender.syn_retries h' /\
  Sender.syn_send_time h
    + (TIMEOUT_MS + 1) * (Sender.syn_retries h' - Sender.syn_retries h)
    <= Sender.syn_send_time h' /\
  Sender.sent s' =
    Sender.sent s
    ++ replicate (Z.to_nat (Sender.syn_retries h' - Sender.syn_retries h))
         (Sender.syn_packet h)
    ++ tail /\
  transfer_state s' = transfer_state s.

Lemma connect_progress_refl (s : Sender.t) h : connect_progress s h s h [].
Proof.
  unfold connect_progress. rewrite Z.sub_diag, Z.mul_0_r, Z.add_0_r.
  cbn [Z.to_nat replicate app]. rewrite app_nil_r. split_and!; try done; lia.
Qed.

Lemma connect_loop_outcome script :
  forall (s : Sender.t) (h : Sender.Handshakes),
  0 <= Sender.syn_retries h <= 5 ->
  match Sender.connect_loop third_ack script s h with
  | Sender.Connected s' h' rest =>
      exists used tick synack,
        script = used ++ tick :: rest /\
        Sender.syn_retries h' <= 5 /\
        connect_progress s h s' h'
          (if third_ack then [Sender.handshake_ack (Sender.seq_num s) synack] else []) /\
        pkt_type synack = SYN_ACK /\ verify_checksum synack = true /\
        (exists buffer,
           Sender.heard tick = Some (Sender.server_addr s', buffer) /\
           buffer <> [] /\ deserialize buffer = Some synack) /\
        Sender.state s' = ESTABLISHED /\
        numbers s' = (add32 (Sender.seq_num s) 1, add32 (Sender.seq_num s) 1,
                      add32 (Sender.seq_num s) 1) /\
        Sender.server_locked s' = true /\
        (Sender.server_locked s = true -> Sender.server_addr s' = Sender.server_addr s)
  | Sender.Refused s' h' rest =>
      exists used, script = used ++ rest /\ rest <> [] /\
        Sender.syn_retries h' = 5 /\
        connect_progress s h s' h' [] /\
        Sender.state s' = Sender.state s /\ numbers s' = numbers s /\
        (Sender.server_locked s = true ->
         Sender.server_locked s' = true /\ Sender.server_addr s' = Sender.server_addr s)
  | Sender.Connecting s' h' =>
      Sender.syn_retries h' <= 5 /\
      connect_progress s h s' h' [] /\
      Sender.state s' = Sender.state s /\ numbers s' = numbers s /\
      (Sender.server_locked s = true ->
       Sender.server_locked s' = true /\ Sender.server_addr s' = Sender.server_addr s)
  | Sender.ConnectUndefined => True
  end.
Proof.
  induction script as [|tick script IH]; intros s h Hr.
  { cbn. split; [lia |]. split; [apply connect_progress_refl | done]. }
  cbn [Sender.connect_loop].
  destruct (Z.leb_spec 5 (Sender.syn_retries h)) as [Hfive | Hless].
  { exists []. split; [done |]. split; [done |]. split; [lia |].
    split; [apply connect_progress_refl | done]. }
  (* the retransmission of the iteration, if any *)
  set (resend := TIMEOUT_MS <? Sender.now tick - Sender.syn_send_time h).
  set (s1 := if resend then Sender.send_packet (Sender.syn_packet h) s else s).
  set (h1 := if resend then Sender.resend_syn (Sender.now tick) h else h).
  assert (Hpair : (if resend
                   then (Sender.send_packet (Sender.syn_packet h) s,
                         Sender.resend_syn (Sender.now tick) h)
                   else (s, h)) = (s1, h1))
    by (unfold s1, h1; by destruct resend).
  rewrite Hpair.
  assert (Hstep : connect_progress s h s1 h1 [] /\
                  0 <= Sender.syn_retries h1 <= 5 /\
                  Sender.state s1 = Sender.state s /\ numbers s1 = numbers s /\
                  Sender.server_locked s1 = Sender.server_locked s /\
                  Sender.server_addr s1 = Sender.server_addr s).
  { unfold s1, h1, resend.
    destruct (Z.ltb_spec TIMEOUT_MS (Sender.now tick - Sender.syn_send_time h))
      as [Hlate | _]; [| split; [apply connect_progress_refl | split; [lia | done]]].
    split; [| split; [cbn; lia | done]].
    unfold connect_progress.
    cbn [Sender.resend_syn Sender.syn_packet Sender.fin_packet Sender.fin_send_time
         Sender.fin_retries Sender.syn_retries Sender.syn_send_time].
    replace (Sender.syn_retries h + 1 - Sender.syn_retries h) with 1 by lia.
    split_and!; try done; try lia. }
  destruct Hstep as (Hprog1 & Hr1 & Hst1 & Hnum1 & Hl1 & Ha1).
  assert (Hseq1 : Sender.seq_num s1 = Sender.seq_num s)
    by (unfold numbers in Hnum1; congruence).
  assert (Hcompose : forall s' h' tail,
            connect_progress s1 h1 s' h' tail -> connect_progress s h s' h' tail).
  { intros s' h' tail (A1 & A2 & A3 & A4 & A5 & A6 & A7 & A8).
    destruct Hprog1 as (B1 & B2 & B3 & B4 & B5 & B6 & B7 & B8).
    unfold connect_progress.
    split; [congruence |]. split; [congruence |]. split; [congruence |].
    split; [congruence |]. split; [lia |]. split; [lia |].
    split; [| congruence].
    rewrite A7, B7, B1, app_nil_r, <- !app_assoc. f_equal. rewrite app_assoc. f_equal.
    rewrite <- replicate_add. f_equal. lia. }
  destruct (Sender.receive_packet (Sender.heard tick) s1) as [[p|]|] eqn:Hrx;
    [| | exact I].
  2: { (* nothing taken up *)
    specialize (IH s1 h1 Hr1).
    destruct (Sender.connect_loop third_ack script s1 h1) as [s' h' rest | s' h' rest | s' h' |].
    - destruct IH as (used & t & synack & Hs & Hr' & Hp & Hty & Hv & Hb & Hst & Hn & Hl & Hkeep).
      exists (tick :: used), t, synack. rewrite Hs.
      split; [done |]. split; [done |].
      rewrite Hseq1 in Hp, Hn.
      split; [by apply Hcompose |].
      split; [done |]. split; [done |]. split; [done |]. split; [done |].
      split; [done |].
      split; [done |]. intros Hlock. rewrite Hkeep by congruence. done.
    - destruct IH as (used & Hs & Hne & Hr' & Hp & Hst & Hn & Hkeep).
      exists (tick :: used). rewrite Hs. split; [done |]. split; [done |].
      split; [done |]. split; [by apply Hcompose |].
      split; [congruence |]. split; [congruence |].
      intros Hlock. destruct (Hkeep ltac:(congruence)) as [-> ->]. done.
    - destruct IH as (Hr' & Hp & Hst & Hn & Hkeep).
      split; [done |]. split; [by apply Hcompose |].
      split; [congruence |]. split; [congruence |].
      intros Hlock. destruct (Hkeep ltac:(congruence)) as [-> ->]. done.
    - exact I. }
  (* a packet was taken up *)
  destruct (heard_from s1 tick p Hrx) as (buffer & Hheard & Hne & Hde & Hfrom).
  set (s2 := if Sender.server_locked s1 then s1
             else Sender.lock_server (Sender.source (Sender.heard tick)) s1).
  assert (Hlock2 : Sender.server_locked s2 = true /\
                   Sender.server_addr s2 = Sender.source (Sender.heard tick) /\
                   Sender.state s2 = Sender.state s1 /\ numbers s2 = numbers s1 /\
                   Sender.sent s2 = Sender.sent s1 /\
                   transfer_state s2 = transfer_state s1).
  { unfold s2. destruct (Sender.server_locked s1) eqn:Hl; [| done].
    rewrite Hfrom by done. done. }
  destruct Hlock2 as (Hl2 & Ha2 & Hst2 & Hn2 & Hsent2 & Hts2).
  assert (Hprog2 : connect_progress s h s2 h1 []).
  { destruct Hprog1 as (B1 & B2 & B3 & B4 & B5 & B6 & B7 & B8).
    unfold connect_progress. rewrite Hsent2, Hts2. done. }
  destruct ((pkt_type p =? SYN_ACK) && verify_checksum p) eqn:Hvalid.
  { apply andb_true_iff in Hvalid as [Hty Hv]. apply Z.eqb_eq in Hty.
    exists [], tick, p. split; [done |]. split; [lia |].
    assert (Hseq2 : Sender.seq_num s2 = Sender.seq_num s)
      by (unfold numbers in Hn2; congruence).
    rewrite Hseq2.
    split.
    { destruct Hprog2 as (B1 & B2 & B3 & B4 & B5 & B6 & B7 & B8).
      unfold connect_progress. split_and!; try done.
      - destruct third_ack; cbn [Sender.establish Sender.send_packet Sender.sent];
          rewrite B7, ?app_nil_r, <- ?app_assoc; done.
      - destruct third_ack; exact B8. }
    split; [done |]. split; [done |].
    split.
    { exists buffer. split; [| done].
      rewrite Hheard. do 2 f_equal.
      destruct third_ack; cbn [Sender.establish Sender.send_packet Sender.server_addr];
        by rewrite Ha2. }
    split; [by destruct third_ack |].
    split.
    { unfold numbers. destruct third_ack;
        cbn [Sender.establish Sender.send_packet Sender.seq_num Sender.base
             Sender.next_seq_num]; by rewrite Hseq2. }
    split; [destruct third_ack; exact Hl2 |].
    intros Hlock.
    transitivity (Sender.server_addr s2);
      [by destruct third_ack |].
    rewrite Ha2, Hfrom by congruence. done. }
  (* not a valid SYN_ACK: the loop goes on, locked *)
  specialize (IH s2 h1 Hr1).
  assert (Hcompose2 : forall s' h' tail,
            connect_progress s2 h1 s' h' tail -> connect_progress s h s' h' tail).
  { intros s' h' tail Hp. apply Hcompose.
    destruct Hp as (A1 & A2 & A3 & A4 & A5 & A6 & A7 & A8).
    unfold connect_progress. rewrite <- Hsent2, <- Hts2. done. }
  assert (Hseq2 : Sender.seq_num s2 = Sender.seq_num s)
    by (unfold numbers in Hn2; congruence).
  assert (Hkeep2 : Sender.server_locked s = true ->
                   Sender.server_addr s2 = Sender.server_addr s).
  { intros Hlock. rewrite Ha2, Hfrom by congruence. done. }
  destruct (Sender.connect_loop third_ack script s2 h1) as [s' h' rest | s' h' rest | s' h' |].
  - destruct IH as (used & t & synack & Hs & Hr' & Hp & Hty & Hv & Hb & Hst & Hn & Hl & Hkeep).
    exists (tick :: used), t, synack. rewrite Hs.
    split; [done |]. split; [done |].
    rewrite Hseq2 in Hp, Hn.
    split; [by apply Hcompose2 |].
    split; [done |]. split; [done |]. split; [done |]. split; [done |].
    split; [done |].
    split; [done |]. intros Hlock. rewrite (Hkeep Hl2). by apply Hkeep2.
  - destruct IH as (used & Hs & Hne' & Hr' & Hp & Hst & Hn & Hkeep).
    exists (tick :: used). rewrite Hs. split; [done |]. split; [done |].
    split; [done |]. split; [by apply Hcompose2 |].
    split; [congruence |]. split; [congruence |].
    intros Hlock. destruct (Hkeep Hl2) as [-> ->]. split; [done | by apply Hkeep2].
  - destruct IH as (Hr' & Hp & Hst & Hn & Hkeep).
    split; [done |]. split; [by apply Hcompose2 |].
    split; [congruence |]. split; [congruence |].
    intros Hlock. destruct (Hkeep Hl2) as [-> ->]. split; [done | by apply Hkeep2].
  - exact I.
Qed.

End ConnectLoop.

(** A sender without its record of traffic: the datagrams sent and the
    two counters [send_packet] keeps. *)
Definition without_traffic (s : Sender.t) : Sender.t :=
  Sender.mk (Sender.state s) (Sender.seq_num s) (Sender.base s)
    (Sender.next_seq_num s) (Sender.sent_packets s) (Sender.send_times s)
    (Sender.cong_state s) (Sender.cwnd s) (Sender.ssthresh s)
    (Sender.duplicate_acks s) (Sender.last_acked s) 0 0
    (Sender.retransmissions s) (Sender.server_locked s) (Sender.server_addr s) [].

Section Connect.
Context {proto : ProtocolH} {text : SenderText}.
Variable third_ack : bool.

Lemma connect_start (start : Z) (s : Sender.t) (h : Sender.Handshakes) :
  let syn := Sender.syn_of (Sender.syn_packet h) (Sender.seq_num s) in
  let s0 := Sender.set_state SYN_SENT (Sender.send_packet syn s) in
  let h0 := Sender.mkHandshakes syn start (Sender.fin_packet h)
              (Sender.fin_send_time h) 0 (Sender.fin_retries h) in
  forall script,
    Sender.connect third_ack start script s h
      = Sender.connect_loop third_ack script s0 h0.
Proof. reflexivity. Qed.

(** X18. [connect] transmits the SYN at most six times. Whatever
    arrives and whenever, the datagrams [connect] has sent are the SYN
    (type SYN, the sender's [seq_num], sealed), between one and six
    times, followed in the first text by the ACK of the handshake if
    the connection was made. [connect] returns [false] only after the
    sixth transmission, which is at least five timeouts after the
    first, and then leaves the state [SYN_SENT] and the sequence
    numbers as they were. *)
Theorem connect_retry_budget (start : Z) (script : list Sender.Tick)
    (s : Sender.t) (h : Sender.Handshakes) :
  let syn := Sender.syn_of (Sender.syn_packet h) (Sender.seq_num s) in
  type (header syn) = SYN /\ seq_num (header syn) = Sender.seq_num s /\
  data_length (header syn) = 0 /\
  match Sender.connect third_ack start script s h with
  | Sender.Connected s' h' _ =>
      exists m tail, Sender.sent s' = Sender.sent s ++ replicate m syn ++ tail /\
        (1 <= m <= 6)%nat /\ length tail = (if third_ack then 1 else 0)%nat
  | Sender.Refused s' h' _ =>
      Sender.sent s' = Sender.sent s ++ replicate 6 syn /\
      Sender.state s' = SYN_SENT /\ numbers s' = numbers s /\
      start + 5 * (TIMEOUT_MS + 1) <= Sender.syn_send_time h'
  | Sender.Connecting s' h' =>
      exists m, Sender.sent s' = Sender.sent s ++ replicate m syn /\
        (1 <= m <= 6)%nat /\ Sender.state s' = SYN_SENT /\ numbers s' = numbers s
  | Sender.ConnectUndefined => True
  end.
Proof.
  intros syn. split; [reflexivity |]. split; [reflexivity |]. split; [reflexivity |].
  rewrite connect_start. fold syn.
  set (s0 := Sender.set_state SYN_SENT (Sender.send_packet syn s)).
  set (h0 := Sender.mkHandshakes syn start _ _ 0 _).
  pose proof (connect_loop_outcome third_ack script s0 h0 ltac:(cbn; lia)) as Hout.
  assert (Hsent0 : Sender.sent s0 = Sender.sent s ++ [syn]) by reflexivity.
  assert (Hone : forall (k : Z) tail, 0 <= k ->
    (Sender.sent s ++ [syn]) ++ replicate (Z.to_nat (k - 0)) syn ++ tail
    = Sender.sent s ++ replicate (S (Z.to_nat k)) syn ++ tail).
  { intros k tail Hk. rewrite Z.sub_0_r, <- app_assoc. reflexivity. }
  destruct (Sender.connect_loop third_ack script s0 h0) as [s' h' rest | s' h' rest | s' h' |];
    [| | | exact I].
  - destruct Hout as (used & tick & synack & _ & Hr & Hp & _).
    destruct Hp as (_ & _ & _ & _ & Hr0 & _ & Hsent & _).
    cbn [Sender.syn_retries Sender.syn_packet h0] in Hr0, Hsent.
    rewrite Hsent0, Hone in Hsent by exact Hr0.
    eexists _, _. split; [exact Hsent |]. split; [lia |]. by destruct third_ack.
  - destruct Hout as (used & _ & _ & Hr & Hp & Hst & Hn & _).
    destruct Hp as (_ & _ & _ & _ & Hr0 & Htime & Hsent & _).
    cbn [Sender.syn_retries Sender.syn_packet Sender.syn_send_time h0]
      in Hr0, Hsent, Htime.
    rewrite Hsent0, Hone in Hsent by exact Hr0. rewrite Hr in Hsent, Htime.
    rewrite app_nil_r in Hsent. split; [exact Hsent |].
    split; [by rewrite Hst |]. split; [by rewrite Hn |]. lia.
  - destruct Hout as (Hr & Hp & Hst & Hn).
    destruct Hp as (_ & _ & _ & _ & Hr0 & _ & Hsent & _).
    cbn [Sender.syn_retries Sender.syn_packet h0] in Hr0, Hsent.
    rewrite Hsent0, Hone in Hsent by exact Hr0. rewrite app_nil_r in Hsent.
    eexists. split; [exact Hsent |]. split; [lia |]. split; [by rewrite Hst |].
    by destruct Hn as [-> _].
Qed.

(** X19. When [connect] returns [true], a checksum-valid SYN_ACK from
    the locked server has arrived, the connection is [ESTABLISHED],
    [seq_num], [base] and [next_seq_num] are the old [seq_num] plus one,
    and the windows, timers and congestion state are untouched: the
    traffic apart, the sender is in the state [connected] describes. In
    the first text the last datagram sent is the ACK of the handshake,
    with the new [seq_num] and the SYN_ACK's [seq_num] plus one as
    [ack_num]. *)
Theorem connect_success (start : Z) (script : list Sender.Tick)
    (s s' : Sender.t) (h h' : Sender.Handshakes) (rest : list Sender.Tick) :
  Sender.connect third_ack start script s h = Sender.Connected s' h' rest ->
  Sender.state s' = ESTABLISHED /\
  numbers s' = (add32 (Sender.seq_num s) 1, add32 (Sender.seq_num s) 1,
                add32 (Sender.seq_num s) 1) /\
  transfer_state s' = transfer_state s /\
  without_traffic s' = without_traffic (Sender.connected (Sender.server_addr s') s) /\
  exists used tick synack buffer,
    script = used ++ tick :: rest /\
    Sender.heard tick = Some (Sender.server_addr s', buffer) /\
    deserialize buffer = Some synack /\
    pkt_type synack = SYN_ACK /\ verify_checksum synack = true /\
    (third_ack = true ->
     exists before ack,
       Sender.sent s' = before ++ [ack] /\
       type (header ack) = ACK /\
       seq_num (header ack) = Sender.seq_num s' /\
       ack_num (header ack) = add32 (pkt_seq synack) 1).
Proof.
  rewrite connect_start.
  set (syn := Sender.syn_of (Sender.syn_packet h) (Sender.seq_num s)).
  set (s0 := Sender.set_state SYN_SENT (Sender.send_packet syn s)).
  set (h0 := Sender.mkHandshakes syn start _ _ 0 _).
  intros Hc.
  pose proof (connect_loop_outcome third_ack script s0 h0 ltac:(cbn; lia)) as Hout.
  rewrite Hc in Hout.
  destruct Hout as (used & tick & synack & Hs & _ & Hp & Hty & Hv &
                    (buffer & Hheard & _ & Hde) & Hst & Hn & Hl & _).
  destruct Hp as (_ & _ & _ & _ & _ & _ & Hsent & Hts).
  change (Sender.seq_num s0) with (Sender.seq_num s) in Hn, Hsent.
  change (transfer_state s0) with (transfer_state s) in Hts.
  split; [exact Hst |]. split; [exact Hn |]. split; [exact Hts |]. split.
  { unfold without_traffic, Sender.connected.
    unfold numbers in Hn. unfold transfer_state in Hts.
    injection Hn as -> -> ->. injection Hts as -> -> -> -> -> -> -> ->.
    by rewrite Hst, Hl. }
  exists used, tick, synack, buffer.
  split; [exact Hs |]. split; [exact Hheard |]. split; [exact Hde |].
  split; [exact Hty |]. split; [exact Hv |].
  intros ->. eexists _, _. split; [rewrite Hsent, !app_assoc; reflexivity |].
  split; [reflexivity |]. split; [| reflexivity].
  cbn. unfold numbers in Hn. by injection Hn as -> _ _.
Qed.

End Connect.

(** ** The server lock *)

(** No datagram, or one without bytes. *)
Definition silent (tick : Sender.Tick) : Prop :=
  match Sender.heard tick with
  | Some (_, buffer) => buffer = []
  | None => True
  end.

(** No datagram from [a]. *)
Definition not_from (a : Endpoint) (tick : Sender.Tick) : Prop :=
  match Sender.heard tick with
  | Some (from, _) => same_endpoint from a = false
  | None => True
  end.

Section ServerLock.
Context {proto : ProtocolH} {text : SenderText}.
Variable third_ack : bool.

(** The outcome is not a connection, and the sender is locked to [a]. *)
Definition locked_out (a : Endpoint) (res : Sender.ConnectResult) : Prop :=
  match res with
  | Sender.Refused s' _ _ | Sender.Connecting s' _ =>
      Sender.server_locked s' = true /\ Sender.server_addr s' = a
  | Sender.Connected _ _ _ | Sender.ConnectUndefined => False
  end.

Lemma resend_keeps_lock (resend : bool) (syn : Packet) (s : Sender.t) :
  Sender.server_locked (if resend then Sender.send_packet syn s else s)
    = Sender.server_locked s /\
  Sender.server_addr (if resend then Sender.send_packet syn s else s)
    = Sender.server_addr s.
Proof. by destruct resend. Qed.

Lemma connect_loop_strangers a script :
  forall (s : Sender.t) (h : Sender.Handshakes),
  Sender.server_locked s = true -> Sender.server_addr s = a ->
  Forall (not_from a) script ->
  locked_out a (Sender.connect_loop third_ack script s h).
Proof.
  induction script as [|tick script IH]; intros s h Hl Ha Hscript; [done |].
  apply Forall_cons in Hscript as [Htick Hscript].
  cbn [Sender.connect_loop].
  destruct (5 <=? Sender.syn_retries h); [done |].
  set (resend := TIMEOUT_MS <? Sender.now tick - Sender.syn_send_time h).
  destruct (resend_keeps_lock resend (Sender.syn_packet h) s) as [Hl1 Ha1].
  replace (if resend
           then (Sender.send_packet (Sender.syn_packet h) s,
                 Sender.resend_syn (Sender.now tick) h)
           else (s, h))
    with (if resend then Sender.send_packet (Sender.syn_packet h) s else s,
          if resend then Sender.resend_syn (Sender.now tick) h else h)
    by (by destruct resend).
  set (s1 := if resend then Sender.send_packet (Sender.syn_packet h) s else s) in *.
  assert (Hrx : Sender.receive_packet (Sender.heard tick) s1 = Some None).
  { unfold Sender.receive_packet, not_from in *.
    destruct (Sender.heard tick) as [[from buffer]|]; [| done].
    destruct (negb _); [done |].
    by rewrite Hl1, Ha1, Hl, Ha, Htick. }
  rewrite Hrx. apply IH; congruence.
Qed.

(** The outcome is not a connection; [connect] gave up before it took
    the tick [tick], or the sender is locked to [a]. *)
Definition kept_out (a : Endpoint) (tick : Sender.Tick)
    (res : Sender.ConnectResult) : Prop :=
  match res with
  | Sender.Refused s' _ rest =>
      tick ∈ rest \/ (Sender.server_locked s' = true /\ Sender.server_addr s' = a)
  | Sender.Connecting s' _ =>
      Sender.server_locked s' = true /\ Sender.server_addr s' = a
  | Sender.Connected _ _ _ | Sender.ConnectUndefined => False
  end.

Lemma locked_out_kept_out a tick res : locked_out a res -> kept_out a tick res.
Proof. destruct res; cbn; auto. Qed.

(** X20. The sender locks on to whoever answers first. If the first
    datagram with any bytes that [connect] receives is not a
    checksum-valid SYN_ACK, the sender is locked to its source all the
    same, and as long as nothing more comes from that source [connect]
    does not connect: datagrams from the server it was started for are
    dropped unread, and [connect] ends in [return false] or goes on
    polling. *)
Theorem connect_locked_to_first_responder (start : Z)
    (quiet : list Sender.Tick) (tick : Sender.Tick) (later : list Sender.Tick)
    (s : Sender.t) (h : Sender.Handshakes) (intruder : Endpoint)
    (buffer : list Z) (p : Packet) :
  Sender.server_locked s = false ->
  Forall silent quiet ->
  Sender.heard tick = Some (intruder, buffer) -> buffer <> [] ->
  deserialize buffer = Some p ->
  (pkt_type p =? SYN_ACK) && verify_checksum p = false ->
  Forall (not_from intruder) later ->
  kept_out intruder tick
    (Sender.connect third_ack start (quiet ++ tick :: later) s h).
Proof.
  intros Hl Hquiet Hheard Hne Hde Hjunk Hlater.
  rewrite connect_start.
  set (s0 := Sender.set_state SYN_SENT _). set (h0 := Sender.mkHandshakes _ _ _ _ _ _).
  assert (Hl0 : Sender.server_locked s0 = false) by exact Hl.
  clearbody s0 h0. clear Hl s h.
  revert s0 h0 Hl0. induction Hquiet as [|t quiet Ht Hquiet IH]; intros s h Hl.
  - cbn [app Sender.connect_loop].
    destruct (5 <=? Sender.syn_retries h); [left; apply list_elem_of_here |].
    set (resend := TIMEOUT_MS <? Sender.now tick - Sender.syn_send_time h).
    destruct (resend_keeps_lock resend (Sender.syn_packet h) s) as [Hl1 Ha1].
    replace (if resend
             then (Sender.send_packet (Sender.syn_packet h) s,
                   Sender.resend_syn (Sender.now tick) h)
             else (s, h))
      with (if resend then Sender.send_packet (Sender.syn_packet h) s else s,
            if resend then Sender.resend_syn (Sender.now tick) h else h)
      by (by destruct resend).
    set (s1 := if resend then Sender.send_packet (Sender.syn_packet h) s else s) in *.
    assert (Hrx : Sender.receive_packet (Sender.heard tick) s1 = Some (Some p)).
    { unfold Sender.receive_packet. rewrite Hheard, (nonempty_received _ Hne).
      by rewrite Hl1, Hl, Hde. }
    rewrite Hrx, Hl1, Hl, Hjunk, Hheard. cbn [Sender.source].
    apply locked_out_kept_out, connect_loop_strangers; done.
  - cbn [app Sender.connect_loop].
    destruct (5 <=? Sender.syn_retries h).
    { left. apply list_elem_of_further, elem_of_app. right. apply list_elem_of_here. }
    set (resend := TIMEOUT_MS <? Sender.now t - Sender.syn_send_time h).
    destruct (resend_keeps_lock resend (Sender.syn_packet h) s) as [Hl1 Ha1].
    replace (if resend
             then (Sender.send_packet (Sender.syn_packet h) s,
                   Sender.resend_syn (Sender.now t) h)
             else (s, h))
      with (if resend then Sender.send_packet (Sender.syn_packet h) s else s,
            if resend then Sender.resend_syn (Sender.now t) h else h)
      by (by destruct resend).
    set (s1 := if resend then Sender.send_packet (Sender.syn_packet h) s else s) in *.
    assert (Hrx : Sender.receive_packet (Sender.heard t) s1 = Some None).
    { unfold Sender.receive_packet, silent in *.
      destruct (Sender.heard t) as [[from b]|]; [| done]. by rewrite Ht. }
    rewrite Hrx. apply IH. congruence.
Qed.

End ServerLock.

(** ** Leaving and the file name *)

Section Disconnect.
Context {proto : ProtocolH} {text : SenderText}.

(** What the loop of [disconnect] has done from [(s, h)] to
    [(s', h')]. *)
Definition disconnect_progress (s : Sender.t) (h : Sender.Handshakes)
    (s' : Sender.t) (h' : Sender.Handshakes) : Prop :=
  Sender.fin_packet h' = Sender.fin_packet h /\
  Sender.fin_retries h <= Sender.fin_retries h' /\
  Sender.fin_send_time h
    + (TIMEOUT_MS + 1) * (Sender.fin_retries h' - Sender.fin_retries h)
    <= Sender.fin_send_time h' /\
  Sender.sent s' =
    Sender.sent s
    ++ replicate (Z.to_nat (Sender.fin_retries h' - Sender.fin_retries h))
         (Sender.fin_packet h) /\
  transfer_state s' = transfer_state s /\ numbers s' = numbers s /\
  Sender.server_locked s' = Sender.server_locked s /\
  Sender.server_addr s' = Sender.server_addr s /\
  Sender.state s' = Sender.state s.

Lemma disconnect_progress_refl (s : Sender.t) h : disconnect_progress s h s h.
Proof.
  unfold disconnect_progress. rewrite Z.sub_diag, Z.mul_0_r, Z.add_0_r.
  cbn [Z.to_nat replicate]. rewrite app_nil_r. split_and!; try done; lia.
Qed.

Lemma disconnect_loop_outcome script :
  forall (s : Sender.t) (h : Sender.Handshakes),
  0 <= Sender.fin_retries h <= 5 ->
  match Sender.disconnect_loop script s h with
  | Sender.Disconnected s' h' rest =>
      Sender.fin_retries h' <= 5 /\
      exists s1, disconnect_progress s h s1 h' /\
        ((s' = Sender.set_state CLOSED s1 /\
          exists used tick finack buffer,
            script = used ++ tick :: rest /\
            Sender.heard tick = Some (Sender.source (Sender.heard tick), buffer) /\
            (Sender.server_locked s = true ->
             Sender.source (Sender.heard tick) = Sender.server_addr s) /\
            deserialize buffer = Some finack /\
            pkt_type finack = FIN_ACK /\ verify_checksum finack = true) \/
         (s' = s1 /\ Sender.fin_retries h' = 5 /\ rest <> []))
  | Sender.Disconnecting s' h' =>
      Sender.fin_retries h' <= 5 /\ disconnect_progress s h s' h'
  | Sender.DisconnectUndefined => True
  end.
Proof.
  induction script as [|tick script IH]; intros s h Hr.
  { cbn. split; [lia | apply disconnect_progress_refl]. }
  cbn [Sender.disconnect_loop].
  destruct (Z.leb_spec 5 (Sender.fin_retries h)) as [Hfive | Hless].
  { split; [lia |]. exists s. split; [apply disconnect_progress_refl |].
    right. split; [done |]. split; [lia | done]. }
  set (resend := TIMEOUT_MS <? Sender.now tick - Sender.fin_send_time h).
  set (s1 := if resend then Sender.send_packet (Sender.fin_packet h) s else s).
  set (h1 := if resend then Sender.resend_fin (Sender.now tick) h else h).
  assert (Hpair : (if resend
                   then (Sender.send_packet (Sender.fin_packet h) s,
                         Sender.resend_fin (Sender.now tick) h)
                   else (s, h)) = (s1, h1))
    by (unfold s1, h1; by destruct resend).
  rewrite Hpair.
  assert (Hstep : disconnect_progress s h s1 h1 /\ 0 <= Sender.fin_retries h1 <= 5).
  { unfold s1, h1, resend.
    destruct (Z.ltb_spec TIMEOUT_MS (Sender.now tick - Sender.fin_send_time h))
      as [Hlate | _]; [| split; [apply disconnect_progress_refl | lia]].
    split; [| cbn; lia].
    unfold disconnect_progress.
    cbn [Sender.resend_fin Sender.fin_packet Sender.fin_retries Sender.fin_send_time].
    replace (Sender.fin_retries h + 1 - Sender.fin_retries h) with 1 by lia.
    split_and!; try done; try lia. }
  destruct Hstep as (Hprog1 & Hr1).
  assert (Hcompose : forall s' h',
            disconnect_progress s1 h1 s' h' -> disconnect_progress s h s' h').
  { intros s' h' (A1 & A2 & A3 & A4 & A5 & A6 & A7 & A8 & A9).
    destruct Hprog1 as (B1 & B2 & B3 & B4 & B5 & B6 & B7 & B8 & B9).
    unfold disconnect_progress.
    split; [congruence |]. split; [lia |]. split; [lia |].
    split; [| split_and!; congruence].
    rewrite A4, B4, B1, <- !app_assoc. f_equal.
    rewrite <- replicate_add. f_equal. lia. }
  assert (Hlock1 : Sender.server_locked s1 = Sender.server_locked s /\
                   Sender.server_addr s1 = Sender.server_addr s).
  { by destruct Hprog1 as (_ & _ & _ & _ & _ & _ & ? & ? & _). }
  destruct Hlock1 as [Hl1 Ha1].
  assert (Hgo : match Sender.disconnect_loop script s1 h1 with
                | Sender.Disconnected s' h' rest =>
                    Sender.fin_retries h' <= 5 /\
                    exists s2, disconnect_progress s h s2 h' /\
                      ((s' = Sender.set_state CLOSED s2 /\
                        exists used tick0 finack buffer,
                          tick :: script = used ++ tick0 :: rest /\
                          Sender.heard tick0
                            = Some (Sender.source (Sender.heard tick0), buffer) /\
                          (Sender.server_locked s = true ->
                           Sender.source (Sender.heard tick0) = Sender.server_addr s) /\
                          deserialize buffer = Some finack /\
                          pkt_type finack = FIN_ACK /\ verify_checksum finack = true) \/
                       (s' = s2 /\ Sender.fin_retries h' = 5 /\ rest <> []))
                | Sender.Disconnecting s' h' =>
                    Sender.fin_retries h' <= 5 /\ disconnect_progress s h s' h'
                | Sender.DisconnectUndefined => True
                end).
  { specialize (IH s1 h1 Hr1).
    destruct (Sender.disconnect_loop script s1 h1) as [s' h' rest | s' h' |]; [| | exact I].
    - destruct IH as (Hr' & s2 & Hp & Hcase). split; [done |].
      exists s2. split; [by apply Hcompose |].
      destruct Hcase as [(-> & used & t & finack & buffer & Hs & Hh & Hfrom & Hde & Hty & Hv)
                        | (-> & Hfive & Hne)]; [left | by right].
      split; [done |]. exists (tick :: used), t, finack, buffer. rewrite Hs.
      split_and!; try done. intros Hlock. rewrite Hfrom by congruence. done.
    - destruct IH as (Hr' & Hp). split; [done | by apply Hcompose]. }
  destruct (Sender.receive_packet (Sender.heard tick) s1) as [[p|]|] eqn:Hrx;
    [| exact Hgo | exact I].
  destruct ((pkt_type p =? FIN_ACK) && verify_checksum p) eqn:Hvalid; [| exact Hgo].
  apply andb_true_iff in Hvalid as [Hty Hv]. apply Z.eqb_eq in Hty.
  destruct (heard_from s1 tick p Hrx) as (buffer & Hheard & Hne & Hde & Hfrom).
  split; [lia |]. exists s1. split; [exact Hprog1 |]. left.
  split; [done |]. exists [], tick, p, buffer.
  split_and!; try done. intros Hlock. rewrite Hfrom by congruence. done.
Qed.

(** X21. [disconnect] sends a FIN with [next_seq_num] as its sequence
    number, at most six times, and leaves the loop in one of two ways:
    on a checksum-valid FIN_ACK taken up from the socket, in state
    [CLOSED]; or after the sixth transmission, which is at least five
    timeouts after the first, in state [FIN_WAIT]. The windows, timers,
    congestion state and sequence numbers are not touched. *)
Theorem disconnect_outcome (start : Z) (script : list Sender.Tick)
    (s : Sender.t) (h : Sender.Handshakes) :
  let fin := Sender.fin_of (Sender.fin_packet h) (Sender.next_seq_num s) in
  type (header fin) = FIN /\ seq_num (header fin) = Sender.next_seq_num s /\
  match Sender.disconnect start script s h with
  | Sender.Disconnected s' h' rest =>
      transfer_state s' = transfer_state s /\ numbers s' = numbers s /\
      exists m, Sender.sent s' = Sender.sent s ++ replicate m fin /\
        (1 <= m <= 6)%nat /\
        ((Sender.state s' = CLOSED /\
          exists used tick finack buffer,
            script = used ++ tick :: rest /\
            Sender.heard tick = Some (Sender.source (Sender.heard tick), buffer) /\
            (Sender.server_locked s = true ->
             Sender.source (Sender.heard tick) = Sender.server_addr s) /\
            deserialize buffer = Some finack /\
            pkt_type finack = FIN_ACK /\ verify_checksum finack = true) \/
         (Sender.state s' = FIN_WAIT /\ m = 6%nat /\
          start + 5 * (TIMEOUT_MS + 1) <= Sender.fin_send_time h'))
  | Sender.Disconnecting s' h' =>
      Sender.state s' = FIN_WAIT /\
      exists m, Sender.sent s' = Sender.sent s ++ replicate m fin /\
        (1 <= m <= 6)%nat
  | Sender.DisconnectUndefined => True
  end.
Proof.
  intros fin. split; [reflexivity |]. split; [reflexivity |].
  unfold Sender.disconnect. fold fin.
  set (s0 := Sender.set_state FIN_WAIT (Sender.send_packet fin s)).
  set (h0 := Sender.mkHandshakes _ _ fin start _ 0).
  pose proof (disconnect_loop_outcome script s0 h0 ltac:(cbn; lia)) as Hout.
  assert (Hone : forall k : Z, 0 <= k ->
    Sender.sent s0 ++ replicate (Z.to_nat (k - 0)) fin
    = Sender.sent s ++ replicate (S (Z.to_nat k)) fin).
  { intros k Hk. rewrite Z.sub_0_r. cbn [s0 Sender.set_state Sender.send_packet Sender.sent].
    rewrite <- app_assoc. reflexivity. }
  destruct (Sender.disconnect_loop script s0 h0) as [s' h' rest | s' h' |]; [| | exact I].
  - destruct Hout as (Hr & s1 & Hp & Hcase).
    destruct Hp as (_ & Hr0 & Htime & Hsent & Hts & Hn & _ & _ & Hst).
    cbn [Sender.fin_retries Sender.fin_packet Sender.fin_send_time h0]
      in Hr0, Hsent, Htime.
    rewrite Hone in Hsent by exact Hr0.
    destruct Hcase as [(-> & Hvalid) | (-> & Hfive & Hne)].
    + split; [exact Hts |]. split; [exact Hn |].
      eexists. split; [exact Hsent |]. split; [lia |]. left.
      split; [reflexivity | exact Hvalid].
    + split; [exact Hts |]. split; [exact Hn |].
      eexists. split; [exact Hsent |]. split; [lia |]. right.
      split; [exact Hst |]. split; [rewrite Hfive; reflexivity | lia].
  - destruct Hout as (Hr & Hp).
    destruct Hp as (_ & Hr0 & _ & Hsent & _ & _ & _ & _ & Hst).
    cbn [Sender.fin_retries Sender.fin_packet h0] in Hr0, Hsent.
    rewrite Hone in Hsent by exact Hr0.
    split; [exact Hst |]. eexists. split; [exact Hsent | lia].
Qed.

End Disconnect.

Section FileNameAck.
Context {proto : ProtocolH} {text : SenderText}.

(** The sender after [m] more transmissions of [p]. *)
Definition resent (m : nat) (p : Packet) (s : Sender.t) : Sender.t :=
  Nat.iter m (Sender.send_packet p) s.

(** A tick whose datagram is a checksum-valid packet of type [ty] that
    [receive_packet] of [s] takes up. *)
Definition answers (ty : Z) (s : Sender.t) (tick : Sender.Tick) : Prop :=
  exists buffer p,
    Sender.heard tick = Some (Sender.source (Sender.heard tick), buffer) /\
    (Sender.server_locked s = true ->
     Sender.source (Sender.heard tick) = Sender.server_addr s) /\
    deserialize buffer = Some p /\
    pkt_type p = ty /\ verify_checksum p = true.

Lemma resent_lock m p (s : Sender.t) :
  Sender.server_locked (resent m p s) = Sender.server_locked s /\
  Sender.server_addr (resent m p s) = Sender.server_addr s.
Proof.
  induction m as [|m IH]; [done |]. unfold resent in *. cbn [Nat.iter].
  exact IH.
Qed.

Lemma wait_loop_outcome pkt script :
  forall (send_time retries : Z) (s : Sender.t),
  0 <= retries <= 5 ->
  match Sender.wait_loop pkt script send_time retries s with
  | Sender.Acknowledged s' rest =>
      exists m, s' = resent m pkt s /\ retries + Z.of_nat m <= 5 /\
        exists used tick, script = used ++ tick :: rest /\
                          answers FILE_NAME_ACK s tick
  | Sender.TimedOut s' rest =>
      exists m, s' = resent m pkt s /\ retries + Z.of_nat m = 5 /\ rest <> []
  | Sender.Waiting s' =>
      exists m, s' = resent m pkt s /\ retries + Z.of_nat m <= 5
  | Sender.WaitUndefined => True
  end.
Proof.
  induction script as [|tick script IH]; intros send_time retries s Hr.
  { cbn. exists 0%nat. split; [done | lia]. }
  cbn [Sender.wait_loop].
  destruct (Z.leb_spec 5 retries) as [Hfive | Hless].
  { exists 0%nat. split; [done |]. split; [lia | done]. }
  set (resend := (TIMEOUT_MS <? Sender.now tick - send_time) && (retries <? 5)).
  set (k := if resend then 1%nat else 0%nat).
  assert (Htriple : (if resend
                     then (Sender.send_packet pkt s, retries + 1, Sender.now tick)
                     else (s, retries, send_time))
                    = (resent k pkt s, retries + Z.of_nat k,
                       if resend then Sender.now tick else send_time)).
  { unfold k. destruct resend; [done |]. by rewrite Z.add_0_r. }
  rewrite Htriple. clear Htriple.
  set (send_time1 := if resend then Sender.now tick else send_time).
  assert (Hk : retries + Z.of_nat k <= 5) by (unfold k; destruct resend; lia).
  assert (Hshift : forall m, resent m pkt (resent k pkt s) = resent (m + k) pkt s).
  { intros m. unfold resent. by rewrite Nat.iter_add. }
  assert (Hgo : match Sender.wait_loop pkt script send_time1
                        (retries + Z.of_nat k) (resent k pkt s) with
                | Sender.Acknowledged s' rest =>
                    exists m, s' = resent m pkt s /\ retries + Z.of_nat m <= 5 /\
                      exists used tick0, tick :: script = used ++ tick0 :: rest /\
                                         answers FILE_NAME_ACK s tick0
                | Sender.TimedOut s' rest =>
                    exists m, s' = resent m pkt s /\ retries + Z.of_nat m = 5 /\
                              rest <> []
                | Sender.Waiting s' =>
                    exists m, s' = resent m pkt s /\ retries + Z.of_nat m <= 5
                | Sender.WaitUndefined => True
                end).
  { specialize (IH send_time1 (retries + Z.of_nat k) (resent k pkt s) ltac:(lia)).
    destruct (Sender.wait_loop pkt script send_time1 (retries + Z.of_nat k)
                (resent k pkt s)) as [s' rest | s' rest | s' |]; [| | | exact I].
    - destruct IH as (m & -> & Hm & used & t & Hs & buffer & p & Hh & Hfrom & Hrest).
      exists (m + k)%nat. rewrite Hshift. split; [done |]. split; [lia |].
      exists (tick :: used), t. rewrite Hs. split; [done |].
      exists buffer, p. split; [done |]. split; [| done].
      intros Hlock. destruct (resent_lock k pkt s) as [Hl Ha].
      rewrite <- Ha. apply Hfrom. congruence.
    - destruct IH as (m & -> & Hm & Hne).
      exists (m + k)%nat. rewrite Hshift. split; [done |]. split; [lia | done].
    - destruct IH as (m & -> & Hm).
      exists (m + k)%nat. rewrite Hshift. split; [done | lia]. }
  destruct (Sender.receive_packet (Sender.heard tick) (resent k pkt s))
    as [[p|]|] eqn:Hrx; [| exact Hgo | exact I].
  destruct ((pkt_type p =? FILE_NAME_ACK) && verify_checksum p) eqn:Hvalid;
    [| exact Hgo].
  apply andb_true_iff in Hvalid as [Hty Hv]. apply Z.eqb_eq in Hty.
  destruct (heard_from _ tick p Hrx) as (buffer & Hheard & Hne & Hde & Hfrom).
  exists k. split; [done |]. split; [lia |].
  exists [], tick. split; [done |]. exists buffer, p.
  split; [done |]. split; [| done].
  intros Hlock. destruct (resent_lock k pkt s) as [Hl Ha].
  rewrite <- Ha. apply Hfrom. congruence.
Qed.

(** X22. [wait_for_file_name_ack] only ever transmits the FILE_NAME
    packet it was given, at most five times, and changes nothing else of
    the sender but the traffic counters. It returns [true] only when a
    checksum-valid FILE_NAME_ACK has been taken up from the socket (from
    the locked server, if the sender is locked), and [false] only after
    exactly five retransmissions. *)
Theorem wait_for_file_name_ack_outcome (start : Z) (pkt : Packet)
    (script : list Sender.Tick) (s : Sender.t) :
  match Sender.wait_for_file_name_ack start pkt script s with
  | Sender.Acknowledged s' rest =>
      (exists m, s' = resent m pkt s /\ (m <= 5)%nat) /\
      exists used tick, script = used ++ tick :: rest /\
                        answers FILE_NAME_ACK s tick
  | Sender.TimedOut s' rest => s' = resent 5 pkt s /\ rest <> []
  | Sender.Waiting s' => exists m, s' = resent m pkt s /\ (m <= 5)%nat
  | Sender.WaitUndefined => True
  end.
Proof.
  unfold Sender.wait_for_file_name_ack.
  pose proof (wait_loop_outcome pkt script start 0 s ltac:(lia)) as Hout.
  destruct (Sender.wait_loop pkt script start 0 s) as [s' rest | s' rest | s' |];
    [| | | exact I].
  - destruct Hout as (m & -> & Hm & Hans). split; [| exact Hans].
    exists m. split; [done | lia].
  - destruct Hout as (m & -> & Hm & Hne).
    replace m with 5%nat by lia. done.
  - destruct Hout as (m & -> & Hm). exists m. split; [done | lia].
Qed.

End FileNameAck.

(** ** The two programs together

    [receiver.cpp] and the first text of [sender.cpp] store
    [htons(calculate_checksum())]; they are built with the second text
    of [protocol.h]. *)

Section OnTheWire.

Lemma serialize_nonempty p : serialize p <> [].
Proof.
  unfold serialize. intros H. apply (f_equal length) in H.
  rewrite length_app, header_bytes_length in H. cbn [length] in H. lia.
Qed.

Lemma sealed_on_wire q :
  well_formed q -> fits_datagram q -> checksum (header q) = 0 ->
  deserialize (serialize (seal_v2 q)) = Some (pad_payload (seal_v2 q)) /\
  verify_checksum_v2 (pad_payload (seal_v2 q)) = true.
Proof.
  intros Hwf Hfit Hck. split.
  - apply deserialize_serialize.
    apply set_checksum_well_formed; [apply htons_range | assumption].
  - rewrite <- (set_checksum_zero q Hck) at 1. by apply verify_v2_sealed.
Qed.

End OnTheWire.

Section Answers.
Context {proto : ProtocolH} {text : SenderText}.

Lemma reply_fields ty ak :
  let reply := pad_payload (Receiver.seal (Receiver.control_packet ty 0 ak)) in
  pkt_type reply = ty /\ pkt_seq reply = 0 /\ pkt_ack reply = ak.
Proof. split; [| split]; reflexivity. Qed.

(** What [handle_packet] does with a SYN. *)
Lemma syn_is_answered client p (r : Receiver.t) :
  type (header p) = SYN -> accepted_from client r ->
  let r1 := Receiver.handle_packet p (received_from client r) in
  Receiver.state r1 = SYN_RECEIVED /\
  Receiver.expected_seq r1 = add32 (seq_num (header p)) 1 /\
  Receiver.sent r1 =
    Receiver.sent r
    ++ [(client, Receiver.seal
                   (Receiver.control_packet SYN_ACK 0 (add32 (seq_num (header p)) 1)))] /\
  accepted_from client r1.
Proof.
  intros Hty Haccept r1.
  assert (Hr1 : r1 = Receiver.handle_syn p (received_from client r)).
  { unfold r1, Receiver.handle_packet. by rewrite Hty. }
  rewrite Hr1. clear r1 Hr1. unfold Receiver.handle_syn.
  set (synack := Receiver.seal _).
  assert (Hown : same_endpoint client client = true).
  { unfold same_endpoint. by rewrite !Z.eqb_refl. }
  destruct (Receiver.client_locked (received_from client r)) eqn:Hl.
  - split; [reflexivity |]. split; [reflexivity |]. split; [reflexivity |].
    destruct Haccept as [Hfree | Hsame]; [| right; exact Hsame].
    cbn in Hl. congruence.
  - split; [reflexivity |]. split; [reflexivity |]. split; [reflexivity |].
    right. exact Hown.
Qed.

(** What [handle_packet] does in [SYN_RECEIVED] with the ACK of the
    handshake. *)
Lemma third_ack_establishes p (r : Receiver.t) :
  type (header p) = ACK -> ack_num (header p) = 1 ->
  Receiver.state r = SYN_RECEIVED ->
  Receiver.handle_packet p r = Receiver.set_state ESTABLISHED r.
Proof.
  intros Hty Hack Hst. unfold Receiver.handle_packet. rewrite Hty.
  change (ACK =? SYN) with false. change (ACK =? ACK) with true. cbv iota.
  unfold Receiver.handle_ack_handshake. rewrite Hack.
  destruct (decide (Receiver.state r = SYN_RECEIVED)) as [_ | Hno];
    [reflexivity | by destruct Hno].
Qed.

(** [connect] when the first datagram it reads is a valid SYN_ACK. *)
Lemma connect_answered (third_ack : bool) (server : Endpoint) buffer synack
    start tick later (s : Sender.t) (h : Sender.Handshakes) :
  Sender.server_locked s = false ->
  Sender.heard tick = Some (server, buffer) -> buffer <> [] ->
  deserialize buffer = Some synack ->
  pkt_type synack = SYN_ACK -> verify_checksum synack = true ->
  exists s' h',
    Sender.connect third_ack start (tick :: later) s h
      = Sender.Connected s' h' later /\
    Sender.state s' = ESTABLISHED /\
    Sender.server_locked s' = true /\ Sender.server_addr s' = server /\
    Sender.base s' = add32 (Sender.seq_num s) 1 /\
    Sender.next_seq_num s' = add32 (Sender.seq_num s) 1 /\
    exists m,
      Sender.sent s' =
        (Sender.sent s
         ++ replicate m (Sender.syn_of (Sender.syn_packet h) (Sender.seq_num s)))
        ++ (if third_ack
            then [Sender.handshake_ack (Sender.seq_num s) synack] else []) /\
      (1 <= m <= 2)%nat.
Proof.
  intros Hunlocked Hheard Hne Hde Hty Hv.
  unfold Sender.connect.
  set (syn := Sender.syn_of (Sender.syn_packet h) (Sender.seq_num s)).
  set (s0 := Sender.set_state SYN_SENT (Sender.send_packet syn s)).
  set (h0 := Sender.mkHandshakes syn start _ _ 0 _).
  set (resend := TIMEOUT_MS <? Sender.now tick - Sender.syn_send_time h0).
  set (s1 := if resend then Sender.send_packet (Sender.syn_packet h0) s0 else s0).
  set (h1 := if resend then Sender.resend_syn (Sender.now tick) h0 else h0).
  assert (Hl1 : Sender.server_locked s1 = false).
  { unfold s1. destruct resend; exact Hunlocked. }
  assert (Hseq1 : Sender.seq_num s1 = Sender.seq_num s).
  { unfold s1. destruct resend; reflexivity. }
  assert (Hsent1 : exists m, Sender.sent s1 = Sender.sent s ++ replicate m syn /\
                             (1 <= m <= 2)%nat).
  { unfold s1. destruct resend.
    - exists 2%nat. split; [| lia].
      cbn [s0 h0 Sender.set_state Sender.send_packet Sender.sent Sender.syn_packet
           replicate].
      rewrite <- app_assoc. reflexivity.
    - exists 1%nat. split; [reflexivity | lia]. }
  set (ack3 := Sender.handshake_ack (Sender.seq_num s) synack).
  set (s2 := Sender.lock_server server s1).
  set (s3 := if third_ack then Sender.send_packet ack3 s2 else s2).
  exists (Sender.establish s3), h1.
  split.
  - cbn [Sender.connect_loop]. change (5 <=? Sender.syn_retries h0) with false.
    cbv iota. fold resend.
    assert (Hpair : (if resend
                     then (Sender.send_packet (Sender.syn_packet h0) s0,
                           Sender.resend_syn (Sender.now tick) h0)
                     else (s0, h0)) = (s1, h1))
      by (unfold s1, h1; by destruct resend).
    rewrite Hpair.
    assert (Hrecv : Sender.receive_packet (Sender.heard tick) s1
                    = Some (Some synack)).
    { unfold Sender.receive_packet.
      rewrite Hheard, (nonempty_received _ Hne), Hl1, Hde. reflexivity. }
    rewrite Hrecv, Hl1, Hv, Hty. change (SYN_ACK =? SYN_ACK) with true.
    cbn [andb]. rewrite Hheard. cbn [Sender.source].
    fold s2. change (Sender.seq_num s2) with (Sender.seq_num s1).
    rewrite Hseq1. reflexivity.
  - assert (Hs3 : Sender.seq_num s3 = Sender.seq_num s /\
                  Sender.server_locked s3 = true /\
                  Sender.server_addr s3 = server /\
                  Sender.sent s3 =
                    Sender.sent s1 ++ (if third_ack then [ack3] else [])).
    { unfold s3. destruct third_ack.
      - split; [exact Hseq1 |]. split; [reflexivity |]. split; reflexivity.
      - split; [exact Hseq1 |]. split; [reflexivity |]. split; [reflexivity |].
        cbn [s2 Sender.lock_server Sender.sent]. by rewrite app_nil_r. }
    destruct Hs3 as (Hseq3 & Hl3 & Ha3 & Hsent3).
    split; [reflexivity |]. split; [exact Hl3 |]. split; [exact Ha3 |].
    cbn [Sender.establish Sender.base Sender.next_seq_num Sender.sent].
    rewrite Hseq3. split; [reflexivity |]. split; [reflexivity |].
    destruct Hsent1 as (m & Hm & Hrange). exists m.
    split; [| exact Hrange]. rewrite Hsent3, Hm. reflexivity.
Qed.

(** What [handle_packet] does with a FILE_NAME packet in
    [ESTABLISHED]. *)
Lemma file_name_is_answered p (r : Receiver.t) :
  type (header p) = FILE_NAME -> Receiver.state r = ESTABLISHED ->
  0 <= data_length (header p) <= MAX_DATA_SIZE ->
  let r1 := Receiver.handle_packet p r in
  Receiver.state r1 = ESTABLISHED /\
  Receiver.output_file r1 =
    Receiver.output_file r
    ++ [Receiver.SinkOpen
          (if 0 <? data_length (header p)
           then Receiver.output_name (payload p)
           else [111; 117; 116; 112; 117; 116])] /\
  Receiver.sent r1 =
    Receiver.sent r
    ++ [(Receiver.sender_addr r,
         Receiver.seal
           (Receiver.control_packet FILE_NAME_ACK 0
              (add32 (seq_num (header p)) 1)))].
Proof.
  intros Hty Hst Hdl r1.
  assert (Hr1 : r1 = Receiver.handle_file_name p r).
  { unfold r1, Receiver.handle_packet. rewrite Hty. reflexivity. }
  rewrite Hr1. clear r1 Hr1. unfold Receiver.handle_file_name.
  destruct (decide (Receiver.state r = ESTABLISHED)) as [_ | Hno];
    [| by destruct Hno].
  set (reply := Receiver.seal _).
  rewrite Z.min_l by lia. fold (payload p).
  destruct (0 <? data_length (header p)).
  - split; [exact Hst |]. split; reflexivity.
  - split; [exact Hst |]. split; reflexivity.
Qed.

(** [wait_for_file_name_ack] when the first datagram it reads is a valid
    FILE_NAME_ACK. *)
Lemma wait_answered (server : Endpoint) buffer reply start pkt tick later
    (s : Sender.t) :
  (Sender.server_locked s = true -> Sender.server_addr s = server) ->
  Sender.heard tick = Some (server, buffer) -> buffer <> [] ->
  deserialize buffer = Some reply ->
  pkt_type reply = FILE_NAME_ACK -> verify_checksum reply = true ->
  exists s',
    Sender.wait_for_file_name_ack start pkt (tick :: later) s
      = Sender.Acknowledged s' later /\
    (s' = s \/ s' = Sender.send_packet pkt s).
Proof.
  intros Hserver Hheard Hne Hde Hty Hv.
  unfold Sender.wait_for_file_name_ack. cbn [Sender.wait_loop].
  change (5 <=? 0) with false. cbv iota.
  set (resend := (TIMEOUT_MS <? Sender.now tick - start) && (0 <? 5)).
  set (s1 := if resend then Sender.send_packet pkt s else s).
  assert (Htriple : (if resend
                     then (Sender.send_packet pkt s, 0 + 1, Sender.now tick)
                     else (s, 0, start))
                    = (s1, if resend then 0 + 1 else 0,
                       if resend then Sender.now tick else start))
    by (unfold s1; by destruct resend).
  rewrite Htriple.
  assert (Hgate : Sender.server_locked s1
                  && negb (same_endpoint server (Sender.server_addr s1)) = false).
  { assert (Hsame : Sender.server_locked s1 = Sender.server_locked s /\
                    Sender.server_addr s1 = Sender.server_addr s)
      by (unfold s1; by destruct resend).
    destruct Hsame as [-> ->].
    destruct (Sender.server_locked s); [| reflexivity].
    rewrite Hserver by reflexivity. unfold same_endpoint.
    by rewrite !Z.eqb_refl. }
  assert (Hrecv : Sender.receive_packet (Sender.heard tick) s1 = Some (Some reply)).
  { unfold Sender.receive_packet.
    rewrite Hheard, (nonempty_received _ Hne), Hgate, Hde. reflexivity. }
  rewrite Hrecv, Hv, Hty. change (FILE_NAME_ACK =? FILE_NAME_ACK) with true.
  cbn [andb]. exists s1. split; [reflexivity |].
  unfold s1. destruct resend; [by right | by left].
Qed.

(** What [handle_packet] does with a FIN. *)
Lemma fin_is_answered p (r : Receiver.t) :
  type (header p) = FIN ->
  let r1 := Receiver.handle_packet p r in
  Receiver.state r1 = CLOSED /\
  Receiver.output_file r1 = Receiver.output_file r ++ [Receiver.SinkClose] /\
  Receiver.sent r1 =
    Receiver.sent r
    ++ [(Receiver.sender_addr r,
         Receiver.seal
           (Receiver.control_packet FIN_ACK 0 (add32 (seq_num (header p)) 1)))].
Proof.
  intros Hty r1.
  assert (Hr1 : r1 = Receiver.handle_fin p r).
  { unfold r1, Receiver.handle_packet. rewrite Hty. reflexivity. }
  rewrite Hr1. split; [reflexivity |]. split; reflexivity.
Qed.

(** [disconnect] when the first datagram it reads is a valid FIN_ACK. *)
Lemma disconnect_answered (server : Endpoint) buffer reply start tick later
    (s : Sender.t) (h : Sender.Handshakes) :
  (Sender.server_locked s = true -> Sender.server_addr s = server) ->
  Sender.heard tick = Some (server, buffer) -> buffer <> [] ->
  deserialize buffer = Some reply ->
  pkt_type reply = FIN_ACK -> verify_checksum reply = true ->
  exists s' h',
    Sender.disconnect start (tick :: later) s h
      = Sender.Disconnected s' h' later /\
    Sender.state s' = CLOSED /\
    exists m, Sender.sent s' =
                Sender.sent s
                ++ replicate m (Sender.fin_of (Sender.fin_packet h)
                                  (Sender.next_seq_num s)) /\
              (1 <= m <= 2)%nat.
Proof.
  intros Hserver Hheard Hne Hde Hty Hv.
  unfold Sender.disconnect.
  set (fin := Sender.fin_of (Sender.fin_packet h) (Sender.next_seq_num s)).
  set (s0 := Sender.set_state FIN_WAIT (Sender.send_packet fin s)).
  set (h0 := Sender.mkHandshakes _ _ fin start _ 0).
  cbn [Sender.disconnect_loop]. change (5 <=? Sender.fin_retries h0) with false.
  cbv iota.
  set (resend := TIMEOUT_MS <? Sender.now tick - Sender.fin_send_time h0).
  set (s1 := if resend then Sender.send_packet (Sender.fin_packet h0) s0 else s0).
  set (h1 := if resend then Sender.resend_fin (Sender.now tick) h0 else h0).
  assert (Hpair : (if resend
                   then (Sender.send_packet (Sender.fin_packet h0) s0,
                         Sender.resend_fin (Sender.now tick) h0)
                   else (s0, h0)) = (s1, h1))
    by (unfold s1, h1; by destruct resend).
  rewrite Hpair.
  assert (Hgate : Sender.server_locked s1
                  && negb (same_endpoint server (Sender.server_addr s1)) = false).
  { assert (Hsame : Sender.server_locked s1 = Sender.server_locked s /\
                    Sender.server_addr s1 = Sender.server_addr s)
      by (unfold s1; by destruct resend).
    destruct Hsame as [-> ->].
    destruct (Sender.server_locked s); [| reflexivity].
    rewrite Hserver by reflexivity. unfold same_endpoint.
    by rewrite !Z.eqb_refl. }
  assert (Hrecv : Sender.receive_packet (Sender.heard tick) s1 = Some (Some reply)).
  { unfold Sender.receive_packet.
    rewrite Hheard, (nonempty_received _ Hne), Hgate, Hde. reflexivity. }
  rewrite Hrecv, Hv, Hty. change (FIN_ACK =? FIN_ACK) with true. cbn [andb].
  exists (Sender.set_state CLOSED s1), h1.
  split; [reflexivity |]. split; [reflexivity |].
  unfold s1. destruct resend.
  - exists 2%nat. split; [| lia].
    cbn [Sender.set_state Sender.send_packet Sender.sent s0 h0 Sender.fin_packet
         replicate].
    rewrite <- app_assoc. reflexivity.
  - exists 1%nat. split; [reflexivity | lia].
Qed.

(** What the [handle_packet] of the earlier text does with a SYN: it
    enters [ESTABLISHED] at once. *)
Lemma syn_is_answered_old client p (r : Receiver.t) :
  type (header p) = SYN -> accepted_from client r ->
  let r1 := Receiver.handle_packet_old p (received_from client r) in
  Receiver.state r1 = ESTABLISHED /\
  Receiver.expected_seq r1 = add32 (seq_num (header p)) 1 /\
  Receiver.sent r1 =
    Receiver.sent r
    ++ [(client, Receiver.seal_old
                   (Receiver.control_packet SYN_ACK 0 (add32 (seq_num (header p)) 1)))] /\
  accepted_from client r1.
Proof.
  intros Hty Haccept r1.
  assert (Hr1 : r1 = Receiver.handle_syn_old p (received_from client r)).
  { unfold r1, Receiver.handle_packet_old. by rewrite Hty. }
  rewrite Hr1. clear r1 Hr1. unfold Receiver.handle_syn_old.
  set (synack := Receiver.seal_old _).
  assert (Hown : same_endpoint client client = true).
  { unfold same_endpoint. by rewrite !Z.eqb_refl. }
  destruct (Receiver.client_locked (received_from client r)) eqn:Hl.
  - split; [reflexivity |]. split; [reflexivity |]. split; [reflexivity |].
    destruct Haccept as [Hfree | Hsame]; [| right; exact Hsame].
    cbn in Hl. congruence.
  - split; [reflexivity |]. split; [reflexivity |]. split; [reflexivity |].
    right. exact Hown.
Qed.

End Answers.

Section Handshake.
#[local] Existing Instance protocol_v2.
#[local] Existing Instance sender_v1.

(** The member packets of a freshly constructed [Sender] are of this
    kind. *)
Definition unused_member (member : Packet) : Prop :=
  well_formed member /\ checksum (header member) = 0 /\
  sack_blocks member = [].

Lemma syn_of_on_wire member sq :
  unused_member member -> 0 <= sq < 2 ^ 32 ->
  let syn := Sender.syn_of member sq in
  deserialize (serialize syn) = Some (pad_payload syn) /\
  verify_checksum_v2 (pad_payload syn) = true /\
  type (header (pad_payload syn)) = SYN /\
  seq_num (header (pad_payload syn)) = sq.
Proof.
  intros (((Hh & Hlen & Hb & Hs) & Hdl & Hcount) & Hck & Hsacks) Hsq syn.
  set (p := mkPacket
              (mkHeader SYN (flags (header member)) (checksum (header member)) sq
                 (ack_num (header member)) (window_size (header member)) 0
                 (sack_count (header member)))
              (data member) (sack_blocks member)).
  change syn with (seal_v2 p).
  assert (Hwf : well_formed p).
  { unfold well_formed, packet_wf, header_wf in *.
    cbn [p header data sack_blocks type flags checksum seq_num ack_num
         window_size data_length sack_count].
    unfold SYN, MAX_DATA_SIZE in *. split_and!; try done; try lia. }
  assert (Hfit : fits_datagram p).
  { unfold fits_datagram, serialize, payload, MAX_DATAGRAM.
    cbn [p header data sack_blocks data_length]. rewrite Hsacks.
    change (Z.to_nat 0) with 0%nat. rewrite take_0.
    rewrite !length_app, header_bytes_length. cbn [map concat length]. lia. }
  destruct (sealed_on_wire p Hwf Hfit Hck) as [Hde Hv].
  split; [exact Hde |]. split; [exact Hv |]. split; reflexivity.
Qed.

Lemma reply_on_wire ty ak :
  0 <= ty < 2 ^ 8 ->
  let reply := Receiver.seal (Receiver.control_packet ty 0 (add32 ak 1)) in
  deserialize (serialize reply) = Some (pad_payload reply) /\
  verify_checksum_v2 (pad_payload reply) = true.
Proof.
  intros Hty reply.
  destruct (control_packet_shape ty (add32 ak 1) Hty (add32_range _ _))
    as (Hwf & Hfit & Hck).
  exact (sealed_on_wire _ Hwf Hfit Hck).
Qed.

Lemma handshake_ack_on_wire sq recv_packet :
  let ack3 := Sender.handshake_ack sq recv_packet in
  deserialize (serialize ack3) = Some (pad_payload ack3) /\
  verify_checksum_v2 (pad_payload ack3) = true /\
  type (header (pad_payload ack3)) = ACK /\
  ack_num (header (pad_payload ack3)) = add32 (pkt_seq recv_packet) 1.
Proof.
  intros ack3.
  set (p := mkPacket
              (mkHeader ACK 0 0 (add32 sq 1) (add32 (pkt_seq recv_packet) 1) 0 0 0)
              (data empty_packet) []).
  change ack3 with (seal_v2 p).
  destruct empty_data_bytes as [Hlen Hb].
  pose proof (add32_range sq 1). pose proof (add32_range (pkt_seq recv_packet) 1).
  assert (Hwf : well_formed p).
  { unfold well_formed, packet_wf, header_wf.
    cbn [p header data sack_blocks type flags checksum seq_num ack_num
         window_size data_length sack_count length].
    unfold ACK, MAX_DATA_SIZE in *. split_and!; try done; try lia. }
  assert (Hfit : fits_datagram p).
  { unfold fits_datagram, serialize, payload, MAX_DATAGRAM.
    cbn [p header data sack_blocks data_length].
    change (Z.to_nat 0) with 0%nat. rewrite take_0.
    rewrite !length_app, header_bytes_length. cbn [map concat length]. lia. }
  destruct (sealed_on_wire p Hwf Hfit eq_refl) as [Hde Hv].
  split; [exact Hde |]. split; [exact Hv |]. split; reflexivity.
Qed.

(** X23. The three-way handshake. The SYN that [connect] (first text)
    sends from an unlocked sender is accepted by a receiver that is not
    locked to another client and answered by a SYN_ACK; on that SYN_ACK
    [connect] returns [true] with the sender in [ESTABLISHED], locked to
    the receiver's address, and its last datagram is an ACK; on that ACK
    the receiver enters [ESTABLISHED] without sending anything, and the
    sequence number it expects is the sender's [base] and
    [next_seq_num], the sequence number of the first DATA packet. *)
Theorem three_way_handshake (client server : Endpoint) (start : Z)
    (tick : Sender.Tick) (later : list Sender.Tick)
    (s : Sender.t) (h : Sender.Handshakes) (r : Receiver.t) :
  0 <= Sender.seq_num s < 2 ^ 32 ->
  Sender.server_locked s = false ->
  unused_member (Sender.syn_packet h) ->
  accepted_from client r ->
  let syn := Sender.syn_of (Sender.syn_packet h) (Sender.seq_num s) in
  exists r1 synack,
    Receiver.run_iteration (Some (client, serialize syn)) r = Some (r1, false) /\
    Receiver.sent r1 = Receiver.sent r ++ [(client, synack)] /\
    Receiver.state r1 = SYN_RECEIVED /\
    (Sender.heard tick = Some (server, serialize synack) ->
     exists s' h' ack3,
       Sender.connect true start (tick :: later) s h
         = Sender.Connected s' h' later /\
       Sender.state s' = ESTABLISHED /\
       Sender.server_locked s' = true /\ Sender.server_addr s' = server /\
       last (Sender.sent s') = Some ack3 /\
       exists r2,
         Receiver.run_iteration (Some (client, serialize ack3)) r1
           = Some (r2, false) /\
         Receiver.state r2 = ESTABLISHED /\
         Receiver.sent r2 = Receiver.sent r1 /\
         Receiver.expected_seq r2 = Sender.base s' /\
         Sender.next_seq_num s' = Sender.base s').
Proof.
  intros Hsq Hunlocked Hmember Haccept syn.
  destruct (syn_of_on_wire _ _ Hmember Hsq) as (Hde & Hv & Hty & Hseq).
  fold syn in Hde, Hv, Hty, Hseq.
  pose proof (accepted_is_handled client (serialize syn) (pad_payload syn) r
                (serialize_nonempty _) Haccept Hde Hv) as Hrun.
  destruct (syn_is_answered client (pad_payload syn) r Hty Haccept)
    as (Hst1 & Hexp1 & Hsent1 & Haccept1).
  set (r1 := Receiver.handle_packet (pad_payload syn) (received_from client r)) in *.
  rewrite Hseq in Hexp1, Hsent1.
  set (synack := Receiver.seal
                   (Receiver.control_packet SYN_ACK 0 (add32 (Sender.seq_num s) 1)))
    in *.
  exists r1, synack.
  split; [rewrite Hrun, Hst1; reflexivity |].
  split; [exact Hsent1 |]. split; [exact Hst1 |].
  intros Hheard.
  destruct (reply_on_wire SYN_ACK (Sender.seq_num s) ltac:(unfold SYN_ACK; lia))
    as [Hde2 Hv2].
  fold synack in Hde2, Hv2.
  destruct (reply_fields SYN_ACK (add32 (Sender.seq_num s) 1))
    as (Hty2 & Hseq2 & _).
  fold synack in Hty2, Hseq2.
  destruct (connect_answered (proto := protocol_v2) (text := sender_v1) true server (serialize synack) (pad_payload synack)
              start tick later s h Hunlocked Hheard (serialize_nonempty _)
              Hde2 Hty2 Hv2)
    as (s' & h' & Hc & Hst & Hlock & Haddr & Hbase & Hnext & m & Hsent' & _).
  assert (Hlast : last (Sender.sent s')
                  = Some (Sender.handshake_ack (Sender.seq_num s)
                            (pad_payload synack)))
    by (rewrite Hsent'; apply last_snoc).
  set (ack3 := Sender.handshake_ack (Sender.seq_num s) (pad_payload synack)) in *.
  destruct (handshake_ack_on_wire (Sender.seq_num s) (pad_payload synack))
    as (Hde3 & Hv3 & Hty3 & Hack3).
  fold ack3 in Hde3, Hv3, Hty3, Hack3.
  rewrite Hseq2 in Hack3. change (add32 0 1) with 1 in Hack3.
  exists s', h', ack3. split; [exact Hc |]. split; [exact Hst |].
  split; [exact Hlock |]. split; [exact Haddr |]. split; [exact Hlast |].
  pose proof (accepted_is_handled client (serialize ack3) (pad_payload ack3) r1
                (serialize_nonempty _) Haccept1 Hde3 Hv3) as Hrun3.
  rewrite (third_ack_establishes (pad_payload ack3) (received_from client r1)
             Hty3 Hack3 Hst1) in Hrun3.
  eexists. split; [exact Hrun3 |].
  split; [reflexivity |]. split; [reflexivity |].
  split; [| congruence].
  cbn [Receiver.set_state Receiver.expected_seq received_from
       Receiver.set_total_packets_received Receiver.set_sender_addr].
  congruence.
Qed.

(** ** The file name *)

(** The text behind the last [/] or [\] of a path. *)
Definition basename_of (filename : list Z) : list Z :=
  match Receiver.split_last is_separator filename with
  | Some (_, b) => b
  | None => filename
  end.

(** [static_cast<uint16_t>(basename.size())], cut to [MAX_DATA_SIZE]. *)
Definition name_length (basename : list Z) : Z :=
  Z.min (Z.of_nat (length basename) mod 2 ^ 16) MAX_DATA_SIZE.

(** The name the receiver opens for a FILE_NAME packet that announces
    [len] bytes of [basename]. *)
Definition opened_for (basename : list Z) (len : Z) : list Z :=
  if 0 <? len then Receiver.output_name (take (Z.to_nat len) basename)
  else [111; 117; 116; 112; 117; 116].

Lemma basename_bytes filename :
  Forall is_byte filename -> Forall is_byte (basename_of filename).
Proof.
  intros Hb. unfold basename_of.
  destruct (Receiver.split_last is_separator filename) as [[a b]|] eqn:Hs;
    [| exact Hb].
  apply split_last_some in Hs as (c & -> & _ & _).
  apply Forall_app in Hb as [_ Hb]. by apply Forall_cons in Hb as [_ Hb].
Qed.

Lemma name_length_range basename :
  0 <= name_length basename <= MAX_DATA_SIZE /\
  name_length basename <= Z.of_nat (length basename) /\
  (Z.of_nat (length basename) <= MAX_DATA_SIZE ->
   name_length basename = Z.of_nat (length basename)).
Proof.
  unfold name_length, MAX_DATA_SIZE.
  pose proof (Z.mod_pos_bound (Z.of_nat (length basename)) (2 ^ 16) ltac:(lia)).
  pose proof (Z.mod_le (Z.of_nat (length basename)) (2 ^ 16) ltac:(lia) ltac:(lia)).
  split; [lia |]. split; [lia |]. intros Hshort.
  rewrite Z.mod_small by lia. lia.
Qed.

(** The packet [main] fills in before the checksum is stored. *)
Definition name_draft (filename : list Z) : Packet :=
  let basename := basename_of filename in
  let len := match basename with [] => 0 | _ => name_length basename end in
  let chunk := take (Z.to_nat len) basename in
  mkPacket (mkHeader FILE_NAME 0 0 0 0 0 len 0)
    (chunk ++ replicate (Z.to_nat MAX_DATA_SIZE - length chunk) 0) [].

Lemma name_packet_draft filename :
  Sender.name_packet filename = seal_v2 (name_draft filename).
Proof. reflexivity. Qed.

Lemma name_draft_shape filename :
  Forall is_byte filename ->
  let basename := basename_of filename in
  let len := data_length (header (name_draft filename)) in
  well_formed (name_draft filename) /\ fits_datagram (name_draft filename) /\
  len = match basename with [] => 0 | _ => name_length basename end /\
  0 <= len <= MAX_DATA_SIZE /\
  payload (name_draft filename) = take (Z.to_nat len) basename.
Proof.
  intros Hb basename len.
  pose proof (basename_bytes filename Hb) as Hbase. fold basename in Hbase.
  set (n := match basename with [] => 0 | _ => name_length basename end).
  assert (Hlen : len = n) by reflexivity.
  assert (Hn : 0 <= n <= MAX_DATA_SIZE /\ n <= Z.of_nat (length basename)).
  { unfold n. destruct basename as [|c rest]; [cbn [length]; unfold MAX_DATA_SIZE; lia |].
    destruct (name_length_range (c :: rest)) as (? & ? & _). lia. }
  set (chunk := take (Z.to_nat n) basename).
  assert (Hchunk : length chunk = Z.to_nat n).
  { unfold chunk. rewrite length_take. lia. }
  assert (Hdata : data (name_draft filename)
                  = chunk ++ replicate (Z.to_nat MAX_DATA_SIZE - length chunk) 0)
    by reflexivity.
  assert (Hpay : payload (name_draft filename) = chunk).
  { unfold payload. fold len. rewrite Hlen, Hdata.
    rewrite take_app_length' by (symmetry; exact Hchunk). reflexivity. }
  split; [| split; [| split; [exact Hlen | split; [lia | by rewrite Hpay, Hlen]]]].
  - unfold well_formed, packet_wf, header_wf. rewrite Hdata.
    change (header (name_draft filename))
      with (mkHeader FILE_NAME 0 0 0 0 0 n 0).
    change (sack_blocks (name_draft filename)) with (@nil SACKBlock).
    cbn [type flags checksum seq_num ack_num window_size data_length sack_count
         length].
    unfold FILE_NAME, MAX_DATA_SIZE in *.
    split; [| split; [lia | reflexivity]].
    split; [lia |]. split.
    { rewrite length_app, length_replicate. lia. }
    split; [| constructor].
    apply Forall_app_2.
    + unfold chunk. by apply Forall_take.
    + apply Forall_replicate. unfold is_byte. lia.
  - unfold fits_datagram, serialize, MAX_DATAGRAM. rewrite Hpay.
    change (sack_blocks (name_draft filename)) with (@nil SACKBlock).
    rewrite !length_app, header_bytes_length, Hchunk. cbn [map concat length].
    unfold MAX_DATA_SIZE in *. lia.
Qed.

(** X24. The file name. The FILE_NAME packet that [main] builds from a
    path carries the text behind the last [/] or [\], cut to
    [static_cast<uint16_t>(size)] and then to [MAX_DATA_SIZE] bytes, all
    of it when it is at most [MAX_DATA_SIZE] bytes long. An established
    receiver accepts the packet, opens the output file named after those
    bytes and answers with a FILE_NAME_ACK, and on that answer
    [wait_for_file_name_ack] returns [true], having retransmitted the
    packet at most once. *)
Theorem file_name_round (client server : Endpoint) (filename : list Z)
    (start : Z) (tick : Sender.Tick) (later : list Sender.Tick)
    (s : Sender.t) (r : Receiver.t) :
  Forall is_byte filename ->
  Receiver.state r = ESTABLISHED -> accepted_from client r ->
  (Sender.server_locked s = true -> Sender.server_addr s = server) ->
  let name_pkt := Sender.name_packet filename in
  let basename := basename_of filename in
  let len := data_length (header name_pkt) in
  len = match basename with [] => 0 | _ => name_length basename end /\
  (Z.of_nat (length basename) <= MAX_DATA_SIZE ->
   payload name_pkt = basename) /\
  exists r1 reply,
    Receiver.run_iteration (Some (client, serialize name_pkt)) r
      = Some (r1, false) /\
    Receiver.state r1 = ESTABLISHED /\
    Receiver.output_file r1 =
      Receiver.output_file r ++ [Receiver.SinkOpen (opened_for basename len)] /\
    Receiver.sent r1 = Receiver.sent r ++ [(client, reply)] /\
    (Sender.heard tick = Some (server, serialize reply) ->
     exists s',
       Sender.wait_for_file_name_ack start name_pkt (tick :: later) s
         = Sender.Acknowledged s' later /\
       (s' = s \/ s' = Sender.send_packet name_pkt s)).
Proof.
  intros Hb Hst Haccept Hserver name_pkt basename len.
  destruct (name_draft_shape filename Hb) as (Hwf & Hfit & Hlen & Hrange & Hpay).
  fold basename in Hlen, Hpay.
  change (data_length (header (name_draft filename))) with len
    in Hlen, Hrange, Hpay.
  assert (Hpay' : payload name_pkt = take (Z.to_nat len) basename) by exact Hpay.
  split; [exact Hlen |]. split.
  { intros Hshort. rewrite Hpay', Hlen.
    destruct basename as [|c rest] eqn:Hbase; [reflexivity |].
    destruct (name_length_range (c :: rest)) as (_ & _ & Hall).
    rewrite Hall by exact Hshort. rewrite Nat2Z.id. apply firstn_all. }
  destruct (sealed_on_wire (name_draft filename) Hwf Hfit eq_refl) as [Hde Hv].
  rewrite <- name_packet_draft in Hde, Hv. fold name_pkt in Hde, Hv.
  pose proof (accepted_is_handled client (serialize name_pkt)
                (pad_payload name_pkt) r (serialize_nonempty _) Haccept Hde Hv)
    as Hrun.
  assert (Hpadded : payload (pad_payload name_pkt) = payload name_pkt).
  { apply payload_pad; [| lia].
    destruct Hwf as ((_ & Hdata & _) & _). exact Hdata. }
  destruct (file_name_is_answered (pad_payload name_pkt) (received_from client r)
              eq_refl Hst Hrange) as (Hst1 & Hfile1 & Hsent1).
  set (r1 := Receiver.handle_packet (pad_payload name_pkt)
               (received_from client r)) in *.
  set (reply := Receiver.seal (Receiver.control_packet FILE_NAME_ACK 0 _)) in *.
  exists r1, reply.
  split; [rewrite Hrun, Hst1; reflexivity |]. split; [exact Hst1 |].
  split.
  { rewrite Hfile1. unfold opened_for. rewrite Hpadded, Hpay'. reflexivity. }
  split; [exact Hsent1 |].
  intros Hheard.
  destruct (reply_on_wire FILE_NAME_ACK (seq_num (header (pad_payload name_pkt)))
              ltac:(unfold FILE_NAME_ACK; lia)) as [Hde2 Hv2].
  fold reply in Hde2, Hv2.
  destruct (reply_fields FILE_NAME_ACK
              (add32 (seq_num (header (pad_payload name_pkt))) 1))
    as (Hty2 & _).
  fold reply in Hty2.
  exact (wait_answered (proto := protocol_v2) server (serialize reply) (pad_payload reply) start
           name_pkt tick later s Hserver Hheard (serialize_nonempty _)
           Hde2 Hty2 Hv2).
Qed.

(** ** Leaving *)

Lemma fin_of_on_wire member sq :
  unused_member member -> 0 <= sq < 2 ^ 32 ->
  let fin := Sender.fin_of member sq in
  deserialize (serialize fin) = Some (pad_payload fin) /\
  verify_checksum_v2 (pad_payload fin) = true /\
  type (header (pad_payload fin)) = FIN /\
  seq_num (header (pad_payload fin)) = sq.
Proof.
  intros (((Hh & Hlen & Hb & Hs) & Hdl & Hcount) & Hck & Hsacks) Hsq fin.
  set (p := mkPacket
              (mkHeader FIN (flags (header member)) (checksum (header member)) sq
                 (ack_num (header member)) (window_size (header member))
                 (data_length (header member)) (sack_count (header member)))
              (data member) (sack_blocks member)).
  change fin with (seal_v2 p).
  assert (Hwf : well_formed p).
  { unfold well_formed, packet_wf, header_wf in *.
    cbn [p header data sack_blocks type flags checksum seq_num ack_num
         window_size data_length sack_count].
    unfold FIN, MAX_DATA_SIZE in *. split_and!; try done; try lia. }
  assert (Hfit : fits_datagram p).
  { unfold fits_datagram, serialize, payload, MAX_DATAGRAM.
    cbn [p header data sack_blocks data_length]. rewrite Hsacks.
    rewrite !length_app, header_bytes_length, length_take. cbn [map concat length].
    unfold MAX_DATA_SIZE in *. lia. }
  destruct (sealed_on_wire p Hwf Hfit Hck) as [Hde Hv].
  split; [exact Hde |]. split; [exact Hv |]. split; reflexivity.
Qed.

(** X25. Closing the connection. The FIN that [disconnect] sends is
    accepted by the receiver in whatever state it is: the receiver
    answers with a FIN_ACK, closes the output file and leaves [run] in
    state [CLOSED]; on that FIN_ACK [disconnect] returns with the sender
    in [CLOSED], having sent the FIN once or twice. *)
Theorem connection_is_closed (client server : Endpoint) (start : Z)
    (tick : Sender.Tick) (later : list Sender.Tick)
    (s : Sender.t) (h : Sender.Handshakes) (r : Receiver.t) :
  0 <= Sender.next_seq_num s < 2 ^ 32 ->
  unused_member (Sender.fin_packet h) ->
  accepted_from client r ->
  (Sender.server_locked s = true -> Sender.server_addr s = server) ->
  let fin := Sender.fin_of (Sender.fin_packet h) (Sender.next_seq_num s) in
  exists r1 reply,
    Receiver.run_iteration (Some (client, serialize fin)) r = Some (r1, true) /\
    Receiver.state r1 = CLOSED /\
    Receiver.output_file r1 = Receiver.output_file r ++ [Receiver.SinkClose] /\
    Receiver.sent r1 = Receiver.sent r ++ [(client, reply)] /\
    (Sender.heard tick = Some (server, serialize reply) ->
     exists s' h',
       Sender.disconnect start (tick :: later) s h
         = Sender.Disconnected s' h' later /\
       Sender.state s' = CLOSED /\
       exists m, Sender.sent s' = Sender.sent s ++ replicate m fin /\
                 (1 <= m <= 2)%nat).
Proof.
  intros Hsq Hmember Haccept Hserver fin.
  destruct (fin_of_on_wire _ _ Hmember Hsq) as (Hde & Hv & Hty & Hseq).
  fold fin in Hde, Hv, Hty, Hseq.
  pose proof (accepted_is_handled client (serialize fin) (pad_payload fin) r
                (serialize_nonempty _) Haccept Hde Hv) as Hrun.
  destruct (fin_is_answered (pad_payload fin) (received_from client r) Hty)
    as (Hst1 & Hfile1 & Hsent1).
  set (r1 := Receiver.handle_packet (pad_payload fin) (received_from client r)) in *.
  set (reply := Receiver.seal (Receiver.control_packet FIN_ACK 0 _)) in *.
  exists r1, reply.
  split; [rewrite Hrun, Hst1; reflexivity |]. split; [exact Hst1 |].
  split; [exact Hfile1 |]. split; [exact Hsent1 |].
  intros Hheard.
  destruct (reply_on_wire FIN_ACK (seq_num (header (pad_payload fin)))
              ltac:(unfold FIN_ACK; lia)) as [Hde2 Hv2].
  fold reply in Hde2, Hv2.
  destruct (reply_fields FIN_ACK (add32 (seq_num (header (pad_payload fin))) 1))
    as (Hty2 & _).
  fold reply in Hty2.
  exact (disconnect_answered (proto := protocol_v2) (text := sender_v1) server (serialize reply) (pad_payload reply) start
           tick later s h Hserver Hheard (serialize_nonempty _) Hde2 Hty2 Hv2).
Qed.

End Handshake.

(** ** The earlier texts together

    [part_001] and the second text of [sender.cpp] store
    [calculate_checksum()] as it is; they are built with the first text
    of [protocol.h]. *)

Section EarlierHandshake.
#[local] Existing Instance protocol_v1.
#[local] Existing Instance sender_v2.

Lemma sealed_on_wire_v1 q :
  well_formed q ->
  deserialize (serialize (seal_v1 q)) = Some (pad_payload (seal_v1 q)) /\
  verify_checksum_v1 (pad_payload (seal_v1 q)) = true.
Proof.
  intros Hwf. split; [| by apply verify_v1_sealed].
  apply deserialize_serialize.
  apply set_checksum_well_formed; [apply complement16_range | assumption].
Qed.

Lemma syn_of_on_wire_v1 member sq :
  well_formed member -> 0 <= sq < 2 ^ 32 ->
  let syn := Sender.syn_of member sq in
  deserialize (serialize syn) = Some (pad_payload syn) /\
  verify_checksum_v1 (pad_payload syn) = true /\
  type (header (pad_payload syn)) = SYN /\
  seq_num (header (pad_payload syn)) = sq.
Proof.
  intros ((Hh & Hlen & Hb & Hs) & Hdl & Hcount) Hsq syn.
  set (p := mkPacket
              (mkHeader SYN (flags (header member)) (checksum (header member)) sq
                 (ack_num (header member)) (window_size (header member)) 0
                 (sack_count (header member)))
              (data member) (sack_blocks member)).
  change syn with (seal_v1 p).
  assert (Hwf : well_formed p).
  { unfold well_formed, packet_wf, header_wf in *.
    cbn [p header data sack_blocks type flags checksum seq_num ack_num
         window_size data_length sack_count].
    unfold SYN, MAX_DATA_SIZE in *. split_and!; try done; try lia. }
  destruct (sealed_on_wire_v1 p Hwf) as [Hde Hv].
  split; [exact Hde |]. split; [exact Hv |]. split; reflexivity.
Qed.

Lemma reply_on_wire_old ty ak :
  0 <= ty < 2 ^ 8 ->
  let reply := Receiver.seal_old (Receiver.control_packet ty 0 (add32 ak 1)) in
  deserialize (serialize reply) = Some (pad_payload reply) /\
  verify_checksum_v1 (pad_payload reply) = true /\
  pkt_type (pad_payload reply) = ty.
Proof.
  intros Hty reply.
  destruct (control_packet_shape ty (add32 ak 1) Hty (add32_range _ _))
    as (Hwf & _ & _).
  destruct (sealed_on_wire_v1 _ Hwf) as [Hde Hv].
  split; [exact Hde |]. split; [exact Hv | reflexivity].
Qed.

(** X26. The handshake of the earlier texts has two steps. The SYN of
    the second text of [connect] is accepted by the receiver of
    [part_001], which answers with a SYN_ACK and is in [ESTABLISHED] at
    once; on that SYN_ACK [connect] returns [true] without sending
    anything more, and the receiver expects the sender's [base], the
    sequence number of the first DATA packet. *)
Theorem two_way_handshake_earlier (client server : Endpoint) (start : Z)
    (tick : Sender.Tick) (later : list Sender.Tick)
    (s : Sender.t) (h : Sender.Handshakes) (r : Receiver.t) :
  0 <= Sender.seq_num s < 2 ^ 32 ->
  Sender.server_locked s = false ->
  well_formed (Sender.syn_packet h) ->
  accepted_from client r ->
  let syn := Sender.syn_of (Sender.syn_packet h) (Sender.seq_num s) in
  exists r1 synack,
    Receiver.run_iteration_old (Some (client, serialize syn)) r
      = Some (r1, false) /\
    Receiver.sent r1 = Receiver.sent r ++ [(client, synack)] /\
    Receiver.state r1 = ESTABLISHED /\
    (Sender.heard tick = Some (server, serialize synack) ->
     exists s' h' m,
       Sender.connect false start (tick :: later) s h
         = Sender.Connected s' h' later /\
       Sender.state s' = ESTABLISHED /\
       Sender.server_locked s' = true /\ Sender.server_addr s' = server /\
       Sender.sent s' = Sender.sent s ++ replicate m syn /\ (1 <= m <= 2)%nat /\
       Receiver.expected_seq r1 = Sender.base s' /\
       Sender.next_seq_num s' = Sender.base s').
Proof.
  intros Hsq Hunlocked Hmember Haccept syn.
  destruct (syn_of_on_wire_v1 _ _ Hmember Hsq) as (Hde & Hv & Hty & Hseq).
  fold syn in Hde, Hv, Hty, Hseq.
  pose proof (accepted_is_handled_old (proto := protocol_v1) client
                (serialize syn) (pad_payload syn) r
                (serialize_nonempty _) Haccept Hde Hv) as Hrun.
  destruct (syn_is_answered_old (proto := protocol_v1) client (pad_payload syn) r
              Hty Haccept) as (Hst1 & Hexp1 & Hsent1 & _).
  set (r1 := Receiver.handle_packet_old (pad_payload syn) (received_from client r))
    in *.
  rewrite Hseq in Hexp1, Hsent1.
  set (synack := Receiver.seal_old
                   (Receiver.control_packet SYN_ACK 0 (add32 (Sender.seq_num s) 1)))
    in *.
  exists r1, synack.
  split; [rewrite Hrun, Hst1; reflexivity |].
  split; [exact Hsent1 |]. split; [exact Hst1 |].
  intros Hheard.
  destruct (reply_on_wire_old SYN_ACK (Sender.seq_num s) ltac:(unfold SYN_ACK; lia))
    as (Hde2 & Hv2 & Hty2).
  fold synack in Hde2, Hv2, Hty2.
  destruct (connect_answered (proto := protocol_v1) (text := sender_v2) false
              server (serialize synack) (pad_payload synack)
              start tick later s h Hunlocked Hheard (serialize_nonempty _)
              Hde2 Hty2 Hv2)
    as (s' & h' & Hc & Hst & Hlock & Haddr & Hbase & Hnext & m & Hsent' & Hm).
  rewrite app_nil_r in Hsent'.
  exists s', h', m. split; [exact Hc |]. split; [exact Hst |].
  split; [exact Hlock |]. split; [exact Haddr |]. split; [exact Hsent' |].
  split; [exact Hm |]. split; congruence.
Qed.

End EarlierHandshake.

(** ** Instances of the theorems above *)

(** An established receiver that expects sequence 7 and has 9 and 10
    in its buffer. *)
Definition gapped_receiver : Receiver.t :=
  @deliver protocol_v2 [data_for 9 66; data_for 10 67] waiting_receiver.

(** A file of one byte, and the sender after the turn in which it is
    sent and acknowledged. *)
Definition one_chunk_file : list Z := [65].
Definition after_only_turn : Sender.t :=
  match @Sender.send_file_iteration protocol_v2 sender_v1 one_chunk_file
          acked_turn connected_sender with
  | Some s => s
  | None => connected_sender
  end.

(** The SYN_ACK of [receiver.cpp] for a SYN with sequence number 0, and
    a handshake in which it is the first datagram the sender reads. *)
Definition syn_ack_packet : Packet :=
  @Receiver.seal protocol_v2 (Receiver.control_packet SYN_ACK 0 1).
Definition answered_tick : Sender.Tick :=
  Sender.mkTick 10 (Some ((2, 9001), serialize syn_ack_packet)).
Definition handshake_result : Sender.ConnectResult :=
  @Sender.connect protocol_v2 sender_v1 true 0 [answered_tick] Sender.init
    Sender.init_handshakes.
Definition established_sender : Sender.t :=
  match handshake_result with
  | Sender.Connected s _ _ => s
  | _ => Sender.init
  end.
Definition handshakes_after : Sender.Handshakes :=
  match handshake_result with
  | Sender.Connected _ h _ => h
  | _ => Sender.init_handshakes
  end.

(** A handshake in which a SYN from another host is read before the
    SYN_ACK of the server. *)
Definition stray_tick : Sender.Tick :=
  Sender.mkTick 10 (Some ((6, 6), serialize syn_packet)).
Definition late_answer : Sender.Tick :=
  Sender.mkTick 20 (Some ((2, 9001), serialize syn_ack_packet)).

(** The path [a/b.txt]. *)
Definition sample_path : list Z := [97; 47; 98; 46; 116; 120; 116].

Section FurtherInstances.
#[local] Existing Instance protocol_v2.
#[local] Existing Instance sender_v1.

Lemma sack_blocks_report_received_witness :
  (forall k, k ∈ Receiver.received_seqs gapped_receiver -> 0 <= k < 2 ^ 32 - 1) /\
  exists ack,
    Receiver.send_ack gapped_receiver = Receiver.send_packet ack gapped_receiver /\
    type (header ack) = ACK /\
    ack_num (header ack) = Receiver.expected_seq gapped_receiver.
Proof.
  assert (H : set_Forall (fun k => 0 <= k < 2 ^ 32 - 1)
                (Receiver.received_seqs gapped_receiver))
    by (apply (bool_decide_unpack _); vm_compute; reflexivity).
  split; [exact H |].
  destruct (sack_blocks_report_received gapped_receiver H)
    as (ack & Hsend & Hty & Hack & _).
  exists ack. split; [exact Hsend | split; [exact Hty | exact Hack]].
Defined.

(** With [0xFFFFFFFF] received, [right = left + 1] wraps and the block
    of [send_ack] is [[0xFFFFFFFF, 0)]. *)
Example send_ack_right_edge_wraps :
  map (fun e : Endpoint * Packet => sack_blocks e.2)
    (Receiver.sent
       (Receiver.send_ack
          (Receiver.mk (1, 9000) ESTABLISHED 7 ∅ {[4294967295]} [] 0 0 true
             (1, 9000) [])))
  = [[mkSack 4294967295 0]].
Proof. vm_compute. reflexivity. Qed.

Lemma receiver_replies_verify_witness :
  Forall bytes_only [Some ((1, 9000), serialize syn_packet)] /\
  match last_state
          (Receiver.run [Some ((1, 9000), serialize syn_packet)] Receiver.init) with
  | Some r =>
      Forall (fun e : Endpoint * Packet => arrives_valid_v2 e.2) (Receiver.sent r)
  | None => True
  end.
Proof.
  assert (H : Forall bytes_only [Some ((1, 9000), serialize syn_packet)]).
  { constructor; [| constructor]. unfold bytes_only.
    apply (bool_decide_unpack _). vm_compute. reflexivity. }
  split; [exact H |].
  destruct (last_state
              (Receiver.run [Some ((1, 9000), serialize syn_packet)] Receiver.init))
    as [r |] eqn:Hlast; [| exact I].
  exact (proj1 (receiver_replies_verify _ H) r Hlast).
Defined.

Lemma locked_receiver_serves_client_witness :
  Receiver.client_locked waiting_receiver = true /\
  Receiver.run_iteration (Some ((6, 6), serialize syn_packet)) waiting_receiver =
    Some (Receiver.set_sender_addr (6, 6) waiting_receiver, false).
Proof.
  split; [reflexivity |].
  exact (proj2 (locked_receiver_serves_client [None] waiting_receiver eq_refl)
           (6, 6) (serialize syn_packet) eq_refl).
Defined.

Lemma cumulative_ack_is_first_gap_witness :
  Forall (fun p => 0 <= seq_num (header p) < 2 ^ 32 - 1) reordered_arrivals /\
  Receiver.expected_seq waiting_receiver
    <= Receiver.expected_seq (deliver reordered_arrivals waiting_receiver).
Proof.
  assert (H : Forall (fun p => 0 <= seq_num (header p) < 2 ^ 32 - 1)
                reordered_arrivals).
  { repeat constructor; cbn; lia. }
  split; [exact H |].
  exact (proj1 (cumulative_ack_is_first_gap waiting_receiver reordered_arrivals
                  eq_refl eq_refl eq_refl H)).
Defined.

Lemma data_packets_carry_file_witness :
  Z.of_nat (length three_chunk_file) + MAX_DATA_SIZE <= 2 ^ 32 /\
  concat (map (fun i => payload (Sender.data_packet three_chunk_file 1 (add32 1 i)))
            (seqZ 0 (Sender.total_packets three_chunk_file)))
  = three_chunk_file.
Proof.
  assert (H : Z.of_nat (length three_chunk_file) + MAX_DATA_SIZE <= 2 ^ 32).
  { vm_compute. intros H; discriminate H. }
  split; [exact H |].
  exact (proj2 (proj2 (data_packets_carry_file three_chunk_file 1 H))).
Defined.

Lemma data_packets_arrive_valid_witness :
  Forall is_byte three_chunk_file /\
  arrives_valid_v2
    (@Sender.data_packet protocol_v2 sender_v1 three_chunk_file 1 (add32 1 2)).
Proof.
  assert (Hb : Forall is_byte three_chunk_file).
  { apply Forall_replicate. unfold is_byte. lia. }
  assert (Hlen : Z.of_nat (length three_chunk_file) + MAX_DATA_SIZE <= 2 ^ 32).
  { vm_compute. intros H; discriminate H. }
  assert (Hi : 0 <= 2 < Sender.total_packets three_chunk_file).
  { vm_compute. split; [intros H; discriminate H | reflexivity]. }
  split; [exact Hb |].
  exact (proj1 (data_packets_arrive_valid three_chunk_file 1 2 Hb Hlen Hi)).
Defined.

Lemma file_reaches_sink_witness :
  Forall (fun i => 0 <= i < Sender.total_packets three_chunk_file) [2; 0; 1; 0] /\
  Receiver.expected_seq
    (deliver (arrivals three_chunk_file 7 [2; 0; 1; 0]) waiting_receiver)
  = 7 + Sender.total_packets three_chunk_file.
Proof.
  assert (Hn : Sender.total_packets three_chunk_file = 3)
    by (vm_compute; reflexivity).
  assert (Hord : Forall (fun i => 0 <= i < Sender.total_packets three_chunk_file)
                   [2; 0; 1; 0]).
  { rewrite Hn. repeat constructor; lia. }
  split; [exact Hord |].
  refine (proj2 (file_reaches_sink (rproto := protocol_v2) (sproto := protocol_v2)
                   (text := sender_v1) three_chunk_file [2; 0; 1; 0]
                   waiting_receiver _ eq_refl eq_refl eq_refl _ _ Hord _)).
  - vm_compute. intros H; discriminate H.
  - cbn. lia.
  - rewrite Hn. cbn. lia.
  - rewrite Hn. intros i Hi.
    assert (Hcases : i = 0 \/ i = 1 \/ i = 2) by lia.
    destruct Hcases as [-> | [-> | ->]]; apply list_elem_of_In; cbn; tauto.
Defined.

Lemma statistics_account_for_traffic_witness :
  flight_inv three_chunk_file connected_sender /\ counted connected_sender /\
  transfer three_chunk_file connected_sender [acked_turn] after_acked_turn /\
  exists more, Sender.sent after_acked_turn = Sender.sent connected_sender ++ more.
Proof.
  assert (Hinv : flight_inv three_chunk_file connected_sender).
  { apply connected_invariants. vm_compute. intros H; discriminate H. }
  assert (Hcount : counted connected_sender).
  { unfold counted. cbn. lia. }
  assert (Hrun : transfer three_chunk_file connected_sender [acked_turn]
                   after_acked_turn).
  { eapply transfer_cons; [| exact I | | apply transfer_nil].
    - vm_compute. reflexivity.
    - vm_compute. reflexivity. }
  split; [exact Hinv |]. split; [exact Hcount |]. split; [exact Hrun |].
  destruct (statistics_account_for_traffic three_chunk_file connected_sender
              after_acked_turn [acked_turn] Hinv Hcount Hrun)
    as (more & retx & Hsent & _).
  exists more. exact Hsent.
Defined.

Lemma transfer_ends_complete_witness :
  honest_transfer one_chunk_file connected_sender [acked_turn] after_only_turn /\
  Sender.send_file_loop one_chunk_file ([acked_turn] ++ []) connected_sender
  = Sender.Done after_only_turn [].
Proof.
  assert (Hinv : window_inv one_chunk_file connected_sender).
  { apply connected_invariants. vm_compute. intros H; discriminate H. }
  assert (Hcount : counted connected_sender).
  { unfold counted. cbn. lia. }
  assert (Hrun : honest_transfer one_chunk_file connected_sender [acked_turn]
                   after_only_turn).
  { eapply transfer_cons; [| | | apply transfer_nil].
    - vm_compute. reflexivity.
    - intros p Hrx _ _. vm_compute in Hrx. injection Hrx as <-.
      vm_compute. intros H; discriminate H.
    - vm_compute. reflexivity. }
  split; [exact Hrun |].
  refine (proj1 (transfer_ends_complete one_chunk_file connected_sender
                   after_only_turn [acked_turn] [] Hinv Hcount eq_refl Hrun _)).
  vm_compute. intros H. discriminate H.
Defined.

Lemma duplicates_before_first_ack_ignored_witness :
  Sender.last_acked connected_sender <> Sender.base connected_sender /\
  Sender.sent
    (foldl (fun s p => Sender.handle_ack p s) connected_sender
       [plain_ack 1; plain_ack 1])
  = Sender.sent connected_sender.
Proof.
  assert (H : Sender.last_acked connected_sender <> Sender.base connected_sender).
  { vm_compute. intros H; discriminate H. }
  split; [exact H |].
  refine (proj1 (duplicates_before_first_ack_ignored connected_sender
                   [plain_ack 1; plain_ack 1] H _)).
  repeat constructor.
Defined.

Lemma connect_success_witness :
  handshake_result = Sender.Connected established_sender handshakes_after [] /\
  Sender.state established_sender = ESTABLISHED.
Proof.
  assert (H : Sender.connect true 0 [answered_tick] Sender.init
                Sender.init_handshakes
              = Sender.Connected established_sender handshakes_after []).
  { vm_compute. reflexivity. }
  split; [exact H |].
  exact (proj1 (connect_success true 0 [answered_tick] Sender.init
                  established_sender Sender.init_handshakes handshakes_after []
                  H)).
Defined.

Lemma connect_locked_to_first_responder_witness :
  (pkt_type (pad_payload syn_packet) =? SYN_ACK)
  && verify_checksum (pad_payload syn_packet) = false /\
  kept_out (6, 6) stray_tick
    (Sender.connect true 0 ([Sender.mkTick 5 None] ++ stray_tick :: [late_answer])
       Sender.init Sender.init_handshakes).
Proof.
  assert (H : (pkt_type (pad_payload syn_packet) =? SYN_ACK)
              && verify_checksum (pad_payload syn_packet) = false).
  { vm_compute. reflexivity. }
  split; [exact H |].
  refine (connect_locked_to_first_responder true 0 [Sender.mkTick 5 None]
            stray_tick [late_answer] Sender.init Sender.init_handshakes (6, 6)
            (serialize syn_packet) (pad_payload syn_packet)
            eq_refl _ eq_refl _ _ H _).
  - constructor; [exact I | constructor].
  - vm_compute. intros Hnil; discriminate Hnil.
  - vm_compute. reflexivity.
  - constructor; [| constructor]. vm_compute. reflexivity.
Defined.

Lemma three_way_handshake_witness :
  unused_member (Sender.syn_packet Sender.init_handshakes) /\
  exists r1 synack,
    Receiver.run_iteration
      (Some ((1, 9000),
             serialize (Sender.syn_of (Sender.syn_packet Sender.init_handshakes)
                          (Sender.seq_num Sender.init))))
      Receiver.init
    = Some (r1, false) /\
    Receiver.sent r1 = Receiver.sent Receiver.init ++ [((1, 9000), synack)] /\
    Receiver.state r1 = SYN_RECEIVED.
Proof.
  assert (Hmember : unused_member (Sender.syn_packet Sender.init_handshakes)).
  { split; [| split; reflexivity].
    apply (bool_decide_unpack _). vm_compute. reflexivity. }
  split; [exact Hmember |].
  destruct (three_way_handshake (1, 9000) (2, 9001) 0 answered_tick []
              Sender.init Sender.init_handshakes Receiver.init
              ltac:(cbn; lia) eq_refl Hmember (or_introl eq_refl))
    as (r1 & synack & Hrun & Hsent & Hst & _).
  exists r1, synack. split; [exact Hrun | split; [exact Hsent | exact Hst]].
Defined.

Lemma file_name_round_witness :
  Forall is_byte sample_path /\
  payload (Sender.name_packet sample_path) = basename_of sample_path.
Proof.
  assert (Hb : Forall is_byte sample_path).
  { apply (bool_decide_unpack _). vm_compute. reflexivity. }
  split; [exact Hb |].
  refine (proj1 (proj2
    (file_name_round (1, 9000) (2, 9001) sample_path 0 answered_tick []
       connected_sender waiting_receiver Hb eq_refl (or_intror eq_refl)
       (fun _ => eq_refl))) _).
  vm_compute. intros H; discriminate H.
Defined.

Lemma connection_is_closed_witness :
  unused_member (Sender.fin_packet Sender.init_handshakes) /\
  exists r1 reply,
    Receiver.run_iteration
      (Some ((1, 9000),
             serialize (Sender.fin_of (Sender.fin_packet Sender.init_handshakes)
                          (Sender.next_seq_num connected_sender))))
      waiting_receiver
    = Some (r1, true) /\
    Receiver.state r1 = CLOSED /\
    Receiver.sent r1 = Receiver.sent waiting_receiver ++ [((1, 9000), reply)].
Proof.
  assert (Hmember : unused_member (Sender.fin_packet Sender.init_handshakes)).
  { split; [| split; reflexivity].
    apply (bool_decide_unpack _). vm_compute. reflexivity. }
  split; [exact Hmember |].
  assert (Hseq : 0 <= Sender.next_seq_num connected_sender < 2 ^ 32).
  { vm_compute. split; [intros H; discriminate H | reflexivity]. }
  destruct (connection_is_closed (1, 9000) (2, 9001) 0 answered_tick []
              connected_sender Sender.init_handshakes waiting_receiver
              Hseq Hmember (or_intror eq_refl) (fun _ => eq_refl))
    as (r1 & reply & Hrun & Hst & _ & Hsent & _).
  exists r1, reply. split; [exact Hrun | split; [exact Hst | exact Hsent]].
Defined.

End FurtherInstances.

Section EarlierInstances.

Lemma two_way_handshake_earlier_witness :
  well_formed (Sender.syn_packet Sender.init_handshakes) /\
  exists r1 synack,
    @Receiver.run_iteration_old protocol_v1
      (Some ((1, 9000),
             serialize (@Sender.syn_of protocol_v1 sender_v2
                          (Sender.syn_packet Sender.init_handshakes)
                          (Sender.seq_num Sender.init))))
      Receiver.init
    = Some (r1, false) /\
    Receiver.sent r1 = Receiver.sent Receiver.init ++ [((1, 9000), synack)] /\
    Receiver.state r1 = ESTABLISHED.
Proof.
  assert (Hmember : well_formed (Sender.syn_packet Sender.init_handshakes)).
  { apply (bool_decide_unpack _). vm_compute. reflexivity. }
  split; [exact Hmember |].
  destruct (two_way_handshake_earlier (1, 9000) (2, 9001) 0 answered_tick []
              Sender.init Sender.init_handshakes Receiver.init
              ltac:(cbn; lia) eq_refl Hmember (or_introl eq_refl))
    as (r1 & synack & Hrun & Hsent & Hst & _).
  exists r1, synack. split; [exact Hrun | split; [exact Hsent | exact Hst]].
Defined.

End EarlierInstances.
